(* ===== verification/_CoqProject ===== *)
-Q . S2P
Prelude.v
RustStr.v
RustNum.v
Float64.v
Utf8.v
Unicode.v
Chars.v
Errors.v
Host.v
Mprintf.v
ValueApi.v
ResultApi.v
Affinity.v
AuxData.v
Coercion.v
Session.v
Json.v
Boundary.v
Casts.v
Body.v
Laws.v
Lifecycle.v
Statement.v
Pipeline.v
Schedule.v
