(* ===== verification/Prelude.v ===== *)
(** * A verification development for the sqlite-loadable [api] layer

    ** The program

    The program (src/src/api.rs) is a marshalling layer between Rust code
    and the C extension interface of SQLite.  It has no state of its own:
    every function either reads a host value handle ([value_*], [Value]),
    writes one result through a host context handle ([result_*]), hands an
    allocation to the host together with the destructor that frees it
    ([result_text], [result_pointer]), asks the host for a formatted string
    ([mprintf]), or classifies a declared column type
    ([ColumnAffinity::from_declared_type]) and stores a text as the number it
    denotes under that affinity ([ColumnAffinity::result_text]).  What makes
    it hard is not the control flow but the boundary: pointers that may be
    null, lengths that change width, buffers owned by one side and freed by
    the other.

    ** The model

    The state is the part of SQLite the layer can see, the record [host] of
    Host.v: the values behind the value handles, the contexts with their
    result, subtype and auxiliary data, the heap of Rust allocations (every
    cell live or freed) and the log of writes.  A Rust function is a
    computation in the monad [exec host] of this file; it returns, panics, or
    has undefined behaviour ([Ret], [Panic], [Undef]); a Rust [Result] is the
    inductive [result], so an error is a value.  Bytes are integers ([list Z]
    for a [&str], a [&[u8]], a C string), machine integers are [Z] with their
    casts written out ([as_i32], [as_u32], [as_usize], [try_into_i32]).
    Every definition is executable: the examples and the witnesses evaluate
    the functions on a host with one context.

    ** The files

    - Prelude.v (this file): [result], [outcome], [exec] with its notations,
      the predicate [reads] of a computation that only looks at the state,
      the integer casts with their lemmas, the tactics and the hint
      databases.
    - RustStr.v, RustNum.v, Utf8.v: the functions of the Rust library the
      layer calls: [str::trim], [str::to_lowercase], [str::contains],
      [CString::new], [CStr::from_ptr]; [str::parse] for [i32], [i64] (the
      checked loop, proved equal to the integer the digits denote) and [f64]
      (the grammar; the value is returned as the decimal literal read); the
      decimal printer of integers [itoa]; the UTF-8 validation of
      [CStr::to_str].
    - Float64.v: the binary64 a decimal literal is rounded to ([binary64_of]:
      round to nearest, ties to even, with subnormals and overflow to
      infinity), on integers only ([scaled], [ulp_exp], [round_even],
      [pack]), as a value of the Standard Library's [spec_float]; [exact]
      says whether the double is the number of the literal.
    - Unicode.v: the reference the validation is measured against: Unicode
      scalar values ([scalar]), the encoder [encode] of a sequence of them
      and the decoder [decode], defined by well-founded recursion on the
      length of the bytes.
    - Chars.v: [str::trim] and [str::to_lowercase] on code points:
      the property White_Space ([is_whitespace]), [trim_chars], and
      lower-casing as a relation ([lowered]) that fixes only what every
      table of Unicode agrees on, ASCII, U+0130 and U+212A.
    - Errors.v: the error values of the layer.
    - Host.v: the host.  [sqlite3ext_value_*] read a value, [set_result] and
      [sqlite3ext_result_*] store a result after letting go of the one the
      context held, [deliver] hands the result of a context on as the value
      of the next call, [finish] ends a call.  The class [HostCoercion] holds
      the conversions SQLite does on its own; the class [Destructors] is what
      the host expects of a destructor it is given.  A NaN written as a
      double is stored as NULL ([value_of_result]).  [host_wf] is the
      invariant of ownership: a pointer the host holds with a destructor of
      the layer is live, of the kind the destructor frees, and held in one
      place; [no_leak] says that every live allocation is so held.  A write
      that involves a destructor is a swap of a slot ([swapped]), and the
      invariant is proved once for all of them.  Only the allocations of
      Rust are counted: a buffer of SQLite's allocator belongs to the caller.
      [sqlite3_mprintf] is the formatted allocator, called without
      arguments; [scan] reads its format, directive by directive.
    - Mprintf.v: [MprintfError] and [mprintf] (lines 95-115).
    - ValueApi.v: [ValueType], [value_type], the accessors [value_text],
      [value_text_notnull], [value_int], [value_int64], [value_double],
      [value_blob], [value_bytes], [value_pointer], and the struct [Value]
      with [from], [at], [notnull_or], [notnull_or_else], [text_or_else]
      (api.rs lines 33-93 and 126-229).
    - ResultApi.v: the destructors [result_text_destructor] and
      [pointer_destroy], which discharge [Destructors], and the setters
      [result_text], [result_int], [result_int64], [result_double],
      [result_blob], [result_null], [result_error], [result_error_code],
      [result_bool], [result_json], [result_subtype], [result_pointer],
      [auxdata_set], [auxdata_get] (lines 231-359).
    - Affinity.v: [ColumnAffinity], [ExtendedColumnAffinity], the two
      classifiers and the method [ColumnAffinity::result_text] (lines
      361-526).  The chain of tests of each classifier (lines 387-414 and
      491-524) is a definition of its own, [rule_on] and [extended_on],
      over the searches it makes.
    - AuxData.v: the theorems about [auxdata_set] and [auxdata_get].
    - Coercion.v: the specification [coerce] of that method and the theorems
      about it.
    - Session.v: the state-changing calls of a function body as a list of
      calls on one context ([call], [run], [steps]): the setters,
      [auxdata_set] with a destructor of the caller, [mprintf].  The abstract
      machine [moved] has one rule per shape of state change (a write of the
      result, a subtype, an auxiliary slot, allocations that are freed
      again), and every call refines one step of it ([run_moved]).
    - Json.v: the values of [serde_json] and their compact text
      ([Json.Value], [Json.to_string]), which instantiate the serializer
      [result_json] is parametric in; the text of a float is the parameter
      of the class [FloatFormat].
    - Boundary.v: setters and accessors composed through [deliver]
      ([then_read]).
    - Casts.v: the conversions SQLite makes when a value is read as another
      type, as an instance of [HostCoercion]: the decimal text of an integer,
      the cast of a text to an integer ([cast_integer]: white space, a sign,
      the longest prefix of digits, the nearest bound outside 64 bits) and
      the truncation of a double ([double_to_integer]); the text of a double
      and the double of a text are the parameters of the class [FloatText].
    - Body.v: a function body as a tree of operations ([body]: [Done], or an
      operation [op] and what to do with its answer), so that what a body
      writes may depend on what it read.  [denote] runs a body, [calls_of] is
      the sequence of state-changing calls of a run, [tame] and [frugal] are
      the static conditions under which every run is defined and loses
      nothing; their guards are checked along the answers the accessors can
      give ([answers]).
    - Laws.v: the equivalence [same] of bodies on the values of a call, with
      its [Proper] instances for [Do] and [seq], so that a part of a body is
      rewritten by an equal part.
    - Lifecycle.v: one call of an application-defined function as a step
      relation [lstep] over the stages [Running], [Returned] and [Idle]: the
      body performs its operations one by one, returns, and the host collects
      the result ([deliver] then [finish]).  [eventually] is the must-reach
      predicate of the liveness theorems.
    - Statement.v: a statement of SQLite as a list of events of the host on
      one context, rows (a body, then the collection of its result under a
      value handle) and discards of a slot of auxiliary data: [serve] runs
      it, [trace] is the sequence of its state-changing calls, and the
      relation [flow] is its abstract view, calls with collections in
      between.  [flow_invariant] is the induction principle: an invariant of
      the calls and of the collections holds along every flow.
    - Pipeline.v: a call inside another, as in f(g(x)) or in a function that
      runs a statement of its own: two contexts of the host, the body of the
      inner call, the delivery of its result as an argument of the outer
      call, the body of the outer call, and the end of both ([nested]).
    - Schedule.v: the general case.  What the host does in the course of an
      expression is a program, a list of [action]s on any number of
      contexts: a call of a body ([Run]), the binding of the result of a
      context to a value handle ([Deliver]), the end of a call ([Finish]),
      the discard of a slot of auxiliary data ([Forget]); [play] runs it.
      An expression ([expr]: a column, or a function applied to
      expressions) is compiled to the program that evaluates its arguments
      first and lets go of their results after the call ([compile],
      [program]); [evaluate] runs the expressions of a statement one after
      the other.

    ** The theorems

    - Classification (Affinity.v): [from_declared_type] is the rule of
      SQLite's documentation on the declared type as written, without regard
      to the case of ASCII letters and with a type of white space counted as
      none; "int" wins over every other keyword; the extended classifier
      agrees with the core one except on types of white space only, and
      never answers Datetime, Date or Time.  On a declared type that is the
      encoding of code points, the answer is the rule applied to any
      lower-casing of the trimmed code points ([from_declared_type_unicode]):
      it does not depend on the tables of Unicode, although the model of
      [to_lowercase] leaves most code points alone.
    - UTF-8 (Unicode.v, Chars.v): [decode] inverts [encode], [encode] is
      injective, and [from_utf8] accepts exactly the encodings of scalar
      values; when it refuses, the position it reports is the length of the
      longest prefix that is a whole encoding ([from_utf8_spec]); [trim] and
      [to_lowercase] on the bytes are [trim_chars] and a lower-casing on the
      code points; a substitution of bytes that is the identity above 0x7F
      keeps a string valid ([is_utf8_flat_map]).
    - Setters (ResultApi.v): the functional behaviour of every setter on
      every branch, errors included; [host_wf] and [no_leak] are kept by
      [result_text] and [result_pointer], whose destructors free the
      allocation once when the host ends the call; [result_error] loses its
      buffer; [result_blob] and [result_error] pass a wrapped length from
      2^31 bytes on.
    - Accessors (ValueApi.v): [value_type] is total on the values of the host
      and never reaches [unreachable!()]; [value_text] returns the text,
      fails on invalid UTF-8, stops at the first nul and is undefined on
      NULL; the [&str] it returns is the encoding of scalar values without
      U+0000, the invariant Rust relies on ([value_text_str]), and the error
      it returns holds the length of the longest valid prefix
      ([value_text_position]); [value_text_notnull] is defined everywhere
      and fails exactly on NULL ([value_text_notnull_spec]); [value_blob] is
      undefined on NULL and on an empty value; [value_int] is [value_int64]
      cast to 32 bits; the guards of [Value].
    - Coercion (Coercion.v): the method refines [coerce]; the tiers (32 bits,
      64 bits, double, text) in terms of the integer the text denotes; the
      call always returns on a well-formed state, keeps the invariant, writes
      once on success and fails exactly through the text setter; an integer
      printed with [itoa] is stored as that integer; an integer beyond 64
      bits is stored as its text under Integer, and under Numeric as a double
      that is the integer only when its low bits are zero
      ([result_text_big_integer]), and a decimal whose digits are not a
      multiple of five is never stored exactly
      ([result_text_decimal_inexact]).
    - Doubles (Float64.v): the rounding yields a valid binary64
      ([nearest_valid]) within half a unit in the last place of the number
      ([rounded_error]), and is exact when the number is representable
      ([nearest_exact]); an integer is exact iff its bits below the 53
      leading ones are zero ([integer_exact_iff]); a decimal is inexact
      unless its digits are a multiple of five ([decimal_inexact]).  The
      rounding agrees with [binary_normalize] and [SFdiv] of the Standard
      Library on the samples of [Float64Examples].
    - Sequences of calls (Session.v): along every sequence of calls the
      state stays well-formed and the result of the context is the last one
      written; a sequence without [result_error] loses nothing however often
      it overwrites the result; after a [result_error] an allocation is lost
      for good, and a sequence loses exactly as many allocations as it makes
      such calls ([steps_leak_count], through the ledger invariant
      [accounted]); every sequence of safe calls runs to its end; a slot of
      auxiliary data holds the pointer of the last [auxdata_set] on it
      ([steps_aux]).  All of it rests on one refinement: every call of the
      layer that returns is one step of the machine [moved], lossy for
      [result_error] alone ([call_refines]).
    - Bodies (Body.v): the accessors change nothing ([readers_pure], by the
      way the host is modelled: see the limits below); every run of a body
      is the run of the calls it makes ([body_refines]), so the
      theorems of Session.v hold of bodies that read and decide
      ([body_good], [body_no_leak]); a tame body runs to its end whatever
      the values are ([body_total]); the guard of [value_text] the
      documentation asks for makes the read tame, and the read without it is
      not; the idiom of [Value] for a text argument, [at] then [notnull_or]
      then [text_or_else], is defined on every argument, with what it
      returns on every branch ([text_arg_spec]).
    - Laws (Laws.v): sequencing is associative with [Done] as unit; a tame
      read whose answer is unused can be dropped, a read made twice is the
      read made once, two tame reads commute; [value_text_notnull] is the
      check of [value_type] followed by [value_text]
      ([value_text_notnull_guard]), and the idiom of [Value] agrees with it
      ([text_arg_plain_agrees]).
    - Calls (Lifecycle.v): the invariant holds in every reachable state of a
      call; every call of a tame body completes ([call_completes]) and, when
      the body is frugal, ends with everything it allocated freed
      ([call_reclaims]); a call that makes a [result_error] ends with an
      allocation nothing will free ([call_leaks]).
    - Statements (Statement.v): every statement is a flow
      ([statement_refines]); a statement of tame rows runs to its end
      whatever the host discards ([statement_total]) and, when the rows are
      frugal, ends with nothing lost and everything it allocated freed
      ([statement_reclaims]); it loses exactly one buffer per accepted
      [result_error], so the loss grows with the rows
      ([statement_leak_count], [statement_leak_linear]); after it a slot of
      auxiliary data holds the pointer of the last [auxdata_set] on it, or
      NULL if the host has discarded it since ([statement_cache]).
    - JSON (Json.v): the text of a JSON value holds no nul byte, so
      [result_json] fails only on a text of 2^31 bytes or more, and otherwise
      writes the text and the subtype 74; the text of a value whose strings
      are valid UTF-8 is valid UTF-8 ([to_string_utf8]).
    - Round trips (Boundary.v): text (every sequence of scalar values
      without U+0000 whose encoding is shorter than 2^31 bytes), integers,
      doubles, blobs, NULL, booleans, JSON values and named pointers are read
      as they were written; a pointer that is reclaimed is freed twice; a
      NaN is read as NULL ([nan_roundtrip]), and so is the text 'nan' stored
      under the Real or the Numeric affinity, on which [value_text] is then
      undefined ([affinity_nan_unreadable]).
    - Casts (Casts.v): on every text [parse::<i64>] accepts the cast of
      SQLite is the number parsed ([parse_i64_cast]), so a text read as an
      integer and an integer read as a text come back
      ([text_integer_roundtrip], [integer_text_roundtrip]); a reader of
      integers gets the same number whether a text was stored through an
      affinity or as it is, unless a double was emitted
      ([affinity_int64_reader], [real_affinity_visible]); the casts stay
      within 64 bits ([cast_integer_range], [double_to_integer_range]).
    - Nested calls (Pipeline.v): the bodies of two calls on two contexts do
      not disturb each other ([denote_frame]); when both are tame the pair
      runs to its end ([nested_total]), the outer call reads the text the
      inner one wrote ([nested_text]), and when both are frugal everything
      either allocated is freed once both have ended ([nested_reclaims]).
    - Expressions (Schedule.v): every action keeps the invariant [tidy] of a
      program in progress, which says which contexts may hold a result and
      which handles are bound; a program of tame bodies runs to its end
      ([schedule_total]); a program of tame and frugal bodies that lets go
      of every result it makes ends with nothing lost and everything it
      allocated freed ([schedule_reclaims]); the program of an expression is
      such a program ([programs_settled]), so the evaluation of expressions
      of any depth and arity gives back what it takes
      ([evaluate_reclaims]); the nested call of Pipeline.v is the program of
      [g(f())] ([nested_play]), and a statement of Statement.v is the
      program of its events ([serve_play]).
    - Auxiliary data (AuxData.v): a slot returns what was stored in it; the
      pointer it held is released through its destructor; the invariant is
      kept.
    - Formatted strings (Mprintf.v): a string without a percent sign comes
      back in a buffer of the host; the C string made for the call is freed
      on every path; the string is the format, so two percent signs come
      back as one ([format_percent]), a directive that reads an argument
      makes the call undefined, since none is passed ([format_reads],
      [mprintf_directive]), and a percent sign before a character that
      begins no directive ends the output ([mprintf_stops]).

    ** Bounds and limits

    Every recursion is structural on the bytes, on the list of calls or on
    the tree of a body, with two exceptions.  The printer [RustNum.decimal]
    takes a fuel of 20, the number of decimal digits of 2^64, and
    [int_value_itoa] proves that it is enough for every integer of absolute
    value below 10^20, hence for every [i64].  The decoder [Unicode.decode]
    recurses on the bytes left after a code point, which are fewer
    ([next_code_point_shorter]); it is defined with Equations by
    well-founded recursion on the length, so it is total and needs no fuel.
    The rounding of Float64.v works on unbounded integers, so every literal
    is covered, whatever its number of digits and its exponent; the examples
    keep to exponents [vm_compute] evaluates at once.  A body is a finite tree, so
    [denote] needs no fuel and the liveness theorems are proved by induction
    on the body; a function that loops without bound has no such tree and is
    outside the development.  A statement is a finite list of events on one
    context; the handles under which the host binds the results of the rows
    are taken fresh, so that the arguments of a row are not overwritten.  Lengths are exact integers, so the theorems
    about 2^31 bytes and more are stated for all lists of that length and
    witnessed with [repeat].  Not modelled:
    what a directive of [sqlite3_mprintf] prints for an argument, since the
    layer passes none (the format itself is scanned as SQLite scans it, and
    [sqlite_oom] stands for every reason SQLite has to return no buffer, its
    limit on the length of the output included); the text SQLite prints for a double
    and the double it reads from a text (the parameters of [FloatText]: the
    documentation of SQLite fixes them to about 15 significant digits only,
    so no definition of them could be held against it);
    the tables of Unicode for the
    lower-casing of code points other than ASCII, U+0130 and U+212A (the
    function on bytes leaves them alone, and the theorems of Chars.v and
    Affinity.v hold of every table, through the relation [lowered]); of
    [serde_json], the text of a float (the parameter [FloatFormat], required
    to be ASCII without a nul byte) and the order in which a map yields its
    members; the wrapper of the crate that turns an [Err] returned by a
    function into an error result, which is outside src/; the conversion
    SQLite makes in place when a value is read as another type (an accessor
    is a pure read of the value, so the type of a value does not change
    after [value_text]); the borrow of the host's buffer by the results of
    [value_text] and [value_blob], whose lifetime the code leaves unbounded
    (a value is its content here, so a use after the host has freed the
    buffer cannot be stated); functions that call back into SQLite while
    they run, since a body is a tree of operations of the layer only;
    threads, since the layer is called synchronously.  The host, the Rust library and
    [serde_json] are modelled from their documentation, their code being
    outside the repository.  Every line of code of api.rs is modelled; only
    its comments, its imports and its blank lines have no counterpart. *)

From Stdlib Require Import ZArith Lia List String Ascii.
From stdpp Require Import base tactics option list.

#[local] Open Scope Z_scope.

Declare Scope rs_scope.
Delimit Scope rs_scope with rs.

(** ** Rust's [Result<T, E>] *)

Inductive result (T E : Type) : Type :=
| Ok (t : T)
| Err (e : E).

Arguments Ok {T E} t.
Arguments Err {T E} e.

Definition is_ok {T E} (r : result T E) : bool :=
  match r with Ok _ => true | Err _ => false end.

Definition map_err {T E F} (f : E -> F) (r : result T E) : result T F :=
  match r with Ok t => Ok t | Err e => Err (f e) end.

(** ** Outcomes and the [exec] monad

    A Rust call returns, panics ([unreachable!], an overflow check), or has
    undefined behaviour (a read through a null or dangling pointer, a double
    free).  The last two are kept apart from [Err]: they are not values the
    caller can match on. *)

Inductive outcome (A : Type) : Type :=
| Ret (a : A)
| Panic
| Undef.

Arguments Ret {A} a.
Arguments Panic {A}.
Arguments Undef {A}.

Definition exec (St A : Type) : Type := St -> outcome (A * St).

Definition ret {St A} (a : A) : exec St A := fun s => Ret (a, s).

Definition bind {St A B} (m : exec St A) (k : A -> exec St B) : exec St B :=
  fun s => match m s with
           | Ret (a, s') => k a s'
           | Panic => Panic
           | Undef => Undef
           end.

Definition get {St} : exec St St := fun s => Ret (s, s).
Definition put {St} (s : St) : exec St unit := fun _ => Ret (tt, s).
Definition modify {St} (f : St -> St) : exec St unit := fun s => Ret (tt, f s).
Definition panic {St A} : exec St A := fun _ => Panic.
Definition undef {St A} : exec St A := fun _ => Undef.

(** [lift_opt o]: a host read that is undefined when [o] is [None]. *)
Definition lift_opt {St A} (o : option A) : exec St A :=
  match o with Some a => ret a | None => undef end.

(** [reads m]: [m] only reads the state; when it returns, the state is as it
    was. *)
Definition reads {St A} (m : exec St A) : Prop :=
  forall s a s', m s = Ret (a, s') -> s' = s.

Notation "'let!' x ':=' c1 'in' c2" := (bind c1 (fun x => c2))
  (at level 10, x name, c1 at level 100, c2 at level 200) : rs_scope.
Notation "c1 ';;' c2" := (bind c1 (fun _ => c2))
  (at level 100, c2 at level 200, right associativity) : rs_scope.

(** Rust's [?] on a [Result] inside a function that returns one. *)
Notation "'let?' x ':=' c1 'in' c2" :=
  (bind c1 (fun r => match r with Ok x => c2 | Err e => ret (Err e) end))
  (at level 10, x name, c1 at level 100, c2 at level 200) : rs_scope.

(** ** Machine integers

    [i32], [i64], [c_int] and [usize] values are integers of [Z]; a cast or a
    checked conversion is written out where the source has one. *)

Definition i32_min : Z := -2147483648.
Definition i32_max : Z := 2147483647.
Definition i64_min : Z := -9223372036854775808.
Definition i64_max : Z := 9223372036854775807.
Definition usize_max : Z := 18446744073709551615.

Definition in_i32 (z : Z) : bool := (i32_min <=? z) && (z <=? i32_max).
Definition in_i64 (z : Z) : bool := (i64_min <=? z) && (z <=? i64_max).
Definition in_usize (z : Z) : bool := (0 <=? z) && (z <=? usize_max).

(** [x as i32] for an integer [x] of any width: the low 32 bits, signed. *)
Definition as_i32 (z : Z) : Z := (z + 2147483648) mod 4294967296 - 2147483648.

(** [x as u32] for an [i32] [x]: the low 32 bits, unsigned. *)
Definition as_u32 (z : Z) : Z := z mod 4294967296.

(** [x as usize] for a signed [x]: the low 64 bits, unsigned. *)
Definition as_usize (z : Z) : Z := z mod 18446744073709551616.

(** [i32::try_from(x)] for a [usize] [x]. *)
Definition try_into_i32 (z : Z) : option Z :=
  if in_i32 z then Some z else None.

(** ** String literals as bytes *)

Definition lit (s : string) : list Z :=
  map (fun a => Z.of_N (N_of_ascii a)) (list_ascii_of_string s).

(** ** Tactics and hints *)

Create HintDb rs discriminated.
Create Rewrite HintDb rs_rw.
Create HintDb reads discriminated.

(** The database [rs] holds the equations of the calls that return (an
    allocation, a read of a live cell, a write on a well-formed state) and
    the lemmas that keep the invariants; [rs_rw] holds the rewrite rules that
    simplify the argument of a call; [reads] holds the computations that
    only read the state. *)

(** Case analysis on the first [if] of the goal. *)
Ltac split_if :=
  match goal with
  | |- context [if ?b then _ else _] => destruct b eqn:?
  end.

(** Case analysis on the first comparison of integers of the goal, with the
    equation or the disequation it stands for. *)
Ltac split_eqb :=
  match goal with
  | |- context [?a =? ?b] => destruct (Z.eqb_spec a b)
  end.

(** ** The monad laws, and one step of a run *)

Section Monad.
Context {St A B C : Type}.

Lemma bind_ret_l (a : A) (k : A -> exec St B) (s : St) :
  bind (ret a) k s = k a s.
Proof. reflexivity. Qed.

Lemma bind_ret_r (m : exec St A) (s : St) : bind m ret s = m s.
Proof. unfold bind, ret. destruct (m s) as [[a s']| |]; reflexivity. Qed.

Lemma bind_assoc (m : exec St A) (k : A -> exec St B) (h : B -> exec St C) (s : St) :
  bind (bind m k) h s = bind m (fun a => bind (k a) h) s.
Proof. unfold bind. destruct (m s) as [[a s']| |]; reflexivity. Qed.

(** A run whose first computation returns goes on with the rest. *)
Lemma bind_step (m : exec St A) (k : A -> exec St B) (s : St) (a : A) (s1 : St) :
  m s = Ret (a, s1) -> bind m k s = k a s1.
Proof. intros H. unfold bind. rewrite H. reflexivity. Qed.

Lemma bind_lift_opt (x : A) (k : A -> exec St B) (s : St) :
  bind (lift_opt (Some x)) k s = k x s.
Proof. reflexivity. Qed.

Lemma bind_Ret (m : exec St A) (k : A -> exec St B) (s : St) (b : B) (s2 : St) :
  bind m k s = Ret (b, s2) <->
  exists a s1, m s = Ret (a, s1) /\ k a s1 = Ret (b, s2).
Proof.
  unfold bind. destruct (m s) as [[a s']| |]; split.
  - eauto.
  - intros (a' & s1 & [= -> ->] & H). exact H.
  - discriminate.
  - intros (? & ? & [=] & _).
  - discriminate.
  - intros (? & ? & [=] & _).
Qed.

End Monad.

(** ** Computations that only read *)

Section Reads.
Context {St A B : Type}.

Lemma reads_ret (a : A) : reads (@ret St A a).
Proof. intros s a' s' [= _ <-]. reflexivity. Qed.

Lemma reads_bind (m : exec St A) (k : A -> exec St B) :
  reads m -> (forall a, reads (k a)) -> reads (bind m k).
Proof.
  intros Hm Hk s b s2 (a & s1 & H1 & H2)%bind_Ret.
  rewrite <- (Hm s a s1 H1). exact (Hk a s1 b s2 H2).
Qed.

Lemma reads_lift_opt (o : option A) : reads (@lift_opt St A o).
Proof. destruct o; [apply reads_ret | discriminate]. Qed.

Lemma reads_panic : reads (@panic St A).
Proof. discriminate. Qed.

Lemma reads_undef : reads (@undef St A).
Proof. discriminate. Qed.

End Reads.

#[export] Hint Resolve reads_ret reads_lift_opt reads_panic reads_undef : reads.

(** [solve_reads] proves that a computation only reads: it goes through the
    binds and the case distinctions down to the computations of [reads]. *)
Ltac solve_reads :=
  repeat first
    [ progress intros
    | apply reads_bind
    | solve [eauto with reads nocore]
    | match goal with
      | |- reads (match ?x with _ => _ end) => destruct x
      end ].

(** [step] runs the computation at the head of the goal: its argument is
    simplified with [rs_rw], and its result comes from a monad law or from an
    equation of [rs]. *)
Ltac step :=
  autorewrite with rs_rw;
  first [ rewrite bind_ret_l
        | rewrite bind_lift_opt
        | erewrite bind_step by (eauto with rs nocore) ];
  cbv beta iota.

(** ** Lemmas on machine integers *)

Lemma in_i32_spec z : in_i32 z = true <-> i32_min <= z <= i32_max.
Proof. unfold in_i32. lia. Qed.

Lemma in_i64_spec z : in_i64 z = true <-> i64_min <= z <= i64_max.
Proof. unfold in_i64. lia. Qed.

Lemma in_i32_in_i64 z : in_i32 z = true -> in_i64 z = true.
Proof. unfold in_i32, in_i64, i32_min, i32_max, i64_min, i64_max. lia. Qed.

Lemma as_i32_range z : i32_min <= as_i32 z <= i32_max.
Proof.
  unfold as_i32, i32_min, i32_max.
  pose proof (Z.mod_pos_bound (z + 2147483648) 4294967296). lia.
Qed.

Lemma as_i32_id z : in_i32 z = true -> as_i32 z = z.
Proof.
  intros H%in_i32_spec. unfold as_i32, i32_min, i32_max in *.
  rewrite Z.mod_small; lia.
Qed.

Lemma as_i32_fixed z : as_i32 z = z <-> in_i32 z = true.
Proof.
  split; [|apply as_i32_id].
  intros <-. apply in_i32_spec, as_i32_range.
Qed.

(** On a length, the cast only ever gives less. *)
Lemma as_i32_le z : 0 <= z -> as_i32 z <= z.
Proof.
  intros Hz. unfold as_i32.
  pose proof (Z.mod_le (z + 2147483648) 4294967296 ltac:(lia) ltac:(lia)). lia.
Qed.

Lemma as_i32_lt z : 0 <= z -> in_i32 z = false -> as_i32 z < z.
Proof.
  intros Hz Hr. pose proof (as_i32_le z Hz) as Hle.
  destruct (Z.eq_dec (as_i32 z) z) as [E|E]; [|lia].
  apply as_i32_fixed in E. congruence.
Qed.

Lemma as_i32_congr z : (as_i32 z - z) mod 4294967296 = 0.
Proof.
  unfold as_i32.
  pose proof (Z.div_mod (z + 2147483648) 4294967296 ltac:(lia)) as H.
  replace ((z + 2147483648) mod 4294967296 - 2147483648 - z)
    with ((- ((z + 2147483648) / 4294967296)) * 4294967296) by lia.
  apply Z.mod_mul. lia.
Qed.

Lemma as_usize_id z : 0 <= z -> z <= usize_max -> as_usize z = z.
Proof. intros H1 H2. unfold as_usize, usize_max in *. rewrite Z.mod_small; lia. Qed.

Lemma try_into_i32_Some z v : try_into_i32 z = Some v <-> v = z /\ in_i32 z = true.
Proof.
  unfold try_into_i32. destruct (in_i32 z); split.
  - intros [= <-]; auto.
  - intros [-> _]; auto.
  - discriminate.
  - intros [_ [=]].
Qed.

Lemma try_into_i32_None z : try_into_i32 z = None <-> in_i32 z = false.
Proof. unfold try_into_i32. destruct (in_i32 z); split; congruence. Qed.

#[export] Hint Rewrite as_i32_id using assumption : rs_rw.

(** ** Lemmas on lists shared by the components *)

Lemma Forall_app_r {A} (P : A -> Prop) (l r : list A) :
  Forall P (l ++ r) -> Forall P r.
Proof. rewrite Forall_app. tauto. Qed.

Lemma length_ind {A} (P : list A -> Prop) :
  (forall l, (forall k, (length k < length l)%nat -> P k) -> P l) ->
  forall l, P l.
Proof.
  intros H l. remember (length l) as n eqn:E.
  revert l E. induction n as [n IH] using lt_wf_ind.
  intros l ->. apply H. intros k Hk. eapply IH; [exact Hk | reflexivity].
Qed.
