(* ===== verification/RustStr.v ===== *)
(** * Rust strings as byte lists

    A Rust [&str] is a sequence of bytes that is valid UTF-8; [api.rs] uses
    it through [str::len], [str::is_empty], [str::contains],
    [str::to_lowercase], [str::trim] and [CString::new].  This file models
    these library functions on [list Z] (one [Z] per byte) and proves the
    lemmas the components need about them.  None of this code is in
    src/: the definitions follow the documented behaviour of the Rust
    standard library.

    [to_lowercase] and [trim] are Unicode-aware in Rust.  They are modelled
    on the UTF-8 bytes: [trim] removes every code point with the White_Space
    property, by its encoding; [to_lowercase] maps the ASCII capitals, and
    the two code points outside ASCII whose lower case contains an ASCII
    letter (U+0130, which becomes 'i' followed by U+0307, and U+212A, the
    Kelvin sign, which becomes 'k').  Every other code point outside ASCII is
    left as it is: its lower case is again outside ASCII, which no search for
    an ASCII pattern can tell apart. *)

From Stdlib Require Import ZArith Lia List String Ascii.
From stdpp Require Import base tactics option list.
From S2P Require Import Prelude.

#[local] Open Scope Z_scope.

(** ** Byte classes *)

Definition is_ascii (b : Z) : bool := (0 <=? b) && (b <? 128).
Definition is_ascii_uppercase (b : Z) : bool := (65 <=? b) && (b <=? 90).
Definition is_ascii_lowercase (b : Z) : bool := (97 <=? b) && (b <=? 122).
Definition is_ascii_digit (b : Z) : bool := (48 <=? b) && (b <=? 57).

(** [u8::to_ascii_lowercase]. *)
Definition ascii_lower (b : Z) : Z := if is_ascii_uppercase b then b + 32 else b.

(** ASCII white space as [char::is_whitespace] sees it: U+0009 to U+000D and
    the space. *)
Definition is_ascii_ws (b : Z) : bool := ((9 <=? b) && (b <=? 13)) || (b =? 32).

(** The two-byte white space: U+0085 and U+00A0. *)
Definition ws2 (b c : Z) : bool := (b =? 194) && ((c =? 133) || (c =? 160)).

(** The three-byte white space: U+1680, U+2000 to U+200A, U+2028, U+2029,
    U+202F, U+205F and U+3000. *)
Definition ws3 (b c d : Z) : bool :=
  ((b =? 225) && (c =? 154) && (d =? 128))
  || ((b =? 226) && (c =? 128) &&
      (((128 <=? d) && (d <=? 138)) || (d =? 168) || (d =? 169) || (d =? 175)))
  || ((b =? 226) && (c =? 129) && (d =? 159))
  || ((b =? 227) && (c =? 128) && (d =? 128)).

(** ** [str::len], [str::is_empty] *)

Definition str_len (s : list Z) : Z := Z.of_nat (length s).

Definition is_empty (s : list Z) : bool :=
  match s with [] => true | _ :: _ => false end.

(** ** [str::starts_with], [str::contains] *)

Fixpoint starts_with (s p : list Z) {struct p} : bool :=
  match p, s with
  | [], _ => true
  | _ :: _, [] => false
  | a :: p', b :: s' => (a =? b) && starts_with s' p'
  end.

Fixpoint contains (s p : list Z) : bool :=
  starts_with s p ||
  match s with
  | [] => false
  | _ :: s' => contains s' p
  end.

(** ** [str::to_lowercase] *)

Fixpoint to_lowercase (s : list Z) : list Z :=
  match s with
  | [] => []
  | b :: r =>
    match r with
    | [] => [ascii_lower b]
    | c :: r1 =>
      if (b =? 196) && (c =? 176) then 105 :: 204 :: 135 :: to_lowercase r1
      else
        match r1 with
        | [] => ascii_lower b :: to_lowercase r
        | d :: r2 =>
          if (b =? 226) && (c =? 132) && (d =? 170) then 107 :: to_lowercase r2
          else ascii_lower b :: to_lowercase r
        end
    end
  end.

(** ** [str::trim]

    [strip w1 w2 w3] removes from the front every code point that [w1] (one
    byte), [w2] (two bytes) or [w3] (three bytes) recognises.  [trim_start]
    is [strip] with the encodings of white space; [trim_end] is the same scan
    on the reversed bytes, where the last byte of a code point comes first. *)

Section Strip.
Variable w1 : Z -> bool.
Variable w2 : Z -> Z -> bool.
Variable w3 : Z -> Z -> Z -> bool.

Fixpoint strip (s : list Z) : list Z :=
  match s with
  | [] => []
  | b :: r =>
    if w1 b then strip r
    else
      match r with
      | [] => s
      | c :: r1 =>
        if w2 b c then strip r1
        else
          match r1 with
          | [] => s
          | d :: r2 => if w3 b c d then strip r2 else s
          end
      end
  end.

End Strip.

Definition trim_start (s : list Z) : list Z := strip is_ascii_ws ws2 ws3 s.

Definition trim_end (s : list Z) : list Z :=
  rev (strip is_ascii_ws (fun d c => ws2 c d) (fun d c b => ws3 b c d) (rev s)).

Definition trim (s : list Z) : list Z := trim_end (trim_start s).

(** ** [CString::new] and [CStr::from_ptr]

    [CString::new] refuses a byte string with an interior nul, reporting the
    position of the first one, and otherwise appends the terminator. *)

Record NulError : Type := mkNulError { nul_position : nat; nul_bytes : list Z }.

Fixpoint memchr (x : Z) (s : list Z) : option nat :=
  match s with
  | [] => None
  | b :: r => if b =? x then Some 0%nat else option_map S (memchr x r)
  end.

Definition cstring_new (s : list Z) : result (list Z) NulError :=
  match memchr 0 s with
  | Some i => Err (mkNulError i s)
  | None => Ok (s ++ [0])
  end.

(** The bytes of a C string: what [strlen] and [CStr::from_ptr] see of a
    buffer, up to the first nul.  [None] when the buffer holds no nul: the
    read runs past its end. *)
Fixpoint cstr_bytes (buf : list Z) : option (list Z) :=
  match buf with
  | [] => None
  | b :: r => if b =? 0 then Some [] else option_map (cons b) (cstr_bytes r)
  end.

(** A byte that is ASCII and no white space: an ASCII letter, digit or
    punctuation mark.  No encoding of white space contains one. *)
Definition is_solid (b : Z) : bool := is_ascii b && negb (is_ascii_ws b).

(** ** Patterns that [to_lowercase] cannot create

    [plain p]: [p] is not empty, every byte of it is ASCII, none is 'k' and
    the last is not 'i'.  The only ASCII bytes [to_lowercase] emits for a code
    point outside ASCII are a 'k' and an 'i' that a byte outside ASCII
    follows, so a plain pattern occurs in the lower-cased string exactly where
    it occurs, up to case, in the original. *)

Fixpoint plain_tail (p : list Z) : bool :=
  match p with
  | [] => true
  | y :: q =>
    is_ascii y && negb (y =? 107) && plain_tail q &&
    match q with [] => negb (y =? 105) | _ :: _ => true end
  end.

Definition plain (p : list Z) : bool := negb (is_empty p) && plain_tail p.

(** A pattern the classification searches for: plain, and made of solid
    bytes. *)
Definition keyword (p : list Z) : bool := plain p && forallb is_solid p.

(** ** Case-insensitive containment, as a specification

    [contains_ci s p]: some window of [s] is [p] up to the case of ASCII
    letters. *)
Definition contains_ci (s p : list Z) : Prop :=
  exists l m r, s = l ++ m ++ r /\ map ascii_lower m = p.

(** ** Lemmas: lengths *)

Lemma str_len_nonneg s : 0 <= str_len s.
Proof. unfold str_len. lia. Qed.

Lemma str_len_app s t : str_len (s ++ t) = str_len s + str_len t.
Proof. unfold str_len. rewrite length_app. lia. Qed.

Lemma str_len_cons b s : str_len (b :: s) = str_len s + 1.
Proof. unfold str_len. cbn [length]. lia. Qed.

Lemma firstn_str_len s t : firstn (Z.to_nat (str_len s)) (s ++ t) = s.
Proof.
  unfold str_len. rewrite Nat2Z.id, firstn_app, Nat.sub_diag, firstn_all.
  cbn [firstn]. apply app_nil_r.
Qed.

(** ** Lemmas: [starts_with] and [contains] *)

Lemma starts_with_spec s p :
  starts_with s p = true <-> exists r, s = p ++ r.
Proof.
  revert s; induction p as [|a p IH]; intros s; simpl.
  - split; eauto.
  - destruct s as [|b s].
    + split; [discriminate | intros [r [=]]].
    + rewrite andb_true_iff, IH, Z.eqb_eq. split.
      * intros [-> [r ->]]. eauto.
      * intros [r [= -> ->]]. eauto.
Qed.

Lemma starts_with_app p r : starts_with (p ++ r) p = true.
Proof. apply starts_with_spec. eauto. Qed.

Lemma contains_cons s p b : contains s p = true -> contains (b :: s) p = true.
Proof. simpl. intros ->. apply orb_true_r. Qed.

Lemma contains_app_l s p l : contains s p = true -> contains (l ++ s) p = true.
Proof. induction l; simpl; auto using contains_cons. intros. rewrite IHl; auto using orb_true_r. Qed.

Lemma contains_spec s p :
  contains s p = true <-> exists l r, s = l ++ p ++ r.
Proof.
  split.
  - induction s as [|b s IH]; simpl; rewrite orb_true_iff.
    + intros [H|[=]]. apply starts_with_spec in H as [r ->]. exists [], r. reflexivity.
    + intros [H|H].
      * apply starts_with_spec in H as [r ->]. exists [], r. reflexivity.
      * destruct (IH H) as (l & r & ->). exists (b :: l), r. reflexivity.
  - intros (l & r & ->). apply contains_app_l.
    destruct (p ++ r) eqn:E; simpl; rewrite <- E, starts_with_app; reflexivity.
Qed.

Lemma contains_nil s : contains s [] = true.
Proof. apply contains_spec. exists [], s. reflexivity. Qed.

Lemma contains_window l p r : contains (l ++ p ++ r) p = true.
Proof. apply contains_spec. eauto. Qed.

Lemma contains_false_app s p l r : contains s p = false -> s <> l ++ p ++ r.
Proof. intros H ->. rewrite contains_window in H. discriminate. Qed.

Lemma contains_length s p : contains s p = true -> (length p <= length s)%nat.
Proof.
  intros (l & r & ->)%contains_spec. rewrite !length_app. lia.
Qed.


(** ** Lemmas: byte classes *)

Lemma is_ascii_lower_inv b : is_ascii (ascii_lower b) = true -> is_ascii b = true.
Proof.
  unfold is_ascii, ascii_lower, is_ascii_uppercase.
  destruct ((65 <=? b) && (b <=? 90)) eqn:E; lia.
Qed.

Lemma is_solid_lower_inv b : is_solid (ascii_lower b) = true -> is_solid b = true.
Proof.
  unfold is_solid, is_ascii, is_ascii_ws, ascii_lower, is_ascii_uppercase.
  destruct ((65 <=? b) && (b <=? 90)) eqn:E; lia.
Qed.

Lemma is_solid_ascii b : is_solid b = true -> is_ascii b = true.
Proof. unfold is_solid. intros [H _]%andb_true_iff. exact H. Qed.

Lemma ascii_lower_idem b : ascii_lower (ascii_lower b) = ascii_lower b.
Proof.
  unfold ascii_lower, is_ascii_uppercase.
  destruct ((65 <=? b) && (b <=? 90)) eqn:E; [|rewrite E; reflexivity].
  destruct ((65 <=? b + 32) && (b + 32 <=? 90)) eqn:E2; lia.
Qed.

Lemma Forall_lower_inv (P : Z -> bool) m :
  (forall b, P (ascii_lower b) = true -> P b = true) ->
  Forall (fun b => P b = true) (map ascii_lower m) ->
  Forall (fun b => P b = true) m.
Proof. intros HP. rewrite Forall_map. intros H. eapply Forall_impl; [exact H | exact HP]. Qed.

(** ** Lemmas: [contains] under append and [map] *)

Lemma contains_infix a t b p : contains t p = true -> contains (a ++ t ++ b) p = true.
Proof.
  intros (l & r & ->)%contains_spec. apply contains_spec.
  exists (a ++ l), (r ++ b). rewrite <- !app_assoc. reflexivity.
Qed.

Lemma contains_map_inv (f : Z -> Z) s p :
  contains (map f s) p = true <-> exists l m r, s = l ++ m ++ r /\ map f m = p.
Proof.
  rewrite contains_spec. split.
  - intros (l & r & H). apply map_eq_app in H as (l0 & t & -> & <- & H).
    apply map_eq_app in H as (m & r0 & -> & <- & <-). eauto.
  - intros (l & m & r & -> & <-). rewrite !map_app. eauto.
Qed.

Lemma contains_ci_spec s p : contains (map ascii_lower s) p = true <-> contains_ci s p.
Proof. apply contains_map_inv. Qed.

(** ** Lemmas: [to_lowercase] *)

Lemma to_lowercase_cons2 b c r1 :
  to_lowercase (b :: c :: r1) =
  if (b =? 196) && (c =? 176) then 105 :: 204 :: 135 :: to_lowercase r1
  else match r1 with
       | [] => ascii_lower b :: to_lowercase (c :: r1)
       | d :: r2 =>
         if (b =? 226) && (c =? 132) && (d =? 170) then 107 :: to_lowercase r2
         else ascii_lower b :: to_lowercase (c :: r1)
       end.
Proof. reflexivity. Qed.

Lemma to_lowercase_cons_ascii x r :
  is_ascii x = true -> to_lowercase (x :: r) = ascii_lower x :: to_lowercase r.
Proof.
  unfold is_ascii. intros Hx.
  destruct r as [|c [|d r2]]; [reflexivity | |]; rewrite to_lowercase_cons2;
    destruct ((x =? 196) && (c =? 176)) eqn:E; try lia; [reflexivity|].
  destruct ((x =? 226) && (c =? 132) && (d =? 170)) eqn:E2; [lia | reflexivity].
Qed.

Lemma to_lowercase_ascii_app m r :
  Forall (fun b => is_ascii b = true) m ->
  to_lowercase (m ++ r) = map ascii_lower m ++ to_lowercase r.
Proof.
  induction 1 as [|x m Hx _ IH]; [reflexivity|].
  cbn [app map]. rewrite to_lowercase_cons_ascii by exact Hx.
  f_equal. exact IH.
Qed.

Lemma to_lowercase_boundary l x r :
  is_ascii x = true ->
  to_lowercase (l ++ x :: r) = to_lowercase l ++ to_lowercase (x :: r).
Proof.
  intros Hx. induction l as [l IH] using length_ind.
  destruct l as [|b [|c l1]]; [reflexivity | |]; cbn [app];
    rewrite !to_lowercase_cons2; unfold is_ascii in Hx.
  - destruct ((b =? 196) && (x =? 176)) eqn:E; [lia|].
    destruct r as [|d r2]; [reflexivity|].
    destruct ((b =? 226) && (x =? 132) && (d =? 170)) eqn:E2; [lia | reflexivity].
  - destruct ((b =? 196) && (c =? 176)) eqn:E.
    + rewrite IH by (simpl; lia). reflexivity.
    + destruct l1 as [|d l2]; cbn [app].
      * destruct ((b =? 226) && (c =? 132) && (x =? 170)) eqn:E2; [lia|].
        rewrite (IH [c] ltac:(simpl; lia) : to_lowercase (c :: x :: r) = _). reflexivity.
      * destruct ((b =? 226) && (c =? 132) && (d =? 170)) eqn:E2.
        -- rewrite IH by (simpl; lia). reflexivity.
        -- rewrite (IH (c :: d :: l2) ltac:(simpl; lia)
                     : to_lowercase (c :: d :: l2 ++ x :: r) = _). reflexivity.
Qed.

Lemma to_lowercase_window l m r :
  m <> [] -> Forall (fun b => is_ascii b = true) m ->
  to_lowercase (l ++ m ++ r) = to_lowercase l ++ map ascii_lower m ++ to_lowercase r.
Proof.
  destruct m as [|x m]; [congruence|]. intros _ Hm.
  cbn [app]. rewrite to_lowercase_boundary by (inversion Hm; assumption).
  f_equal. exact (to_lowercase_ascii_app (x :: m) r Hm).
Qed.

Lemma is_empty_to_lowercase s : is_empty (to_lowercase s) = is_empty s.
Proof.
  destruct s as [|b [|c [|d r]]]; try reflexivity; rewrite to_lowercase_cons2;
    destruct ((b =? 196) && (c =? 176)); try reflexivity.
  destruct ((b =? 226) && (c =? 132) && (d =? 170)); reflexivity.
Qed.

Lemma plain_tail_ascii p : plain_tail p = true -> Forall (fun b => is_ascii b = true) p.
Proof.
  induction p as [|y q IH]; [constructor|]. cbn [plain_tail].
  rewrite !andb_true_iff. intros [[[Hy _] Hq] _]. constructor; auto.
Qed.

Lemma starts_with_lower s p :
  plain_tail p = true ->
  starts_with (to_lowercase s) p = true -> starts_with (map ascii_lower s) p = true.
Proof.
  revert s. induction p as [|y q IH]; [reflexivity|].
  intros s Hp. cbn [plain_tail] in Hp. apply andb_true_iff in Hp as [Hp Hlast].
  apply andb_true_iff in Hp as [Hy Hq]. unfold is_ascii in Hy.
  destruct s as [|b [|c r1]]; [discriminate | exact id |].
  rewrite to_lowercase_cons2.
  destruct ((b =? 196) && (c =? 176)) eqn:E1.
  { cbn [starts_with]. destruct q as [|z q]; [lia|].
    apply plain_tail_ascii in Hq. inversion Hq; subst. unfold is_ascii in *.
    cbn [starts_with]. lia. }
  assert (Hgo : starts_with (ascii_lower b :: to_lowercase (c :: r1)) (y :: q) = true ->
                starts_with (map ascii_lower (b :: c :: r1)) (y :: q) = true).
  { cbn [starts_with map]. rewrite !andb_true_iff. intros [-> H].
    split; [reflexivity|]. apply (IH (c :: r1) Hq H). }
  destruct r1 as [|d r2]; [exact Hgo|].
  destruct ((b =? 226) && (c =? 132) && (d =? 170)) eqn:E2; [|exact Hgo].
  cbn [starts_with]. lia.
Qed.

Lemma contains_lower_inv s p :
  plain p = true ->
  contains (to_lowercase s) p = true -> contains (map ascii_lower s) p = true.
Proof.
  unfold plain. intros [Hne Hp]%andb_true_iff.
  induction s as [s IH] using length_ind.
  destruct (starts_with (to_lowercase s) p) eqn:Hs.
  { intros _. apply starts_with_lower in Hs; [|exact Hp].
    destruct s; cbn [map contains] in *; rewrite Hs; reflexivity. }
  destruct p as [|y q]; [discriminate|]. clear Hne.
  pose proof (plain_tail_ascii _ Hp) as Ha. inversion Ha as [|? ? Hy _]; subst.
  unfold is_ascii in Hy.
  destruct s as [|b [|c r1]]; [exact id | cbn; rewrite orb_false_r; cbn in Hs; congruence |].
  revert Hs. rewrite to_lowercase_cons2.
  destruct ((b =? 196) && (c =? 176)) eqn:E1.
  { intros Hs. cbn [contains]. rewrite Hs. cbn [starts_with orb].
    replace (y =? 204) with false by lia. replace (y =? 135) with false by lia.
    cbn [andb orb]. intros H. apply (contains_app_l _ _ [ascii_lower b; ascii_lower c]).
    apply IH; [simpl; lia | exact H]. }
  assert (Hgo : starts_with (ascii_lower b :: to_lowercase (c :: r1)) (y :: q) = false ->
                contains (ascii_lower b :: to_lowercase (c :: r1)) (y :: q) = true ->
                contains (map ascii_lower (b :: c :: r1)) (y :: q) = true).
  { intros Hs. cbn [contains]. rewrite Hs. cbn [orb]. intros H.
    apply (contains_cons (map ascii_lower (c :: r1))).
    apply IH; [simpl; lia | exact H]. }
  destruct r1 as [|d r2]; [exact Hgo|].
  destruct ((b =? 226) && (c =? 132) && (d =? 170)) eqn:E2; [|exact Hgo].
  intros Hs. cbn [contains]. rewrite Hs. cbn [orb]. intros H.
  apply (contains_app_l _ _ [ascii_lower b; ascii_lower c; ascii_lower d]).
  apply IH; [simpl; lia | exact H].
Qed.

Lemma contains_lower s p :
  plain p = true ->
  contains (to_lowercase s) p = contains (map ascii_lower s) p.
Proof.
  intros Hp. apply eq_true_iff_eq. split; [apply contains_lower_inv, Hp|].
  intros (l & m & r & -> & <-)%contains_map_inv.
  apply andb_true_iff in Hp as [Hne Hp].
  rewrite to_lowercase_window.
  - apply contains_window.
  - destruct m; [discriminate | congruence].
  - apply (Forall_lower_inv is_ascii); [exact is_ascii_lower_inv|].
    apply plain_tail_ascii, Hp.
Qed.

(** ** Lemmas: [strip] and [trim] *)

Section StripFacts.
Variable w1 : Z -> bool.
Variable w2 : Z -> Z -> bool.
Variable w3 : Z -> Z -> Z -> bool.

Lemma strip_suffix s : exists a, s = a ++ strip w1 w2 w3 s.
Proof.
  induction s as [s IH] using length_ind.
  destruct s as [|b [|c [|d r2]]]; cbn [strip].
  - exists []. reflexivity.
  - destruct (w1 b); [exists [b] | exists []]; reflexivity.
  - destruct (w1 b).
    + destruct (IH [c]) as [a Ha]; [simpl; lia|].
      exists (b :: a). cbn [app]. f_equal. exact Ha.
    + destruct (w2 b c); [exists [b; c] | exists []]; reflexivity.
  - destruct (w1 b).
    + destruct (IH (c :: d :: r2)) as [a Ha]; [simpl; lia|].
      exists (b :: a). cbn [app]. f_equal. exact Ha.
    + destruct (w2 b c).
      * destruct (IH (d :: r2)) as [a Ha]; [simpl; lia|].
        exists (b :: c :: a). cbn [app]. do 2 f_equal. exact Ha.
      * destruct (w3 b c d); [|exists []; reflexivity].
        destruct (IH r2) as [a Ha]; [simpl; lia|].
        exists (b :: c :: d :: a). cbn [app]. do 3 f_equal. exact Ha.
Qed.

Hypothesis w1_solid : forall x, is_solid x = true -> w1 x = false.
Hypothesis w2_solid : forall x c, is_solid x = true -> w2 x c = false /\ w2 c x = false.
Hypothesis w3_solid : forall x c d, is_solid x = true ->
  w3 x c d = false /\ w3 c x d = false /\ w3 c d x = false.

Lemma strip_solid x r : is_solid x = true -> strip w1 w2 w3 (x :: r) = x :: r.
Proof.
  intros Hx. cbn [strip]. rewrite (w1_solid x Hx).
  destruct r as [|c [|d r2]]; [reflexivity | |];
    rewrite (proj1 (w2_solid x c Hx)); [reflexivity|].
  rewrite (proj1 (w3_solid x c d Hx)). reflexivity.
Qed.

Lemma strip_stop l x r :
  is_solid x = true -> exists l', strip w1 w2 w3 (l ++ x :: r) = l' ++ x :: r.
Proof.
  intros Hx. induction l as [l IH] using length_ind.
  destruct l as [|b [|c [|d l3]]].
  - exists []. apply strip_solid, Hx.
  - cbn [app strip]. destruct (w1 b).
    + exists []. apply strip_solid, Hx.
    + rewrite (proj2 (w2_solid x b Hx)).
      destruct r as [|d r2]; [exists [b]; reflexivity|].
      rewrite (proj1 (proj2 (w3_solid x b d Hx))). exists [b]. reflexivity.
  - cbn [app strip]. destruct (w1 b).
    + apply (IH [c]). simpl; lia.
    + destruct (w2 b c); [exists []; apply strip_solid, Hx|].
      rewrite (proj2 (proj2 (w3_solid x b c Hx))). exists [b; c]. reflexivity.
  - cbn [app strip]. destruct (w1 b).
    + apply (IH (c :: d :: l3)). simpl; lia.
    + destruct (w2 b c); [apply (IH (d :: l3)); simpl; lia|].
      destruct (w3 b c d); [apply (IH l3); simpl; lia|].
      exists (b :: c :: d :: l3). reflexivity.
Qed.

End StripFacts.

Lemma ws1_solid x : is_solid x = true -> is_ascii_ws x = false.
Proof.
  unfold is_solid. destruct (is_ascii_ws x); [|reflexivity].
  rewrite andb_false_r. discriminate.
Qed.

Lemma ws2_solid x c : is_solid x = true -> ws2 x c = false /\ ws2 c x = false.
Proof. unfold is_solid, is_ascii, ws2. lia. Qed.

Lemma ws3_solid x c d : is_solid x = true ->
  ws3 x c d = false /\ ws3 c x d = false /\ ws3 c d x = false.
Proof. unfold is_solid, is_ascii, ws3. lia. Qed.

Lemma trim_start_suffix s : exists a, s = a ++ trim_start s.
Proof. apply strip_suffix. Qed.

Lemma trim_end_prefix s : exists b, s = trim_end s ++ b.
Proof.
  unfold trim_end.
  destruct (strip_suffix is_ascii_ws (fun d c => ws2 c d) (fun d c b => ws3 b c d) (rev s))
    as [a Ha].
  exists (rev a). rewrite <- rev_app_distr, <- Ha, rev_involutive. reflexivity.
Qed.

Lemma trim_infix s : exists a b, s = a ++ trim s ++ b.
Proof.
  unfold trim. destruct (trim_start_suffix s) as [a Ha].
  destruct (trim_end_prefix (trim_start s)) as [b Hb].
  exists a, b. rewrite <- Hb. exact Ha.
Qed.

Lemma trim_start_stop l x r :
  is_solid x = true -> exists l', trim_start (l ++ x :: r) = l' ++ x :: r.
Proof. apply strip_stop; auto using ws1_solid, ws2_solid, ws3_solid. Qed.

Lemma trim_end_stop l x r :
  is_solid x = true -> exists r', trim_end (l ++ x :: r) = l ++ x :: r'.
Proof.
  intros Hx. unfold trim_end. rewrite rev_app_distr. cbn [rev]. rewrite <- app_assoc.
  cbn [app].
  destruct (strip_stop is_ascii_ws (fun d c => ws2 c d) (fun d c b => ws3 b c d))
    with (l := rev r) (x := x) (r := rev l) as [l' ->]; auto using ws1_solid.
  - intros ? c ?. destruct (ws2_solid _ c H). auto.
  - intros ? c d ?. destruct (ws3_solid _ c d H) as (? & ? & ?).
    destruct (ws3_solid _ d c H) as (? & ? & ?). auto.
  - exists (rev l'). rewrite rev_app_distr. cbn [rev]. rewrite rev_involutive, <- app_assoc.
    reflexivity.
Qed.

Lemma trim_window l m r :
  m <> [] -> Forall (fun b => is_solid b = true) m ->
  exists l' r', trim (l ++ m ++ r) = l' ++ m ++ r'.
Proof.
  intros Hne Hm. unfold trim.
  destruct m as [|x m]; [congruence|]. clear Hne.
  change (l ++ (x :: m) ++ r) with (l ++ x :: (m ++ r)).
  destruct (trim_start_stop l x (m ++ r)) as [l' ->]; [inversion Hm; assumption|].
  destruct (exists_last (l := x :: m)) as (m0 & y & Hy); [discriminate|].
  change (l' ++ x :: m ++ r) with (l' ++ (x :: m) ++ r).
  rewrite Hy in *. apply Forall_app_r in Hm. inversion Hm as [|? ? Hys _]; subst.
  replace (l' ++ (m0 ++ [y]) ++ r) with ((l' ++ m0) ++ y :: r)
    by (rewrite <- !app_assoc; reflexivity).
  destruct (trim_end_stop (l' ++ m0) y r Hys) as [r' ->].
  exists l', r'. rewrite <- !app_assoc. reflexivity.
Qed.

(** Trimming does not change which solid patterns occur, whatever the case. *)
Lemma contains_trim s p :
  p <> [] -> Forall (fun b => is_solid b = true) p ->
  contains (map ascii_lower (trim s)) p = contains (map ascii_lower s) p.
Proof.
  intros Hne Hp. apply eq_true_iff_eq. split.
  - destruct (trim_infix s) as (a & b & Hs). rewrite Hs at 2.
    rewrite !map_app. apply contains_infix.
  - intros (l & m & r & -> & <-)%contains_map_inv.
    destruct (trim_window l m r) as (l' & r' & ->).
    + destruct m; [exact Hne | discriminate].
    + apply (Forall_lower_inv is_solid); [exact is_solid_lower_inv | exact Hp].
    + rewrite !map_app. apply contains_window.
Qed.

Lemma keyword_inv p :
  keyword p = true ->
  plain p = true /\ p <> [] /\ Forall (fun b => is_solid b = true) p.
Proof.
  intros [Hp Hs]%andb_true_iff. split; [exact Hp|]. split.
  - destruct p; [discriminate | congruence].
  - clear Hp. induction p as [|y q IH]; constructor;
      apply andb_true_iff in Hs as [? ?]; auto.
Qed.

(** The search for a keyword in the trimmed, lower-cased string is a search,
    up to case, in the string as written. *)
Lemma contains_lower_trim s p :
  keyword p = true ->
  contains (to_lowercase (trim s)) p = contains (map ascii_lower s) p.
Proof.
  intros (Hp & Hne & Hs)%keyword_inv.
  rewrite contains_lower by exact Hp. apply contains_trim; assumption.
Qed.

(** [strip] commutes with a map on bytes that the three tests do not see. *)
Lemma strip_map (f : Z -> Z) w1 w2 w3 s :
  (forall b, w1 (f b) = w1 b) ->
  (forall b c, w2 (f b) (f c) = w2 b c) ->
  (forall b c d, w3 (f b) (f c) (f d) = w3 b c d) ->
  strip w1 w2 w3 (map f s) = map f (strip w1 w2 w3 s).
Proof.
  intros H1 H2 H3. induction s as [s IH] using length_ind.
  destruct s as [|b [|c [|d r2]]]; cbn [map strip]; [reflexivity | | |];
    rewrite H1; destruct (w1 b).
  - reflexivity.
  - reflexivity.
  - apply (IH [c]). simpl; lia.
  - rewrite H2. destruct (w2 b c); reflexivity.
  - apply (IH (c :: d :: r2)). simpl; lia.
  - rewrite H2. destruct (w2 b c); [apply (IH (d :: r2)); simpl; lia|].
    rewrite H3. destruct (w3 b c d); [apply (IH r2); simpl; lia | reflexivity].
Qed.

Lemma ascii_lower_cases b : ascii_lower b = b \/ (97 <= ascii_lower b <= 122 /\ 65 <= b <= 90).
Proof.
  unfold ascii_lower, is_ascii_uppercase.
  destruct ((65 <=? b) && (b <=? 90)) eqn:E; [right; lia | left; reflexivity].
Qed.

Lemma ws1_lower b : is_ascii_ws (ascii_lower b) = is_ascii_ws b.
Proof. destruct (ascii_lower_cases b) as [->|H]; [reflexivity|]. unfold is_ascii_ws. lia. Qed.

Lemma ws2_lower b c : ws2 (ascii_lower b) (ascii_lower c) = ws2 b c.
Proof.
  destruct (ascii_lower_cases b) as [->|Hb], (ascii_lower_cases c) as [->|Hc];
    try reflexivity; unfold ws2; lia.
Qed.

Lemma ws3_low b c d : b < 128 \/ c < 128 \/ d < 128 -> ws3 b c d = false.
Proof. unfold ws3. lia. Qed.

Lemma ws3_lower b c d : ws3 (ascii_lower b) (ascii_lower c) (ascii_lower d) = ws3 b c d.
Proof.
  destruct (ascii_lower_cases b) as [->|Hb], (ascii_lower_cases c) as [->|Hc],
    (ascii_lower_cases d) as [->|Hd]; try reflexivity;
    rewrite !ws3_low by lia; reflexivity.
Qed.

Lemma trim_lower s : trim (map ascii_lower s) = map ascii_lower (trim s).
Proof.
  unfold trim, trim_end, trim_start.
  rewrite strip_map by auto using ws1_lower, ws2_lower, ws3_lower.
  rewrite <- map_rev, strip_map, map_rev; auto using ws1_lower, ws2_lower, ws3_lower.
Qed.

Lemma is_empty_map (f : Z -> Z) s : is_empty (map f s) = is_empty s.
Proof. destruct s; reflexivity. Qed.

Lemma trim_nil : trim [] = [].
Proof. reflexivity. Qed.

(** ** Lemmas: [CString::new] and C strings *)

Lemma memchr_None x s : memchr x s = None <-> ~ In x s.
Proof.
  induction s as [|b r IH]; cbn [memchr In]; [tauto|].
  destruct (Z.eqb_spec b x) as [->|Hne].
  - split; [discriminate | tauto].
  - destruct (memchr x r); cbn [option_map]; split; try discriminate; intuition congruence.
Qed.

Lemma memchr_Some x s i :
  memchr x s = Some i -> nth_error s i = Some x /\ ~ In x (firstn i s).
Proof.
  revert i. induction s as [|b r IH]; cbn [memchr]; [discriminate|].
  intros i. destruct (Z.eqb_spec b x) as [->|Hne].
  - intros [= <-]. split; [reflexivity | exact id].
  - destruct (memchr x r) as [j|]; cbn [option_map]; [|discriminate].
    intros [= <-]. destruct (IH j eq_refl) as [H1 H2].
    split; [exact H1|]. cbn [firstn In]. intuition congruence.
Qed.

Lemma cstring_new_Ok s buf : cstring_new s = Ok buf <-> ~ In 0 s /\ buf = s ++ [0].
Proof.
  unfold cstring_new. destruct (memchr 0 s) eqn:E.
  - split; [discriminate|]. intros [H _]. apply memchr_None in H. congruence.
  - apply memchr_None in E. split; [intros [= <-]; auto | intros [_ ->]; reflexivity].
Qed.

Lemma cstring_new_Err s e :
  cstring_new s = Err e -> In 0 s /\ nul_bytes e = s /\ nth_error s (nul_position e) = Some 0.
Proof.
  unfold cstring_new. destruct (memchr 0 s) eqn:E; [|discriminate].
  intros [= <-]. cbn. destruct (memchr_Some _ _ _ E) as [H _].
  split; [eapply nth_error_In; exact H | auto].
Qed.

(** The position reported is that of the first nul. *)
Lemma cstring_new_first s e :
  cstring_new s = Err e -> ~ In 0 (firstn (nul_position e) s).
Proof.
  unfold cstring_new. destruct (memchr 0 s) eqn:E; [|discriminate].
  intros [= <-]. cbn. apply (memchr_Some _ _ _ E).
Qed.

Lemma cstring_new_is_ok s : is_ok (cstring_new s) = negb (existsb (Z.eqb 0) s).
Proof.
  unfold cstring_new. destruct (memchr 0 s) eqn:E; cbn [is_ok].
  - symmetry. apply negb_false_iff, existsb_exists. exists 0.
    apply memchr_Some in E as [H _]. split; [eapply nth_error_In; exact H | reflexivity].
  - symmetry. apply negb_true_iff. apply not_true_is_false. intros (x & Hx & E2)%existsb_exists.
    apply Z.eqb_eq in E2 as <-. apply memchr_None in E. contradiction.
Qed.

(** A C string written by [CString::new] reads back as the bytes it was made
    from. *)
Lemma cstr_bytes_app s r : ~ In 0 s -> cstr_bytes (s ++ 0 :: r) = Some s.
Proof.
  induction s as [|b s IH]; cbn [app cstr_bytes In]; [reflexivity|].
  intros H. destruct (Z.eqb_spec b 0) as [->|_]; [tauto|].
  rewrite IH by tauto. reflexivity.
Qed.

Lemma cstr_bytes_cstring s buf : cstring_new s = Ok buf -> cstr_bytes buf = Some s.
Proof. intros [H ->]%cstring_new_Ok. apply cstr_bytes_app, H. Qed.

Lemma cstr_bytes_no_nul buf s : cstr_bytes buf = Some s -> ~ In 0 s.
Proof.
  revert s. induction buf as [|b r IH]; cbn [cstr_bytes]; [discriminate|].
  intros s. destruct (Z.eqb_spec b 0) as [->|Hb]; [intros [= <-]; exact id|].
  destruct (cstr_bytes r) as [t|]; cbn [option_map]; [|discriminate].
  intros [= <-]. cbn [In]. specialize (IH t eq_refl). intuition congruence.
Qed.

Lemma cstr_bytes_prefix buf s : cstr_bytes buf = Some s -> exists r, buf = s ++ 0 :: r.
Proof.
  revert s. induction buf as [|b r IH]; cbn [cstr_bytes]; [discriminate|].
  intros s. destruct (Z.eqb_spec b 0) as [->|Hb]; [intros [= <-]; exists r; reflexivity|].
  destruct (cstr_bytes r) as [t|]; cbn [option_map]; [|discriminate].
  intros [= <-]. destruct (IH t eq_refl) as [r' ->]. exists r'. reflexivity.
Qed.

