(* ===== verification/RustNum.v ===== *)
(** * Rust's numeric parsers

    [ColumnAffinity::result_text] (src/src/api.rs, lines 421-453) decides what
    to emit by [str::parse::<i32>], [str::parse::<i64>] and
    [str::parse::<f64>].  This file models the three parsers of the Rust
    standard library on byte lists.

    The integer parser is the loop of [core::num::from_str_radix] at radix 10:
    an optional sign, then digits accumulated with a checked multiplication
    and a checked addition (subtraction for a negative number).  Its
    reference, [int_value], reads the digits as an unbounded integer; the
    theorems relate the two.

    The float parser is the grammar of [core::num::dec2flt]: an optional sign,
    then "inf", "infinity" or "nan" in any case, or digits with an optional
    point and an optional exponent.  The value it returns is kept as the
    decimal it reads ([F64Dec]: sign, digits, power of ten), since no branch
    of the source depends on the rounding; the binary64 the decimal is
    rounded to is in [Float64].

    [itoa] is the decimal text of an integer, as [i64::to_string] prints it;
    it is the inverse of the integer parsers ([itoa_parse]), which is how
    integers reach [ColumnAffinity::result_text] as text. *)

From Stdlib Require Import ZArith Lia List String Ascii.
From stdpp Require Import base tactics option list.
From S2P Require Import Prelude RustStr.

#[local] Open Scope Z_scope.

(** ** Integers *)

Inductive IntErrorKind : Type :=
| Empty
| InvalidDigit
| PosOverflow
| NegOverflow.

(** [char::to_digit(10)] on a byte. *)
Definition to_digit (c : Z) : option Z :=
  if is_ascii_digit c then Some (c - 48) else None.

(** The loop for a number without a minus sign: [checked_mul] by ten, then the
    digit test, then [checked_add]. *)
Fixpoint parse_pos (max acc : Z) (digits : list Z) : result Z IntErrorKind :=
  match digits with
  | [] => Ok acc
  | c :: r =>
    match to_digit c with
    | None => Err InvalidDigit
    | Some x =>
      if acc * 10 <=? max then
        if acc * 10 + x <=? max then parse_pos max (acc * 10 + x) r
        else Err PosOverflow
      else Err PosOverflow
    end
  end.

(** The loop after a minus sign: [checked_mul], then [checked_sub]. *)
Fixpoint parse_neg (min acc : Z) (digits : list Z) : result Z IntErrorKind :=
  match digits with
  | [] => Ok acc
  | c :: r =>
    match to_digit c with
    | None => Err InvalidDigit
    | Some x =>
      if min <=? acc * 10 then
        if min <=? acc * 10 - x then parse_neg min (acc * 10 - x) r
        else Err NegOverflow
      else Err NegOverflow
    end
  end.

(** [from_str_radix(src, 10)] for a signed type with the given bounds. *)
Definition from_str_radix10 (min max : Z) (src : list Z) : result Z IntErrorKind :=
  match src with
  | [] => Err Empty
  | [c] =>
    if (c =? 43) || (c =? 45) then Err InvalidDigit else parse_pos max 0 src
  | c :: rest =>
    if c =? 43 then parse_pos max 0 rest
    else if c =? 45 then parse_neg min 0 rest
    else parse_pos max 0 src
  end.

Definition parse_i32 (src : list Z) : result Z IntErrorKind :=
  from_str_radix10 i32_min i32_max src.

Definition parse_i64 (src : list Z) : result Z IntErrorKind :=
  from_str_radix10 i64_min i64_max src.

(** *** Reference: the digits as an unbounded integer *)

Fixpoint digits_value (acc : Z) (digits : list Z) : option Z :=
  match digits with
  | [] => Some acc
  | c :: r =>
    match to_digit c with
    | None => None
    | Some x => digits_value (acc * 10 + x) r
    end
  end.

(** The integer a string denotes: an optional sign and at least one digit. *)
Definition int_value (src : list Z) : option Z :=
  match src with
  | [] => None
  | c :: rest =>
    if c =? 43 then if is_empty rest then None else digits_value 0 rest
    else if c =? 45 then
      if is_empty rest then None else option_map Z.opp (digits_value 0 rest)
    else digits_value 0 src
  end.

(** A string without its sign. *)
Definition unsigned (src : list Z) : list Z :=
  match src with
  | c :: rest => if (c =? 43) || (c =? 45) then rest else src
  | [] => []
  end.

(** The result of the positive loop, mirrored for a negative number. *)
Definition negate (r : result Z IntErrorKind) : result Z IntErrorKind :=
  match r with
  | Ok v => Ok (- v)
  | Err PosOverflow => Err NegOverflow
  | Err e => Err e
  end.

(** *** Printing: [i64::to_string], [u64::to_string] *)

(** The digits of [n] before [acc], the last digit computed first.  A number
    of 64 bits has at most 20 digits. *)
Fixpoint decimal (fuel : nat) (n : Z) (acc : list Z) : list Z :=
  match fuel with
  | O => acc
  | S fuel =>
    let acc := (48 + n mod 10) :: acc in
    if n <? 10 then acc else decimal fuel (n / 10) acc
  end.

Definition itoa (i : Z) : list Z :=
  if i <? 0 then 45 :: decimal 20 (- i) [] else decimal 20 i [].

(** ** Floats *)

(** A parsed [f64], as the decimal it was read from. *)
Inductive f64 : Type :=
| F64Nan (negative : bool)
| F64Inf (negative : bool)
| F64Dec (negative : bool) (mantissa : Z) (exp10 : Z).

(** [f64::is_nan]. *)
Definition is_nan (f : f64) : bool :=
  match f with
  | F64Nan _ => true
  | _ => false
  end.

Inductive FloatErrorKind : Type :=
| FloatEmpty
| FloatInvalid.

(** [try_parse_digits]: the digits at the front of [s], added to [acc]; their
    number; what follows them. *)
Fixpoint take_digits (acc : Z) (n : nat) (s : list Z) : Z * nat * list Z :=
  match s with
  | [] => (acc, n, [])
  | c :: r =>
    match to_digit c with
    | Some x => take_digits (acc * 10 + x) (S n) r
    | None => (acc, n, s)
    end
  end.

(** [parse_scientific]: what follows the 'e'. *)
Definition parse_scientific (s : list Z) : option (Z * list Z) :=
  let '(negative, s1) :=
    match s with
    | c :: r => if c =? 45 then (true, r) else if c =? 43 then (false, r) else (false, s)
    | [] => (false, s)
    end in
  match take_digits 0 0 s1 with
  | (_, O, _) => None
  | (e, S _, rest) => Some (if negative then - e else e, rest)
  end.

(** [parse_number]: mantissa and decimal exponent of a string that is a number
    to its end. *)
Definition parse_number (s : list Z) : option (Z * Z) :=
  let '(m1, n1, s1) := take_digits 0 0 s in
  let '(m2, n2, s2) :=
    match s1 with
    | c :: r => if c =? 46 then take_digits m1 0 r else (m1, O, s1)
    | [] => (m1, O, s1)
    end in
  if (n1 + n2 =? 0)%nat then None
  else
    match s2 with
    | [] => Some (m2, - Z.of_nat n2)
    | c :: r =>
      if (c =? 101) || (c =? 69) then
        match parse_scientific r with
        | Some (e, []) => Some (m2, e - Z.of_nat n2)
        | _ => None
        end
      else None
    end.

(** ASCII letters compared without case, as [parse_inf_nan] does by clearing
    bit 5 of every byte. *)
Definition eq_ignore_case (s : list Z) (p : string) : bool :=
  bool_decide (map (fun b => Z.land b 223) s = map (fun b => Z.land b 223) (lit p)).

Definition parse_inf_nan (s : list Z) (negative : bool) : option f64 :=
  if eq_ignore_case s "nan" then Some (F64Nan negative)
  else if eq_ignore_case s "inf" || eq_ignore_case s "infinity" then Some (F64Inf negative)
  else None.

(** [dec2flt]. *)
Definition parse_f64 (src : list Z) : result f64 FloatErrorKind :=
  match src with
  | [] => Err FloatEmpty
  | c :: r =>
    let negative := c =? 45 in
    let s := if (c =? 45) || (c =? 43) then r else src in
    if is_empty s then Err FloatInvalid
    else
      match parse_number s with
      | Some (m, e) => Ok (F64Dec negative m e)
      | None =>
        match parse_inf_nan s negative with
        | Some v => Ok v
        | None => Err FloatInvalid
        end
      end
  end.

(** ** Lemmas: digits *)

Lemma to_digit_Some c x : to_digit c = Some x -> 0 <= x <= 9 /\ c = x + 48.
Proof. unfold to_digit, is_ascii_digit. destruct (_ && _) eqn:E; [|discriminate]. intros [= <-]. lia. Qed.

Lemma digits_value_ge acc ds v : 0 <= acc -> digits_value acc ds = Some v -> acc <= v.
Proof.
  revert acc. induction ds as [|c r IH]; cbn [digits_value]; intros acc Hacc.
  - intros [= <-]. lia.
  - destruct (to_digit c) as [x|] eqn:E; [|discriminate].
    apply to_digit_Some in E as [Hx _]. intros H%IH; lia.
Qed.

(** The checked loop is the unbounded reading followed by the bound test. *)
Lemma parse_pos_spec max acc ds v :
  0 <= acc <= max ->
  parse_pos max acc ds = Ok v <-> digits_value acc ds = Some v /\ v <= max.
Proof.
  revert acc. induction ds as [|c r IH]; cbn [parse_pos digits_value]; intros acc Hacc.
  - split; [intros [= <-]; split; [reflexivity | lia] | intros [[= <-] _]; reflexivity].
  - destruct (to_digit c) as [x|] eqn:E; [|split; [discriminate | intros [[=] _]]].
    apply to_digit_Some in E as [Hx _].
    destruct (Z.leb_spec (acc * 10) max) as [H1|H1];
      [destruct (Z.leb_spec (acc * 10 + x) max) as [H2|H2]|].
    + apply IH. lia.
    + split; [discriminate|]. intros [H%digits_value_ge Hv]; lia.
    + split; [discriminate|]. intros [H%digits_value_ge Hv]; lia.
Qed.

Lemma parse_neg_mirror min acc ds :
  parse_neg min acc ds = negate (parse_pos (- min) (- acc) ds).
Proof.
  revert acc. induction ds as [|c r IH]; cbn [parse_neg parse_pos negate]; intros acc.
  - f_equal. lia.
  - destruct (to_digit c) as [x|]; [|reflexivity].
    replace (- acc * 10 <=? - min) with (min <=? acc * 10) by lia.
    replace (- acc * 10 + x <=? - min) with (min <=? acc * 10 - x) by lia.
    destruct (min <=? acc * 10); [|reflexivity].
    destruct (min <=? acc * 10 - x); [|reflexivity].
    rewrite IH. do 2 f_equal. lia.
Qed.

Lemma parse_neg_spec min acc ds v :
  min <= acc <= 0 ->
  parse_neg min acc ds = Ok v <->
  exists w, digits_value (- acc) ds = Some w /\ v = - w /\ min <= v.
Proof.
  intros Hacc. rewrite parse_neg_mirror.
  destruct (parse_pos (- min) (- acc) ds) as [w|e] eqn:E; cbn [negate].
  - apply parse_pos_spec in E as [E Hw]; [|lia]. split.
    + intros [= <-]. exists w. split; [exact E | lia].
    + intros (w' & E' & -> & _). congruence.
  - split; [destruct e; discriminate|].
    intros (w & Hw & -> & Hmin).
    assert (parse_pos (- min) (- acc) ds = Ok w) as E2 by (apply parse_pos_spec; [lia | split; [exact Hw | lia]]).
    congruence.
Qed.

Lemma digits_value_nonneg ds v : digits_value 0 ds = Some v -> 0 <= v.
Proof. apply digits_value_ge. lia. Qed.

Lemma to_digit_sign c : (c =? 43) || (c =? 45) = true -> to_digit c = None.
Proof. unfold to_digit, is_ascii_digit. intros H. destruct (_ && _) eqn:E; [lia | reflexivity]. Qed.

(** The parser accepts exactly the strings that denote an integer within the
    bounds, and returns that integer. *)
Lemma from_str_radix10_spec min max src v :
  min <= 0 <= max ->
  from_str_radix10 min max src = Ok v <-> int_value src = Some v /\ min <= v <= max.
Proof.
  intros Hb. destruct src as [|c [|c2 rest]]; cbn [from_str_radix10 int_value is_empty].
  - split; [discriminate | intros [[=] _]].
  - destruct ((c =? 43) || (c =? 45)) eqn:Hs.
    + split; [discriminate|]. intros [H _]. revert H.
      destruct (c =? 43); [discriminate|]. destruct (c =? 45); [discriminate | lia].
    + replace (c =? 43) with false by lia. replace (c =? 45) with false by lia.
      rewrite parse_pos_spec by lia. split.
      * intros [H Hv]. pose proof (digits_value_nonneg _ _ H). split; [exact H | lia].
      * intros [H Hv]. split; [exact H | lia].
  - destruct (c =? 43); [|destruct (c =? 45)].
    + rewrite parse_pos_spec by lia. split.
      * intros [H Hv]. pose proof (digits_value_nonneg _ _ H). split; [exact H | lia].
      * intros [H Hv]. split; [exact H | lia].
    + rewrite parse_neg_spec by lia. change (- 0) with 0. split.
      * intros (w & H & -> & Hmin). pose proof (digits_value_nonneg _ _ H).
        rewrite H. split; [reflexivity | lia].
      * intros [H Hv]. destruct (digits_value 0 (c2 :: rest)) as [w|]; [|discriminate].
        injection H as <-. exists w. split; [reflexivity | lia].
    + rewrite parse_pos_spec by lia. split.
      * intros [H Hv]. pose proof (digits_value_nonneg _ _ H). split; [exact H | lia].
      * intros [H Hv]. split; [exact H | lia].
Qed.

Lemma parse_i32_spec src v :
  parse_i32 src = Ok v <-> int_value src = Some v /\ in_i32 v = true.
Proof.
  unfold parse_i32. rewrite from_str_radix10_spec, in_i32_spec; [reflexivity|].
  unfold i32_min, i32_max. lia.
Qed.

Lemma parse_i64_spec src v :
  parse_i64 src = Ok v <-> int_value src = Some v /\ in_i64 v = true.
Proof.
  unfold parse_i64. rewrite from_str_radix10_spec, in_i64_spec; [reflexivity|].
  unfold i64_min, i64_max. lia.
Qed.

(** What parses as an [i32] parses as an [i64], to the same number. *)
Lemma parse_i32_i64 src v : parse_i32 src = Ok v -> parse_i64 src = Ok v.
Proof.
  rewrite parse_i32_spec, parse_i64_spec. intros [H Hv]. auto using in_i32_in_i64.
Qed.

(** A string that is no [i32] but an [i64] denotes a number outside the 32-bit
    range. *)
Lemma parse_i64_not_i32 src v e :
  parse_i32 src = Err e -> parse_i64 src = Ok v -> in_i32 v = false.
Proof.
  intros H32 [H Hv]%parse_i64_spec. destruct (in_i32 v) eqn:E; [|reflexivity].
  assert (parse_i32 src = Ok v) by (apply parse_i32_spec; auto). congruence.
Qed.

(** ** Lemmas: floats *)

Lemma take_digits_all acc n ds v :
  digits_value acc ds = Some v -> take_digits acc n ds = (v, (n + length ds)%nat, []).
Proof.
  revert acc n. induction ds as [|c r IH]; cbn [digits_value take_digits length]; intros acc n.
  - intros [= <-]. rewrite Nat.add_0_r. reflexivity.
  - destruct (to_digit c); [|discriminate]. intros H%(IH _ (S n)). rewrite H.
    do 2 f_equal. lia.
Qed.

Lemma parse_number_digits ds v :
  ds <> [] -> digits_value 0 ds = Some v -> parse_number ds = Some (v, 0).
Proof.
  intros Hne H. unfold parse_number. rewrite (take_digits_all _ 0 _ _ H).
  destruct ds; [congruence|]. reflexivity.
Qed.

(** The mantissa of a float literal is its digits: it has no sign. *)
Lemma take_digits_nonneg s : forall acc n, 0 <= acc -> 0 <= (take_digits acc n s).1.1.
Proof.
  induction s as [|c r IH]; intros acc n Hacc; cbn [take_digits]; [exact Hacc|].
  destruct (to_digit c) as [x|] eqn:E; [|exact Hacc].
  apply IH. apply to_digit_Some in E. lia.
Qed.

Lemma parse_number_nonneg s m e : parse_number s = Some (m, e) -> 0 <= m.
Proof.
  unfold parse_number. pose proof (take_digits_nonneg s 0 0%nat ltac:(lia)) as H1.
  destruct (take_digits 0 0 s) as [[m1 n1] s1]. cbn [fst] in H1.
  assert (H2 : forall r, 0 <= (take_digits m1 0 r).1.1) by (intros r; apply take_digits_nonneg, H1).
  destruct s1 as [|c r].
  - repeat case_match; intros; simplify_eq; assumption.
  - destruct (c =? 46).
    + specialize (H2 r). destruct (take_digits m1 0 r) as [[m2 n2] s2]. cbn [fst] in H2.
      repeat case_match; intros; simplify_eq; assumption.
    + repeat case_match; intros; simplify_eq; assumption.
Qed.

Lemma parse_f64_nonneg s negative m e : parse_f64 s = Ok (F64Dec negative m e) -> 0 <= m.
Proof.
  unfold parse_f64, parse_inf_nan. repeat case_match; intros; simplify_eq;
    eauto using parse_number_nonneg.
Qed.

(** Every string that denotes an integer is a float literal with exponent
    zero and the same digits. *)
Lemma int_value_parse_f64 src v :
  int_value src = Some v ->
  exists negative m,
    parse_f64 src = Ok (F64Dec negative m 0) /\ v = (if negative then - m else m).
Proof.
  destruct src as [|c rest]; [discriminate|]. cbn [int_value parse_f64].
  destruct (c =? 43) eqn:E43; [replace (c =? 45) with false by lia|
    destruct (c =? 45) eqn:E45]; cbn [orb].
  - destruct rest as [|c2 r]; [discriminate|]. cbn [is_empty]. intros H.
    rewrite (parse_number_digits (c2 :: r) v ltac:(discriminate) H). exists false, v. auto.
  - destruct rest as [|c2 r]; [discriminate|]. cbn [is_empty].
    destruct (digits_value 0 (c2 :: r)) as [w|] eqn:H; [|discriminate]. intros [= <-].
    rewrite (parse_number_digits (c2 :: r) w ltac:(discriminate) H). exists true, w. auto.
  - cbn [is_empty]. intros H.
    rewrite (parse_number_digits (c :: rest) v ltac:(discriminate) H). exists false, v. auto.
Qed.

Lemma int_value_parse_f64_abs src v :
  int_value src = Some v -> exists negative, parse_f64 src = Ok (F64Dec negative (Z.abs v) 0).
Proof.
  intros Hv. destruct (int_value_parse_f64 src v Hv) as (negative & m & Hp & ->).
  pose proof (parse_f64_nonneg _ _ _ _ Hp). exists negative. rewrite Hp.
  destruct negative; do 3 f_equal; lia.
Qed.

(** The strings that denote an integer are a sign, if any, and digits, with
    nothing before, between or after. *)
Lemma digits_value_digits acc ds v :
  digits_value acc ds = Some v -> Forall (fun c => is_ascii_digit c = true) ds.
Proof.
  revert acc. induction ds as [|c r IH]; cbn [digits_value]; intros acc; [constructor|].
  unfold to_digit. destruct (is_ascii_digit c) eqn:E; [|discriminate].
  intros Hv. constructor; [exact E | exact (IH _ Hv)].
Qed.

Lemma int_value_strict src v :
  int_value src = Some v ->
  unsigned src <> [] /\ Forall (fun c => is_ascii_digit c = true) (unsigned src).
Proof.
  destruct src as [|c rest]; [discriminate|]. cbn [int_value unsigned].
  destruct (c =? 43) eqn:E43; [|destruct (c =? 45) eqn:E45]; cbn [orb].
  - destruct rest; [discriminate|]. intros Hv%digits_value_digits. split; [discriminate | exact Hv].
  - destruct rest as [|c2 r]; [discriminate|]. cbn [is_empty].
    destruct (digits_value 0 (c2 :: r)) eqn:Hv; [|discriminate].
    intros _. apply digits_value_digits in Hv. split; [discriminate | exact Hv].
  - intros Hv%digits_value_digits. split; [discriminate | exact Hv].
Qed.

(** A text that denotes an integer has no nul byte. *)
Lemma int_value_clean src v : int_value src = Some v -> ~ In 0 src.
Proof.
  intros Hv. destruct (int_value_strict src v Hv) as [_ Hd].
  assert (Hu : ~ In 0 (unsigned src)).
  { intros Hin. rewrite List.Forall_forall in Hd. specialize (Hd 0 Hin). discriminate. }
  destruct src as [|c rest]; [exact id|]. cbn [unsigned] in Hu.
  destruct (Z.eqb_spec c 43) as [->|_]; [|destruct (Z.eqb_spec c 45) as [->|_]];
    cbn [orb] in Hu; [intros [?|?]; [lia|tauto]..|exact Hu].
Qed.

(** ** Lemmas: printing *)

Lemma decimal_S fuel n acc :
  decimal (S fuel) n acc =
  if n <? 10 then (48 + n mod 10) :: acc else decimal fuel (n / 10) ((48 + n mod 10) :: acc).
Proof. reflexivity. Qed.

Lemma decimal_app fuel n acc : decimal fuel n acc = decimal fuel n [] ++ acc.
Proof.
  revert n acc. induction fuel as [|fuel IH]; intros n acc; [reflexivity|]. cbn [decimal].
  destruct (n <? 10); [reflexivity|].
  rewrite (IH _ (_ :: acc)), (IH _ [_]), <- app_assoc. reflexivity.
Qed.

Lemma decimal_digits fuel n : 0 <= n -> forallb is_ascii_digit (decimal fuel n []) = true.
Proof.
  revert n. induction fuel as [|fuel IH]; intros n Hn; [reflexivity|]. cbn [decimal].
  assert (Hd : is_ascii_digit (48 + n mod 10) = true).
  { unfold is_ascii_digit. pose proof (Z.mod_pos_bound n 10). lia. }
  destruct (n <? 10); [cbn; rewrite Hd; reflexivity|].
  rewrite decimal_app, forallb_app, IH by (apply Z.div_pos; lia). cbn. rewrite Hd. reflexivity.
Qed.

Lemma digits_value_app a ds1 ds2 :
  digits_value a (ds1 ++ ds2) =
  match digits_value a ds1 with
  | Some v => digits_value v ds2
  | None => None
  end.
Proof.
  revert a. induction ds1 as [|c r IH]; intros a; [reflexivity|]. cbn [app digits_value].
  destruct (to_digit c); [apply IH | reflexivity].
Qed.

Lemma to_digit_of d : 0 <= d <= 9 -> to_digit (48 + d) = Some d.
Proof.
  intros Hd. unfold to_digit, is_ascii_digit.
  replace ((48 <=? 48 + d) && (48 + d <=? 57)) with true by lia. f_equal. lia.
Qed.

(** With enough fuel the digits of [n] denote [n], after whatever was read
    before. *)
Lemma decimal_value fuel n :
  0 <= n < 10 ^ Z.of_nat (S fuel) ->
  exists k, 0 < k /\ forall a, digits_value a (decimal (S fuel) n []) = Some (a * 10 ^ k + n).
Proof.
  revert n. induction fuel as [|fuel IH]; intros n Hn; rewrite decimal_S;
    pose proof (Z.mod_pos_bound n 10 ltac:(lia)) as Hm;
    pose proof (Z.div_mod n 10 ltac:(lia)) as Hdm;
    destruct (Z.ltb_spec n 10) as [Hlt|Hge].
  1, 3: exists 1; split; [lia|]; intros a; cbn [digits_value]; rewrite Z.mod_small by lia;
    rewrite (to_digit_of n) by lia; f_equal; lia.
  - change (10 ^ Z.of_nat 1) with 10 in Hn. lia.
  - destruct (IH (n / 10)) as (k & Hk0 & Hk).
    { split; [apply Z.div_pos; lia|]. apply Z.div_lt_upper_bound; [lia|].
      rewrite (Nat2Z.inj_succ (S fuel)), Z.pow_succ_r in Hn by lia. lia. }
    exists (k + 1). split; [lia|]. intros a.
    rewrite (decimal_app (S fuel)), digits_value_app, Hk. cbn [digits_value].
    rewrite (to_digit_of (n mod 10)) by lia. f_equal.
    rewrite Z.pow_add_r, Z.pow_1_r by lia. lia.
Qed.

Lemma decimal_nonempty fuel n : decimal (S fuel) n [] <> [].
Proof.
  cbn [decimal]. destruct (n <? 10); [discriminate|]. rewrite decimal_app.
  intros [_ [=]]%app_eq_nil.
Qed.

(** The text of an integer of at most 20 digits denotes it. *)
Lemma int_value_itoa i : - 10 ^ 20 < i < 10 ^ 20 -> int_value (itoa i) = Some i.
Proof.
  intros Hi. unfold itoa. destruct (Z.ltb_spec i 0) as [Hneg|Hpos].
  - assert (Hb : 0 <= - i < 10 ^ Z.of_nat 20) by (change (Z.of_nat 20) with 20; lia).
    destruct (decimal_value 19 (- i) Hb) as (k & _ & Hk).
    cbn [int_value]. change (45 =? 43) with false. change (45 =? 45) with true. cbv iota.
    pose proof (decimal_nonempty 19 (- i)) as Hne.
    destruct (decimal 20 (- i) []) eqn:E; [congruence|]. cbn [is_empty].
    rewrite Hk, Z.mul_0_l. cbn [option_map]. f_equal. lia.
  - assert (Hb : 0 <= i < 10 ^ Z.of_nat 20) by (change (Z.of_nat 20) with 20; lia).
    destruct (decimal_value 19 i Hb) as (k & _ & Hk).
    pose proof (decimal_nonempty 19 i) as Hne. pose proof (decimal_digits 20 i Hpos) as Hd.
    destruct (decimal 20 i []) as [|c r] eqn:E; [congruence|]. cbn [int_value].
    cbn [forallb] in Hd. apply andb_true_iff in Hd as [Hc _]. unfold is_ascii_digit in Hc.
    replace (c =? 43) with false by lia. replace (c =? 45) with false by lia.
    rewrite Hk, Z.mul_0_l. reflexivity.
Qed.

Lemma digits_clean ds : forallb is_ascii_digit ds = true -> ~ In 0 ds.
Proof.
  induction ds as [|c r IH]; [exact (fun _ H => H)|]. cbn [forallb In].
  intros [Hc Hr]%andb_true_iff [->|Hin]; [discriminate | exact (IH Hr Hin)].
Qed.

Lemma itoa_clean i : ~ In 0 (itoa i).
Proof.
  unfold itoa. destruct (Z.ltb_spec i 0); [intros [?|Hin]; [discriminate|] | intros Hin];
    revert Hin; apply digits_clean, decimal_digits; lia.
Qed.

(** Printing then parsing an integer of 64 bits gives the integer back:
    [i.to_string().parse::<i64>()] is [Ok(i)], as 32 bits when it fits. *)
Theorem itoa_parse i :
  in_i64 i = true ->
  parse_i64 (itoa i) = Ok i /\ (in_i32 i = true -> parse_i32 (itoa i) = Ok i).
Proof.
  intros Hi. assert (Hv : int_value (itoa i) = Some i).
  { apply int_value_itoa. apply in_i64_spec in Hi. unfold i64_min, i64_max in Hi. lia. }
  split; [apply parse_i64_spec | intros H32; apply parse_i32_spec]; auto.
Qed.

Lemma itoa_parse_witness :
  parse_i64 (itoa (-9223372036854775808)) = Ok (-9223372036854775808)
  /\ (in_i32 (-9223372036854775808) = true ->
      parse_i32 (itoa (-9223372036854775808)) = Ok (-9223372036854775808)).
Proof. apply itoa_parse. reflexivity. Defined.
