(* ===== verification/Float64.v ===== *)
(** * The binary64 a parsed number denotes

    [str::parse::<f64>] returns the [f64] nearest to the decimal it reads,
    ties to the even mantissa.  [RustNum] keeps the decimal ([F64Dec]); this
    file gives the double: [binary64_of] rounds the decimal to a value of
    [spec_float], the type by which the Standard Library specifies IEEE 754
    arithmetic, with the 53 bits of precision and the exponent range of
    binary64.

    The rounding is written on integers.  A positive rational [n / d] is
    rounded in the unit [2 ^ e], where [e] ([ulp_exp]) is chosen so that the
    quotient has 53 bits, or is the exponent of the subnormal numbers when
    the rational is too small; [round_even] rounds the quotient, and [pack]
    puts the result in the form of [spec_float], with infinity past the
    largest finite number.

    The theorems: the rounded quotient is within half a unit of the rational
    ([round_even_error]) and equal to it exactly when the division leaves no
    remainder ([round_even_exact]); an integer is stored exactly if and only
    if it is a multiple of the unit, which is [2 ^ (log2 n - 52)]
    ([integer_exact_iff]), so no odd integer from [2 ^ 53] on is
    ([odd_integer_inexact]); a decimal with digits after the point that is
    not a multiple of a power of five is never stored exactly
    ([decimal_inexact]).  The examples compare the rounding with
    [binary_normalize] and [SFdiv] of the Standard Library. *)

From Stdlib Require Import ZArith Lia List String Ascii.
From Stdlib Require Import Floats.SpecFloat.
From stdpp Require Import base tactics option list.
From S2P Require Import Prelude RustStr RustNum.

#[local] Open Scope Z_scope.

#[export] Instance spec_float_eq_dec : EqDecision spec_float.
Proof. solve_decision. Defined.

(** ** Rounding *)

(** The exponent of the smallest subnormal number, and of the unit of the
    largest finite number. *)
Definition min_exp : Z := -1074.
Definition max_exp : Z := 971.

(** Numerator and denominator of [n / d] counted in units of [2 ^ e]. *)
Definition scaled (n d e : Z) : Z * Z :=
  if 0 <=? e then (n, d * 2 ^ e) else (n * 2 ^ (- e), d).

(** [n / d] is below [c] units of [2 ^ e], and at least [c] of them. *)
Definition below (n d e c : Z) : Prop := let '(num, den) := scaled n d e in num < c * den.
Definition reaches (n d e c : Z) : Prop := let '(num, den) := scaled n d e in c * den <= num.

(** The unit in which [n / d] is rounded: that in which the quotient lies
    between [2 ^ 52] and [2 ^ 53], but not below [min_exp]. *)
Definition ulp_exp (n d : Z) : Z :=
  let k := Z.log2 n - Z.log2 d in
  let '(num, den) := scaled n d (k - 52) in
  Z.max (if num / den <? 2 ^ 52 then k - 53 else k - 52) min_exp.

(** To the nearest integer, ties to even. *)
Definition round_even (num den : Z) : Z :=
  let q := num / den in
  let r := num mod den in
  if 2 * r <? den then q
  else if den <? 2 * r then q + 1
  else if Z.even q then q else q + 1.

(** The mantissa and the exponent of the double nearest to [n / d]. *)
Definition rounded (n d : Z) : Z * Z :=
  let e := ulp_exp n d in
  let '(num, den) := scaled n d e in
  (round_even num den, e).

(** A mantissa of at most [2 ^ 53] and an exponent as a float. *)
Definition pack (negative : bool) (me : Z * Z) : spec_float :=
  let '(m, e) := me in
  if m =? 0 then S754_zero negative
  else if m =? 2 ^ 53 then
    if e <? max_exp then S754_finite negative (Z.to_pos (2 ^ 52)) (e + 1)
    else S754_infinity negative
  else if max_exp <? e then S754_infinity negative
  else S754_finite negative (Z.to_pos m) e.

Definition nearest (negative : bool) (n d : Z) : spec_float :=
  if n =? 0 then S754_zero negative else pack negative (rounded n d).

(** The rational a decimal denotes, as a fraction. *)
Definition fraction (m e : Z) : Z * Z :=
  if 0 <=? e then (m * 10 ^ e, 1) else (m, 10 ^ (- e)).

(** The double [parse::<f64>] returns. *)
Definition binary64_of (f : f64) : spec_float :=
  match f with
  | F64Nan _ => S754_nan
  | F64Inf negative => S754_infinity negative
  | F64Dec negative m e => let '(n, d) := fraction m e in nearest negative n d
  end.

(** The float [x] is, in absolute value, the rational [n / d]. *)
Definition exactly (x : spec_float) (n d : Z) : bool :=
  match x with
  | S754_zero _ => n =? 0
  | S754_finite _ m e => let '(num, den) := scaled n d e in Z.pos m * den =? num
  | _ => false
  end.

(** The double of a decimal is the decimal. *)
Definition exact (f : f64) : bool :=
  match f with
  | F64Dec _ m e => let '(n, d) := fraction m e in exactly (binary64_of f) n d
  | _ => true
  end.

(** ** Lemmas: the rounding step *)

Section Step.
Context (num den : Z).
Hypothesis Hnum : 0 <= num.
Hypothesis Hden : 0 < den.

Lemma round_even_cases :
  round_even num den = num / den \/ round_even num den = num / den + 1.
Proof. unfold round_even. repeat case_match; auto. Qed.

(** Half a unit at most. *)
Lemma round_even_error : Z.abs (2 * (round_even num den * den - num)) <= den.
Proof.
  unfold round_even. pose proof (Z.div_mod num den ltac:(lia)) as E.
  pose proof (Z.mod_pos_bound num den Hden) as B.
  repeat case_match; nia.
Qed.

(** Exact when the division is. *)
Lemma round_even_exact : round_even num den * den = num <-> num mod den = 0.
Proof.
  unfold round_even. pose proof (Z.div_mod num den ltac:(lia)) as E.
  pose proof (Z.mod_pos_bound num den Hden) as B.
  repeat case_match; nia.
Qed.

Lemma round_even_nonneg : 0 <= round_even num den.
Proof.
  pose proof (Z.div_pos num den Hnum Hden). destruct round_even_cases as [-> | ->]; lia.
Qed.

End Step.

(** ** Lemmas: units *)

Lemma scaled_pos n d e num den :
  0 < n -> 0 < d -> scaled n d e = (num, den) -> 0 < num /\ 0 < den.
Proof.
  unfold scaled. intros Hn Hd. destruct (Z.leb_spec 0 e); intros [= <- <-].
  - pose proof (Z.pow_pos_nonneg 2 e). nia.
  - pose proof (Z.pow_pos_nonneg 2 (- e)). nia.
Qed.

(** A mantissa in the unit [2 ^ (e + 1)] is twice that mantissa in the unit
    [2 ^ e]. *)
Lemma scaled_succ n d e m :
  (let '(num, den) := scaled n d (e + 1) in m * den = num)
  <-> (let '(num, den) := scaled n d e in 2 * m * den = num).
Proof.
  unfold scaled. destruct (Z.leb_spec 0 e), (Z.leb_spec 0 (e + 1)); try lia.
  - rewrite Z.pow_add_r, Z.pow_1_r by lia. nia.
  - assert (e = -1) as -> by lia. cbn. lia.
  - replace (- e) with (- (e + 1) + 1) by lia. rewrite Z.pow_add_r, Z.pow_1_r by lia. nia.
Qed.

(** The unit of an integer leaves it 53 bits. *)
Lemma ulp_exp_integer n : 0 < n -> ulp_exp n 1 = Z.log2 n - 52.
Proof.
  intros Hn. unfold ulp_exp, scaled, min_exp. cbn [Z.log2]. rewrite Z.sub_0_r.
  pose proof (Z.log2_nonneg n) as Hk. destruct (Z.log2_spec n Hn) as [Hlo _].
  destruct (Z.leb_spec 0 (Z.log2 n - 52)) as [Hge|Hlt].
  - rewrite Z.mul_1_l.
    assert (2 ^ 52 <= n / 2 ^ (Z.log2 n - 52)).
    { apply Z.div_le_lower_bound; [apply Z.pow_pos_nonneg; lia|].
      rewrite <- Z.pow_add_r by lia. replace (Z.log2 n - 52 + 52) with (Z.log2 n) by lia.
      exact Hlo. }
    destruct (Z.ltb_spec (n / 2 ^ (Z.log2 n - 52)) (2 ^ 52)); lia.
  - rewrite Z.div_1_r.
    assert (2 ^ 52 <= n * 2 ^ (- (Z.log2 n - 52))).
    { replace (2 ^ 52) with (2 ^ Z.log2 n * 2 ^ (- (Z.log2 n - 52)))
        by (rewrite <- Z.pow_add_r by lia; f_equal; lia).
      apply Z.mul_le_mono_nonneg_r; [apply Z.pow_nonneg; lia | exact Hlo]. }
    destruct (Z.ltb_spec (n * 2 ^ (- (Z.log2 n - 52))) (2 ^ 52)); lia.
Qed.

(** ** Lemmas: the mantissa has 53 bits *)

Section Bounds.
Context (n d : Z).
Hypothesis Hn : 0 < n.
Hypothesis Hd : 0 < d.

(** The quotient in the unit [2 ^ e] is twice that in the unit
    [2 ^ (e + 1)]. *)
Lemma scaled_ratio e :
  fst (scaled n d e) * snd (scaled n d (e + 1))
  = 2 * fst (scaled n d (e + 1)) * snd (scaled n d e).
Proof.
  unfold scaled. destruct (Z.leb_spec 0 e), (Z.leb_spec 0 (e + 1)); try lia; cbn [fst snd].
  - rewrite Z.pow_add_r, Z.pow_1_r by lia. lia.
  - assert (e = -1) as -> by lia. cbn. lia.
  - replace (- e) with (- (e + 1) + 1) by lia. rewrite Z.pow_add_r, Z.pow_1_r by lia. lia.
Qed.

Lemma scaled_positive e : 0 < fst (scaled n d e) /\ 0 < snd (scaled n d e).
Proof.
  destruct (scaled n d e) as [num den] eqn:E. exact (scaled_pos n d e num den Hn Hd E).
Qed.

Lemma below_succ e c : below n d (e + 1) c <-> below n d e (2 * c).
Proof.
  unfold below. pose proof (scaled_ratio e) as R.
  destruct (scaled_positive e), (scaled_positive (e + 1)).
  destruct (scaled n d e), (scaled n d (e + 1)); cbn [fst snd] in *. nia.
Qed.

Lemma reaches_succ e c : reaches n d (e + 1) c <-> reaches n d e (2 * c).
Proof.
  unfold reaches. pose proof (scaled_ratio e) as R.
  destruct (scaled_positive e), (scaled_positive (e + 1)).
  destruct (scaled n d e), (scaled n d (e + 1)); cbn [fst snd] in *. nia.
Qed.

Lemma below_weaken e c : 0 < c -> below n d e c -> below n d e (2 * c).
Proof.
  unfold below. destruct (scaled_positive e). destruct (scaled n d e); cbn [fst snd] in *. nia.
Qed.

(** A larger unit counts fewer. *)
Lemma below_mono e e' c : 0 < c -> e <= e' -> below n d e c -> below n d e' c.
Proof.
  intros Hc Hle Hb. replace e' with (e + (e' - e)) by lia.
  apply (natlike_ind (fun j => below n d (e + j) c)); [rewrite Z.add_0_r; exact Hb| |lia].
  intros j Hj IH. replace (e + Z.succ j) with (e + j + 1) by lia.
  apply below_succ, below_weaken; assumption.
Qed.

(** [n / d] lies between [2 ^ (k - 1)] and [2 ^ (k + 1)], for [k] the
    difference of the binary logarithms. *)
Lemma below_log2 : below n d (Z.log2 n - Z.log2 d - 52) (2 ^ 53).
Proof.
  pose proof (Z.log2_nonneg n). pose proof (Z.log2_nonneg d).
  destruct (Z.log2_spec n Hn) as [_ Hhi], (Z.log2_spec d Hd) as [Hlo _].
  unfold below, scaled. set (a := Z.log2 n) in *. set (b := Z.log2 d) in *.
  destruct (Z.leb_spec 0 (a - b - 52)).
  - assert (E : 2 ^ 53 * (2 ^ b * 2 ^ (a - b - 52)) = 2 ^ Z.succ a)
      by (rewrite <- !Z.pow_add_r by lia; f_equal; lia).
    pose proof (Z.pow_pos_nonneg 2 (a - b - 52)). nia.
  - assert (E : 2 ^ Z.succ a * 2 ^ (- (a - b - 52)) = 2 ^ 53 * 2 ^ b)
      by (rewrite <- !Z.pow_add_r by lia; f_equal; lia).
    pose proof (Z.pow_pos_nonneg 2 (- (a - b - 52))). nia.
Qed.

Lemma reaches_log2 : reaches n d (Z.log2 n - Z.log2 d - 53) (2 ^ 52).
Proof.
  pose proof (Z.log2_nonneg n). pose proof (Z.log2_nonneg d).
  destruct (Z.log2_spec n Hn) as [Hlo _], (Z.log2_spec d Hd) as [_ Hhi].
  unfold reaches, scaled. set (a := Z.log2 n) in *. set (b := Z.log2 d) in *.
  destruct (Z.leb_spec 0 (a - b - 53)).
  - assert (E : 2 ^ 52 * (2 ^ Z.succ b * 2 ^ (a - b - 53)) = 2 ^ a)
      by (rewrite <- !Z.pow_add_r by lia; f_equal; lia).
    pose proof (Z.pow_pos_nonneg 2 (a - b - 53)). nia.
  - assert (E : 2 ^ a * 2 ^ (- (a - b - 53)) = 2 ^ 52 * 2 ^ Z.succ b)
      by (rewrite <- !Z.pow_add_r by lia; f_equal; lia).
    pose proof (Z.pow_pos_nonneg 2 (- (a - b - 53))). nia.
Qed.

(** In its unit [n / d] is below [2 ^ 53], and at least [2 ^ 52] unless the
    unit is that of the subnormal numbers. *)
Lemma ulp_exp_spec :
  min_exp <= ulp_exp n d /\ below n d (ulp_exp n d) (2 ^ 53)
  /\ (min_exp < ulp_exp n d -> reaches n d (ulp_exp n d) (2 ^ 52)).
Proof.
  unfold ulp_exp. set (k := Z.log2 n - Z.log2 d).
  pose proof below_log2 as Hb. pose proof reaches_log2 as Hr. fold k in Hb, Hr.
  destruct (scaled n d (k - 52)) as [num den] eqn:E.
  destruct (scaled_pos n d _ num den Hn Hd E) as [Hnum Hden].
  assert (Hq : num / den < 2 ^ 52 <-> num < 2 ^ 52 * den).
  { split; [|intros Hlt; apply Z.div_lt_upper_bound; lia]. intros Hlt.
    pose proof (Z.div_mod num den ltac:(lia)). pose proof (Z.mod_pos_bound num den Hden). nia. }
  destruct (Z.ltb_spec (num / den) (2 ^ 52)) as [Hlt|Hge].
  - assert (Hb1 : below n d (k - 53) (2 ^ 53)).
    { replace (k - 52) with (k - 53 + 1) in E by lia.
      apply (below_succ (k - 53) (2 ^ 52)). unfold below. rewrite E. tauto. }
    split; [lia|]. split; [apply (below_mono (k - 53)); [lia | lia | exact Hb1]|].
    intros Hm. rewrite Z.max_l by lia. exact Hr.
  - split; [lia|]. split; [apply (below_mono (k - 52)); [lia | lia | exact Hb]|].
    intros Hm. rewrite Z.max_l by lia. unfold reaches. rewrite E. lia.
Qed.

(** The rounded mantissa has at most 53 bits, or is [2 ^ 53]; it has 53
    unless the number is subnormal. *)
Lemma rounded_bounds m e :
  rounded n d = (m, e) ->
  min_exp <= e /\ 0 <= m <= 2 ^ 53 /\ (min_exp < e -> 2 ^ 52 <= m).
Proof.
  unfold rounded. destruct ulp_exp_spec as (Hmin & Hb & Hr). unfold below, reaches in *.
  destruct (scaled n d (ulp_exp n d)) as [num den] eqn:E. intros [= <- <-].
  destruct (scaled_pos n d _ num den Hn Hd E) as [Hnum Hden].
  assert (Hq : num / den < 2 ^ 53) by (apply Z.div_lt_upper_bound; lia).
  pose proof (Z.div_pos num den ltac:(lia) Hden).
  split; [exact Hmin|]. split; [destruct (round_even_cases num den) as [-> | ->]; lia|].
  intros Hm. specialize (Hr Hm).
  assert (2 ^ 52 <= num / den) by (apply Z.div_le_lower_bound; lia).
  destruct (round_even_cases num den) as [-> | ->]; lia.
Qed.

(** The rounding errs by half a unit at most. *)
Lemma rounded_error m e num den :
  rounded n d = (m, e) -> scaled n d e = (num, den) ->
  Z.abs (2 * (m * den - num)) <= den.
Proof.
  unfold rounded. destruct (scaled n d (ulp_exp n d)) as [num' den'] eqn:E.
  intros [= <- <-]. rewrite E. intros [= <- <-].
  destruct (scaled_pos n d _ num' den' Hn Hd E). apply round_even_error; lia.
Qed.

End Bounds.

(** [digits2_pos] counts the bits. *)
Lemma digits2_log2 m : Z.pos (digits2_pos m) = Z.log2 (Z.pos m) + 1.
Proof.
  induction m as [p IH|p IH|]; cbn [digits2_pos]; [| |reflexivity]; rewrite Pos2Z.inj_succ, IH.
  - rewrite Pos2Z.inj_xI, Z.log2_succ_double by lia. lia.
  - rewrite Pos2Z.inj_xO, Z.log2_double by lia. lia.
Qed.

Lemma bounded_intro m e :
  0 < m < 2 ^ 53 -> min_exp <= e <= max_exp -> (min_exp < e -> 2 ^ 52 <= m) ->
  bounded 53 1024 (Z.to_pos m) e = true.
Proof.
  intros Hm He Hn. unfold bounded, canonical_mantissa, fexp, SpecFloat.emin, min_exp, max_exp in *.
  rewrite digits2_log2, Z2Pos.id by lia.
  assert (Hlt : Z.log2 m < 53) by (apply Z.log2_lt_pow2; lia).
  apply andb_true_intro. split; [|lia]. apply Z.eqb_eq.
  destruct (Z.eq_dec e (-1074)) as [->|Hne]; [lia|].
  assert (52 <= Z.log2 m) by (apply Z.log2_le_pow2; lia). lia.
Qed.

(** The rounding yields a number of binary64, in canonical form. *)
Theorem nearest_valid negative n d :
  0 <= n -> 0 < d -> valid_binary 53 1024 (nearest negative n d) = true.
Proof.
  intros Hn Hd. unfold nearest. destruct (Z.eqb_spec n 0) as [->|H0]; [reflexivity|].
  destruct (rounded n d) as [m e] eqn:E.
  destruct (rounded_bounds n d ltac:(lia) Hd m e E) as (Hmin & Hm & Hnorm).
  unfold pack. destruct (Z.eqb_spec m 0); [reflexivity|].
  destruct (Z.eqb_spec m (2 ^ 53)) as [->|H53].
  - destruct (Z.ltb_spec e max_exp); [|reflexivity]. cbn [valid_binary].
    apply bounded_intro; unfold min_exp, max_exp in *; lia.
  - destruct (Z.ltb_spec max_exp e); [reflexivity|]. cbn [valid_binary].
    apply bounded_intro; unfold min_exp, max_exp in *; lia.
Qed.

(** ** Lemmas: exactness *)

(** A float is exactly [n / d] when the division in its unit leaves no
    remainder, and the result is finite. *)
Lemma pack_exact negative n d m e num den :
  0 < n -> 0 < d -> scaled n d e = (num, den) -> 0 <= m ->
  exactly (pack negative (m, e)) n d = true
  <-> m * den = num /\ pack negative (m, e) <> S754_infinity negative.
Proof.
  intros Hn Hd Hs Hm. destruct (scaled_pos n d e num den Hn Hd Hs) as [Hnum Hden].
  unfold pack. destruct (Z.eqb_spec m 0) as [->|H0]; cbn [exactly].
  { split; [lia | intros [? _]; lia]. }
  destruct (Z.eqb_spec m (2 ^ 53)) as [->|H53].
  - destruct (Z.ltb_spec e max_exp); cbn [exactly]; [|split; [discriminate | intros [_ []]; reflexivity]].
    pose proof (scaled_succ n d e (2 ^ 52)) as Hsucc. rewrite Hs in Hsucc.
    destruct (scaled n d (e + 1)) as [num' den']. rewrite Z2Pos.id by lia.
    rewrite Z.eqb_eq, Hsucc. change (2 * 2 ^ 52) with (2 ^ 53). intuition discriminate.
  - destruct (Z.ltb_spec max_exp e); cbn [exactly]; [split; [discriminate | intros [_ []]; reflexivity]|].
    rewrite Hs, Z2Pos.id, Z.eqb_eq by lia. intuition discriminate.
Qed.

(** The double nearest to a rational is that rational when the division in
    its unit leaves no remainder, unless it is infinite. *)
Lemma nearest_exact negative n d num den :
  0 < n -> 0 < d -> scaled n d (ulp_exp n d) = (num, den) ->
  exactly (nearest negative n d) n d = true
  <-> num mod den = 0 /\ nearest negative n d <> S754_infinity negative.
Proof.
  intros Hn Hd Hs. destruct (scaled_pos n d _ num den Hn Hd Hs) as [Hnum Hden].
  unfold nearest. destruct (Z.eqb_spec n 0); [lia|]. unfold rounded. rewrite Hs.
  rewrite (pack_exact negative n d _ _ num den Hn Hd Hs
             (round_even_nonneg num den ltac:(lia) Hden)).
  rewrite (round_even_exact num den Hden). reflexivity.
Qed.

(** An integer below [2 ^ 1024] is finite as a double. *)
Lemma integer_finite negative n :
  0 < n < 2 ^ 1024 -> n mod 2 ^ Z.max 0 (Z.log2 n - 52) = 0 ->
  nearest negative n 1 <> S754_infinity negative.
Proof.
  intros [Hn Hlt] Hmod. unfold nearest. destruct (Z.eqb_spec n 0); [lia|].
  unfold rounded. rewrite (ulp_exp_integer n Hn).
  assert (Hk : Z.log2 n < 1024) by (apply Z.log2_lt_pow2; lia).
  destruct (Z.log2_spec n Hn) as [_ Hhi]. unfold scaled, pack, max_exp.
  destruct (Z.leb_spec 0 (Z.log2 n - 52)) as [Hge|Hneg].
  - rewrite Z.max_r in Hmod by lia. rewrite Z.mul_1_l.
    assert (Hr : round_even n (2 ^ (Z.log2 n - 52)) = n / 2 ^ (Z.log2 n - 52))
      by (unfold round_even; rewrite Hmod; pose proof (Z.pow_pos_nonneg 2 (Z.log2 n - 52));
          destruct (Z.ltb_spec (2 * 0) (2 ^ (Z.log2 n - 52))); lia).
    rewrite Hr.
    assert (n / 2 ^ (Z.log2 n - 52) < 2 ^ 53).
    { apply Z.div_lt_upper_bound; [apply Z.pow_pos_nonneg; lia|].
      rewrite <- Z.pow_add_r by lia. replace (Z.log2 n - 52 + 53) with (Z.succ (Z.log2 n)) by lia.
      exact Hhi. }
    repeat case_match; try discriminate; lia.
  - repeat case_match; try discriminate; lia.
Qed.

(** An integer is stored exactly if and only if it is a multiple of its
    unit: its bits below the 53 leading ones are zero. *)
Theorem integer_exact_iff negative n :
  0 < n < 2 ^ 1024 ->
  exactly (nearest negative n 1) n 1 = true <-> n mod 2 ^ Z.max 0 (Z.log2 n - 52) = 0.
Proof.
  intros Hn. pose proof (ulp_exp_integer n (proj1 Hn)) as He.
  destruct (scaled n 1 (ulp_exp n 1)) as [num den] eqn:Hs.
  rewrite (nearest_exact negative n 1 num den (proj1 Hn) eq_refl Hs).
  assert (Hmod : num mod den = 0 <-> n mod 2 ^ Z.max 0 (Z.log2 n - 52) = 0).
  { rewrite He in Hs. unfold scaled in Hs. destruct (Z.leb_spec 0 (Z.log2 n - 52)).
    - injection Hs as <- <-. rewrite Z.max_r, Z.mul_1_l by lia. reflexivity.
    - injection Hs as <- <-. rewrite Z.max_l, Z.mod_1_r by lia. cbn. rewrite Z.mod_1_r. reflexivity. }
  rewrite Hmod. split; [tauto|]. intros H. split; [exact H|].
  exact (integer_finite negative n Hn H).
Qed.

(** No odd integer with more than 53 bits is a double. *)
Theorem odd_integer_inexact negative n :
  2 ^ 53 < n -> Z.odd n = true -> exactly (nearest negative n 1) n 1 = false.
Proof.
  intros Hn Hodd. apply not_true_is_false. intros Hx.
  assert (Hpos : 0 < n) by lia. pose proof (ulp_exp_integer n Hpos) as He.
  assert (Hk : 53 <= Z.log2 n) by (apply Z.log2_le_pow2; lia).
  destruct (scaled n 1 (ulp_exp n 1)) as [num den] eqn:Hs.
  apply (nearest_exact negative n 1 num den Hpos eq_refl Hs) in Hx as [Hmod _].
  rewrite He in Hs. unfold scaled in Hs. destruct (Z.leb_spec 0 (Z.log2 n - 52)); [|lia].
  injection Hs as <- <-. rewrite Z.mul_1_l in Hmod.
  apply Z.mod_divide in Hmod; [|pose proof (Z.pow_pos_nonneg 2 (Z.log2 n - 52)); lia].
  assert (H2 : (2 | n)).
  { apply (Z.divide_trans _ (2 ^ (Z.log2 n - 52))); [|exact Hmod].
    exists (2 ^ (Z.log2 n - 53)). replace (Z.log2 n - 52) with (Z.succ (Z.log2 n - 53)) by lia.
    rewrite Z.pow_succ_r by lia. lia. }
  rewrite Z.odd_spec in Hodd. destruct H2 as [c ->], Hodd as [c' Hc]. lia.
Qed.

(** The double of an integer literal. *)
Lemma exact_integer negative m :
  exact (F64Dec negative m 0) = exactly (nearest negative m 1) m 1.
Proof. cbn [exact binary64_of]. unfold fraction. cbn. rewrite Z.mul_1_r. reflexivity. Qed.

(** ** Lemmas: decimals *)

Lemma five_pow2 j m : 0 <= j -> (5 | m * 2 ^ j) -> (5 | m).
Proof.
  intros Hj. revert j Hj. apply (natlike_ind (fun j => (5 | m * 2 ^ j) -> (5 | m))).
  - rewrite Z.mul_1_r. exact id.
  - intros j Hj IH H. apply IH. rewrite Z.pow_succ_r in H by exact Hj.
    apply (Z.gauss 5 2); [|reflexivity]. replace (2 * (m * 2 ^ j)) with (m * (2 * 2 ^ j)) by lia.
    exact H.
Qed.

(** A float that is [m / 10 ^ k] has a mantissa [m] that is a multiple of
    five. *)
Lemma exactly_five x m k : 0 < k -> exactly x m (10 ^ k) = true -> (5 | m).
Proof.
  intros Hk. assert (H10 : (5 | 10 ^ k)).
  { replace k with (Z.succ (k - 1)) by lia. rewrite Z.pow_succ_r by lia.
    exists (2 * 10 ^ (k - 1)). lia. }
  destruct x as [s|s| |s M e]; cbn [exactly]; try discriminate.
  - intros ->%Z.eqb_eq. apply Z.divide_0_r.
  - unfold scaled. destruct (Z.leb_spec 0 e); intros E%Z.eqb_eq.
    + rewrite <- E. apply Z.divide_mul_r, Z.divide_mul_l, H10.
    + apply (five_pow2 (- e)); [lia|]. rewrite <- E. apply Z.divide_mul_r, H10.
Qed.

(** A decimal with digits after the point is a double only if its digits,
    read as an integer, are a multiple of five. *)
Theorem decimal_inexact negative m e :
  e < 0 -> m mod 5 <> 0 -> exact (F64Dec negative m e) = false.
Proof.
  intros He Hm. apply not_true_is_false. cbn [exact binary64_of]. unfold fraction.
  destruct (Z.leb_spec 0 e); [lia|]. intros Hx.
  apply exactly_five in Hx; [|lia]. apply Z.mod_divide in Hx; lia.
Qed.

(** ** The theorems at concrete inputs *)

Module Float64Examples.

(** The rounding of integers is that of [binary_normalize]: below and above
    53 bits, at the ties, at the largest finite number and past it. *)
Definition integers : list Z :=
  [1; 2; 3; 7; 2 ^ 52; 2 ^ 53 - 1; 2 ^ 53; 2 ^ 53 + 1; 2 ^ 53 + 2; 2 ^ 53 + 3;
   2 ^ 64 - 1; 2 ^ 64 + 1; 10 ^ 22; 10 ^ 23; 2 ^ 1024 - 2 ^ 970 - 1; 2 ^ 1024 - 2 ^ 970;
   2 ^ 1024; 10 ^ 400].

Example nearest_integers :
  forallb (fun n => bool_decide (nearest false n 1 = binary_normalize 53 1024 n 0 false))
    integers = true.
Proof. vm_compute. reflexivity. Qed.

(** The rounding of a quotient of two doubles is the division of IEEE 754. *)
Definition quotients : list (Z * Z) :=
  [(314, 100); (1, 10); (1, 3); (2, 3); (5, 10); (1, 2 ^ 52 + 1); (2 ^ 53 - 1, 2 ^ 52 + 3);
   (7, 10 ^ 15); (123456789, 1000)].

Example nearest_quotients :
  forallb (fun p => bool_decide (nearest false p.1 p.2 =
                       SFdiv 53 1024 (binary_normalize 53 1024 p.1 0 false)
                         (binary_normalize 53 1024 p.2 0 false)))
    quotients = true.
Proof. vm_compute. reflexivity. Qed.

(** Subnormal numbers, and the underflow to zero. *)
Definition tiny : list (Z * Z) :=
  [(1, 1074); (1, 1075); (3, 1075); (1, 1076); (3, 1076); (2 ^ 53 - 1, 1074);
   (2 ^ 53 + 1, 1075); (2 ^ 53 - 1, 1127); (2 ^ 52, 1126); (2 ^ 54 - 1, 1076)].

Example nearest_tiny :
  forallb (fun p => bool_decide (nearest false p.1 (2 ^ p.2) =
                       binary_normalize 53 1024 p.1 (- p.2) false))
    tiny = true.
Proof. vm_compute. reflexivity. Qed.

(** '3.14' is the double 7070651414971679 * 2^-51, which is not 3.14; '0.5'
    is a double; '1e400' is infinite and '1e-400' is zero. *)
Example double_314 :
  parse_f64 (lit "3.14") = Ok (F64Dec false 314 (-2))
  /\ binary64_of (F64Dec false 314 (-2)) = S754_finite false 7070651414971679 (-51)
  /\ exact (F64Dec false 314 (-2)) = false
  /\ exact (F64Dec false 5 (-1)) = true
  /\ binary64_of (F64Dec false 1 400) = S754_infinity false
  /\ binary64_of (F64Dec true 1 (-400)) = S754_zero true.
Proof. vm_compute. repeat split. Qed.

Lemma nearest_valid_witness : valid_binary 53 1024 (nearest false 314 100) = true.
Proof. apply nearest_valid; lia. Defined.

(** 2^64 + 2^12 has its low 12 bits zero. *)
Lemma integer_exact_iff_witness :
  exactly (nearest false (2 ^ 64 + 2 ^ 12) 1) (2 ^ 64 + 2 ^ 12) 1 = true
  <-> (2 ^ 64 + 2 ^ 12) mod 2 ^ Z.max 0 (Z.log2 (2 ^ 64 + 2 ^ 12) - 52) = 0.
Proof. apply integer_exact_iff. split; [reflexivity | reflexivity]. Defined.

Lemma odd_integer_inexact_witness :
  exactly (nearest true (2 ^ 64 + 1) 1) (2 ^ 64 + 1) 1 = false.
Proof. apply odd_integer_inexact; reflexivity. Defined.

Lemma decimal_inexact_witness : exact (F64Dec false 314 (-2)) = false.
Proof. apply decimal_inexact; [reflexivity | discriminate]. Defined.

End Float64Examples.
