(* ===== verification/Utf8.v ===== *)
(** * UTF-8 validation

    [value_text] and [value_text_notnull] (src/src/api.rs, lines 126-144)
    turn the bytes of a C string into a [&str] with [CStr::to_str], which
    checks that they are valid UTF-8.  This file models that check,
    [core::str::from_utf8], as the Rust standard library implements it
    ([run_utf8_validation]): the first byte of a code point fixes its width,
    the second byte is restricted so that overlong forms, surrogates and
    code points above U+10FFFF are refused, and the error reports how many
    bytes were valid and how long the offending sequence is ([None] when the
    input ends inside a code point). *)

From Stdlib Require Import ZArith Lia List.
From stdpp Require Import base tactics option list.
From S2P Require Import Prelude RustStr.

#[local] Open Scope Z_scope.

Record Utf8Error : Type :=
  mkUtf8Error { valid_up_to : nat; error_len : option nat }.

(** A continuation byte: 0x80 to 0xBF. *)
Definition is_cont (b : Z) : bool := (128 <=? b) && (b <=? 191).

(** [UTF8_CHAR_WIDTH]: the width the first byte announces, 0 for a byte that
    starts no code point. *)
Definition utf8_char_width (first : Z) : nat :=
  if (0 <=? first) && (first <? 128) then 1%nat
  else if (194 <=? first) && (first <=? 223) then 2%nat
  else if (224 <=? first) && (first <=? 239) then 3%nat
  else if (240 <=? first) && (first <=? 244) then 4%nat
  else 0%nat.

(** The second byte of a three-byte code point. *)
Definition second_of_3 (first b : Z) : bool :=
  ((first =? 224) && (160 <=? b) && (b <=? 191))
  || ((225 <=? first) && (first <=? 236) && is_cont b)
  || ((first =? 237) && (128 <=? b) && (b <=? 159))
  || ((238 <=? first) && (first <=? 239) && is_cont b).

(** The second byte of a four-byte code point. *)
Definition second_of_4 (first b : Z) : bool :=
  ((first =? 240) && (144 <=? b) && (b <=? 191))
  || ((241 <=? first) && (first <=? 243) && is_cont b)
  || ((first =? 244) && (128 <=? b) && (b <=? 143)).

(** [run_utf8_validation] from byte [index] on. *)
Fixpoint run_utf8_validation (index : nat) (s : list Z) : result unit Utf8Error :=
  match s with
  | [] => Ok tt
  | first :: r =>
    match utf8_char_width first with
    | 1%nat => run_utf8_validation (index + 1) r
    | 2%nat =>
      match r with
      | [] => Err (mkUtf8Error index None)
      | b1 :: r1 =>
        if is_cont b1 then run_utf8_validation (index + 2) r1
        else Err (mkUtf8Error index (Some 1%nat))
      end
    | 3%nat =>
      match r with
      | [] => Err (mkUtf8Error index None)
      | b1 :: r1 =>
        if second_of_3 first b1 then
          match r1 with
          | [] => Err (mkUtf8Error index None)
          | b2 :: r2 =>
            if is_cont b2 then run_utf8_validation (index + 3) r2
            else Err (mkUtf8Error index (Some 2%nat))
          end
        else Err (mkUtf8Error index (Some 1%nat))
      end
    | 4%nat =>
      match r with
      | [] => Err (mkUtf8Error index None)
      | b1 :: r1 =>
        if second_of_4 first b1 then
          match r1 with
          | [] => Err (mkUtf8Error index None)
          | b2 :: r2 =>
            if is_cont b2 then
              match r2 with
              | [] => Err (mkUtf8Error index None)
              | b3 :: r3 =>
                if is_cont b3 then run_utf8_validation (index + 4) r3
                else Err (mkUtf8Error index (Some 3%nat))
              end
            else Err (mkUtf8Error index (Some 2%nat))
          end
        else Err (mkUtf8Error index (Some 1%nat))
      end
    | _ => Err (mkUtf8Error index (Some 1%nat))
    end
  end.

(** [core::str::from_utf8]: the bytes themselves when they are valid. *)
Definition from_utf8 (s : list Z) : result (list Z) Utf8Error :=
  match run_utf8_validation 0 s with
  | Ok _ => Ok s
  | Err e => Err e
  end.

Definition is_utf8 (s : list Z) : bool := is_ok (from_utf8 s).

(** ** Lemmas *)

Lemma from_utf8_Ok s t : from_utf8 s = Ok t -> t = s.
Proof. unfold from_utf8. destruct (run_utf8_validation 0 s); [intros [= <-]; reflexivity | discriminate]. Qed.

Lemma from_utf8_is_utf8 s : is_utf8 s = true <-> from_utf8 s = Ok s.
Proof.
  unfold is_utf8. split; [|intros ->; reflexivity].
  destruct (from_utf8 s) as [t|] eqn:E; [|discriminate].
  intros _. apply from_utf8_Ok in E as ->. reflexivity.
Qed.

Lemma utf8_char_width_ascii b : is_ascii b = true -> utf8_char_width b = 1%nat.
Proof. unfold is_ascii, utf8_char_width. intros ->. reflexivity. Qed.

Lemma run_utf8_validation_ascii index s :
  Forall (fun b => is_ascii b = true) s -> run_utf8_validation index s = Ok tt.
Proof.
  intros H. revert index. induction H as [|b s Hb _ IH]; intros index; [reflexivity|].
  cbn [run_utf8_validation]. rewrite (utf8_char_width_ascii b Hb). apply IH.
Qed.

(** ASCII text is valid UTF-8. *)
Lemma from_utf8_ascii s : Forall (fun b => is_ascii b = true) s -> from_utf8 s = Ok s.
Proof. intros H. unfold from_utf8. rewrite run_utf8_validation_ascii by exact H. reflexivity. Qed.

(** An error never points past the input. *)
Lemma run_utf8_validation_Err index s e :
  run_utf8_validation index s = Err e ->
  (index <= valid_up_to e < index + length s)%nat.
Proof.
  revert index. induction s as [s IH] using length_ind. intros index.
  destruct s as [|first r]; [discriminate|]. cbn [run_utf8_validation].
  destruct (utf8_char_width first) as [|[|[|[|[|w]]]]].
  - intros [= <-]. simpl. lia.
  - intros H%IH; simpl in *; lia.
  - destruct r as [|b1 r1]; [intros [= <-]; simpl; lia|].
    destruct (is_cont b1); [intros H%IH; simpl in *; lia | intros [= <-]; simpl; lia].
  - destruct r as [|b1 r1]; [intros [= <-]; simpl; lia|].
    destruct (second_of_3 first b1); [|intros [= <-]; simpl; lia].
    destruct r1 as [|b2 r2]; [intros [= <-]; simpl; lia|].
    destruct (is_cont b2); [intros H%IH; simpl in *; lia | intros [= <-]; simpl; lia].
  - destruct r as [|b1 r1]; [intros [= <-]; simpl; lia|].
    destruct (second_of_4 first b1); [|intros [= <-]; simpl; lia].
    destruct r1 as [|b2 r2]; [intros [= <-]; simpl; lia|].
    destruct (is_cont b2); [|intros [= <-]; simpl; lia].
    destruct r2 as [|b3 r3]; [intros [= <-]; simpl; lia|].
    destruct (is_cont b3); [intros H%IH; simpl in *; lia | intros [= <-]; simpl; lia].
  - intros [= <-]. simpl. lia.
Qed.
