(* ===== verification/Unicode.v ===== *)
(** * UTF-8 as an encoding of Unicode scalar values

    [Utf8] models the validator of the Rust standard library the way it is
    written, byte by byte.  This file says what the validator accepts: a
    reference encoder ([encode_char], [encode]: RFC 3629, which
    [char::encode_utf8] implements) and decoder ([next_code_point], [decode])
    of sequences of Unicode scalar values, the code points U+0000 to U+10FFFF
    without the surrogates.  The theorems: encoding and decoding are inverse
    to each other; [from_utf8] accepts a byte string exactly when it is the
    encoding of scalar values; when it refuses, [valid_up_to] is the length of
    the longest prefix that is one; an ASCII byte, the nul byte among them,
    occurs in an encoding only as the code point it is.  A Rust [&str] is
    therefore [encode cs] for a list [cs] of scalar values, which is how the
    files on the functions of [api.rs] state its invariant.

    [decode] recurses on what [next_code_point] leaves, which is no subterm
    of its argument: it is defined by well-founded recursion on the length. *)

From Stdlib Require Import ZArith Lia List.
From stdpp Require Import base tactics option list.
From Equations Require Import Equations.
From S2P Require Import Prelude RustStr Utf8.

#[local] Open Scope Z_scope.

(** A Unicode scalar value: a code point that is no surrogate. *)
Definition scalar (c : Z) : bool :=
  ((0 <=? c) && (c <? 55296)) || ((57344 <=? c) && (c <=? 1114111)).

(** [char::len_utf8]. *)
Definition len_utf8 (c : Z) : nat :=
  if c <? 128 then 1%nat else if c <? 2048 then 2%nat
  else if c <? 65536 then 3%nat else 4%nat.

(** [char::encode_utf8]: the payload bits of the code point in groups of six,
    under the tag of a first byte (0xC0, 0xE0, 0xF0) and of a continuation
    byte (0x80). *)
Definition encode_char (c : Z) : list Z :=
  match len_utf8 c with
  | 1%nat => [c]
  | 2%nat => [192 + c / 64; 128 + c mod 64]
  | 3%nat => [224 + c / 4096; 128 + (c / 64) mod 64; 128 + c mod 64]
  | _ => [240 + c / 262144; 128 + (c / 4096) mod 64; 128 + (c / 64) mod 64;
          128 + c mod 64]
  end.

Definition encode (cs : list Z) : list Z := flat_map encode_char cs.

(** The first code point of a byte string and what follows it; [None] when
    the string is empty or does not start with the encoding of a scalar
    value. *)
Definition next_code_point (s : list Z) : option (Z * list Z) :=
  match s with
  | [] => None
  | x :: r =>
    match utf8_char_width x, r with
    | 1%nat, _ => Some (x, r)
    | 2%nat, y :: r =>
      if is_cont y then Some ((x - 192) * 64 + (y - 128), r) else None
    | 3%nat, y :: z :: r =>
      if second_of_3 x y && is_cont z
      then Some ((x - 224) * 4096 + (y - 128) * 64 + (z - 128), r) else None
    | 4%nat, y :: z :: w :: r =>
      if second_of_4 x y && is_cont z && is_cont w
      then Some ((x - 240) * 262144 + (y - 128) * 4096 + (z - 128) * 64
                 + (w - 128), r)
      else None
    | _, _ => None
    end
  end.

Lemma next_code_point_shorter s c r :
  next_code_point s = Some (c, r) -> (length r < length s)%nat.
Proof.
  destruct s as [|x s]; [discriminate|]. unfold next_code_point.
  destruct (utf8_char_width x) as [|[|[|[|[|w]]]]]; try discriminate;
    repeat (case_match; try discriminate); intros [= <- <-]; simpl; lia.
Qed.

Definition inspect {A} (a : A) : {b | a = b} := exist _ a eq_refl.

(** [str::chars], collected: the code points of a byte string, [None] when it
    is not valid UTF-8. *)
Equations decode (s : list Z) : option (list Z) by wf (length s) lt :=
  decode [] := Some [];
  decode (x :: s) with inspect (next_code_point (x :: s)) := {
    | exist _ (Some (c, r)) E => cons c <$> decode r
    | exist _ None _ => None }.
Next Obligation. exact (next_code_point_shorter (x :: s) c r E). Qed.

(** ** Arithmetic of the encoding

    [utf8_arith] proves the facts on bytes and code points: it unfolds the
    byte classes, splits the divisions by 4096 and 262144 into divisions by
    64, and leaves the rest to linear arithmetic. *)

Lemma div_4096 c : c / 4096 = c / 64 / 64.
Proof. rewrite Z.div_div by lia. reflexivity. Qed.

Lemma div_262144 c : c / 262144 = c / 64 / 64 / 64.
Proof. rewrite !Z.div_div by lia. reflexivity. Qed.

Ltac utf8_arith :=
  unfold scalar, len_utf8, second_of_3, second_of_4, is_cont, is_ascii in *;
  rewrite ?div_4096, ?div_262144 in *;
  Z.div_mod_to_equations; lia.

Lemma len_utf8_1 c : c < 128 -> len_utf8 c = 1%nat.
Proof. unfold len_utf8. intros. repeat case_match; lia. Qed.

Lemma len_utf8_2 c : 128 <= c < 2048 -> len_utf8 c = 2%nat.
Proof. unfold len_utf8. intros. repeat case_match; lia. Qed.

Lemma len_utf8_3 c : 2048 <= c < 65536 -> len_utf8 c = 3%nat.
Proof. unfold len_utf8. intros. repeat case_match; lia. Qed.

Lemma len_utf8_4 c : 65536 <= c -> len_utf8 c = 4%nat.
Proof. unfold len_utf8. intros. repeat case_match; lia. Qed.

(** The four shapes of an encoding. *)
Lemma len_utf8_cases c :
  (c < 128 /\ encode_char c = [c])
  \/ (128 <= c < 2048 /\ encode_char c = [192 + c / 64; 128 + c mod 64])
  \/ (2048 <= c < 65536 /\
      encode_char c = [224 + c / 4096; 128 + (c / 64) mod 64; 128 + c mod 64])
  \/ (65536 <= c /\
      encode_char c = [240 + c / 262144; 128 + (c / 4096) mod 64;
                       128 + (c / 64) mod 64; 128 + c mod 64]).
Proof.
  unfold encode_char.
  destruct (Z_lt_dec c 128); [rewrite len_utf8_1 by lia; auto|].
  destruct (Z_lt_dec c 2048);
    [rewrite len_utf8_2 by lia; right; left; split; [lia|reflexivity]|].
  destruct (Z_lt_dec c 65536);
    [rewrite len_utf8_3 by lia; do 2 right; left; split; [lia|reflexivity]|].
  rewrite len_utf8_4 by lia. do 3 right. split; [lia|reflexivity].
Qed.

Lemma length_encode_char c : length (encode_char c) = len_utf8 c.
Proof.
  destruct (len_utf8_cases c) as [[H ->]|[[H ->]|[[H ->]|[H ->]]]];
    [rewrite len_utf8_1|rewrite len_utf8_2|rewrite len_utf8_3|rewrite len_utf8_4];
    (reflexivity || lia).
Qed.

Lemma utf8_char_width_inv x :
  match utf8_char_width x with
  | 0%nat => True
  | 1%nat => 0 <= x < 128
  | 2%nat => 194 <= x <= 223
  | 3%nat => 224 <= x <= 239
  | _ => 240 <= x <= 244
  end.
Proof. unfold utf8_char_width. repeat case_match; lia. Qed.

Lemma width_1 c : scalar c = true -> c < 128 -> utf8_char_width c = 1%nat.
Proof. intros. unfold utf8_char_width. repeat case_match; utf8_arith. Qed.

Lemma width_2 c : 128 <= c < 2048 -> utf8_char_width (192 + c / 64) = 2%nat.
Proof. intros. unfold utf8_char_width. repeat case_match; utf8_arith. Qed.

Lemma width_3 c : 2048 <= c < 65536 -> utf8_char_width (224 + c / 4096) = 3%nat.
Proof. intros. unfold utf8_char_width. repeat case_match; utf8_arith. Qed.

Lemma width_4 c :
  scalar c = true -> 65536 <= c -> utf8_char_width (240 + c / 262144) = 4%nat.
Proof. intros. unfold utf8_char_width. repeat case_match; utf8_arith. Qed.

Lemma is_cont_low x : is_cont (128 + x mod 64) = true.
Proof. utf8_arith. Qed.

Lemma second_of_3_encode c :
  scalar c = true -> 2048 <= c < 65536 ->
  second_of_3 (224 + c / 4096) (128 + (c / 64) mod 64) = true.
Proof. intros. utf8_arith. Qed.

Lemma second_of_4_encode c :
  scalar c = true -> 65536 <= c ->
  second_of_4 (240 + c / 262144) (128 + (c / 4096) mod 64) = true.
Proof. intros. utf8_arith. Qed.

(** What the validator and the decoder see of the encoding of a scalar
    value. *)
Create Rewrite HintDb utf8.
#[export] Hint Rewrite width_1 width_2 width_3 width_4 second_of_3_encode
  second_of_4_encode is_cont_low using assumption : utf8.

(** ** One code point *)

Lemma next_code_point_encode c rest :
  scalar c = true -> next_code_point (encode_char c ++ rest) = Some (c, rest).
Proof.
  intros Hc. destruct (len_utf8_cases c) as [[H ->]|[[H ->]|[[H ->]|[H ->]]]];
    cbn [app next_code_point]; autorewrite with utf8; cbn [andb];
    do 2 f_equal; utf8_arith.
Qed.

(** The decoder inverts the encoder: [decoded_char] closes the case of one
    width. *)
#[local] Ltac decoded_char width :=
  split; [utf8_arith|]; unfold encode_char; rewrite width by utf8_arith;
  cbn [app]; repeat f_equal; utf8_arith.

Lemma next_code_point_inv s c r :
  next_code_point s = Some (c, r) -> scalar c = true /\ s = encode_char c ++ r.
Proof.
  destruct s as [|x s]; [discriminate|]. unfold next_code_point.
  pose proof (utf8_char_width_inv x) as Hx.
  destruct (utf8_char_width x) as [|[|[|[|[|w]]]]]; try discriminate;
    repeat (case_match; try discriminate); intros [= <- <-].
  - decoded_char len_utf8_1.
  - decoded_char len_utf8_2.
  - decoded_char len_utf8_3.
  - decoded_char len_utf8_4.
Qed.

(** The validator goes over one code point as the decoder does. *)
Lemma validation_step index s c r :
  next_code_point s = Some (c, r) ->
  run_utf8_validation index s = run_utf8_validation (index + len_utf8 c) r.
Proof.
  intros H. destruct (next_code_point_inv _ _ _ H) as [Hc ->].
  destruct (len_utf8_cases c) as [[Hr E]|[[Hr E]|[[Hr E]|[Hr E]]]];
    rewrite <- length_encode_char, E; cbn [app run_utf8_validation length];
    autorewrite with utf8; reflexivity.
Qed.

Lemma validation_stop index x s :
  next_code_point (x :: s) = None ->
  exists n, run_utf8_validation index (x :: s) = Err (mkUtf8Error index n).
Proof.
  cbn [next_code_point run_utf8_validation].
  destruct (utf8_char_width x) as [|[|[|[|[|w]]]]]; try discriminate;
    repeat (case_match; try discriminate; simplify_eq/=); eauto.
Qed.

(** ** Strings *)

Lemma decode_step s c r :
  next_code_point s = Some (c, r) -> decode s = cons c <$> decode r.
Proof.
  funelim (decode s); [discriminate| |]; intros H'.
  - rewrite E in H'. injection H' as <- <-. reflexivity.
  - congruence.
Qed.

Lemma encode_cons c cs : encode (c :: cs) = encode_char c ++ encode cs.
Proof. reflexivity. Qed.

Lemma encode_app cs ds : encode (cs ++ ds) = encode cs ++ encode ds.
Proof. apply flat_map_app. Qed.

(** Decoding an encoding gives the code points back. *)
Lemma decode_encode cs :
  Forall (fun c => scalar c = true) cs -> decode (encode cs) = Some cs.
Proof.
  induction 1 as [|c cs Hc _ IH]; [reflexivity|].
  rewrite encode_cons, (decode_step _ c (encode cs)), IH
    by (apply next_code_point_encode, Hc).
  reflexivity.
Qed.

(** What decodes is the encoding of the scalar values it decodes to. *)
Lemma decode_inv s cs :
  decode s = Some cs -> Forall (fun c => scalar c = true) cs /\ encode cs = s.
Proof.
  revert cs. funelim (decode s); intros cs; [intros [= <-]; auto | | discriminate].
  destruct (next_code_point_inv _ _ _ E) as [Hc ->].
  destruct (decode r) as [ds|]; [intros [= <-] | discriminate].
  destruct (H ds eq_refl) as [Hds <-]. auto.
Qed.

(** The encoding is injective on scalar values. *)
Lemma encode_inj cs ds :
  Forall (fun c => scalar c = true) cs -> Forall (fun c => scalar c = true) ds ->
  encode cs = encode ds -> cs = ds.
Proof.
  intros Hc Hd H. apply decode_encode in Hc, Hd. rewrite H in Hc. congruence.
Qed.

(** The validator accepts a string exactly when it decodes, and otherwise
    stops at the end of the longest prefix that does. *)
Lemma validation_spec s index :
  match decode s with
  | Some cs => run_utf8_validation index s = Ok tt
  | None =>
    exists cs rest n,
      s = encode cs ++ rest /\ Forall (fun c => scalar c = true) cs
      /\ rest <> [] /\ next_code_point rest = None
      /\ run_utf8_validation index s
         = Err (mkUtf8Error (index + length (encode cs)) n)
  end.
Proof.
  revert index. funelim (decode s); intros index; [reflexivity | |].
  - rewrite (validation_step index _ c r E). specialize (H (index + len_utf8 c)%nat).
    destruct (next_code_point_inv _ _ _ E) as [Hc ->].
    destruct (decode r) as [ds|]; [exact H|]. cbn [fmap option_fmap option_map].
    destruct H as (cs & rest & n & -> & Hcs & Hrest & Hstop & ->).
    exists (c :: cs), rest, n.
    rewrite encode_cons, length_app, length_encode_char, <- !app_assoc.
    repeat split; auto. do 2 f_equal. lia.
  - destruct (validation_stop index x s e) as [n Hn].
    exists [], (x :: s), n. cbn [encode flat_map app length].
    rewrite Nat.add_0_r. auto.
Qed.

(** [from_utf8] by what the string decodes to: the string itself when it
    decodes, and otherwise an error that points at the end of the longest
    prefix that does. *)
Lemma from_utf8_spec s :
  match decode s with
  | Some cs =>
    from_utf8 s = Ok s /\ s = encode cs /\ Forall (fun c => scalar c = true) cs
  | None =>
    exists e cs rest,
      from_utf8 s = Err e
      /\ s = encode cs ++ rest /\ Forall (fun c => scalar c = true) cs
      /\ valid_up_to e = length (encode cs)
      /\ rest <> [] /\ next_code_point rest = None
  end.
Proof.
  unfold from_utf8. pose proof (validation_spec s 0) as H.
  destruct (decode s) as [cs|] eqn:E.
  - rewrite H. apply decode_inv in E as [Hcs <-]. auto.
  - destruct H as (cs & rest & n & -> & Hcs & Hrest & Hstop & ->).
    eexists _, cs, rest. repeat split; auto.
Qed.

Lemma from_utf8_decode s : from_utf8 s = Ok s <-> is_Some (decode s).
Proof.
  pose proof (from_utf8_spec s) as H. destruct (decode s) as [cs|].
  - split; [eauto | tauto].
  - destruct H as (e & cs & rest & -> & _). split; [discriminate | intros [? [=]]].
Qed.

(** [from_utf8] accepts exactly the encodings of sequences of scalar
    values. *)
Lemma from_utf8_scalars s :
  from_utf8 s = Ok s <->
  exists cs, Forall (fun c => scalar c = true) cs /\ s = encode cs.
Proof.
  rewrite from_utf8_decode. split.
  - intros [cs H]. apply decode_inv in H as [H <-]. eauto.
  - intros (cs & H & ->). rewrite decode_encode by exact H. eauto.
Qed.

Lemma from_utf8_encode cs :
  Forall (fun c => scalar c = true) cs -> from_utf8 (encode cs) = Ok (encode cs).
Proof. intros H. apply from_utf8_scalars. eauto. Qed.

(** ** ASCII bytes in an encoding *)

(** An ASCII byte occurs in an encoding only as the code point it is. *)
Lemma encode_char_ascii c b :
  scalar c = true -> In b (encode_char c) -> is_ascii b = true -> c = b.
Proof.
  intros Hc Hb Ha.
  destruct (len_utf8_cases c) as [[H E]|[[H E]|[[H E]|[H E]]]]; rewrite E in Hb;
    cbn [In] in Hb; intuition (subst; utf8_arith).
Qed.

Lemma encode_char_outside c :
  scalar c = true -> is_ascii c = false ->
  Forall (fun b => is_ascii b = false) (encode_char c).
Proof.
  intros Hc Ha. apply List.Forall_forall. intros b Hb.
  destruct (is_ascii b) eqn:E; [|reflexivity].
  rewrite (encode_char_ascii c b Hc Hb E) in Ha. congruence.
Qed.

Lemma encode_outside cs :
  Forall (fun c => scalar c = true /\ is_ascii c = false) cs ->
  Forall (fun b => is_ascii b = false) (encode cs).
Proof.
  induction 1 as [|c cs [Hc Ha] _ IH]; [constructor|].
  rewrite encode_cons. apply Forall_app. auto using encode_char_outside.
Qed.

Lemma encode_char_nonempty c : encode_char c <> [].
Proof.
  destruct (len_utf8_cases c) as [[H ->]|[[H ->]|[[H ->]|[H ->]]]]; discriminate.
Qed.

Lemma encode_nonempty cs : cs <> [] -> encode cs <> [].
Proof.
  destruct cs as [|c cs]; [congruence|]. intros _ H%app_eq_nil.
  exact (encode_char_nonempty c (proj1 H)).
Qed.

(** A string holds a nul byte exactly when it holds U+0000. *)
Lemma encode_nul cs :
  Forall (fun c => scalar c = true) cs -> In 0 (encode cs) <-> In 0 cs.
Proof.
  induction 1 as [|c cs Hc _ IH]; [reflexivity|].
  rewrite encode_cons, in_app_iff, IH. cbn [In]. split; intros [H|H]; auto.
  - left. apply (encode_char_ascii c 0 Hc H). reflexivity.
  - subst c. left. left. reflexivity.
Qed.

(** ** Valid strings

    [is_utf8], the test of the validator, on encodings, on ASCII text and on
    strings put together. *)

Lemma is_utf8_encode cs :
  Forall (fun c => scalar c = true) cs -> is_utf8 (encode cs) = true.
Proof. intros H. apply from_utf8_is_utf8, from_utf8_encode, H. Qed.

Lemma is_utf8_inv s :
  is_utf8 s = true -> exists cs, Forall (fun c => scalar c = true) cs /\ s = encode cs.
Proof. intros H. apply from_utf8_scalars, from_utf8_is_utf8, H. Qed.

Lemma is_utf8_app s t : is_utf8 s = true -> is_utf8 t = true -> is_utf8 (s ++ t) = true.
Proof.
  intros (cs & Hcs & ->)%is_utf8_inv (ds & Hds & ->)%is_utf8_inv.
  rewrite <- encode_app. apply is_utf8_encode, Forall_app. auto.
Qed.

Lemma is_utf8_ascii s : Forall (fun b => is_ascii b = true) s -> is_utf8 s = true.
Proof. intros H. apply from_utf8_is_utf8, from_utf8_ascii, H. Qed.

Lemma is_utf8_concat parts :
  Forall (fun p => is_utf8 p = true) parts -> is_utf8 (concat parts) = true.
Proof. induction 1; cbn [concat]; auto using is_utf8_app. Qed.

(** ASCII text is its own encoding. *)
Lemma encode_ascii s : Forall (fun b => is_ascii b = true) s -> encode s = s.
Proof.
  induction 1 as [|b s Hb _ IH]; [reflexivity|].
  rewrite encode_cons, IH. unfold encode_char. rewrite len_utf8_1 by utf8_arith.
  reflexivity.
Qed.

Lemma scalar_ascii b : is_ascii b = true -> scalar b = true.
Proof. intros. utf8_arith. Qed.

(** ** Substitutions on ASCII

    A substitution that replaces ASCII bytes by ASCII text, and leaves the
    other bytes, acts on the code points: escaping and the change of case of
    ASCII letters are of this kind. *)

Section Bytewise.
Variable f : Z -> list Z.
Hypothesis f_low : forall b, is_ascii b = true -> Forall (fun x => is_ascii x = true) (f b).
Hypothesis f_high : forall b, is_ascii b = false -> f b = [b].

Lemma flat_map_outside u :
  Forall (fun b => is_ascii b = false) u -> flat_map f u = u.
Proof.
  induction 1 as [|b u Hb _ IH]; [reflexivity|].
  cbn [flat_map]. rewrite f_high, IH by exact Hb. reflexivity.
Qed.

Lemma flat_map_encode_char c :
  scalar c = true -> flat_map f (encode_char c) = encode (f c).
Proof.
  intros Hc. destruct (is_ascii c) eqn:Ha.
  - rewrite (encode_ascii (f c)) by auto. unfold encode_char.
    rewrite len_utf8_1 by utf8_arith. apply app_nil_r.
  - rewrite flat_map_outside, f_high by auto using encode_char_outside.
    symmetry. apply app_nil_r.
Qed.

Lemma flat_map_encode cs :
  Forall (fun c => scalar c = true) cs ->
  flat_map f (encode cs) = encode (flat_map f cs).
Proof.
  induction 1 as [|c cs Hc _ IH]; [reflexivity|].
  cbn [flat_map]. rewrite encode_cons, encode_app, flat_map_app, IH.
  rewrite flat_map_encode_char by exact Hc. reflexivity.
Qed.

Lemma Forall_scalar_flat_map cs :
  Forall (fun c => scalar c = true) cs ->
  Forall (fun c => scalar c = true) (flat_map f cs).
Proof.
  induction 1 as [|c cs Hc _ IH]; [constructor|]. cbn [flat_map].
  apply Forall_app. split; [|exact IH]. destruct (is_ascii c) eqn:Ha.
  - eapply Forall_impl; [apply f_low, Ha | exact scalar_ascii].
  - rewrite f_high by exact Ha. auto.
Qed.

(** The substitution keeps a string valid. *)
Lemma is_utf8_flat_map s : is_utf8 s = true -> is_utf8 (flat_map f s) = true.
Proof.
  intros (cs & Hcs & ->)%is_utf8_inv. rewrite flat_map_encode by exact Hcs.
  apply is_utf8_encode, Forall_scalar_flat_map, Hcs.
Qed.

End Bytewise.

(** ** Examples *)

Module UnicodeExamples.

(** "hé€" followed by U+1F600: one code point of each width. *)
Definition sample : list Z := [104; 233; 8364; 128512].

Example encode_sample :
  encode sample = [104; 195; 169; 226; 130; 172; 240; 159; 152; 128].
Proof. vm_compute. reflexivity. Qed.

Example decode_sample : decode (encode sample) = Some sample.
Proof. vm_compute. reflexivity. Qed.

(** The forms the validator refuses: an overlong encoding of '/', a
    surrogate, a code point above U+10FFFF and a continuation byte alone. *)
Example decode_refuses :
  decode [192; 175] = None /\ decode [237; 160; 128] = None
  /\ decode [244; 144; 128; 128] = None /\ decode [128] = None.
Proof. repeat split; vm_compute; reflexivity. Qed.

End UnicodeExamples.
