(* ===== verification/Chars.v ===== *)
(** * Strings as sequences of code points

    [RustStr] models [str::trim] and [str::to_lowercase] on the UTF-8 bytes
    of a string.  This file relates the two to the definitions the Rust
    documentation gives on code points: [trim] removes the code points with
    the property White_Space ([is_whitespace]) at both ends
    ([trim_encode]); [to_lowercase] lowers code point by code point
    ([to_lowercase_encode]), with the lower case [lower] of the code points
    the model knows.

    The lower case of the other code points depends on the version of the
    Unicode tables, and on the position for the capital sigma.  [lowers] and
    [lowered] describe every answer the tables can give, and [alike] the
    relation of two byte strings that differ only in their runs of bytes
    outside ASCII.  The model of [to_lowercase] and any lower-casing are
    alike ([lowered_alike]), and a search for an ASCII pattern gives the same
    answer on strings that are alike ([contains_alike]): what is proved of
    the callers of [to_lowercase] in [api.rs] holds of the function of the
    standard library as well as of its model. *)

From Stdlib Require Import ZArith Lia List.
From stdpp Require Import base tactics option list.
From S2P Require Import Prelude RustStr Utf8 Unicode.

#[local] Open Scope Z_scope.

(** ** Definitions *)

Fixpoint drop_while {A} (f : A -> bool) (l : list A) : list A :=
  match l with
  | [] => []
  | x :: r => if f x then drop_while f r else l
  end.

(** [char::is_whitespace]: the code points with the property White_Space. *)
Definition is_whitespace (c : Z) : bool :=
  ((9 <=? c) && (c <=? 13)) || (c =? 32) || (c =? 133) || (c =? 160)
  || (c =? 5760) || ((8192 <=? c) && (c <=? 8202)) || (c =? 8232)
  || (c =? 8233) || (c =? 8239) || (c =? 8287) || (c =? 12288).

(** [str::trim] on code points. *)
Definition trim_chars (cs : list Z) : list Z :=
  rev (drop_while is_whitespace (rev (drop_while is_whitespace cs))).

(** The lower case of a code point, as far as the model of [to_lowercase]
    goes: the ASCII capitals, U+0130 (to 'i' and U+0307) and U+212A (to
    'k'). *)
Definition lower (c : Z) : list Z :=
  if c =? 304 then [105; 775] else if c =? 8490 then [107] else [ascii_lower c].

(** The code points whose lower case the model knows. *)
Definition special (c : Z) : bool := is_ascii c || (c =? 304) || (c =? 8490).

(** [lowers c ds]: what [char::to_lowercase] may give for [c] under any
    version of the Unicode tables.  On ASCII, U+0130 and U+212A it is what
    [lower] says; the lower case of any other code point is one or more code
    points outside ASCII. *)
Inductive lowers (c : Z) : list Z -> Prop :=
| lowers_special : special c = true -> lowers c (lower c)
| lowers_other ds :
    special c = false -> ds <> [] ->
    Forall (fun d => scalar d = true /\ is_ascii d = false) ds -> lowers c ds.

(** [lowered cs ds]: [ds] is a lower-casing of [cs].  The choice is made anew
    at every position, which covers the rule for the final sigma. *)
Inductive lowered : list Z -> list Z -> Prop :=
| lowered_nil : lowered [] []
| lowered_cons c cs ds es :
    lowers c ds -> lowered cs es -> lowered (c :: cs) (ds ++ es).

(** [alike x y]: [y] is [x] with each run of bytes outside ASCII replaced by
    some run of bytes outside ASCII. *)
Inductive alike : list Z -> list Z -> Prop :=
| alike_nil : alike [] []
| alike_same b x y : alike x y -> alike (b :: x) (b :: y)
| alike_other u v x y :
    u <> [] -> v <> [] ->
    Forall (fun b => is_ascii b = false) u -> Forall (fun b => is_ascii b = false) v ->
    alike x y -> alike (u ++ x) (v ++ y).

#[export] Hint Constructors lowers lowered alike : core.

(** ** Lists *)

Lemma drop_while_suffix {A} (f : A -> bool) l : exists a, l = a ++ drop_while f l.
Proof.
  induction l as [|x l [a IH]]; [exists []; reflexivity|]. cbn [drop_while].
  destruct (f x); [exists (x :: a); cbn [app]; f_equal; exact IH | exists []; reflexivity].
Qed.

Lemma Forall_drop_while {A} (P : A -> Prop) f l : Forall P l -> Forall P (drop_while f l).
Proof.
  destruct (drop_while_suffix f l) as [a H]. rewrite H at 1.
  intros H'. apply Forall_app in H'. tauto.
Qed.

Lemma Forall_trim_chars (P : Z -> Prop) cs : Forall P cs -> Forall P (trim_chars cs).
Proof. intros H. unfold trim_chars. auto using Forall_rev, Forall_drop_while. Qed.

(** ** [strip] on a string whose first bytes are known *)

Section StripSteps.
Variable w1 : Z -> bool.
Variable w2 : Z -> Z -> bool.
Variable w3 : Z -> Z -> Z -> bool.

Lemma strip_1 b r :
  (forall y, w2 b y = false) -> (forall y z, w3 b y z = false) ->
  strip w1 w2 w3 (b :: r) = if w1 b then strip w1 w2 w3 r else b :: r.
Proof.
  intros H2 H3. cbn [strip]. destruct (w1 b); [reflexivity|].
  destruct r as [|y [|z r]]; rewrite ?H2, ?H3; reflexivity.
Qed.

Lemma strip_2 b y r :
  w1 b = false -> (forall z, w3 b y z = false) ->
  strip w1 w2 w3 (b :: y :: r) = if w2 b y then strip w1 w2 w3 r else b :: y :: r.
Proof.
  intros H1 H3. cbn [strip]. rewrite H1. destruct (w2 b y); [reflexivity|].
  destruct r as [|z r]; rewrite ?H3; reflexivity.
Qed.

Lemma strip_3 b y z r :
  w1 b = false -> w2 b y = false ->
  strip w1 w2 w3 (b :: y :: z :: r)
  = if w3 b y z then strip w1 w2 w3 r else b :: y :: z :: r.
Proof. intros H1 H2. cbn [strip]. rewrite H1, H2. reflexivity. Qed.

(** A scan that decides chunk by chunk removes the chunks a test selects. *)
Variable chunk : Z -> list Z.
Variable test : Z -> bool.
Variable good : Z -> Prop.
Hypothesis strip_chunk : forall c r, good c ->
  strip w1 w2 w3 (chunk c ++ r) = if test c then strip w1 w2 w3 r else chunk c ++ r.

Lemma strip_chunks cs :
  Forall good cs ->
  strip w1 w2 w3 (flat_map chunk cs) = flat_map chunk (drop_while test cs).
Proof.
  induction 1 as [|c cs Hc _ IH]; [reflexivity|].
  cbn [flat_map drop_while]. rewrite strip_chunk by exact Hc.
  destruct (test c); [exact IH | reflexivity].
Qed.

End StripSteps.

(** ** White space

    [ws_arith] proves that the byte tests of [RustStr] are the encodings of
    white space; [ws_facts] proves that a test refuses a byte. *)

Ltac ws_arith :=
  unfold is_whitespace, is_ascii_ws, ws2, ws3, scalar in *;
  rewrite ?div_4096, ?div_262144 in *;
  Z.div_mod_to_equations; lia.

Ltac ws_facts := intros; unfold is_ascii_ws, ws2, ws3; Z.div_mod_to_equations; lia.

Lemma ws1_encode c : scalar c = true -> c < 128 -> is_ascii_ws c = is_whitespace c.
Proof. intros. ws_arith. Qed.

Lemma ws2_encode c :
  128 <= c < 2048 -> ws2 (192 + c / 64) (128 + c mod 64) = is_whitespace c.
Proof. intros. ws_arith. Qed.

Lemma ws3_encode c :
  2048 <= c < 65536 ->
  ws3 (224 + c / 4096) (128 + (c / 64) mod 64) (128 + c mod 64) = is_whitespace c.
Proof. intros. ws_arith. Qed.

Lemma is_whitespace_high c : 65536 <= c -> is_whitespace c = false.
Proof. intros. ws_arith. Qed.

(** [strip_encoded] closes the four cases of a scan over the encoding of one
    code point, forwards or backwards. *)
#[local] Ltac strip_encoded c Hc :=
  destruct (len_utf8_cases c) as [[H ->]|[[H ->]|[[H ->]|[H ->]]]]; cbn [rev app];
  [ rewrite strip_1, ws1_encode by (assumption || ws_facts)
  | rewrite strip_2, ws2_encode by (assumption || ws_facts)
  | rewrite strip_3, ws3_encode by (assumption || ws_facts)
  | rewrite strip_3, is_whitespace_high by (assumption || ws_facts);
    replace (ws3 _ _ _) with false by (symmetry; ws_facts) ];
  reflexivity.

Lemma trim_start_encode_char c r :
  scalar c = true ->
  trim_start (encode_char c ++ r)
  = if is_whitespace c then trim_start r else encode_char c ++ r.
Proof. intros Hc. unfold trim_start. strip_encoded c Hc. Qed.

Lemma trim_end_encode_char c r :
  scalar c = true ->
  strip is_ascii_ws (fun d c => ws2 c d) (fun d c b => ws3 b c d)
    (rev (encode_char c) ++ r)
  = if is_whitespace c
    then strip is_ascii_ws (fun d c => ws2 c d) (fun d c b => ws3 b c d) r
    else rev (encode_char c) ++ r.
Proof. intros Hc. strip_encoded c Hc. Qed.

(** [str::trim_start] removes the white space in front, code point by code
    point. *)
Lemma trim_start_encode cs :
  Forall (fun c => scalar c = true) cs ->
  trim_start (encode cs) = encode (drop_while is_whitespace cs).
Proof. apply strip_chunks. intros c r. apply trim_start_encode_char. Qed.

Lemma rev_encode cs : rev (encode cs) = flat_map (fun c => rev (encode_char c)) (rev cs).
Proof.
  induction cs as [|c cs IH]; [reflexivity|].
  rewrite encode_cons, rev_app_distr, IH. cbn [rev].
  rewrite flat_map_app. cbn [flat_map]. rewrite app_nil_r. reflexivity.
Qed.

(** [str::trim_end] removes the white space at the end. *)
Lemma trim_end_encode cs :
  Forall (fun c => scalar c = true) cs ->
  trim_end (encode cs) = encode (rev (drop_while is_whitespace (rev cs))).
Proof.
  intros H. unfold trim_end. rewrite rev_encode.
  rewrite (strip_chunks _ _ _ _ is_whitespace (fun c => scalar c = true))
    by (auto using trim_end_encode_char, Forall_rev).
  rewrite <- (rev_involutive (drop_while _ _)) at 1.
  rewrite <- rev_encode. apply rev_involutive.
Qed.

(** [str::trim] removes the white space at both ends. *)
Lemma trim_encode cs :
  Forall (fun c => scalar c = true) cs -> trim (encode cs) = encode (trim_chars cs).
Proof.
  intros H. unfold trim, trim_chars.
  rewrite trim_start_encode, trim_end_encode by auto using Forall_drop_while.
  reflexivity.
Qed.

(** ** Lower case *)

Lemma to_lowercase_cons_other b r :
  b <> 196 -> b <> 226 -> to_lowercase (b :: r) = ascii_lower b :: to_lowercase r.
Proof.
  intros H1 H2. destruct r as [|c [|d r]]; [reflexivity| |];
    rewrite to_lowercase_cons2; repeat case_match; (reflexivity || lia).
Qed.

Lemma ascii_lower_high b : 128 <= b -> ascii_lower b = b.
Proof. unfold ascii_lower, is_ascii_uppercase. intros. case_match; [lia | reflexivity]. Qed.

Lemma to_lowercase_cont b r : is_cont b = true -> to_lowercase (b :: r) = b :: to_lowercase r.
Proof.
  unfold is_cont. intros H.
  rewrite to_lowercase_cons_other, ascii_lower_high by lia. reflexivity.
Qed.

(** A first byte and its continuation that start neither U+0130 nor
    U+212A. *)
Lemma to_lowercase_lead b y r :
  128 <= b -> is_cont y = true -> ((b =? 196) && (y =? 176)) = false ->
  match r with
  | z :: _ => ((b =? 226) && (y =? 132) && (z =? 170)) = false
  | [] => True
  end ->
  to_lowercase (b :: y :: r) = b :: y :: to_lowercase r.
Proof.
  intros Hb Hy H1 H2. rewrite to_lowercase_cons2, H1.
  rewrite <- (to_lowercase_cont y r Hy), <- (ascii_lower_high b Hb) at 1.
  destruct r as [|z r']; [reflexivity|]. rewrite H2. reflexivity.
Qed.

Lemma lower_other c : c <> 304 -> c <> 8490 -> lower c = [ascii_lower c].
Proof. unfold lower. intros. repeat case_match; (reflexivity || lia). Qed.

Lemma encode_high c : 128 <= c -> encode [ascii_lower c] = encode_char c.
Proof. intros. rewrite ascii_lower_high by assumption. apply app_nil_r. Qed.

Lemma encode_low c : c < 128 -> encode [ascii_lower c] = [ascii_lower c].
Proof.
  intros. cbn [encode flat_map]. unfold encode_char. rewrite len_utf8_1; [reflexivity|].
  unfold ascii_lower, is_ascii_uppercase. case_match; lia.
Qed.

Lemma to_lowercase_encode_other c r :
  scalar c = true -> c <> 304 -> c <> 8490 ->
  to_lowercase (encode_char c ++ r) = encode [ascii_lower c] ++ to_lowercase r.
Proof.
  intros Hc H1 H2.
  destruct (len_utf8_cases c) as [[H E]|[[H E]|[[H E]|[H E]]]].
  - rewrite encode_low, E by assumption. apply to_lowercase_cons_ascii. utf8_arith.
  - rewrite encode_high, E by lia. cbn [app].
    apply to_lowercase_lead; try destruct r; trivial; utf8_arith.
  - rewrite encode_high, E by lia. cbn [app].
    rewrite to_lowercase_lead, to_lowercase_cont; [reflexivity|..]; utf8_arith.
  - rewrite encode_high, E by lia. cbn [app].
    rewrite to_lowercase_lead, !to_lowercase_cont; [reflexivity|..]; utf8_arith.
Qed.

Lemma to_lowercase_encode_char c r :
  scalar c = true ->
  to_lowercase (encode_char c ++ r) = encode (lower c) ++ to_lowercase r.
Proof.
  intros Hc. destruct (Z.eq_dec c 304) as [->|H1]; [reflexivity|].
  destruct (Z.eq_dec c 8490) as [->|H2]; [reflexivity|].
  rewrite lower_other by assumption. apply to_lowercase_encode_other; assumption.
Qed.

(** [str::to_lowercase] lowers code point by code point. *)
Lemma to_lowercase_encode cs :
  Forall (fun c => scalar c = true) cs ->
  to_lowercase (encode cs) = encode (flat_map lower cs).
Proof.
  induction 1 as [|c cs Hc _ IH]; [reflexivity|].
  cbn [flat_map].
  rewrite encode_cons, encode_app, to_lowercase_encode_char, IH by exact Hc.
  reflexivity.
Qed.

(** ** Strings that are alike *)

Lemma alike_refl x : alike x x.
Proof. induction x; auto. Qed.

Lemma alike_app u x y : alike x y -> alike (u ++ x) (u ++ y).
Proof. intros H. induction u; cbn [app]; auto. Qed.

Lemma starts_with_other b x a p :
  is_ascii b = false -> is_ascii a = true -> starts_with (b :: x) (a :: p) = false.
Proof.
  intros Hb Ha. cbn [starts_with]. unfold is_ascii in *.
  replace (a =? b) with false by lia. reflexivity.
Qed.

Lemma starts_with_high u x a p :
  u <> [] -> Forall (fun b => is_ascii b = false) u -> is_ascii a = true ->
  starts_with (u ++ x) (a :: p) = false.
Proof.
  intros Hu H Ha. destruct H as [|b u Hb _]; [congruence|].
  apply starts_with_other; assumption.
Qed.

Lemma starts_with_alike x y p :
  alike x y -> Forall (fun b => is_ascii b = true) p ->
  starts_with x p = starts_with y p.
Proof.
  intros H Hp. revert x y H. induction Hp as [|a p Ha _ IH]; intros x y H;
    [destruct x, y; reflexivity|].
  destruct H as [|b x y H|u v x y Hu Hv Fu Fv H]; [reflexivity| |].
  - cbn [starts_with]. rewrite (IH x y H). reflexivity.
  - rewrite !starts_with_high by assumption. reflexivity.
Qed.

Lemma contains_high u x a p :
  Forall (fun b => is_ascii b = false) u -> is_ascii a = true ->
  contains (u ++ x) (a :: p) = contains x (a :: p).
Proof.
  intros H Ha. induction H as [|b u Hb Hu IH]; [reflexivity|].
  cbn [app contains]. rewrite starts_with_other by assumption. exact IH.
Qed.

(** A search for an ASCII pattern gives the same answer on strings that are
    alike. *)
Lemma contains_alike x y p :
  alike x y -> p <> [] -> Forall (fun b => is_ascii b = true) p ->
  contains x p = contains y p.
Proof.
  intros H Hne Hp. destruct p as [|a p]; [congruence|].
  induction H as [|b x y H IH|u v x y Hu Hv Fu Fv H IH]; [reflexivity| |].
  - cbn [contains]. rewrite IH, (starts_with_alike (b :: x) (b :: y)); auto.
  - inversion Hp; subst. rewrite !contains_high by assumption. exact IH.
Qed.

Lemma is_empty_alike x y : alike x y -> is_empty x = is_empty y.
Proof.
  destruct 1 as [| |u v x y Hu Hv _ _ _]; try reflexivity.
  destruct u, v; try congruence; reflexivity.
Qed.

(** ** Any lower-casing *)

(** The lower-casing of the model is one of them. *)
Lemma lowered_lower cs :
  Forall (fun c => scalar c = true) cs -> lowered cs (flat_map lower cs).
Proof.
  induction 1 as [|c cs Hc _ IH]; [constructor|]. cbn [flat_map].
  constructor; [|exact IH]. destruct (special c) eqn:E; [auto|].
  unfold special in E. rewrite lower_other, ascii_lower_high by utf8_arith.
  apply lowers_other; [assumption | discriminate|].
  repeat constructor; [assumption | utf8_arith].
Qed.

Lemma lower_alike c ds :
  scalar c = true -> lowers c ds -> forall x y,
  alike x y -> alike (encode (lower c) ++ x) (encode ds ++ y).
Proof.
  intros Hc [Hs|ds' Hs Hne Hds] x y H; [apply alike_app, H|].
  unfold special in Hs. rewrite lower_other, encode_high by utf8_arith.
  apply alike_other; auto using encode_char_nonempty, encode_nonempty, encode_outside.
  apply encode_char_outside; [assumption|].
  destruct (is_ascii c); [discriminate | reflexivity].
Qed.

(** The model of [to_lowercase] and any lower-casing differ outside ASCII
    only. *)
Lemma lowered_alike cs ds :
  Forall (fun c => scalar c = true) cs -> lowered cs ds ->
  alike (to_lowercase (encode cs)) (encode ds).
Proof.
  intros Hcs H. rewrite to_lowercase_encode by exact Hcs.
  induction H as [|c cs ds es Hc _ IH]; [constructor|].
  inversion Hcs; subst. cbn [flat_map]. rewrite !encode_app.
  apply lower_alike; auto.
Qed.

(** ** Examples *)

Module CharsExamples.

(** " Σ\u{3000}" is trimmed to "Σ": the ideographic space is white space. *)
Example trim_sample : trim (encode [32; 931; 12288]) = encode [931].
Proof. vm_compute. reflexivity. Qed.

(** The capital sigma: the model leaves it, the tables give the small sigma
    or the final one; the three strings are alike. *)
Example sigma_lowered : lowered [65; 931] [97; 963] /\ lowered [65; 931] [97; 962].
Proof.
  split; apply (lowered_cons 65 [931] [97] [_]), (lowered_cons 931 [] [_] []);
    try (apply lowers_other; [reflexivity | discriminate |]); repeat constructor.
Qed.

End CharsExamples.
