(* ===== verification/Errors.v ===== *)
(** * The error type of the crate

    [crate::Error] is defined outside src/; [api.rs] builds it with
    [Error::new_message] and with the [From] conversions that the [?]
    operator applies to a [NulError] and a [Utf8Error].  The specification
    (section 7) names the kinds. *)

From Stdlib Require Import ZArith List String.
From stdpp Require Import base tactics.
From S2P Require Import Prelude RustStr Utf8.

Inductive Error : Type :=
| Message (msg : string)
| NulByteInSource (e : NulError)
| Utf8DecodeFailure (e : Utf8Error).

(** The two messages of [api.rs]. *)
Definition unexpected_null : Error := Message "Unexpected null value".
Definition length_overflow : Error := Message "i32 overflow, string to large".
