(* ===== verification/Host.v ===== *)
(** * The host: SQLite as the layer sees it

    [api.rs] reaches SQLite only through the functions [sqlite3ext_*] of
    [crate::ext] and [sqlite3_mprintf].  That code is not in src/; this file
    models it from the specification (sections 3, 5 and 6) and from the
    documentation of the C interface the source links to.

    The state [host] holds
    - [heap]: by address, the allocations of the Rust allocator that the
      layer makes ([CString] buffers, boxes), each live or freed, and the
      buffers of SQLite's own allocator ([sqlite3_mprintf]);
    - [values]: the value handles ([*mut sqlite3_value]) that are valid
      during the call, with the SQL value each denotes;
    - [contexts]: the result handles ([*mut sqlite3_context]): the result
      written so far, its subtype, and the auxiliary data slots;
    - [writes]: the results written so far through any context, latest
      first;
    - [sqlite_oom]: whether SQLite has run out of memory.

    A call with a handle that is not in the state, a read past a buffer and a
    free of what is not live are undefined behaviour ([Undef]).  What SQLite
    converts on its own when a value is read as another type is left to the
    class [HostCoercion]: the layer passes those values through; [Casts]
    gives the instance SQLite documents.  A double that is a NaN is stored
    as NULL ([value_of_result]).  What the
    host expects of a destructor it is given is the class [Destructors],
    which [ResultApi] discharges for the destructors of the layer.

    The second half of the file is about ownership: [host_wf] and [no_leak],
    the states a write leaves ([wrote], [stored], [released], [allocated]),
    and the one argument, [swapped], by which every write that involves a
    destructor keeps the invariant. *)

From Stdlib Require Import ZArith Lia List String Ascii.
From stdpp Require Import base tactics option list gmap.
From S2P Require Import Prelude RustStr RustNum.

#[local] Open Scope Z_scope.
#[local] Open Scope rs_scope.

(** ** The type codes of [sqlite3_value_type] *)

Definition SQLITE_INTEGER : Z := 1.
Definition SQLITE_FLOAT : Z := 2.
Definition SQLITE_TEXT : Z := 3.
Definition SQLITE_BLOB : Z := 4.
Definition SQLITE_NULL : Z := 5.

(** ** Destructors

    The function pointers that cross the boundary: the two destructors of
    [api.rs], and any other [extern "C"] function a caller registers. *)

Inductive destructor : Type :=
| result_text_destructor_fn
| pointer_destroy_fn (T : Z)
| extern_fn (id : Z).

#[export] Instance destructor_eq_dec : EqDecision destructor.
Proof. solve_decision. Defined.

(** ** The Rust heap *)

Inductive allocation : Type :=
| CStringAlloc (bytes : list Z)
| BoxAlloc (T : Z) (object : list Z).

(** A cell of the heap: a live Rust allocation, a freed one, or a buffer of
    SQLite's own allocator, which Rust must neither read as its own nor
    free. *)
Inductive cell : Type :=
| Live (a : allocation)
| Freed
| HostBuffer (bytes : list Z).

(** ** SQL values and results *)

Inductive sql_value : Type :=
| SqlNull
| SqlInteger (i : Z)
| SqlFloat (f : f64)
| SqlText (bytes : list Z)
| SqlBlob (bytes : list Z)
| SqlPointer (p : Z) (name : list Z).

Inductive sql_result : Type :=
| ResText (p : Z) (n : Z) (text : list Z) (d : option destructor)
| ResInt (i : Z)
| ResInt64 (i : Z)
| ResDouble (f : f64)
| ResBlob (bytes : list Z)
| ResNull
| ResError (msg : list Z)
| ResErrorCode (code : Z)
| ResPointer (p : Z) (name : list Z) (d : option destructor).

Record sqlite3_context : Type := mkContext {
  ctx_result : option sql_result;
  ctx_subtype : Z;
  ctx_auxdata : gmap Z (Z * option destructor)
}.

Record host : Type := mkHost {
  heap : gmap Z cell;
  next_addr : Z;
  values : gmap Z sql_value;
  contexts : gmap Z sqlite3_context;
  writes : list (Z * sql_result);
  sqlite_oom : bool
}.

Definition set_heap (f : gmap Z cell -> gmap Z cell) (h : host) : host :=
  mkHost (f (heap h)) (next_addr h) (values h) (contexts h) (writes h) (sqlite_oom h).

Definition set_contexts (f : gmap Z sqlite3_context -> gmap Z sqlite3_context)
  (h : host) : host :=
  mkHost (heap h) (next_addr h) (values h) (f (contexts h)) (writes h) (sqlite_oom h).

Definition log_write (ctx : Z) (r : sql_result) (h : host) : host :=
  mkHost (heap h) (next_addr h) (values h) (contexts h) ((ctx, r) :: writes h)
    (sqlite_oom h).

Definition empty_context : sqlite3_context := mkContext None 0 ∅.

(** ** What SQLite converts on its own *)

Class HostCoercion : Type := {
  int_to_text : Z -> list Z;
  double_to_text : f64 -> list Z;
  text_to_int64 : list Z -> Z;
  text_to_double : list Z -> f64;
  double_to_int64 : f64 -> Z;
  int_to_double : Z -> f64;
  int_to_text_no_nul : forall i, ~ In 0 (int_to_text i);
  double_to_text_no_nul : forall f, ~ In 0 (double_to_text f);
  text_to_int64_range : forall s, in_i64 (text_to_int64 s) = true;
  double_to_int64_range : forall f, in_i64 (double_to_int64 f) = true
}.

(** ** Rust allocations *)

(** [Box::new], [CString::new]: a fresh live cell. *)
Definition rust_alloc (a : allocation) : exec host Z :=
  fun h =>
    let p := next_addr h in
    Ret (p, mkHost (<[p := Live a]> (heap h)) (p + 1) (values h) (contexts h)
              (writes h) (sqlite_oom h)).

(** The allocation a raw pointer points to; undefined when it is not live. *)
Definition rust_deref (p : Z) : exec host allocation :=
  fun h => match heap h !! p with
           | Some (Live a) => Ret (a, h)
           | _ => Undef
           end.

(** [drop] of the owner of the allocation at [p]. *)
Definition rust_free (p : Z) : exec host unit :=
  fun h => match heap h !! p with
           | Some (Live _) => Ret (tt, set_heap (<[p := Freed]>) h)
           | _ => Undef
           end.

(** [drop(CString::from_raw(p))]. *)
Definition drop_cstring (p : Z) : exec host unit :=
  let! a := rust_deref p in
  match a with
  | CStringAlloc _ => rust_free p
  | _ => undef
  end.

(** [drop(Box::<T>::from_raw(p))]. *)
Definition drop_box (T : Z) (p : Z) : exec host unit :=
  let! a := rust_deref p in
  match a with
  | BoxAlloc T' _ => if bool_decide (T' = T) then rust_free p else undef
  | _ => undef
  end.

(** ** The destructors the host is given

    A destructor is a function of the layer or one of the caller.  The host
    calls it through [call_destructor]; what the layer promises of its own is
    the interface [Destructors]: the destructor made for an allocation frees
    it, once; called on a cell that is freed, it is a double free. *)

(** A destructor of the layer, as against one of the caller. *)
Definition is_rust (d : destructor) : bool :=
  match d with
  | extern_fn _ => false
  | _ => true
  end.

(** The destructor frees the allocation: it was made for that kind. *)
Definition pairs_with (d : destructor) (a : allocation) : bool :=
  match d, a with
  | result_text_destructor_fn, CStringAlloc _ => true
  | pointer_destroy_fn T, BoxAlloc T' _ => bool_decide (T' = T)
  | _, _ => false
  end.

Class Destructors : Type := {
  call_destructor : destructor -> Z -> exec host unit;
  call_paired : forall d p a h,
    heap h !! p = Some (Live a) -> pairs_with d a = true ->
    call_destructor d p h = Ret (tt, set_heap (<[p := Freed]>) h);
  call_freed : forall d p h,
    is_rust d = true -> heap h !! p = Some Freed -> call_destructor d p h = Undef;
  call_extern : forall d p h,
    is_rust d = false -> call_destructor d p h = Ret (tt, h)
}.

(** ** The formatted allocator

    [sqlite3_mprintf] called with a format and no further argument.  A
    directive is a percent sign, flags (- + space # ! 0 and the comma), a
    width (digits, or a star for a width passed as an argument), a point
    and a precision (digits or a star), l or ll, and a conversion character.  The
    format is copied but for its directives:
    - a percent sign that ends the format is kept;
    - the conversion % prints one percent sign, in a field of the width of
      the directive, on its left when the flag - is there: "%%" stands for
      one percent sign;
    - a conversion that takes an argument (d s g z q Q w c o u x X f e E G
      i n p r), and a width or a precision given as a star, read an argument
      that was not passed: the call is undefined ([None]);
    - any other conversion character, and the end of the format inside a
      directive, end the output: what follows is not printed.
    [scan] reads the format once, as the loop of SQLite does; the state
    [scanning] says where in a directive it is.  The width is computed in
    32 bits without sign and its sign bit is cleared. *)

Definition is_flag (c : Z) : bool :=
  existsb (Z.eqb c) [45; 43; 32; 35; 33; 48; 44].

Definition reads_argument (c : Z) : bool :=
  existsb (Z.eqb c)
    [100; 115; 103; 122; 113; 81; 119; 99; 111; 117; 120; 88; 102; 101; 69; 71; 105;
     110; 112; 114].

Inductive scanning : Type :=
| InText
| InFlags (first ljust : bool)
| InWidth (ljust : bool) (wx : Z)
| InPrecision (first ljust : bool) (width : Z)
| InLong (second ljust : bool) (width : Z).

(** A percent sign in a field of [width] bytes. *)
Definition percent_field (ljust : bool) (width : Z) : list Z :=
  let pad := repeat 32 (Z.to_nat (width - 1)) in
  if ljust then 37 :: pad else pad ++ [37].

Fixpoint scan (st : scanning) (fmt : list Z) : option (list Z) :=
  match fmt with
  | [] =>
    match st with
    | InFlags true _ => Some [37]
    | _ => Some []
    end
  | c :: r =>
    let convert (ljust : bool) (width : Z) :=
      if c =? 37 then option_map (app (percent_field ljust width)) (scan InText r)
      else if reads_argument c then None
      else Some [] in
    match st with
    | InText =>
      if c =? 37 then scan (InFlags true false) r else option_map (cons c) (scan InText r)
    | InFlags _ ljust =>
      if c =? 45 then scan (InFlags false true) r
      else if is_flag c then scan (InFlags false ljust) r
      else if c =? 108 then scan (InLong false ljust 0) r
      else if is_ascii_digit c then scan (InWidth ljust (c - 48)) r
      else if c =? 42 then None
      else if c =? 46 then scan (InPrecision true ljust 0) r
      else convert ljust 0
    | InWidth ljust wx =>
      if is_ascii_digit c then scan (InWidth ljust (as_u32 (wx * 10 + c - 48))) r
      else if c =? 46 then scan (InPrecision true ljust (Z.land wx 2147483647)) r
      else if c =? 108 then scan (InLong false ljust (Z.land wx 2147483647)) r
      else convert ljust (Z.land wx 2147483647)
    | InPrecision first ljust width =>
      if first && (c =? 42) then None
      else if is_ascii_digit c then scan (InPrecision false ljust width) r
      else if c =? 108 then scan (InLong false ljust width) r
      else convert ljust width
    | InLong second ljust width =>
      if negb second && (c =? 108) then scan (InLong true ljust width) r
      else convert ljust width
    end
  end.

Definition format_no_args (fmt : list Z) : option (list Z) := scan InText fmt.

(** The buffer is SQLite's; the null pointer when SQLite gives none:
    [sqlite_oom] stands for every reason it has, no memory left or an
    output beyond its limit of length. *)
Definition sqlite3_mprintf (fmt : Z) : exec host Z :=
  let! a := rust_deref fmt in
  match a with
  | CStringAlloc buf =>
    let! format := lift_opt (cstr_bytes buf) in
    let! text := lift_opt (format_no_args format) in
    fun h =>
      if sqlite_oom h then Ret (0, h)
      else Ret (next_addr h,
                mkHost (<[next_addr h := HostBuffer (text ++ [0])]> (heap h))
                  (next_addr h + 1) (values h) (contexts h) (writes h) (sqlite_oom h))
  | _ => undef
  end.

(** [sqlite3_free]. *)
Definition sqlite3_free (p : Z) : exec host unit :=
  fun h => match heap h !! p with
           | Some (HostBuffer _) => Ret (tt, set_heap (<[p := Freed]>) h)
           | _ => Undef
           end.

(** ** Reading a value handle *)

Section Accessors.
Context `{HostCoercion}.

Definition with_value {A} (v : Z) (f : sql_value -> A) : exec host A :=
  fun h => match values h !! v with
           | Some x => Ret (f x, h)
           | None => Undef
           end.

Definition type_code (x : sql_value) : Z :=
  match x with
  | SqlNull | SqlPointer _ _ => SQLITE_NULL
  | SqlInteger _ => SQLITE_INTEGER
  | SqlFloat _ => SQLITE_FLOAT
  | SqlText _ => SQLITE_TEXT
  | SqlBlob _ => SQLITE_BLOB
  end.

(** The bytes of the value read as text or blob; [None] for NULL. *)
Definition content (x : sql_value) : option (list Z) :=
  match x with
  | SqlNull | SqlPointer _ _ => None
  | SqlInteger i => Some (int_to_text i)
  | SqlFloat f => Some (double_to_text f)
  | SqlText b | SqlBlob b => Some b
  end.

(** [sqlite3_value_text]: NULL, or a buffer that ends in a nul. *)
Definition text_buffer (x : sql_value) : option (list Z) :=
  option_map (fun b => b ++ [0]) (content x).

(** [sqlite3_value_blob]: NULL for a NULL value and for a value of length
    zero. *)
Definition blob_buffer (x : sql_value) : option (list Z) :=
  match content x with
  | Some (b :: r) => Some (b :: r)
  | _ => None
  end.

Definition byte_count (x : sql_value) : Z :=
  match content x with
  | Some b => str_len b
  | None => 0
  end.

Definition int64_of (x : sql_value) : Z :=
  match x with
  | SqlInteger i => i
  | SqlFloat f => double_to_int64 f
  | SqlText b | SqlBlob b => text_to_int64 b
  | SqlNull | SqlPointer _ _ => 0
  end.

Definition double_of (x : sql_value) : f64 :=
  match x with
  | SqlFloat f => f
  | SqlInteger i => int_to_double i
  | SqlText b | SqlBlob b => text_to_double b
  | SqlNull | SqlPointer _ _ => F64Dec false 0 0
  end.

Definition sqlite3ext_value_type (v : Z) : exec host Z := with_value v type_code.
Definition sqlite3ext_value_text (v : Z) : exec host (option (list Z)) :=
  with_value v text_buffer.
Definition sqlite3ext_value_blob (v : Z) : exec host (option (list Z)) :=
  with_value v blob_buffer.
Definition sqlite3ext_value_bytes (v : Z) : exec host Z := with_value v byte_count.
Definition sqlite3ext_value_int64 (v : Z) : exec host Z := with_value v int64_of.
Definition sqlite3ext_value_int (v : Z) : exec host Z :=
  with_value v (fun x => as_i32 (int64_of x)).
Definition sqlite3ext_value_double (v : Z) : exec host f64 := with_value v double_of.

(** [sqlite3_value_pointer]: the pointer bound under the same name, or NULL
    (0).  The names are compared as C strings: the read is undefined when
    either has no terminator. *)
Definition sqlite3ext_value_pointer (v : Z) (c_name : list Z) : exec host Z :=
  let! x := with_value v id in
  match x with
  | SqlPointer p name =>
    let! asked := lift_opt (cstr_bytes c_name) in
    let! bound := lift_opt (cstr_bytes name) in
    ret (if bool_decide (asked = bound) then p else 0)
  | _ => ret 0
  end.

End Accessors.

(** ** Writing a result *)

Section Releasing.
Context `{Destructors}.


(** The pointer and the destructor the host holds for a result. *)
Definition result_owner (r : sql_result) : option (Z * destructor) :=
  match r with
  | ResText p _ _ (Some d) | ResPointer p _ (Some d) => Some (p, d)
  | _ => None
  end.

(** The host lets go of a result: it calls the destructor it holds. *)
Definition release_result (r : option sql_result) : exec host unit :=
  match r with
  | Some r =>
    match result_owner r with
    | Some (p, d) => call_destructor d p
    | None => ret tt
    end
  | None => ret tt
  end.

Definition run_destructor_opt (d : option destructor) (p : Z) : exec host unit :=
  match d with
  | Some d => call_destructor d p
  | None => ret tt
  end.

Definition get_context (ctx : Z) : exec host sqlite3_context :=
  fun h => match contexts h !! ctx with
           | Some c => Ret (c, h)
           | None => Undef
           end.

(** Every [sqlite3_result_*]: the previous result of the context is let go,
    the new one is stored and logged. *)
Definition set_result (ctx : Z) (r : sql_result) : exec host unit :=
  let! c := get_context ctx in
  release_result (ctx_result c) ;;
  modify (set_contexts (<[ctx := mkContext (Some r) (ctx_subtype c) (ctx_auxdata c)]>)) ;;
  modify (log_write ctx r).

(** The bytes the host reads at a pointer with a length: [n] bytes, or up to
    the nul when [n] is negative. *)
Definition read_bytes (buf : list Z) (n : Z) : option (list Z) :=
  if n <? 0 then cstr_bytes buf
  else if n <=? str_len buf then Some (firstn (Z.to_nat n) buf)
  else None.

Definition sqlite3ext_result_text (ctx p n : Z) (d : option destructor)
  : exec host unit :=
  let! a := rust_deref p in
  match a with
  | CStringAlloc buf =>
    let! text := lift_opt (read_bytes buf n) in
    set_result ctx (ResText p n text d)
  | _ => undef
  end.

Definition sqlite3ext_result_int (ctx i : Z) : exec host unit :=
  set_result ctx (ResInt i).

Definition sqlite3ext_result_int64 (ctx i : Z) : exec host unit :=
  set_result ctx (ResInt64 i).

Definition sqlite3ext_result_double (ctx : Z) (f : f64) : exec host unit :=
  set_result ctx (ResDouble f).

(** The host copies [n] bytes of the slice; a negative [n] or one past the
    slice is a read outside it. *)
Definition sqlite3ext_result_blob (ctx : Z) (blob : list Z) (n : Z) : exec host unit :=
  if (0 <=? n) && (n <=? str_len blob)
  then set_result ctx (ResBlob (firstn (Z.to_nat n) blob))
  else undef.

Definition sqlite3ext_result_null (ctx : Z) : exec host unit :=
  set_result ctx ResNull.

(** The host copies the message and keeps no pointer. *)
Definition sqlite3ext_result_error (ctx p n : Z) : exec host unit :=
  let! a := rust_deref p in
  match a with
  | CStringAlloc buf =>
    let! msg := lift_opt (read_bytes buf n) in
    set_result ctx (ResError msg)
  | _ => undef
  end.

Definition sqlite3ext_result_error_code (ctx code : Z) : exec host unit :=
  set_result ctx (ResErrorCode code).

(** Only the low eight bits of a subtype are kept. *)
Definition sqlite3ext_result_subtype (ctx subtype : Z) : exec host unit :=
  let! c := get_context ctx in
  modify (set_contexts
    (<[ctx := mkContext (ctx_result c) (subtype mod 256) (ctx_auxdata c)]>)).

Definition sqlite3ext_result_pointer (ctx p : Z) (name : list Z)
  (d : option destructor) : exec host unit :=
  set_result ctx (ResPointer p name d).

(** ** Auxiliary data *)

Definition sqlite3ext_get_auxdata (ctx col : Z) : exec host Z :=
  let! c := get_context ctx in
  ret (match ctx_auxdata c !! col with Some (p, _) => p | None => 0 end).

(** The destructor of the data the slot held is called before the slot is
    overwritten. *)
Definition sqlite3ext_set_auxdata (ctx col p : Z) (d : option destructor)
  : exec host unit :=
  let! c := get_context ctx in
  match ctx_auxdata c !! col with
  | Some (q, dq) => run_destructor_opt dq q
  | None => ret tt
  end ;;
  modify (set_contexts
    (<[ctx := mkContext (ctx_result c) (ctx_subtype c) (<[col := (p, d)]> (ctx_auxdata c))]>)).

(** ** The value a result becomes

    When the function returns, the host hands its result on as a value. *)
Definition value_of_result (r : option sql_result) : sql_value :=
  match r with
  | Some (ResText _ _ text _) => SqlText text
  | Some (ResInt i) | Some (ResInt64 i) => SqlInteger i
  | Some (ResDouble f) => if is_nan f then SqlNull else SqlFloat f
  | Some (ResBlob b) => SqlBlob b
  | Some (ResPointer p name _) => SqlPointer p name
  | Some ResNull | Some (ResError _) | Some (ResErrorCode _) | None => SqlNull
  end.

(** The host binds the result of context [ctx] to the value handle [v]. *)
Definition deliver (ctx v : Z) : exec host unit :=
  let! c := get_context ctx in
  fun h => Ret (tt, mkHost (heap h) (next_addr h)
                      (<[v := value_of_result (ctx_result c)]> (values h))
                      (contexts h) (writes h) (sqlite_oom h)).

(** The host is done with context [ctx]: it lets go of the result. *)
Definition finish (ctx : Z) : exec host unit :=
  let! c := get_context ctx in
  release_result (ctx_result c) ;;
  modify (set_contexts (<[ctx := mkContext None (ctx_subtype c) (ctx_auxdata c)]>)).

(** ** Well-formed states *)

(** The places where the host holds a pointer with its destructor: the
    result of a context, and a slot of its auxiliary data. *)
Inductive slot : Type :=
| ResultSlot (ctx : Z)
| AuxSlot (ctx col : Z).

#[export] Instance slot_eq_dec : EqDecision slot.
Proof. solve_decision. Defined.

Definition held_in (c : sqlite3_context) (s : slot) : option (Z * destructor) :=
  match s with
  | ResultSlot _ =>
    match ctx_result c with
    | Some r => result_owner r
    | None => None
    end
  | AuxSlot _ col =>
    match ctx_auxdata c !! col with
    | Some (p, Some d) => Some (p, d)
    | _ => None
    end
  end.

Definition slot_context (s : slot) : Z :=
  match s with ResultSlot ctx | AuxSlot ctx _ => ctx end.

Definition held_at (h : host) (s : slot) : option (Z * destructor) :=
  match contexts h !! slot_context s with
  | Some c => held_in c s
  | None => None
  end.

(** A live allocation of the Rust allocator; a buffer of SQLite's own
    allocator is none. *)
Definition is_live (h : host) (p : Z) : bool :=
  match heap h !! p with Some (Live _) => true | _ => false end.

(** A state the layer can leave behind: the null pointer is no address of
    the allocator; every address in use is below the allocator's cursor;
    every pointer the host holds with a destructor of the layer is live, of
    the kind the destructor frees, and held in one place. *)
Record host_wf (h : host) : Prop := {
  wf_null : 0 < next_addr h;
  wf_fresh : forall p, is_Some (heap h !! p) -> p < next_addr h;
  wf_paired : forall s p d, held_at h s = Some (p, d) -> is_rust d = true ->
    exists a, heap h !! p = Some (Live a) /\ pairs_with d a = true;
  wf_once : forall s1 s2 p d1 d2,
    held_at h s1 = Some (p, d1) -> held_at h s2 = Some (p, d2) ->
    is_rust d1 = true -> is_rust d2 = true -> s1 = s2
}.

(** No allocation of the layer is lost: what is live is held by the host with
    a destructor of the layer.  Only the allocations of Rust count: a buffer
    [sqlite3_mprintf] returned belongs to the caller, who frees it with
    [sqlite3_free]. *)
Definition no_leak (h : host) : Prop :=
  forall p, is_live h p = true ->
    exists s d, held_at h s = Some (p, d) /\ is_rust d = true.

(** ** The state after a write *)

(** The host state once the result of context [ctx], which was [c], is [o]. *)
Definition stored (ctx : Z) (c : sqlite3_context) (o : option sql_result) (h : host)
  : host :=
  set_contexts (<[ctx := mkContext o (ctx_subtype c) (ctx_auxdata c)]>) h.

(** The host state once context [ctx], which was [c], holds the result [r]. *)
Definition wrote (ctx : Z) (c : sqlite3_context) (r : sql_result) (h : host) : host :=
  log_write ctx r (stored ctx c (Some r) h).

(** The pointer and the destructor that come with a result, if any. *)
Definition option_owner (o : option sql_result) : option (Z * destructor) :=
  match o with
  | Some r => result_owner r
  | None => None
  end.

(** The host state with a new cell at the cursor. *)
Definition allocated (a : cell) (h : host) : host :=
  mkHost (<[next_addr h := a]> (heap h)) (next_addr h + 1) (values h) (contexts h)
    (writes h) (sqlite_oom h).

(** The host state once a pointer held with a destructor has been let go:
    a destructor of the layer frees the cell. *)
Definition let_go (o : option (Z * destructor)) (h : host) : host :=
  match o with
  | Some (p, d) => if is_rust d then set_heap (<[p := Freed]>) h else h
  | None => h
  end.

(** The host state once the result of [c] has been let go. *)
Definition released (ctx : Z) (c : sqlite3_context) (h : host) : host :=
  let_go (held_in c (ResultSlot ctx)) h.

(** The host state once slot [col] of the auxiliary data of [c] has been let
    go, and once it holds [p] with [d]. *)
Definition aux_released (ctx : Z) (c : sqlite3_context) (col : Z) (h : host) : host :=
  let_go (held_in c (AuxSlot ctx col)) h.

Definition aux_stored (ctx : Z) (c : sqlite3_context) (col p : Z) (d : option destructor)
  (h : host) : host :=
  set_contexts
    (<[ctx := mkContext (ctx_result c) (ctx_subtype c) (<[col := (p, d)]> (ctx_auxdata c))]>) h.


(** ** A host for the examples *)

Definition trivial_coercion : HostCoercion := {|
  int_to_text := fun _ => lit "0";
  double_to_text := fun _ => lit "0.0";
  text_to_int64 := fun _ => 0;
  text_to_double := fun _ => F64Dec false 0 0;
  double_to_int64 := fun _ => 0;
  int_to_double := fun i => F64Dec (i <? 0) (Z.abs i) 0;
  int_to_text_no_nul := fun _ => ltac:(vm_compute; intuition discriminate);
  double_to_text_no_nul := fun _ => ltac:(vm_compute; intuition discriminate);
  text_to_int64_range := fun _ => eq_refl;
  double_to_int64_range := fun _ => eq_refl
|}.

(** A state with one context [1], the value handles of [vals] numbered from
    [100], and an empty heap that starts at address [1000]. *)
Definition example_host (vals : list sql_value) : host :=
  mkHost ∅ 1000
    (list_to_map (zip (map (fun i => 100 + Z.of_nat i) (seq 0 (length vals))) vals))
    {[ 1 := empty_context ]} [] false.

(** ** Lemmas: the reads of the host *)

Lemma with_value_reads {A} v (f : sql_value -> A) : reads (with_value v f).
Proof. intros h a h'. unfold with_value. destruct (values h !! v); [intros [= _ <-]; reflexivity | discriminate]. Qed.

Lemma rust_deref_reads p : reads (rust_deref p).
Proof. intros h a h'. unfold rust_deref. destruct (heap h !! p) as [[]|]; try discriminate. intros [= _ <-]. reflexivity. Qed.

Lemma get_context_reads ctx : reads (get_context ctx).
Proof. intros h a h'. unfold get_context. destruct (contexts h !! ctx); [intros [= _ <-]; reflexivity | discriminate]. Qed.

#[local] Hint Resolve with_value_reads rust_deref_reads get_context_reads : reads.

(** ** Lemmas: the host functions on a context without a result *)

Lemma set_result_undef ctx r h : contexts h !! ctx = None -> set_result ctx r h = Undef.
Proof. intros Hc. unfold set_result, get_context, bind. rewrite Hc. reflexivity. Qed.

Lemma read_bytes_cstring text :
  read_bytes (text ++ [0]) (str_len text) = Some text.
Proof.
  unfold read_bytes. pose proof (str_len_nonneg text) as Hn.
  rewrite str_len_app. change (str_len [0]) with 1.
  replace (str_len text <? 0) with false by lia.
  replace (str_len text <=? str_len text + 1) with true by lia.
  rewrite firstn_str_len. reflexivity.
Qed.

Lemma rust_deref_allocated a h :
  rust_deref (next_addr h) (allocated (Live a) h) = Ret (a, allocated (Live a) h).
Proof. unfold rust_deref, allocated. cbn [heap]. rewrite lookup_insert_eq. reflexivity. Qed.

Lemma rust_free_allocated a h :
  rust_free (next_addr h) (allocated (Live a) h) = Ret (tt, allocated Freed h).
Proof.
  unfold rust_free, allocated, set_heap. cbn [heap next_addr values contexts writes sqlite_oom].
  rewrite lookup_insert_eq, insert_insert_eq. reflexivity.
Qed.

Lemma rust_alloc_allocated a h : rust_alloc a h = Ret (next_addr h, allocated (Live a) h).
Proof. reflexivity. Qed.

Lemma contexts_allocated a h : contexts (allocated a h) = contexts h.
Proof. reflexivity. Qed.

#[local] Hint Resolve rust_alloc_allocated rust_deref_allocated rust_free_allocated : rs.
#[local] Hint Rewrite read_bytes_cstring contexts_allocated : rs_rw.

(** [drop] of a [CString] or a [Box] that is live frees its cell; of one that
    is freed it is a double free. *)
Lemma drop_cstring_live p b h :
  heap h !! p = Some (Live (CStringAlloc b)) ->
  drop_cstring p h = Ret (tt, set_heap (<[p := Freed]>) h).
Proof. intros Hp. unfold drop_cstring, rust_deref, rust_free, bind. rewrite Hp, Hp. reflexivity. Qed.

Lemma drop_box_live T p o h :
  heap h !! p = Some (Live (BoxAlloc T o)) ->
  drop_box T p h = Ret (tt, set_heap (<[p := Freed]>) h).
Proof.
  intros Hp. unfold drop_box, rust_deref, rust_free, bind. rewrite Hp.
  rewrite bool_decide_eq_true_2 by reflexivity. rewrite Hp. reflexivity.
Qed.

Lemma drop_freed p h :
  heap h !! p = Some Freed ->
  drop_cstring p h = Undef /\ forall T, drop_box T p h = Undef.
Proof.
  intros Hp. unfold drop_cstring, drop_box, rust_deref, bind. rewrite Hp. split; reflexivity.
Qed.

(** ** Lemmas: letting go of a result, storing a result *)

Lemma held_at_result h ctx c :
  contexts h !! ctx = Some c -> held_at h (ResultSlot ctx) = held_in c (ResultSlot ctx).
Proof. intros Hc. unfold held_at. cbn [slot_context]. rewrite Hc. reflexivity. Qed.

(** Letting go of a pointer touches the heap only. *)
Lemma let_go_frame o h :
  contexts (let_go o h) = contexts h /\ next_addr (let_go o h) = next_addr h
  /\ writes (let_go o h) = writes h /\ values (let_go o h) = values h.
Proof. destruct o as [[p d]|]; [|auto]. cbn [let_go]. destruct (is_rust d); auto. Qed.

Lemma heap_let_go o h q :
  heap (let_go o h) !! q =
  match o with
  | Some (p, d) => if is_rust d && bool_decide (q = p) then Some Freed else heap h !! q
  | None => heap h !! q
  end.
Proof.
  destruct o as [[p d]|]; [|reflexivity]. cbn [let_go].
  destruct (is_rust d); [|reflexivity]. cbn [andb set_heap heap].
  case_bool_decide as Hq; [subst; apply lookup_insert_eq | apply lookup_insert_ne; congruence].
Qed.

(** The host calls the destructor of a pointer it holds. *)
Lemma call_held h s p d :
  host_wf h -> held_at h s = Some (p, d) ->
  call_destructor d p h = Ret (tt, let_go (Some (p, d)) h).
Proof.
  intros Hwf Hs. cbn [let_go]. destruct (is_rust d) eqn:Hd; [|apply call_extern, Hd].
  destruct (wf_paired h Hwf _ _ _ Hs Hd) as (a & Ha & Hp). apply (call_paired d p a h Ha Hp).
Qed.

Lemma get_context_eq h ctx c : contexts h !! ctx = Some c -> get_context ctx h = Ret (c, h).
Proof. intros Hc. unfold get_context. rewrite Hc. reflexivity. Qed.

Lemma release_result_wf h ctx c :
  host_wf h -> contexts h !! ctx = Some c ->
  release_result (ctx_result c) h = Ret (tt, released ctx c h).
Proof.
  intros Hwf Hc. unfold released. pose proof (held_at_result h ctx c Hc) as Hh.
  cbn [held_in] in *. unfold release_result.
  destruct (ctx_result c) as [r|]; [|reflexivity].
  destruct (result_owner r) as [[p d]|]; [|reflexivity].
  apply (call_held h _ p d Hwf Hh).
Qed.

#[local] Hint Resolve get_context_eq release_result_wf : rs.

(** Every [sqlite3_result_*] on a well-formed state: the old result is let
    go, the new one is stored. *)
Lemma set_result_wf h ctx c r :
  host_wf h -> contexts h !! ctx = Some c ->
  set_result ctx r h = Ret (tt, wrote ctx c r (released ctx c h)).
Proof.
  intros Hwf Hc. unfold set_result. do 2 step. reflexivity.
Qed.

Lemma contexts_released ctx c h : contexts (released ctx c h) = contexts h.
Proof. apply let_go_frame. Qed.

Lemma held_at_released ctx c h s : held_at (released ctx c h) s = held_at h s.
Proof. unfold held_at. rewrite contexts_released. reflexivity. Qed.

Lemma held_at_stored ctx c o h s :
  contexts h !! ctx = Some c ->
  held_at (stored ctx c o h) s =
  if bool_decide (s = ResultSlot ctx) then option_owner o else held_at h s.
Proof.
  intros Hc. unfold held_at, stored. cbn [contexts set_contexts].
  case_bool_decide as Hs.
  - subst s. cbn [slot_context]. rewrite lookup_insert_eq. reflexivity.
  - destruct (decide (slot_context s = ctx)) as [<-|Hne].
    + rewrite lookup_insert_eq, Hc. destruct s; [exfalso; apply Hs; reflexivity | reflexivity].
    + rewrite lookup_insert_ne by congruence. reflexivity.
Qed.

Lemma held_at_wrote ctx c r h s :
  contexts h !! ctx = Some c ->
  held_at (wrote ctx c r h) s =
  if bool_decide (s = ResultSlot ctx) then result_owner r else held_at h s.
Proof. apply (held_at_stored ctx c (Some r)). Qed.

Lemma contexts_wrote ctx c r h :
  contexts (wrote ctx c r h) !! ctx = Some (mkContext (Some r) (ctx_subtype c) (ctx_auxdata c)).
Proof. unfold wrote, stored. cbn [contexts log_write set_contexts]. apply lookup_insert_eq. Qed.

Lemma heap_stored ctx c o h : heap (stored ctx c o h) = heap h.
Proof. reflexivity. Qed.

Lemma heap_wrote ctx c r h : heap (wrote ctx c r h) = heap h.
Proof. reflexivity. Qed.

(** The log of writes is no part of well-formedness. *)
Lemma log_write_wf ctx r h : host_wf h -> host_wf (log_write ctx r h).
Proof. intros [H0 H1 H2 H3]. split; assumption. Qed.

Lemma log_write_no_leak ctx r h : no_leak h -> no_leak (log_write ctx r h).
Proof. intros Hl. exact Hl. Qed.

Lemma next_addr_released ctx c h : next_addr (released ctx c h) = next_addr h.
Proof. apply let_go_frame. Qed.

Lemma writes_released ctx c h : writes (released ctx c h) = writes h.
Proof. apply let_go_frame. Qed.

(** What letting go of the result of [c] does to the heap: the cell the
    result owned is freed, the others stay. *)
Lemma heap_released h ctx c q :
  heap (released ctx c h) !! q =
  match held_in c (ResultSlot ctx) with
  | Some (p, d) => if is_rust d && bool_decide (q = p) then Some Freed else heap h !! q
  | None => heap h !! q
  end.
Proof. apply heap_let_go. Qed.

Lemma is_live_spec h p : is_live h p = true <-> exists a, heap h !! p = Some (Live a).
Proof.
  unfold is_live. destruct (heap h !! p) as [[a| |b]|]; split; try discriminate; eauto;
    intros [a [=]].
Qed.

Lemma fresh_not_held h s d :
  host_wf h -> held_at h s = Some (next_addr h, d) -> is_rust d = true -> False.
Proof.
  intros Hwf Hs Hd. destruct (wf_paired h Hwf _ _ _ Hs Hd) as (a & Ha & _).
  pose proof (wf_fresh h Hwf (next_addr h) ltac:(rewrite Ha; eauto)). lia.
Qed.

(** An allocation keeps the state well-formed. *)
Lemma allocated_wf a h : host_wf h -> host_wf (allocated a h).
Proof.
  intros Hwf. split.
  - pose proof (wf_null h Hwf). unfold allocated. cbn [next_addr]. lia.
  - intros p. unfold allocated. cbn [heap next_addr]. rewrite lookup_insert_is_Some.
    intros [<-|[_ Hp]]; [lia|]. pose proof (wf_fresh h Hwf p Hp). lia.
  - intros s p d Hs Hd. change (held_at (allocated a h) s) with (held_at h s) in Hs.
    destruct (wf_paired h Hwf _ _ _ Hs Hd) as (a' & Ha & Hp).
    exists a'. split; [|exact Hp]. unfold allocated. cbn [heap].
    rewrite lookup_insert_ne; [exact Ha|]. intros <-. eapply fresh_not_held; eauto.
  - intros s1 s2 p d1 d2. apply (wf_once h Hwf).
Qed.

Lemma allocated_lookup a h q :
  heap (allocated a h) !! q = if bool_decide (q = next_addr h) then Some a else heap h !! q.
Proof.
  unfold allocated. cbn [heap].
  case_bool_decide as E; [subst; apply lookup_insert_eq | apply lookup_insert_ne; congruence].
Qed.

(** A cell that is no live Rust allocation is no leak. *)
Lemma allocated_no_leak a h : (forall x, a <> Live x) -> no_leak h -> no_leak (allocated a h).
Proof.
  intros Ha Hl q Hq. apply Hl. apply is_live_spec in Hq as [x Hx].
  apply is_live_spec. exists x. rewrite allocated_lookup in Hx.
  case_bool_decide; [congruence | exact Hx].
Qed.

Lemma allocated_freed_no_leak h : no_leak h -> no_leak (allocated Freed h).
Proof. apply allocated_no_leak. discriminate. Qed.

Lemma released_fresh h ctx c a :
  host_wf h -> contexts h !! ctx = Some c ->
  heap (released ctx c (allocated a h)) !! next_addr h = Some a.
Proof.
  intros Hwf Hc. rewrite heap_released.
  assert (Ha : heap (allocated a h) !! next_addr h = Some a)
    by (rewrite allocated_lookup, bool_decide_eq_true_2 by reflexivity; reflexivity).
  destruct (held_in c (ResultSlot ctx)) as [[p d]|] eqn:E; [|exact Ha].
  destruct (is_rust d) eqn:Hd; [|exact Ha]. cbn [andb].
  case_bool_decide as Hp; [|exact Ha]. subst p. exfalso.
  apply (fresh_not_held h (ResultSlot ctx) d Hwf); [|exact Hd].
  rewrite (held_at_result h ctx c Hc). exact E.
Qed.

(** ** A slot changes hands

    Every write of the host that involves a destructor has one shape: the
    pointer a slot held is let go, and the slot holds a new one.  [swapped]
    says so of two states. *)

Record swapped (s0 : slot) (o : option (Z * destructor)) (h h' : host) : Prop := {
  sw_next : next_addr h' = next_addr h;
  sw_heap : forall q, heap h' !! q =
    match held_at h s0 with
    | Some (p, d) => if is_rust d && bool_decide (q = p) then Some Freed else heap h !! q
    | None => heap h !! q
    end;
  sw_held : forall s, held_at h' s = if bool_decide (s = s0) then o else held_at h s
}.

(** The new pointer is live, of the kind its destructor frees, and held
    nowhere yet. *)
Definition admissible (h : host) (o : option (Z * destructor)) : Prop :=
  forall p d, o = Some (p, d) -> is_rust d = true ->
    (exists a, heap h !! p = Some (Live a) /\ pairs_with d a = true) /\
    (forall s d', held_at h s = Some (p, d') -> is_rust d' = true -> False).

Section Swapped.
Context (s0 : slot) (o : option (Z * destructor)) (h h' : host).
Hypothesis (Hwf : host_wf h) (Hsw : swapped s0 o h h').

(** A cell that is live after the swap was live before. *)
Lemma swapped_live q a : heap h' !! q = Some (Live a) -> heap h !! q = Some (Live a).
Proof.
  rewrite (sw_heap _ _ _ _ Hsw). destruct (held_at h s0) as [[p d]|]; [|exact id].
  destruct (is_rust d && bool_decide (q = p)); [discriminate | exact id].
Qed.

(** A cell held by another slot is not the one that is let go. *)
Lemma swapped_keeps s q d :
  s <> s0 -> held_at h s = Some (q, d) -> is_rust d = true -> heap h' !! q = heap h !! q.
Proof.
  intros Hs Hq Hd. rewrite (sw_heap _ _ _ _ Hsw).
  destruct (held_at h s0) as [[p0 d0]|] eqn:H0; [|reflexivity].
  destruct (is_rust d0) eqn:Hd0; [|reflexivity]. cbn [andb].
  case_bool_decide as Hqp; [|reflexivity]. subst q. exfalso. apply Hs.
  apply (wf_once h Hwf s s0 p0 d d0); auto.
Qed.

(** The new pointer is not the one that is let go. *)
Lemma swapped_new p d a :
  admissible h o -> o = Some (p, d) -> is_rust d = true ->
  heap h !! p = Some (Live a) -> heap h' !! p = Some (Live a).
Proof.
  intros Hadm Ho Hd Ha. destruct (Hadm p d Ho Hd) as [_ Hfree].
  rewrite (sw_heap _ _ _ _ Hsw).
  destruct (held_at h s0) as [[p0 d0]|] eqn:H0; [|exact Ha].
  destruct (is_rust d0) eqn:Hd0; [|exact Ha]. cbn [andb].
  case_bool_decide as Hqp; [|exact Ha]. subst p0. exfalso. exact (Hfree s0 d0 H0 Hd0).
Qed.

Lemma swapped_fresh q : is_Some (heap h' !! q) -> q < next_addr h'.
Proof.
  rewrite (sw_next _ _ _ _ Hsw), (sw_heap _ _ _ _ Hsw). intros Hq. apply (wf_fresh h Hwf).
  destruct (held_at h s0) as [[p0 d0]|] eqn:H0; [|exact Hq].
  destruct (is_rust d0 && bool_decide (q = p0)) eqn:E; [|exact Hq].
  apply andb_true_iff in E as [Hd0 ->%bool_decide_eq_true].
  destruct (wf_paired h Hwf s0 p0 d0 H0 Hd0) as (a & -> & _). eauto.
Qed.

Lemma swapped_wf : admissible h o -> host_wf h'.
Proof.
  intros Hadm. split.
  - rewrite (sw_next _ _ _ _ Hsw). apply (wf_null h Hwf).
  - apply swapped_fresh.
  - intros s p d. rewrite (sw_held _ _ _ _ Hsw). case_bool_decide as Hs.
    + intros Ho Hd. destruct (Hadm p d Ho Hd) as [(a & Ha & Hp) _].
      exists a. split; [|exact Hp]. eapply swapped_new; eauto.
    + intros Hq Hd. destruct (wf_paired h Hwf _ _ _ Hq Hd) as (a & Ha & Hp).
      exists a. split; [|exact Hp]. rewrite (swapped_keeps s p d Hs Hq Hd). exact Ha.
  - intros s1 s2 p d1 d2. rewrite !(sw_held _ _ _ _ Hsw).
    case_bool_decide as H1; case_bool_decide as H2; subst.
    + reflexivity.
    + intros Ho Hq Hd1 Hd2. destruct (Hadm p d1 Ho Hd1) as [_ Hfree].
      exfalso. exact (Hfree s2 d2 Hq Hd2).
    + intros Hq Ho Hd1 Hd2. destruct (Hadm p d2 Ho Hd2) as [_ Hfree].
      exfalso. exact (Hfree s1 d1 Hq Hd1).
    + apply (wf_once h Hwf).
Qed.

(** Nothing is lost when every live cell is held or comes with the new
    owner. *)
Lemma swapped_no_leak :
  (forall q, is_live h q = true ->
     (exists d, o = Some (q, d) /\ is_rust d = true) \/
     (exists s d, held_at h s = Some (q, d) /\ is_rust d = true)) ->
  no_leak h'.
Proof.
  intros Hlive q Hq. apply is_live_spec in Hq as [a Ha].
  pose proof (swapped_live q a Ha) as Hqh.
  destruct (Hlive q (proj2 (is_live_spec h q) (ex_intro _ a Hqh)))
    as [(d & Ho & Hd)|(s & d & Hs & Hd)].
  - exists s0, d. rewrite (sw_held _ _ _ _ Hsw), bool_decide_eq_true_2 by reflexivity. auto.
  - destruct (decide (s = s0)) as [->|Hne].
    + exfalso. rewrite (sw_heap _ _ _ _ Hsw), Hs, Hd in Ha. cbn [andb] in Ha.
      rewrite bool_decide_eq_true_2 in Ha by reflexivity. discriminate.
    + exists s, d. rewrite (sw_held _ _ _ _ Hsw), bool_decide_eq_false_2 by exact Hne. auto.
Qed.

End Swapped.

(** Storing a result is such a swap of the result slot. *)
Lemma stored_swapped h ctx c o :
  contexts h !! ctx = Some c ->
  swapped (ResultSlot ctx) (option_owner o) h (stored ctx c o (released ctx c h)).
Proof.
  intros Hc. split.
  - change (next_addr (stored ctx c o (released ctx c h)))
      with (next_addr (released ctx c h)). apply next_addr_released.
  - intros q. rewrite heap_stored, heap_released, (held_at_result h ctx c Hc). reflexivity.
  - intros s. rewrite held_at_stored by (rewrite contexts_released; exact Hc).
    rewrite held_at_released. reflexivity.
Qed.

(** Storing a result keeps the state well-formed when the pointer that comes
    with it is live, of the right kind, and not yet held. *)
Lemma stored_wf h ctx c o :
  host_wf h -> contexts h !! ctx = Some c -> admissible h (option_owner o) ->
  host_wf (stored ctx c o (released ctx c h)).
Proof. intros Hwf Hc. apply (swapped_wf _ _ h _ Hwf (stored_swapped h ctx c o Hc)). Qed.

(** Storing a result loses nothing when every live cell is held or is the one
    that comes with the result. *)
Lemma stored_no_leak h ctx c o :
  host_wf h -> contexts h !! ctx = Some c ->
  (forall q, is_live h q = true ->
     (exists d, option_owner o = Some (q, d) /\ is_rust d = true) \/
     (exists s d, held_at h s = Some (q, d) /\ is_rust d = true)) ->
  no_leak (stored ctx c o (released ctx c h)).
Proof. intros _ Hc. apply (swapped_no_leak _ _ h _ (stored_swapped h ctx c o Hc)). Qed.

Lemma wrote_wf h ctx c r :
  host_wf h -> contexts h !! ctx = Some c ->
  (forall p d, result_owner r = Some (p, d) -> is_rust d = true ->
     (exists a, heap h !! p = Some (Live a) /\ pairs_with d a = true) /\
     (forall s d', held_at h s = Some (p, d') -> is_rust d' = true -> False)) ->
  host_wf (wrote ctx c r (released ctx c h)).
Proof. intros Hwf Hc Hnew. apply log_write_wf, (stored_wf h ctx c (Some r)); assumption. Qed.

Lemma wrote_no_leak h ctx c r :
  host_wf h -> contexts h !! ctx = Some c ->
  (forall q, is_live h q = true ->
     (exists d, result_owner r = Some (q, d) /\ is_rust d = true) \/
     (exists s d, held_at h s = Some (q, d) /\ is_rust d = true)) ->
  no_leak (wrote ctx c r (released ctx c h)).
Proof.
  intros Hwf Hc Hlive. apply log_write_no_leak, (stored_no_leak h ctx c (Some r)); assumption.
Qed.

(** A result that comes with no pointer: nothing to check. *)
Lemma wrote_plain_wf h ctx c r :
  host_wf h -> contexts h !! ctx = Some c -> result_owner r = None ->
  host_wf (wrote ctx c r (released ctx c h)).
Proof.
  intros Hwf Hc Hr. apply wrote_wf; [exact Hwf | exact Hc |].
  intros p d Hp. rewrite Hr in Hp. discriminate.
Qed.

(** The end of a call: the result is let go and the context is empty. *)
Lemma finish_wf h ctx c :
  host_wf h -> contexts h !! ctx = Some c ->
  finish ctx h = Ret (tt, stored ctx c None (released ctx c h)).
Proof.
  intros Hwf Hc. unfold finish. do 2 step. reflexivity.
Qed.

Lemma finish_keeps_wf h ctx c :
  host_wf h -> contexts h !! ctx = Some c ->
  host_wf (stored ctx c None (released ctx c h)).
Proof. intros Hwf Hc. apply stored_wf; [exact Hwf | exact Hc | discriminate]. Qed.

Lemma example_host_wf vals : host_wf (example_host vals).
Proof.
  split.
  - reflexivity.
  - intros p [a Ha]. cbn in Ha. rewrite lookup_empty in Ha. discriminate.
  - intros s p d Hs. unfold held_at, example_host in Hs. cbn [contexts] in Hs.
    destruct (decide (slot_context s = 1)) as [E|E].
    + rewrite E, lookup_singleton_eq in Hs. destruct s; cbn in Hs; discriminate.
    + rewrite lookup_singleton_ne in Hs by congruence. discriminate.
  - intros s1 s2 p d1 d2 Hs. unfold held_at, example_host in Hs. cbn [contexts] in Hs.
    destruct (decide (slot_context s1 = 1)) as [E|E].
    + rewrite E, lookup_singleton_eq in Hs. destruct s1; cbn in Hs; discriminate.
    + rewrite lookup_singleton_ne in Hs by congruence. discriminate.
Qed.

Lemma example_host_no_leak vals : no_leak (example_host vals).
Proof. intros p Hp. unfold is_live, example_host in Hp. cbn in Hp. rewrite lookup_empty in Hp. discriminate. Qed.

Lemma example_host_context vals : contexts (example_host vals) !! 1 = Some empty_context.
Proof. apply lookup_singleton_eq. Qed.

(** Letting go of a result whose cell is already freed is a double free. *)
Lemma finish_freed h ctx c p d :
  contexts h !! ctx = Some c -> held_in c (ResultSlot ctx) = Some (p, d) ->
  is_rust d = true -> heap h !! p = Some Freed -> finish ctx h = Undef.
Proof.
  intros Hc Hh Hd Hp. unfold finish, get_context, bind at 1. rewrite Hc.
  unfold bind at 1, release_result. cbn [held_in] in Hh.
  destruct (ctx_result c) as [r|]; [|discriminate]. rewrite Hh.
  rewrite (call_freed d p h Hd Hp). reflexivity.
Qed.

End Releasing.

(** The equations and rules [step] runs the host with. *)
#[export] Hint Resolve rust_alloc_allocated rust_deref_allocated rust_free_allocated
  get_context_eq release_result_wf set_result_wf allocated_wf : rs.
#[export] Hint Rewrite read_bytes_cstring contexts_allocated : rs_rw.
#[export] Hint Resolve with_value_reads rust_deref_reads get_context_reads : reads.
