(* ===== verification/Mprintf.v ===== *)
(** * Strings allocated by the host

    Models [MprintfError] and [mprintf] (src/src/api.rs, lines 95-115):
    the string is made a C string, passed to [sqlite3_mprintf] as its format,
    and the buffer SQLite allocated is returned, or an error when SQLite has
    no memory left.  The C string is dropped when the function returns.  The
    string is not passed as an argument of a "%s" but as the format itself,
    so its directives are carried out ([Host.format_no_args]): a percent
    sign may vanish, make the call undefined, or end the output. *)

From Stdlib Require Import ZArith Lia List String Ascii.
From stdpp Require Import base tactics option list gmap.
From S2P Require Import Prelude RustStr RustNum Utf8 Errors Host.

#[local] Open Scope Z_scope.
#[local] Open Scope rs_scope.

Inductive MprintfError : Type :=
| Nul (e : NulError)
| Oom.

Definition mprintf (base : list Z) : exec host (result Z MprintfError) :=
  match cstring_new base with
  | Err e => ret (Err (Nul e))
  | Ok bytes =>
    let! cbase := rust_alloc (CStringAlloc bytes) in
    let! result := sqlite3_mprintf cbase in
    let r := if result =? 0 then Err Oom else Ok result in
    rust_free cbase ;;
    ret r
  end.

(** The state after a call that reached the host: the C string is freed, and
    the buffer of the host, if it was allocated, follows it. *)
Definition printed (text : list Z) (h : host) : host :=
  allocated (HostBuffer (text ++ [0])) (allocated Freed h).

(** The characters a directive may begin with. *)
Definition begins_directive (c : Z) : bool :=
  (c =? 37) || is_flag c || (c =? 108) || is_ascii_digit c || (c =? 42) || (c =? 46)
  || reads_argument c.

(** ** The format *)

Lemma percent_field_clean ljust width : ~ In 0 (percent_field ljust width).
Proof.
  unfold percent_field. intros Hin.
  assert (Hp : forall n, ~ In 0 (repeat 32 n)) by (intros n H%repeat_spec; discriminate).
  destruct ljust; [destruct Hin as [?|Hin]; [lia|]|apply in_app_or in Hin as [Hin|[?|[]]]; [|lia]];
    exact (Hp _ Hin).
Qed.

Lemma scan_text_app text r :
  ~ In 37 text -> scan InText (text ++ r) = option_map (app text) (scan InText r).
Proof.
  induction text as [|c t IH]; intros Hn.
  - cbn [app]. destruct (scan InText r); reflexivity.
  - cbn [app scan]. destruct (Z.eqb_spec c 37) as [->|_]; [destruct Hn; left; reflexivity|].
    rewrite IH by (intros H; apply Hn; right; exact H). destruct (scan InText r); reflexivity.
Qed.

Lemma format_no_args_plain base : ~ In 37 base -> format_no_args base = Some base.
Proof.
  intros Hn. unfold format_no_args. rewrite <- (app_nil_r base) at 1.
  rewrite (scan_text_app base [] Hn). cbn. rewrite app_nil_r. reflexivity.
Qed.

(** The format never brings in a nul byte. *)
Lemma scan_clean fmt : forall st text, scan st fmt = Some text -> ~ In 0 fmt -> ~ In 0 text.
Proof.
  induction fmt as [|c r IH]; intros st text.
  - destruct st as [|[] ?| | |]; intros [= <-] _ Hin; cbn in Hin; intuition lia.
  - intros Hs Hn.
    assert (Hc : c <> 0) by (intros ->; apply Hn; left; reflexivity).
    assert (Hr : ~ In 0 r) by (intros H; apply Hn; right; exact H).
    assert (Hconv : forall ljust width,
      (if c =? 37 then option_map (app (percent_field ljust width)) (scan InText r)
       else if reads_argument c then None else Some []) = Some text -> ~ In 0 text).
    { intros ljust width. destruct (c =? 37).
      - destruct (scan InText r) as [t|] eqn:E; [|discriminate]. intros [= <-] Hin.
        apply in_app_or in Hin as [Hin|Hin]; [exact (percent_field_clean _ _ Hin)|].
        exact (IH _ _ E Hr Hin).
      - destruct (reads_argument c); [discriminate|]. intros [= <-] []. }
    destruct st; cbn [scan] in Hs;
      repeat match type of Hs with
             | (if ?b then _ else _) = _ => destruct b
             end; try discriminate; eauto.
    destruct (scan InText r) as [t|] eqn:E; [|discriminate]. injection Hs as <-.
    intros [?|Hin]; [congruence|]. exact (IH _ _ E Hr Hin).
Qed.

Lemma format_no_args_clean base text :
  format_no_args base = Some text -> ~ In 0 base -> ~ In 0 text.
Proof. apply scan_clean. Qed.

(** Two percent signs stand for one. *)
Lemma format_percent text r :
  ~ In 37 text ->
  format_no_args (text ++ 37 :: 37 :: r) = option_map (app (text ++ [37])) (format_no_args r).
Proof.
  intros Hn. unfold format_no_args. rewrite (scan_text_app text _ Hn).
  change (scan InText (37 :: 37 :: r)) with (option_map (app [37]) (scan InText r)).
  destruct (scan InText r); cbn [option_map]; [rewrite <- app_assoc|]; reflexivity.
Qed.

(** A conversion that takes an argument: the call reads an argument that
    was not passed. *)
Lemma format_reads text c r :
  ~ In 37 text -> reads_argument c = true -> format_no_args (text ++ 37 :: c :: r) = None.
Proof.
  intros Hn Hc. unfold format_no_args. rewrite (scan_text_app text _ Hn).
  unfold reads_argument in Hc. apply existsb_exists in Hc as (x & Hx & ->%Z.eqb_eq).
  repeat (destruct Hx as [<-|Hx]; [reflexivity|]). destruct Hx.
Qed.

(** An unknown conversion ends the output: what follows the percent sign is
    not printed. *)
Lemma format_stops text c r :
  ~ In 37 text -> begins_directive c = false ->
  format_no_args (text ++ 37 :: c :: r) = Some text.
Proof.
  intros Hn Hc. unfold format_no_args. rewrite (scan_text_app text _ Hn).
  unfold begins_directive in Hc. repeat (apply orb_false_elim in Hc as [Hc ?]).
  cbn [scan]. rewrite Z.eqb_refl.
  assert (H45 : (c =? 45) = false).
  { destruct (Z.eqb_spec c 45) as [->|]; [discriminate|reflexivity]. }
  rewrite H45. repeat match goal with H : _ = false |- _ => rewrite H; clear H end.
  cbn. rewrite app_nil_r. reflexivity.
Qed.

(** ** The call *)

Lemma cstr_bytes_terminated s : ~ In 0 s -> cstr_bytes (s ++ [0]) = Some s.
Proof. apply cstr_bytes_app. Qed.

(** The host called on the C string just allocated. *)
Lemma sqlite3_mprintf_cstring base h :
  ~ In 0 base ->
  sqlite3_mprintf (next_addr h) (allocated (Live (CStringAlloc (base ++ [0]))) h) =
  match format_no_args base with
  | None => Undef
  | Some text =>
    if sqlite_oom h then Ret (0, allocated (Live (CStringAlloc (base ++ [0]))) h)
    else Ret (next_addr h + 1,
              allocated (HostBuffer (text ++ [0]))
                (allocated (Live (CStringAlloc (base ++ [0]))) h))
  end.
Proof.
  intros Hn. unfold sqlite3_mprintf. step. rewrite (cstr_bytes_terminated base Hn). step.
  destruct (format_no_args base) as [text|]; [|reflexivity]. step. reflexivity.
Qed.

(** The C string is dropped behind the buffer of the host. *)
Lemma rust_free_behind a b h :
  rust_free (next_addr h) (allocated b (allocated (Live a) h)) =
  Ret (tt, allocated b (allocated Freed h)).
Proof.
  unfold rust_free, allocated, set_heap. cbn [heap next_addr values contexts writes sqlite_oom].
  rewrite lookup_insert_ne by lia. rewrite lookup_insert_eq.
  rewrite (insert_insert_ne _ (next_addr h) (next_addr h + 1)) by lia.
  rewrite insert_insert_eq. reflexivity.
Qed.

#[local] Hint Resolve rust_free_behind : rs.

(** [mprintf] on a string without a nul, in one equation. *)
Lemma mprintf_eq base h :
  ~ In 0 base ->
  mprintf base h =
  match format_no_args base with
  | None => Undef
  | Some text =>
    if sqlite_oom h then Ret (Err Oom, allocated Freed h)
    else if next_addr h + 1 =? 0 then Ret (Err Oom, printed text h)
    else Ret (Ok (next_addr h + 1), printed text h)
  end.
Proof.
  intros Hn. unfold mprintf. rewrite (proj2 (cstring_new_Ok base (base ++ [0])) (conj Hn eq_refl)).
  step. unfold bind at 1. rewrite (sqlite3_mprintf_cstring base h Hn).
  destruct (format_no_args base) as [text|]; [|reflexivity].
  destruct (sqlite_oom h); cbv zeta; step; [reflexivity|].
  unfold printed. destruct (next_addr h + 1 =? 0); reflexivity.
Qed.

(** Every way [mprintf] can go. *)
Lemma mprintf_cases base h :
  mprintf base h =
  match cstring_new base with
  | Err e => Ret (Err (Nul e), h)
  | Ok _ =>
    match format_no_args base with
    | None => Undef
    | Some text =>
      if sqlite_oom h then Ret (Err Oom, allocated Freed h)
      else if next_addr h + 1 =? 0 then Ret (Err Oom, printed text h)
      else Ret (Ok (next_addr h + 1), printed text h)
    end
  end.
Proof.
  destruct (cstring_new base) as [b|e] eqn:E.
  - apply cstring_new_Ok in E as [Hn _]. apply (mprintf_eq base h Hn).
  - unfold mprintf. rewrite E. reflexivity.
Qed.

Section OnHost.
Context (h : host).
Hypothesis (Hwf : host_wf h).

Lemma printed_wf text : host_wf (printed text h).
Proof. apply allocated_wf, allocated_wf, Hwf. Qed.

Lemma printed_no_leak text : no_leak h -> no_leak (printed text h).
Proof.
  intros Hl. apply allocated_no_leak; [discriminate|]. apply allocated_freed_no_leak, Hl.
Qed.

Lemma printed_buffer text :
  heap (printed text h) !! (next_addr h + 1) = Some (HostBuffer (text ++ [0]))
  /\ heap (printed text h) !! next_addr h = Some Freed.
Proof.
  unfold printed. split; rewrite allocated_lookup; cbn [allocated next_addr].
  - rewrite bool_decide_eq_true_2 by reflexivity. reflexivity.
  - rewrite bool_decide_eq_false_2 by lia.
    apply (eq_trans (allocated_lookup Freed h (next_addr h))).
    rewrite bool_decide_eq_true_2 by reflexivity. reflexivity.
Qed.

(** C32: [mprintf] of a string without a nul byte and without a percent sign
    returns a buffer of the host that holds the string and its terminator;
    the C string made for the call is freed. *)
Theorem mprintf_plain base :
  ~ In 0 base -> ~ In 37 base -> sqlite_oom h = false ->
  mprintf base h = Ret (Ok (next_addr h + 1), printed base h)
  /\ heap (printed base h) !! (next_addr h + 1) = Some (HostBuffer (base ++ [0]))
  /\ heap (printed base h) !! next_addr h = Some Freed.
Proof.
  intros Hn Hp Hoom. pose proof (wf_null h Hwf) as H0.
  rewrite (mprintf_eq base h Hn), (format_no_args_plain base Hp), Hoom.
  replace (next_addr h + 1 =? 0) with false by lia. split; [reflexivity | apply printed_buffer].
Qed.

(** The string is the format of [sqlite3_mprintf], not an argument of
    it: what comes back is the format with its directives carried out, and it
    has no nul byte but its terminator. *)
Theorem mprintf_format base text :
  ~ In 0 base -> format_no_args base = Some text -> sqlite_oom h = false ->
  mprintf base h = Ret (Ok (next_addr h + 1), printed text h) /\ ~ In 0 text.
Proof.
  intros Hn Hf Hoom. pose proof (wf_null h Hwf) as H0.
  rewrite (mprintf_eq base h Hn), Hf, Hoom.
  replace (next_addr h + 1 =? 0) with false by lia.
  split; [reflexivity | exact (format_no_args_clean base text Hf Hn)].
Qed.

(** A percent sign followed by a character that begins no directive ends
    the output: the buffer holds what comes before the percent sign, and
    the rest of the string is lost without an error. *)
Theorem mprintf_stops text c rest :
  ~ In 0 (text ++ 37 :: c :: rest) -> ~ In 37 text -> begins_directive c = false ->
  sqlite_oom h = false ->
  mprintf (text ++ 37 :: c :: rest) h = Ret (Ok (next_addr h + 1), printed text h).
Proof.
  intros Hn Hp Hc Hoom.
  exact (proj1 (mprintf_format _ text Hn (format_stops text c rest Hp Hc) Hoom)).
Qed.

(** C33: the string is passed as the format: when it holds a directive
    that reads an argument, a conversion such as d or s or a width or a
    precision given as a star, the call reads an argument that was not
    passed and is undefined. *)
Theorem mprintf_directive base :
  ~ In 0 base -> format_no_args base = None -> mprintf base h = Undef.
Proof. intros Hn Hf. rewrite (mprintf_eq base h Hn), Hf. reflexivity. Qed.

(** When the host has no memory left [mprintf] fails with [Oom]; the C
    string is freed all the same. *)
Theorem mprintf_oom base text :
  ~ In 0 base -> format_no_args base = Some text -> sqlite_oom h = true ->
  mprintf base h = Ret (Err Oom, allocated Freed h).
Proof. intros Hn Hf Hoom. rewrite (mprintf_eq base h Hn), Hf, Hoom. reflexivity. Qed.

(** Whatever [mprintf] returns, the state stays well-formed and no Rust
    allocation is lost. *)
Theorem mprintf_preserves base r h' :
  mprintf base h = Ret (r, h') -> host_wf h' /\ (no_leak h -> no_leak h').
Proof.
  destruct (in_dec Z.eq_dec 0 base) as [Hin|Hn].
  - unfold mprintf. destruct (cstring_new base) as [b|e] eqn:E.
    + apply cstring_new_Ok in E as [Hn _]. contradiction.
    + intros [= <- <-]. auto.
  - rewrite (mprintf_eq base h Hn). destruct (format_no_args base) as [text|]; [|discriminate].
    pose proof (printed_wf text). pose proof (printed_no_leak text).
    destruct (sqlite_oom h); [|destruct (next_addr h + 1 =? 0)]; intros [= <- <-]; auto.
    split; [apply allocated_wf, Hwf | apply allocated_freed_no_leak].
Qed.

End OnHost.

(** [mprintf] of a string with a nul byte fails with [Nul] before the
    host is called. *)
Theorem mprintf_nul base h :
  In 0 base ->
  exists e, mprintf base h = Ret (Err (Nul e), h) /\ nul_bytes e = base.
Proof.
  intros Hin. unfold mprintf. destruct (cstring_new base) as [b|e] eqn:E.
  - apply cstring_new_Ok in E as [Hn _]. contradiction.
  - exists e. split; [reflexivity|]. apply cstring_new_Err in E. tauto.
Qed.

(** ** The theorems at concrete inputs *)

Module MprintfExamples.

Definition h0 : host := example_host [].
Definition full : host := mkHost ∅ 1000 ∅ {[ 1 := empty_context ]} [] true.

Lemma mprintf_plain_witness :
  mprintf (lit "no such table") h0 = Ret (Ok (next_addr h0 + 1), printed (lit "no such table") h0)
  /\ heap (printed (lit "no such table") h0) !! (next_addr h0 + 1) =
     Some (HostBuffer (lit "no such table" ++ [0]))
  /\ heap (printed (lit "no such table") h0) !! next_addr h0 = Some Freed.
Proof.
  apply (mprintf_plain h0 (example_host_wf []));
    [vm_compute; intuition discriminate | vm_compute; intuition discriminate | reflexivity].
Defined.

Lemma mprintf_format_witness :
  mprintf (lit "100%%") h0 = Ret (Ok (next_addr h0 + 1), printed (lit "100%") h0)
  /\ ~ In 0 (lit "100%").
Proof.
  apply (mprintf_format h0 (example_host_wf []));
    [vm_compute; intuition discriminate | reflexivity | reflexivity].
Defined.

Lemma mprintf_stops_witness :
  mprintf (lit "50%y off") h0 = Ret (Ok (next_addr h0 + 1), printed (lit "50") h0).
Proof.
  apply (mprintf_stops h0 (example_host_wf []) (lit "50") 121 (lit " off"));
    [vm_compute; intuition discriminate | vm_compute; intuition discriminate
    | reflexivity | reflexivity].
Defined.

(** The directives of a format, one by one. *)
Example format_samples :
  format_no_args (lit "100%") = Some (lit "100%")
  /\ format_no_args (lit "%5%|") = Some (lit "    %|")
  /\ format_no_args (lit "%-5%|") = Some (lit "%    |")
  /\ format_no_args (lit "a%5.2l%b") = Some (lit "a    %b")
  /\ format_no_args (lit "a% s") = None
  /\ format_no_args (lit "a%*%") = None
  /\ format_no_args (lit "a%.*%") = None
  /\ format_no_args (lit "50%!") = Some (lit "50")
  /\ format_no_args (lit "x%5-dy") = Some (lit "x")
  /\ format_no_args (lit "%T") = Some [].
Proof. vm_compute. repeat split. Qed.

Lemma mprintf_directive_witness : mprintf (lit "rate: 5%d") h0 = Undef.
Proof.
  apply (mprintf_directive h0); [vm_compute; intuition discriminate | reflexivity].
Defined.

Lemma mprintf_oom_witness : mprintf (lit "x") full = Ret (Err Oom, allocated Freed full).
Proof.
  apply (mprintf_oom full (lit "x") (lit "x")); [vm_compute; intuition discriminate | reflexivity..].
Defined.

Lemma mprintf_preserves_witness :
  host_wf (printed (lit "x") h0) /\ (no_leak h0 -> no_leak (printed (lit "x") h0)).
Proof.
  apply (mprintf_preserves h0 (example_host_wf []) (lit "x") (Ok (next_addr h0 + 1))).
  rewrite mprintf_eq by (vm_compute; intuition discriminate). reflexivity.
Defined.

Lemma mprintf_nul_witness :
  exists e, mprintf [97; 0] h0 = Ret (Err (Nul e), h0) /\ nul_bytes e = [97; 0].
Proof. apply mprintf_nul. right. left. reflexivity. Defined.

End MprintfExamples.
