(* ===== verification/ValueApi.v ===== *)
(** * Reading values

    Models the value side of src/src/api.rs: [ValueType] and [value_type]
    (lines 198-229), the struct [Value] with its constructors and guards
    (lines 33-93), and the accessors [value_text], [value_text_notnull],
    [value_pointer], [value_int], [value_int64], [value_double], [value_blob]
    and [value_bytes] (lines 126-196).  A [*mut sqlite3_value] is the key of
    the handle in the host state; every function runs in the monad [exec host]
    over the state of [Host].  What [value_text] returns is related to the
    reference decoder of [Unicode]. *)

From Stdlib Require Import ZArith Lia List String Ascii.
From stdpp Require Import base tactics option list gmap.
From S2P Require Import Prelude RustStr RustNum Utf8 Unicode Errors Host.

#[local] Open Scope Z_scope.
#[local] Open Scope rs_scope.

(** ** [ValueType] *)

Module ValueType.

Inductive ValueType : Type :=
| Text
| Integer
| Float
| Blob
| Null.

#[export] Instance ValueType_eq_dec : EqDecision ValueType.
Proof. solve_decision. Defined.

End ValueType.

Import ValueType.

Section ValueApi.
Context `{HostCoercion}.

(** The [match] of [value_type] on [raw_type as u32]; [None] is the arm
    [unreachable!()]. *)
Definition type_of_code (raw_type : Z) : option ValueType :=
  let t := as_u32 raw_type in
  if t =? SQLITE_TEXT then Some Text
  else if t =? SQLITE_INTEGER then Some Integer
  else if t =? SQLITE_FLOAT then Some Float
  else if t =? SQLITE_BLOB then Some Blob
  else if t =? SQLITE_NULL then Some Null
  else None.

Definition value_type (value : Z) : exec host ValueType :=
  let! raw_type := sqlite3ext_value_type value in
  match type_of_code raw_type with
  | Some t => ret t
  | None => panic
  end.

(** ** The accessors *)

(** [CStr::from_ptr]: the bytes up to the first nul; undefined on a null
    pointer. *)
Definition cstr_from_ptr (p : option (list Z)) : exec host (list Z) :=
  match p with
  | None => undef
  | Some buf => lift_opt (cstr_bytes buf)
  end.

Definition value_text (value : Z) : exec host (result (list Z) Error) :=
  let! c_string := sqlite3ext_value_text value in
  let! string := cstr_from_ptr c_string in
  ret (map_err Utf8DecodeFailure (from_utf8 string)).

Definition value_text_notnull (value : Z) : exec host (result (list Z) Error) :=
  let! t := value_type value in
  if bool_decide (t = Null) then ret (Err unexpected_null)
  else
    let! c_string := sqlite3ext_value_text value in
    let! string := cstr_from_ptr c_string in
    ret (map_err Utf8DecodeFailure (from_utf8 string)).

(** [Box::from_raw(p.cast::<T>())]: the box is the address; undefined when no
    live box of type [T] is there. *)
Definition box_from_raw (T : Z) (p : Z) : exec host Z :=
  let! a := rust_deref p in
  match a with
  | BoxAlloc T' _ => if bool_decide (T' = T) then ret p else undef
  | _ => undef
  end.

Definition value_pointer (T : Z) (value : Z) (c_name : list Z) : exec host (option Z) :=
  let! result := sqlite3ext_value_pointer value c_name in
  if result =? 0 then ret None
  else
    let! b := box_from_raw T result in
    ret (Some b).

Definition value_int (value : Z) : exec host Z := sqlite3ext_value_int value.

Definition value_int64 (value : Z) : exec host Z := sqlite3ext_value_int64 value.

Definition value_double (value : Z) : exec host f64 := sqlite3ext_value_double value.

(** [slice::from_raw_parts]: undefined on a null pointer, whatever the
    length. *)
Definition from_raw_parts (p : option (list Z)) (n : Z) : exec host (list Z) :=
  match p with
  | None => undef
  | Some buf => if n <=? str_len buf then ret (firstn (Z.to_nat n) buf) else undef
  end.

Definition value_blob (value : Z) : exec host (list Z) :=
  let! n := sqlite3ext_value_bytes value in
  let! b := sqlite3ext_value_blob value in
  from_raw_parts b (as_usize n).

Definition value_bytes (value : Z) : exec host Z := sqlite3ext_value_bytes value.

End ValueApi.

(** ** [Value] *)

Module Value.
Section Value.
Context `{HostCoercion}.

Record Value : Type := mkValue {
  value : Z;
  value_type : ValueType
}.

Definition from (value : Z) : exec host (result Value Error) :=
  let! value_type := ValueApi.value_type value in
  ret (Ok (mkValue value value_type)).

Definition at_ (values : list Z) (at_index : nat) : exec host (option Value) :=
  match values !! at_index with
  | None => ret None
  | Some value =>
    let! value_type := ValueApi.value_type value in
    ret (Some (mkValue value value_type))
  end.

Definition notnull_or (self : Value) (error : Error) : result Value Error :=
  if bool_decide (value_type self <> Null) then Ok self else Err error.

(** The closure [err] may touch the state it captured: it is a computation,
    run only when the value is NULL. *)
Definition notnull_or_else {St : Type} (self : Value) (err : exec St Error)
  : exec St (result Value Error) :=
  if bool_decide (value_type self <> Null) then ret (Ok self)
  else
    let! e := err in
    ret (Err e).

Definition text_or_else (self : Value) (error : Error -> exec host Error)
  : exec host (result (list Z) Error) :=
  let! r := value_text (value self) in
  match r with
  | Ok value => ret (Ok value)
  | Err err =>
    let! e := error err in
    ret (Err e)
  end.

End Value.
End Value.

(** ** The tag of a value, and the code of a tag *)

Definition tag_of (x : sql_value) : ValueType :=
  match x with
  | SqlNull | SqlPointer _ _ => Null
  | SqlInteger _ => Integer
  | SqlFloat _ => Float
  | SqlText _ => Text
  | SqlBlob _ => Blob
  end.

Definition code_of (t : ValueType) : Z :=
  match t with
  | Integer => 1
  | Float => 2
  | Text => 3
  | Blob => 4
  | Null => 5
  end.

(** The text [CStr::from_ptr] sees in the buffer of a value: the bytes before
    the first nul. *)
Fixpoint up_to_nul (b : list Z) : list Z :=
  match b with
  | [] => []
  | x :: r => if x =? 0 then [] else x :: up_to_nul r
  end.

(** What [CStr::to_str] makes of the buffer of a value. *)
Definition decoded (b : list Z) : result (list Z) Error :=
  map_err Utf8DecodeFailure (from_utf8 (up_to_nul b)).

Section ValueFacts.
Context `{HostCoercion}.

Lemma with_value_eq {A} (f : sql_value -> A) v x h :
  values h !! v = Some x -> with_value v f h = Ret (f x, h).
Proof. intros Hv. unfold with_value. rewrite Hv. reflexivity. Qed.

Lemma with_value_pure {A} (f : sql_value -> A) v h r h' :
  with_value v f h = Ret (r, h') -> h' = h /\ exists x, values h !! v = Some x /\ r = f x.
Proof.
  unfold with_value. destruct (values h !! v) as [x|]; [|discriminate].
  intros [= <- <-]. eauto.
Qed.

Lemma with_value_None {A} (f : sql_value -> A) v h :
  values h !! v = None -> with_value v f h = Undef.
Proof. intros Hv. unfold with_value. rewrite Hv. reflexivity. Qed.

Lemma type_of_code_of t : type_of_code (code_of t) = Some t.
Proof. destruct t; reflexivity. Qed.

Lemma type_code_tag x : type_code x = code_of (tag_of x).
Proof. destruct x; reflexivity. Qed.

(** The [match] of [value_type] maps the five type codes of SQLite to
    the five variants of [ValueType], one to one, on the code read as
    [u32]. *)
Theorem type_of_code_spec raw_type t :
  type_of_code raw_type = Some t <-> as_u32 raw_type = code_of t.
Proof.
  unfold type_of_code, SQLITE_TEXT, SQLITE_INTEGER, SQLITE_FLOAT, SQLITE_BLOB, SQLITE_NULL.
  cbv zeta. split.
  - repeat (split_eqb; [intros [= <-]; assumption|]). discriminate.
  - intros E. rewrite E. destruct t; reflexivity.
Qed.

(** The arm [unreachable!()] of [value_type] is reached exactly by the
    codes other than 1 to 5. *)
Theorem type_of_code_unreachable raw_type :
  type_of_code raw_type = None <-> ~ (1 <= as_u32 raw_type <= 5).
Proof.
  unfold type_of_code, SQLITE_TEXT, SQLITE_INTEGER, SQLITE_FLOAT, SQLITE_BLOB, SQLITE_NULL.
  cbv zeta.
  repeat (split_eqb; [split; [discriminate | lia]|]).
  split; [lia | reflexivity].
Qed.

Lemma value_type_eq v x h : values h !! v = Some x -> value_type v h = Ret (tag_of x, h).
Proof.
  intros Hv. unfold value_type, sqlite3ext_value_type, bind.
  rewrite (with_value_eq _ v x h Hv), type_code_tag, type_of_code_of. reflexivity.
Qed.

(** C8: on a value of the host [value_type] never panics: it returns the tag
    of the value and leaves the state as it was. *)
Theorem value_type_ok v x h :
  values h !! v = Some x -> value_type v h = Ret (tag_of x, h).
Proof. apply value_type_eq. Qed.


(** ** Text *)

Lemma cstr_bytes_up_to b : cstr_bytes (b ++ [0]) = Some (up_to_nul b).
Proof.
  induction b as [|x r IH]; [reflexivity|]. cbn [app cstr_bytes up_to_nul].
  destruct (x =? 0); [reflexivity|]. rewrite IH. reflexivity.
Qed.

Lemma up_to_nul_clean b : ~ In 0 b -> up_to_nul b = b.
Proof.
  induction b as [|x r IH]; [reflexivity|]. cbn [In up_to_nul]. intros Hn.
  destruct (Z.eqb_spec x 0) as [->|_]; [tauto|]. rewrite IH by tauto. reflexivity.
Qed.

Lemma up_to_nul_app s r : ~ In 0 s -> up_to_nul (s ++ 0 :: r) = s.
Proof.
  induction s as [|x s IH]; [reflexivity|]. cbn [In app up_to_nul]. intros Hn.
  destruct (Z.eqb_spec x 0) as [->|_]; [tauto|]. rewrite IH by tauto. reflexivity.
Qed.

Lemma content_tag x : content x = None <-> tag_of x = Null.
Proof. destruct x; cbn; split; congruence. Qed.

Lemma read_text_eq v x h :
  values h !! v = Some x ->
  (let! c_string := sqlite3ext_value_text v in
   let! string := cstr_from_ptr c_string in
   ret (map_err Utf8DecodeFailure (from_utf8 string))) h =
  match content x with
  | Some b => Ret (decoded b, h)
  | None => Undef
  end.
Proof.
  intros Hv. unfold sqlite3ext_value_text, bind at 1.
  rewrite (with_value_eq _ v x h Hv). unfold text_buffer.
  destruct (content x) as [b|]; [|reflexivity]. cbn [option_map cstr_from_ptr].
  unfold bind. rewrite cstr_bytes_up_to. reflexivity.
Qed.

Lemma value_text_eq v x h :
  values h !! v = Some x ->
  value_text v h = match content x with
                   | Some b => Ret (decoded b, h)
                   | None => Undef
                   end.
Proof. apply read_text_eq. Qed.

Lemma value_text_notnull_eq v x h :
  values h !! v = Some x ->
  value_text_notnull v h = match content x with
                           | Some b => Ret (decoded b, h)
                           | None => Ret (Err unexpected_null, h)
                           end.
Proof.
  intros Hv. unfold value_text_notnull, bind at 1. rewrite (value_type_eq v x h Hv).
  case_bool_decide as E.
  - apply content_tag in E. rewrite E. reflexivity.
  - rewrite (read_text_eq v x h Hv). destruct (content x) eqn:Ec; [reflexivity|].
    apply content_tag in Ec. contradiction.
Qed.

(** [value_text] of a value whose text is valid UTF-8 and has no nul
    byte returns that text. *)
Theorem value_text_ok v x b h :
  values h !! v = Some x -> content x = Some b -> ~ In 0 b -> is_utf8 b = true ->
  value_text v h = Ret (Ok b, h).
Proof.
  intros Hv Hc Hn Hu. rewrite (value_text_eq v x h Hv), Hc. unfold decoded.
  rewrite (up_to_nul_clean b Hn). apply from_utf8_is_utf8 in Hu. rewrite Hu. reflexivity.
Qed.

(** [value_text] of a value whose bytes are not valid UTF-8 fails with
    [Utf8DecodeFailure]; the error points inside the text. *)
Theorem value_text_invalid v x b h :
  values h !! v = Some x -> content x = Some b -> ~ In 0 b -> is_utf8 b = false ->
  exists e, value_text v h = Ret (Err (Utf8DecodeFailure e), h)
            /\ (valid_up_to e < length b)%nat.
Proof.
  intros Hv Hc Hn Hu. rewrite (value_text_eq v x h Hv), Hc. unfold decoded.
  rewrite (up_to_nul_clean b Hn). unfold is_utf8, from_utf8 in *.
  destruct (run_utf8_validation 0 b) as [|e] eqn:E; [discriminate|].
  exists e. split; [reflexivity|]. apply run_utf8_validation_Err in E. lia.
Qed.

(** C34: [value_text] of a NULL value reads through the null pointer the
    host returns: the call is undefined, it does not fail. *)
Theorem value_text_null v x h :
  values h !! v = Some x -> tag_of x = Null -> value_text v h = Undef.
Proof.
  intros Hv Ht%content_tag. rewrite (value_text_eq v x h Hv), Ht. reflexivity.
Qed.

(** ** [value_text] and the invariant of [&str]

    A Rust [&str] is the UTF-8 encoding of a sequence of Unicode scalar
    values.  [value_text] builds one from the bytes of a C string: what it
    returns must be such an encoding, and it holds no U+0000, since the C
    string ends at its first nul. *)

Lemma up_to_nul_no_nul b : ~ In 0 (up_to_nul b).
Proof.
  induction b as [|x b IH]; [intros []|]. cbn [up_to_nul].
  destruct (x =? 0) eqn:E; [intros [] | intros [Hx|Hx]; [lia | auto]].
Qed.

(** What [CStr::to_str] makes of a buffer, by what the text before the first
    nul decodes to: the text when it is an encoding of scalar values, and
    otherwise an error that points at the end of the longest prefix that is
    one. *)
Lemma decoded_spec b :
  match decode (up_to_nul b) with
  | Some cs =>
    decoded b = Ok (encode cs) /\ up_to_nul b = encode cs
    /\ Forall (fun c => scalar c = true) cs /\ ~ In 0 cs
  | None =>
    exists e cs rest,
      decoded b = Err (Utf8DecodeFailure e)
      /\ up_to_nul b = encode cs ++ rest /\ Forall (fun c => scalar c = true) cs
      /\ valid_up_to e = length (encode cs)
      /\ rest <> [] /\ next_code_point rest = None
  end.
Proof.
  unfold decoded. pose proof (from_utf8_spec (up_to_nul b)) as Hs.
  destruct (decode (up_to_nul b)) as [cs|].
  - destruct Hs as (-> & Hb & Hcs). rewrite <- (encode_nul cs Hcs), <- Hb.
    auto using up_to_nul_no_nul.
  - destruct Hs as (e & cs & rest & -> & Hs). exists e, cs, rest. auto.
Qed.

Lemma value_text_decoded v x b h :
  values h !! v = Some x -> content x = Some b -> value_text v h = Ret (decoded b, h).
Proof. intros Hv Hc. rewrite (value_text_eq v x h Hv), Hc. reflexivity. Qed.

(** C9: on a value that is not NULL [value_text] returns, and what it returns
    is a well-formed [&str]: the text of the value up to its first nul when
    that is the UTF-8 encoding of a sequence of Unicode scalar values, none
    of them U+0000, which [str::chars] gives back; it fails only when the
    text is no such encoding. *)
Theorem value_text_str v x b h :
  values h !! v = Some x -> content x = Some b ->
  exists r, value_text v h = Ret (r, h) /\
    match r with
    | Ok s =>
      s = up_to_nul b /\
      exists cs, Forall (fun c => scalar c = true) cs /\ ~ In 0 cs
                 /\ s = encode cs /\ decode s = Some cs
    | Err _ => decode (up_to_nul b) = None
    end.
Proof.
  intros Hv Hc. rewrite (value_text_decoded v x b h Hv Hc). eexists. split; [reflexivity|].
  pose proof (decoded_spec b) as Hs. destruct (decode (up_to_nul b)) as [cs|] eqn:E.
  - destruct Hs as (-> & Hb & Hcs & Hn). rewrite <- Hb. eauto 8.
  - destruct Hs as (e & cs & rest & -> & _). reflexivity.
Qed.

(** C35: when the text of a value is not valid UTF-8, [value_text] fails and
    the error says where: [valid_up_to] is the length of the longest prefix
    of the text that is the encoding of scalar values, and what follows it
    starts with no encoding of one. *)
Theorem value_text_position v x b h :
  values h !! v = Some x -> content x = Some b -> decode (up_to_nul b) = None ->
  exists e cs rest,
    value_text v h = Ret (Err (Utf8DecodeFailure e), h)
    /\ up_to_nul b = encode cs ++ rest /\ Forall (fun c => scalar c = true) cs
    /\ valid_up_to e = length (encode cs)
    /\ rest <> [] /\ next_code_point rest = None.
Proof.
  intros Hv Hc Hd. rewrite (value_text_decoded v x b h Hv Hc).
  pose proof (decoded_spec b) as Hs. rewrite Hd in Hs.
  destruct Hs as (e & cs & rest & -> & Hs). exists e, cs, rest. auto.
Qed.

(** [value_text] stops at the first nul byte of the text: what follows
    is lost. *)
Theorem value_text_truncates v x s r h :
  values h !! v = Some x -> content x = Some (s ++ 0 :: r) -> ~ In 0 s ->
  value_text v h = Ret (map_err Utf8DecodeFailure (from_utf8 s), h).
Proof.
  intros Hv Hc Hn. rewrite (value_text_eq v x h Hv), Hc. unfold decoded.
  rewrite (up_to_nul_app s r Hn). reflexivity.
Qed.

(** [value_text_notnull] of a NULL value fails with the message
    "Unexpected null value", without touching the value. *)
Theorem value_text_notnull_null v x h :
  values h !! v = Some x -> tag_of x = Null ->
  value_text_notnull v h = Ret (Err unexpected_null, h).
Proof.
  intros Hv Ht%content_tag. rewrite (value_text_notnull_eq v x h Hv), Ht. reflexivity.
Qed.

(** On a value that is not NULL [value_text_notnull] is [value_text]. *)
Theorem value_text_notnull_agrees v x h :
  values h !! v = Some x -> tag_of x <> Null ->
  value_text_notnull v h = value_text v h.
Proof.
  intros Hv Ht. rewrite (value_text_notnull_eq v x h Hv), (value_text_eq v x h Hv).
  destruct (content x) eqn:E; [reflexivity|]. apply content_tag in E. contradiction.
Qed.

(** [value_text_notnull] is defined on every value of the host, and
    leaves the state as it was. *)
Theorem value_text_notnull_total v x h :
  values h !! v = Some x -> exists r, value_text_notnull v h = Ret (r, h).
Proof.
  intros Hv. rewrite (value_text_notnull_eq v x h Hv). destruct (content x); eauto.
Qed.

(** C20: [value_text_notnull] is defined on every value of the host, NULL
    included, and leaves the state as it was: it fails with the message
    "Unexpected null value" exactly on the values of type NULL, and on every
    other value it returns what [CStr::to_str] makes of the text of the
    value up to its first nul. *)
Theorem value_text_notnull_spec v x h :
  values h !! v = Some x ->
  exists r, value_text_notnull v h = Ret (r, h)
    /\ (r = Err unexpected_null <-> tag_of x = Null)
    /\ (forall b, content x = Some b -> r = decoded b).
Proof.
  intros Hv. rewrite (value_text_notnull_eq v x h Hv).
  pose proof (content_tag x) as Ht. destruct (content x) as [b|].
  - exists (decoded b). split; [reflexivity|]. split; [|intros ? [= <-]; reflexivity].
    assert (Hn : tag_of x <> Null) by (intros E%Ht; discriminate).
    unfold decoded. destruct (from_utf8 (up_to_nul b)); cbn [map_err];
      (split; [discriminate | intros E; destruct (Hn E)]).
  - exists (Err unexpected_null). split; [reflexivity|]. split; [|discriminate].
    split; [intros _; apply Ht; reflexivity | reflexivity].
Qed.

(** ** Numbers *)

(** [value_int] is [value_int64] cast to [i32]: they agree on the values
    of 32 bits, and [value_int] keeps the low 32 bits of the others. *)
Theorem value_int_truncates v x h :
  values h !! v = Some x ->
  value_int64 v h = Ret (int64_of x, h) /\
  value_int v h = Ret (as_i32 (int64_of x), h) /\
  (in_i32 (int64_of x) = true -> value_int v h = value_int64 v h).
Proof.
  intros Hv. unfold value_int, value_int64, sqlite3ext_value_int, sqlite3ext_value_int64.
  rewrite !(with_value_eq _ v x h Hv). repeat split.
  intros Hi. rewrite (as_i32_id _ Hi). reflexivity.
Qed.

(** [value_double] returns the value as the host converts it to a
    double. *)
Theorem value_double_ok v x h :
  values h !! v = Some x -> value_double v h = Ret (double_of x, h).
Proof. apply with_value_eq. Qed.

(** ** Blobs *)

Lemma value_blob_eq v x h :
  values h !! v = Some x ->
  value_blob v h = from_raw_parts (blob_buffer x) (as_usize (byte_count x)) h.
Proof.
  intros Hv. unfold value_blob, sqlite3ext_value_bytes, sqlite3ext_value_blob, bind.
  rewrite !(with_value_eq _ v x h Hv). reflexivity.
Qed.

(** [value_blob] of a value with at least one byte returns its bytes. *)
Theorem value_blob_ok v x b h :
  values h !! v = Some x -> content x = Some b -> b <> [] ->
  str_len b <= usize_max ->
  value_blob v h = Ret (b, h).
Proof.
  intros Hv Hc Hb Hlen. rewrite (value_blob_eq v x h Hv).
  unfold blob_buffer, byte_count. rewrite Hc. destruct b as [|b0 r]; [congruence|].
  cbn [from_raw_parts]. rewrite (as_usize_id _ (str_len_nonneg _) Hlen).
  replace (_ <=? _) with true by lia.
  unfold ret, str_len. rewrite Nat2Z.id, firstn_all. reflexivity.
Qed.

(** C37: [value_blob] of a NULL value or of a value of length zero builds a
    slice from the null pointer the host returns: the call is undefined. *)
Theorem value_blob_empty v x h :
  values h !! v = Some x -> content x = Some [] \/ content x = None ->
  value_bytes v h = Ret (0, h) /\ value_blob v h = Undef.
Proof.
  intros Hv Hc. rewrite (value_blob_eq v x h Hv).
  unfold value_bytes, sqlite3ext_value_bytes. rewrite (with_value_eq _ v x h Hv).
  unfold blob_buffer, byte_count. destruct Hc as [-> | ->]; split; reflexivity.
Qed.

(** [value_bytes] returns the number of bytes of the value, 0 for
    NULL. *)
Theorem value_bytes_ok v x h :
  values h !! v = Some x ->
  value_bytes v h = Ret (match content x with Some b => str_len b | None => 0 end, h).
Proof. apply with_value_eq. Qed.

End ValueFacts.

(** ** Lemmas and theorems: [Value] *)

Section ValueGuards.
Context `{HostCoercion}.
Import Value.

(** [Value::from] never fails: on a value of the host it returns the
    handle with its tag. *)
Theorem from_ok v x h :
  values h !! v = Some x -> from v h = Ret (Ok (mkValue v (tag_of x)), h).
Proof. intros Hv. unfold from, bind. rewrite (value_type_eq v x h Hv). reflexivity. Qed.

(** [Value::at] inside the slice wraps the handle at that index with its
    tag. *)
Theorem at_in_range (vs : list Z) i v x h :
  vs !! i = Some v -> values h !! v = Some x ->
  at_ vs i h = Ret (Some (mkValue v (tag_of x)), h).
Proof.
  intros Hi Hv. unfold at_. rewrite Hi. unfold bind.
  rewrite (value_type_eq v x h Hv). reflexivity.
Qed.

(** [Value::at] past the end of the slice returns [None], without a
    call to the host. *)
Theorem at_out_of_range (vs : list Z) i h :
  (length vs <= i)%nat -> at_ vs i h = Ret (None, h).
Proof. intros Hi. unfold at_. rewrite (lookup_ge_None_2 vs i Hi). reflexivity. Qed.

(** [notnull_or] passes the value through unless its tag is Null, in
    which case it returns the error it was given. *)
Theorem notnull_or_spec self error :
  (value_type self <> Null -> notnull_or self error = Ok self) /\
  (value_type self = Null -> notnull_or self error = Err error).
Proof.
  unfold notnull_or. split; intros Ht; case_bool_decide; congruence.
Qed.

(** [notnull_or_else] runs its closure only for a Null value: otherwise
    the state is untouched, whatever the closure would do. *)
Theorem notnull_or_else_lazy {St} self (err : exec St Error) (s : St) :
  value_type self <> Null -> notnull_or_else self err s = Ret (Ok self, s).
Proof. intros Ht. unfold notnull_or_else. rewrite bool_decide_eq_true_2 by exact Ht. reflexivity. Qed.

(** With a closure that returns [error] and does nothing else,
    [notnull_or_else] is [notnull_or]. *)
Theorem notnull_or_else_notnull_or {St} self error (s : St) :
  notnull_or_else self (ret error) s = Ret (notnull_or self error, s).
Proof. unfold notnull_or_else, notnull_or. case_bool_decide; reflexivity. Qed.

(** [text_or_else] returns what [value_text] returns, its error passed
    through the closure; on a NULL value it is undefined like [value_text],
    although its documentation promises a failure. *)
Theorem text_or_else_spec self x (error : Error -> exec host Error) h :
  values h !! value self = Some x ->
  text_or_else self error h =
  match content x with
  | None => Undef
  | Some b =>
    match decoded b with
    | Ok text => Ret (Ok text, h)
    | Err e => (let! e' := error e in ret (Err e')) h
    end
  end.
Proof.
  intros Hv. unfold text_or_else, bind at 1. rewrite (value_text_eq _ x h Hv).
  destruct (content x) as [b|]; [|reflexivity]. destruct (decoded b); reflexivity.
Qed.

End ValueGuards.

(** ** The theorems at concrete inputs *)

Module ValueExamples.
Import Value.
#[local] Existing Instance trivial_coercion.

(** The handles 100 to 105: a text, an integer, NULL, a blob, an empty text,
    a text with a stray byte. *)
Definition h1 : host :=
  example_host [SqlText (lit "abc"); SqlInteger 4294967297; SqlNull;
                SqlBlob [1; 0; 2]; SqlText []; SqlText [97; 255]].

Lemma h1_100 : values h1 !! 100 = Some (SqlText (lit "abc")).
Proof. reflexivity. Qed.
Lemma h1_101 : values h1 !! 101 = Some (SqlInteger 4294967297).
Proof. reflexivity. Qed.
Lemma h1_102 : values h1 !! 102 = Some SqlNull.
Proof. reflexivity. Qed.
Lemma h1_103 : values h1 !! 103 = Some (SqlBlob [1; 0; 2]).
Proof. reflexivity. Qed.
Lemma h1_104 : values h1 !! 104 = Some (SqlText []).
Proof. reflexivity. Qed.
Lemma h1_105 : values h1 !! 105 = Some (SqlText [97; 255]).
Proof. reflexivity. Qed.

Lemma type_of_code_spec_witness : type_of_code 3 = Some Text <-> as_u32 3 = code_of Text.
Proof. apply type_of_code_spec. Defined.

Lemma value_type_ok_witness : ValueApi.value_type 102 h1 = Ret (Null, h1).
Proof. apply (value_type_ok 102 SqlNull h1 h1_102). Defined.

Lemma value_text_ok_witness : value_text 100 h1 = Ret (Ok (lit "abc"), h1).
Proof.
  apply (value_text_ok 100 _ (lit "abc") h1 h1_100 eq_refl);
    [vm_compute; intuition discriminate | reflexivity].
Defined.

Lemma value_text_invalid_witness :
  exists e, value_text 105 h1 = Ret (Err (Utf8DecodeFailure e), h1)
            /\ (valid_up_to e < length [97; 255])%nat.
Proof.
  apply (value_text_invalid 105 _ [97; 255] h1 h1_105 eq_refl);
    [vm_compute; intuition discriminate | reflexivity].
Defined.

Lemma value_text_str_witness :
  exists r, value_text 100 h1 = Ret (r, h1) /\
    match r with
    | Ok s =>
      s = up_to_nul (lit "abc") /\
      exists cs, Forall (fun c => scalar c = true) cs /\ ~ In 0 cs
                 /\ s = encode cs /\ decode s = Some cs
    | Err _ => decode (up_to_nul (lit "abc")) = None
    end.
Proof. apply (value_text_str 100 _ _ h1 h1_100 eq_refl). Defined.

Lemma value_text_position_witness :
  exists e cs rest,
    value_text 105 h1 = Ret (Err (Utf8DecodeFailure e), h1)
    /\ up_to_nul [97; 255] = encode cs ++ rest /\ Forall (fun c => scalar c = true) cs
    /\ valid_up_to e = length (encode cs)
    /\ rest <> [] /\ next_code_point rest = None.
Proof. apply (value_text_position 105 _ _ h1 h1_105 eq_refl). reflexivity. Defined.

Lemma value_text_null_witness : value_text 102 h1 = Undef.
Proof. apply (value_text_null 102 SqlNull h1 h1_102 eq_refl). Defined.

Lemma value_text_truncates_witness :
  value_text 103 h1 = Ret (map_err Utf8DecodeFailure (from_utf8 [1]), h1).
Proof.
  apply (value_text_truncates 103 _ [1] [2] h1 h1_103 eq_refl).
  vm_compute. intuition discriminate.
Defined.

Lemma value_text_notnull_null_witness :
  value_text_notnull 102 h1 = Ret (Err unexpected_null, h1).
Proof. apply (value_text_notnull_null 102 SqlNull h1 h1_102 eq_refl). Defined.

Lemma value_text_notnull_agrees_witness : value_text_notnull 100 h1 = value_text 100 h1.
Proof. apply (value_text_notnull_agrees 100 _ h1 h1_100). discriminate. Defined.

Lemma value_text_notnull_spec_witness :
  exists r, value_text_notnull 102 h1 = Ret (r, h1)
    /\ (r = Err unexpected_null <-> tag_of SqlNull = Null)
    /\ (forall b, content SqlNull = Some b -> r = decoded b).
Proof. apply (value_text_notnull_spec 102 SqlNull h1 h1_102). Defined.

Lemma value_text_notnull_total_witness : exists r, value_text_notnull 105 h1 = Ret (r, h1).
Proof. apply (value_text_notnull_total 105 _ h1 h1_105). Defined.

Lemma value_int_truncates_witness :
  value_int64 101 h1 = Ret (int64_of (SqlInteger 4294967297), h1) /\
  value_int 101 h1 = Ret (as_i32 (int64_of (SqlInteger 4294967297)), h1) /\
  (in_i32 (int64_of (SqlInteger 4294967297)) = true -> value_int 101 h1 = value_int64 101 h1).
Proof. apply (value_int_truncates 101 _ h1 h1_101). Defined.

(** 2^32 + 1 read as a 32-bit integer is 1. *)
Lemma value_int_wraps : value_int 101 h1 = Ret (1, h1).
Proof. reflexivity. Qed.

Lemma value_double_ok_witness : value_double 101 h1 = Ret (double_of (SqlInteger 4294967297), h1).
Proof. apply (value_double_ok 101 _ h1 h1_101). Defined.

Lemma value_blob_ok_witness : value_blob 103 h1 = Ret ([1; 0; 2], h1).
Proof.
  apply (value_blob_ok 103 _ [1; 0; 2] h1 h1_103 eq_refl); [discriminate | vm_compute; discriminate].
Defined.

Lemma value_blob_empty_witness : value_bytes 104 h1 = Ret (0, h1) /\ value_blob 104 h1 = Undef.
Proof. apply (value_blob_empty 104 _ h1 h1_104). left. reflexivity. Defined.

Lemma value_bytes_ok_witness : value_bytes 103 h1 = Ret (3, h1).
Proof. apply (value_bytes_ok 103 _ h1 h1_103). Defined.

Lemma from_ok_witness : from 101 h1 = Ret (Ok (mkValue 101 Integer), h1).
Proof. apply (from_ok 101 _ h1 h1_101). Defined.

Lemma at_in_range_witness : at_ [100; 101] 1 h1 = Ret (Some (mkValue 101 Integer), h1).
Proof. apply (at_in_range [100; 101] 1%nat 101 _ h1 eq_refl h1_101). Defined.

Lemma at_out_of_range_witness : at_ [100; 101] 2 h1 = Ret (None, h1).
Proof. apply at_out_of_range. cbn. lia. Defined.

Lemma notnull_or_else_lazy_witness :
  notnull_or_else (mkValue 101 Integer) panic h1 = Ret (Ok (mkValue 101 Integer), h1).
Proof. apply notnull_or_else_lazy. discriminate. Defined.

Lemma text_or_else_spec_witness :
  text_or_else (mkValue 102 Null) (fun e => ret e) h1 = Undef.
Proof. apply (text_or_else_spec (mkValue 102 Null) SqlNull _ h1 h1_102). Defined.

End ValueExamples.
