(* ===== verification/ResultApi.v ===== *)
(** * Writing results

    Models the result side of src/src/api.rs (lines 231-359): one setter per
    kind of result ([result_text], [result_int], [result_int64],
    [result_double], [result_blob], [result_null], [result_error],
    [result_error_code], [result_bool], [result_json], [result_subtype],
    [result_pointer]), the two destructors the layer registers
    ([result_text_destructor], [pointer_destroy]) and the auxiliary data
    wrappers ([auxdata_set], [auxdata_get]).  A [*mut sqlite3_context] is the
    key of the context in the host state.

    A [CString] and a [Box] are an address of the heap of [Host]: [into_raw]
    leaves the cell live, a drop frees it.  [serde_json::Value::to_string] is
    outside the repository: [result_json] takes the serializer as a
    parameter. *)

From Stdlib Require Import ZArith Lia List String Ascii.
From stdpp Require Import base tactics option list gmap.
From S2P Require Import Prelude RustStr RustNum Utf8 Errors Host.

#[local] Open Scope Z_scope.
#[local] Open Scope rs_scope.

(** ** The destructors of the layer

    [result_text_destructor] and [pointer_destroy::<T>] are the functions
    whose addresses the setters register.  The host calls a destructor
    through the table [layer_destructor], which discharges the interface
    [Host.Destructors]. *)

Definition result_text_destructor (raw : Z) : exec host unit :=
  drop_cstring raw.

Definition pointer_destroy (T : Z) (pointer : Z) : exec host unit :=
  drop_box T pointer.

(** The function behind each function pointer; a destructor of the caller
    touches nothing of the layer. *)
Definition layer_destructor (d : destructor) : Z -> exec host unit :=
  match d with
  | result_text_destructor_fn => result_text_destructor
  | pointer_destroy_fn T => pointer_destroy T
  | extern_fn _ => fun _ => ret tt
  end.

Lemma layer_destructor_paired d p a h :
  heap h !! p = Some (Live a) -> pairs_with d a = true ->
  layer_destructor d p h = Ret (tt, set_heap (<[p := Freed]>) h).
Proof.
  intros Hp Hd. destruct d, a; try discriminate; cbn [layer_destructor pairs_with] in *.
  - apply (drop_cstring_live p bytes h Hp).
  - apply bool_decide_eq_true in Hd. subst. apply (drop_box_live T p object h Hp).
Qed.

Lemma layer_destructor_freed d p h :
  is_rust d = true -> heap h !! p = Some Freed -> layer_destructor d p h = Undef.
Proof.
  intros Hd Hp. destruct (drop_freed p h Hp) as [Hs Hb].
  destruct d; [exact Hs | apply Hb | discriminate].
Qed.

Lemma layer_destructor_extern d p h :
  is_rust d = false -> layer_destructor d p h = Ret (tt, h).
Proof. destruct d; [discriminate.. | reflexivity]. Qed.

#[export] Instance layer_destructors : Destructors := {|
  call_destructor := layer_destructor;
  call_paired := layer_destructor_paired;
  call_freed := layer_destructor_freed;
  call_extern := layer_destructor_extern
|}.

(** ** The setters *)

Definition result_text (context : Z) (text : list Z) : exec host (result unit Error) :=
  match cstring_new text with
  | Err e => ret (Err (NulByteInSource e))
  | Ok bytes =>
    let! s := rust_alloc (CStringAlloc bytes) in
    match try_into_i32 (str_len text) with
    | None => rust_free s ;; ret (Err length_overflow)
    | Some n =>
      sqlite3ext_result_text context s n (Some result_text_destructor_fn) ;;
      ret (Ok tt)
    end
  end.

Definition result_int (context : Z) (i : Z) : exec host unit :=
  sqlite3ext_result_int context i.

Definition result_int64 (context : Z) (i : Z) : exec host unit :=
  sqlite3ext_result_int64 context i.

Definition result_double (context : Z) (i : f64) : exec host unit :=
  sqlite3ext_result_double context i.

Definition result_blob (context : Z) (blob : list Z) : exec host unit :=
  let len := as_i32 (str_len blob) in
  sqlite3ext_result_blob context blob len.

Definition result_null (context : Z) : exec host unit :=
  sqlite3ext_result_null context.

Definition result_error (context : Z) (text : list Z) : exec host (result unit Error) :=
  match cstring_new text with
  | Err e => ret (Err (NulByteInSource e))
  | Ok bytes =>
    let! s := rust_alloc (CStringAlloc bytes) in
    let n := as_i32 (str_len text) in
    sqlite3ext_result_error context s n ;;
    ret (Ok tt)
  end.

Definition result_error_code (context : Z) (code : Z) : exec host unit :=
  sqlite3ext_result_error_code context code.

Definition result_bool (context : Z) (value : bool) : exec host unit :=
  if value then result_int context 1 else result_int context 0.

Definition result_subtype (context : Z) (subtype : Z) : exec host unit :=
  sqlite3ext_result_subtype context subtype.

Section Json.
Variable Json : Type.
Variable to_string : Json -> list Z.

Definition result_json (context : Z) (value : Json) : exec host (result unit Error) :=
  let? _ := result_text context (to_string value) in
  result_subtype context 74 ;;
  ret (Ok tt).

End Json.

(** ** Pointers *)

Definition result_pointer (T : Z) (context : Z) (name : list Z) (object : list Z)
  : exec host unit :=
  let! b := rust_alloc (BoxAlloc T object) in
  let pointer := b in
  sqlite3ext_result_pointer context pointer name (Some (pointer_destroy_fn T)).

(** ** Auxiliary data *)

Definition auxdata_set (context : Z) (col : Z) (p : Z) (d : option destructor)
  : exec host unit :=
  sqlite3ext_set_auxdata context col p d.

Definition auxdata_get (context : Z) (col : Z) : exec host Z :=
  sqlite3ext_get_auxdata context col.

(** ** The states the setters leave *)

(** The cell of the [CString] made of [text]. *)
Definition text_buffer_of (text : list Z) : cell := Live (CStringAlloc (text ++ [0])).

(** The state [result_text] leaves when it succeeds: the buffer is a live
    [CString] at the cursor, and the context holds it with the destructor of
    the layer. *)
Definition text_written (ctx : Z) (c : sqlite3_context) (text : list Z) (h : host) : host :=
  wrote ctx c
    (ResText (next_addr h) (str_len text) text (Some result_text_destructor_fn))
    (released ctx c (allocated (text_buffer_of text) h)).

(** The state after a result that owns no pointer was stored. *)
Definition plain_written (ctx : Z) (c : sqlite3_context) (r : sql_result) (h : host) : host :=
  wrote ctx c r (released ctx c h).

(** The message the host copies in [result_error]: the length it is given
    is the length of the text cast to [i32]; a negative length means "up to
    the nul". *)
Definition error_message (text : list Z) : list Z :=
  let n := as_i32 (str_len text) in
  if n <? 0 then text else firstn (Z.to_nat n) text.

(** The state [result_error] leaves: the message is stored, the buffer
    stays live. *)
Definition error_written (ctx : Z) (c : sqlite3_context) (text : list Z) (h : host) : host :=
  wrote ctx c (ResError (error_message text))
    (released ctx c (allocated (text_buffer_of text) h)).

(** The cell of a [Box<T>]. *)
Definition boxed (T : Z) (object : list Z) : cell := Live (BoxAlloc T object).

(** The state [result_pointer] leaves. *)
Definition pointer_written (T ctx : Z) (c : sqlite3_context) (name object : list Z)
  (h : host) : host :=
  wrote ctx c (ResPointer (next_addr h) name (Some (pointer_destroy_fn T)))
    (released ctx c (allocated (boxed T object) h)).

(** The state after [sqlite3_result_subtype]. *)
Definition subtyped (ctx : Z) (c : sqlite3_context) (subtype : Z) (h : host) : host :=
  set_contexts (<[ctx := mkContext (ctx_result c) (subtype mod 256) (ctx_auxdata c)]>) h.

(** The result the host holds after [result_text]. *)
Definition text_result (h : host) (text : list Z) : sql_result :=
  ResText (next_addr h) (str_len text) text (Some result_text_destructor_fn).

(** ** Lemmas and theorems: [result_text] *)


Lemma sqlite3ext_result_text_cstring h ctx c text d :
  host_wf h -> contexts h !! ctx = Some c ->
  sqlite3ext_result_text ctx (next_addr h) (str_len text) d
    (allocated (text_buffer_of text) h) =
  Ret (tt, wrote ctx c (ResText (next_addr h) (str_len text) text d)
             (released ctx c (allocated (text_buffer_of text) h))).
Proof.
  intros Hwf Hc. unfold sqlite3ext_result_text, text_buffer_of. do 2 step.
  apply set_result_wf; eauto with rs.
Qed.

Lemma cstring_new_clean text : ~ In 0 text -> cstring_new text = Ok (text ++ [0]).
Proof. intros Hnul. apply cstring_new_Ok. auto. Qed.

(** [result_text] on a text without a nul: the buffer is allocated, and the
    length decides. *)
Lemma result_text_clean h ctx text :
  ~ In 0 text ->
  result_text ctx text h =
  if in_i32 (str_len text)
  then (sqlite3ext_result_text ctx (next_addr h) (str_len text)
          (Some result_text_destructor_fn) ;; ret (Ok tt))
         (allocated (text_buffer_of text) h)
  else Ret (Err length_overflow, allocated Freed h).
Proof.
  intros Hnul. unfold result_text. rewrite (cstring_new_clean text Hnul). step.
  unfold try_into_i32. destruct (in_i32 (str_len text)); [reflexivity|]. step. reflexivity.
Qed.

(** [result_text] in one equation. *)
Lemma result_text_eq h ctx c text :
  host_wf h -> contexts h !! ctx = Some c ->
  result_text ctx text h =
  match cstring_new text with
  | Err e => Ret (Err (NulByteInSource e), h)
  | Ok _ =>
    if in_i32 (str_len text) then Ret (Ok tt, text_written ctx c text h)
    else Ret (Err length_overflow, allocated Freed h)
  end.
Proof.
  intros Hwf Hc. destruct (cstring_new text) as [b|e] eqn:E.
  - apply cstring_new_Ok in E as [Hnul _]. rewrite (result_text_clean h ctx text Hnul).
    destruct (in_i32 (str_len text)); [|reflexivity]. unfold bind.
    rewrite (sqlite3ext_result_text_cstring h ctx c text _ Hwf Hc). reflexivity.
  - unfold result_text. rewrite E. reflexivity.
Qed.

(** C3: [result_text] of a text without a nul byte whose length fits an [i32]
    succeeds: it allocates the C string, hands it to the host with its length
    and [result_text_destructor], after the host has let go of the result the
    context held. *)
Theorem result_text_ok h ctx c text :
  host_wf h -> contexts h !! ctx = Some c ->
  ~ In 0 text -> in_i32 (str_len text) = true ->
  result_text ctx text h = Ret (Ok tt, text_written ctx c text h).
Proof.
  intros Hwf Hc Hnul Hlen.
  rewrite (result_text_eq h ctx c text Hwf Hc), (cstring_new_clean text Hnul), Hlen.
  reflexivity.
Qed.

(** C12: a text with a nul byte is refused before anything is allocated or
    written: the state is unchanged and the error names the position of the
    first nul. *)
Theorem result_text_nul h ctx text :
  In 0 text ->
  exists e, result_text ctx text h = Ret (Err (NulByteInSource e), h)
            /\ nul_bytes e = text /\ nth_error text (nul_position e) = Some 0
            /\ Forall (fun b => b <> 0) (firstn (nul_position e) text).
Proof.
  intros Hnul. unfold result_text. destruct (cstring_new text) as [b|e] eqn:E.
  - apply cstring_new_Ok in E as [H _]. contradiction.
  - exists e. split; [reflexivity|]. pose proof (cstring_new_first _ _ E) as Hf.
    apply cstring_new_Err in E as (_ & H1 & H2). repeat split; [exact H1 | exact H2 |].
    apply List.Forall_forall. intros b Hb ->. exact (Hf Hb).
Qed.

(** C11: a text whose length does not fit an [i32] is refused with the
    overflow message; the C string that was already allocated is freed and
    the context is not written. *)
Theorem result_text_overflow h ctx text :
  ~ In 0 text -> in_i32 (str_len text) = false ->
  result_text ctx text h = Ret (Err length_overflow, allocated Freed h).
Proof.
  intros Hnul Hlen. rewrite (result_text_clean h ctx text Hnul), Hlen. reflexivity.
Qed.

(** ** Well-formedness *)

(** A result that owns the cell just allocated keeps the state well-formed. *)
Lemma fresh_owner_wf h ctx c a r d :
  host_wf h -> contexts h !! ctx = Some c ->
  result_owner r = Some (next_addr h, d) -> pairs_with d a = true ->
  host_wf (wrote ctx c r (released ctx c (allocated (Live a) h))).
Proof.
  intros Hwf Hc Hr Hp. apply wrote_wf; [apply allocated_wf, Hwf | exact Hc |].
  rewrite Hr. intros p d' [= <- <-] _. split.
  - exists a. rewrite allocated_lookup, bool_decide_eq_true_2 by reflexivity. auto.
  - intros s d'. change (held_at (allocated _ h) s) with (held_at h s).
    intros Hs Hd'. eapply fresh_not_held; eauto.
Qed.

Lemma fresh_owner_no_leak h ctx c a r d :
  host_wf h -> contexts h !! ctx = Some c -> no_leak h ->
  result_owner r = Some (next_addr h, d) -> is_rust d = true ->
  no_leak (wrote ctx c r (released ctx c (allocated (Live a) h))).
Proof.
  intros Hwf Hc Hl Hr Hd. apply wrote_no_leak; [apply allocated_wf, Hwf | exact Hc |].
  intros q [a' Ha]%is_live_spec. rewrite allocated_lookup in Ha.
  case_bool_decide as E.
  - subst q. left. exists d. auto.
  - right. apply Hl, is_live_spec. eauto.
Qed.

Lemma text_written_wf h ctx c text :
  host_wf h -> contexts h !! ctx = Some c -> host_wf (text_written ctx c text h).
Proof. intros Hwf Hc. eapply fresh_owner_wf; eauto; reflexivity. Qed.

Lemma text_written_no_leak h ctx c text :
  host_wf h -> contexts h !! ctx = Some c -> no_leak h ->
  no_leak (text_written ctx c text h).
Proof. intros Hwf Hc Hl. eapply fresh_owner_no_leak; eauto; reflexivity. Qed.

(** C4: whatever [result_text] returns, it leaves a well-formed state, and
    loses no allocation: the buffer is either freed or held by the host with
    the destructor that frees it. *)
Theorem result_text_preserves h ctx c text r h' :
  host_wf h -> contexts h !! ctx = Some c ->
  result_text ctx text h = Ret (r, h') ->
  host_wf h' /\ (no_leak h -> no_leak h').
Proof.
  intros Hwf Hc. rewrite (result_text_eq h ctx c text Hwf Hc).
  destruct (cstring_new text); [destruct (in_i32 (str_len text))|]; intros [= <- <-].
  - split; [apply text_written_wf | apply text_written_no_leak]; assumption.
  - split; [apply allocated_wf, Hwf | apply allocated_freed_no_leak].
  - auto.
Qed.

(** ** The end of the call *)

Lemma plain_no_leak h ctx c o :
  host_wf h -> contexts h !! ctx = Some c -> no_leak h -> option_owner o = None ->
  no_leak (stored ctx c o (released ctx c h)).
Proof.
  intros Hwf Hc Hl Ho. apply stored_no_leak; [exact Hwf | exact Hc |].
  intros q Hq. right. apply Hl, Hq.
Qed.

Lemma contexts_text_written h ctx c text :
  contexts (text_written ctx c text h) !! ctx =
  Some (mkContext (Some (ResText (next_addr h) (str_len text) text
                           (Some result_text_destructor_fn)))
          (ctx_subtype c) (ctx_auxdata c)).
Proof. unfold text_written, wrote, stored. cbn [contexts log_write set_contexts]. apply lookup_insert_eq. Qed.

(** C7: the destructor registered by [result_text] pairs with its
    allocation: when the host is done with the context, the buffer is freed,
    once, and nothing is lost. *)
Theorem result_text_finish h ctx c text :
  host_wf h -> contexts h !! ctx = Some c ->
  ~ In 0 text -> in_i32 (str_len text) = true ->
  exists h', (result_text ctx text ;; finish ctx) h = Ret (tt, h')
    /\ heap h' !! next_addr h = Some Freed
    /\ host_wf h' /\ (no_leak h -> no_leak h').
Proof.
  intros Hwf Hc Hnul Hlen.
  pose proof (text_written_wf h ctx c text Hwf Hc) as Hwf'.
  pose proof (contexts_text_written h ctx c text) as Hc'.
  eexists. split; [|split; [|split]].
  - unfold bind.
    rewrite (result_text_eq h ctx c text Hwf Hc), (cstring_new_clean text Hnul), Hlen.
    apply (finish_wf _ ctx _ Hwf' Hc').
  - rewrite heap_stored, heap_released. cbn [held_in ctx_result result_owner is_rust andb].
    rewrite bool_decide_eq_true_2 by reflexivity. reflexivity.
  - apply (finish_keeps_wf _ ctx _ Hwf' Hc').
  - intros Hl. apply plain_no_leak; [exact Hwf' | exact Hc' | | reflexivity].
    apply text_written_no_leak; assumption.
Qed.

(** ** Lemmas and theorems: [result_error] *)

Lemma read_bytes_wrapped text :
  ~ In 0 text ->
  read_bytes (text ++ [0]) (as_i32 (str_len text)) = Some (error_message text).
Proof.
  intros Hnul. unfold read_bytes, error_message. cbv zeta.
  pose proof (as_i32_le _ (str_len_nonneg text)) as Hle.
  destruct (as_i32 (str_len text) <? 0) eqn:E; [apply cstr_bytes_app, Hnul|].
  rewrite str_len_app. change (str_len [0]) with 1.
  replace (as_i32 (str_len text) <=? str_len text + 1) with true by lia.
  rewrite firstn_app. replace (Z.to_nat _ - length text)%nat with 0%nat by (unfold str_len in *; lia).
  cbn [firstn]. rewrite app_nil_r. reflexivity.
Qed.

Lemma error_message_fits text : in_i32 (str_len text) = true -> error_message text = text.
Proof.
  intros Hlen. unfold error_message. cbv zeta. rewrite (as_i32_id _ Hlen).
  pose proof (str_len_nonneg text). replace (str_len text <? 0) with false by lia.
  unfold str_len. rewrite Nat2Z.id. apply firstn_all.
Qed.

Lemma sqlite3ext_result_error_cstring h ctx c text :
  host_wf h -> contexts h !! ctx = Some c -> ~ In 0 text ->
  sqlite3ext_result_error ctx (next_addr h) (as_i32 (str_len text))
    (allocated (text_buffer_of text) h) = Ret (tt, error_written ctx c text h).
Proof.
  intros Hwf Hc Hnul. unfold sqlite3ext_result_error, text_buffer_of. step.
  rewrite (read_bytes_wrapped text Hnul). step. apply set_result_wf; eauto with rs.
Qed.

(** [result_error] returns on every text without a nul. *)
Lemma result_error_eq h ctx c text :
  host_wf h -> contexts h !! ctx = Some c -> ~ In 0 text ->
  result_error ctx text h = Ret (Ok tt, error_written ctx c text h).
Proof.
  intros Hwf Hc Hnul. unfold result_error. rewrite (cstring_new_clean text Hnul).
  step. cbv zeta.
  rewrite (bind_step _ _ _ _ _ (sqlite3ext_result_error_cstring h ctx c text Hwf Hc Hnul)).
  reflexivity.
Qed.

(** [result_error] of a message without a nul byte whose length fits an
    [i32] stores the message as the error of the context. *)
Theorem result_error_ok h ctx c text :
  host_wf h -> contexts h !! ctx = Some c -> ~ In 0 text ->
  in_i32 (str_len text) = true ->
  result_error ctx text h =
  Ret (Ok tt, wrote ctx c (ResError text)
                (released ctx c (allocated (text_buffer_of text) h))).
Proof.
  intros Hwf Hc Hnul Hlen. rewrite (result_error_eq h ctx c text Hwf Hc Hnul).
  unfold error_written. rewrite (error_message_fits text Hlen). reflexivity.
Qed.

(** C15: [result_error] loses its buffer: after the call the C string is
    live and no place of the host holds it with a destructor, so nothing will
    ever free it. *)
Theorem result_error_leaks h ctx c text :
  host_wf h -> contexts h !! ctx = Some c -> ~ In 0 text ->
  exists h', result_error ctx text h = Ret (Ok tt, h')
    /\ is_live h' (next_addr h) = true
    /\ (forall s d, is_rust d = true -> held_at h' s <> Some (next_addr h, d))
    /\ ~ no_leak h'.
Proof.
  intros Hwf Hc Hnul. exists (error_written ctx c text h).
  assert (Hlive : is_live (error_written ctx c text h) (next_addr h) = true).
  { apply is_live_spec. eexists. unfold error_written. rewrite heap_wrote.
    apply (released_fresh h ctx c _ Hwf Hc). }
  assert (Hfree : forall s d, is_rust d = true ->
            held_at (error_written ctx c text h) s <> Some (next_addr h, d)).
  { intros s d Hd. unfold error_written.
    rewrite held_at_wrote by (rewrite contexts_released; exact Hc).
    case_bool_decide; [discriminate|]. rewrite held_at_released.
    change (held_at (allocated _ h) s) with (held_at h s).
    intros Hs. exact (fresh_not_held h s d Hwf Hs Hd). }
  split; [apply result_error_eq; assumption|]. split; [exact Hlive|]. split; [exact Hfree|].
  intros Hl. destruct (Hl _ Hlive) as (s & d & Hs & Hd). exact (Hfree s d Hd Hs).
Qed.

(** ** [result_blob] *)

Lemma sqlite3ext_result_blob_whole ctx blob h :
  sqlite3ext_result_blob ctx blob (str_len blob) h = set_result ctx (ResBlob blob) h.
Proof.
  unfold sqlite3ext_result_blob. pose proof (str_len_nonneg blob).
  replace ((0 <=? str_len blob) && (str_len blob <=? str_len blob)) with true by lia.
  unfold str_len. rewrite Nat2Z.id, firstn_all. reflexivity.
Qed.

Lemma result_blob_eq h ctx c blob :
  host_wf h -> contexts h !! ctx = Some c -> in_i32 (str_len blob) = true ->
  result_blob ctx blob h = Ret (tt, plain_written ctx c (ResBlob blob) h).
Proof.
  intros Hwf Hc Hlen. unfold result_blob. cbv zeta. rewrite (as_i32_id _ Hlen).
  rewrite sqlite3ext_result_blob_whole. apply set_result_wf; assumption.
Qed.

(** C36: the length [result_blob] passes is the length of the slice cast to
    [i32]: from 2^31 bytes on it is negative, which the host reads as an
    invalid length, or it is smaller than the blob, which is then cut
    short. *)
Theorem result_blob_wraps h ctx blob :
  in_i32 (str_len blob) = false ->
  as_i32 (str_len blob) < str_len blob /\
  result_blob ctx blob h =
  if as_i32 (str_len blob) <? 0 then Undef
  else set_result ctx (ResBlob (firstn (Z.to_nat (as_i32 (str_len blob))) blob)) h.
Proof.
  intros Hlen. pose proof (as_i32_lt _ (str_len_nonneg blob) Hlen) as Hlt.
  split; [exact Hlt|]. unfold result_blob, sqlite3ext_result_blob. cbv zeta.
  destruct (as_i32 (str_len blob) <? 0) eqn:E.
  - replace (0 <=? as_i32 (str_len blob)) with false by lia. reflexivity.
  - replace ((0 <=? as_i32 (str_len blob)) && (as_i32 (str_len blob) <=? str_len blob))
      with true by lia. reflexivity.
Qed.

(** ** Lemmas and theorems: the other setters *)

Section Plain.
Context (h : host) (ctx : Z) (c : sqlite3_context).
Hypothesis (Hwf : host_wf h) (Hc : contexts h !! ctx = Some c).

Lemma plain_written_wf r : result_owner r = None -> host_wf (plain_written ctx c r h).
Proof. apply wrote_plain_wf; assumption. Qed.

Lemma plain_written_no_leak r :
  result_owner r = None -> no_leak h -> no_leak (plain_written ctx c r h).
Proof.
  intros Hr Hl. apply log_write_no_leak, plain_no_leak; assumption.
Qed.

Lemma writes_plain_written r : writes (plain_written ctx c r h) = (ctx, r) :: writes h.
Proof.
  unfold plain_written, wrote. cbn [writes log_write stored set_contexts].
  rewrite writes_released. reflexivity.
Qed.

(** The setters of scalars store their argument as the result of the
    context, after the host has let go of the result the context held;
    [result_bool] stores the integer 1 or 0. *)
Theorem result_scalars :
  (forall i, result_int ctx i h = Ret (tt, plain_written ctx c (ResInt i) h)) /\
  (forall i, result_int64 ctx i h = Ret (tt, plain_written ctx c (ResInt64 i) h)) /\
  (forall f, result_double ctx f h = Ret (tt, plain_written ctx c (ResDouble f) h)) /\
  result_null ctx h = Ret (tt, plain_written ctx c ResNull h) /\
  (forall code, result_error_code ctx code h =
                Ret (tt, plain_written ctx c (ResErrorCode code) h)) /\
  (forall b : bool, result_bool ctx b h =
                Ret (tt, plain_written ctx c (ResInt (if b then 1 else 0)) h)).
Proof.
  repeat split; intros; try destruct b; apply set_result_wf; assumption.
Qed.

End Plain.

Lemma sqlite3ext_result_subtype_eq h ctx c subtype :
  contexts h !! ctx = Some c ->
  sqlite3ext_result_subtype ctx subtype h = Ret (tt, subtyped ctx c subtype h).
Proof. intros Hc. unfold sqlite3ext_result_subtype, get_context, bind. rewrite Hc. reflexivity. Qed.

Section JsonFacts.
Context (Json : Type) (to_string : Json -> list Z).

(** [result_json] stores the serialized value as text, then marks the
    result with the subtype 74, the letter J. *)
Theorem result_json_ok h ctx c value :
  host_wf h -> contexts h !! ctx = Some c ->
  ~ In 0 (to_string value) -> in_i32 (str_len (to_string value)) = true ->
  exists h', result_json Json to_string ctx value h = Ret (Ok tt, h')
    /\ contexts h' !! ctx =
       Some (mkContext (Some (text_result h (to_string value))) 74 (ctx_auxdata c))
    /\ heap h' = heap (text_written ctx c (to_string value) h).
Proof.
  intros Hwf Hc Hnul Hlen. eexists. split; [|split].
  - unfold result_json, bind at 1.
    rewrite (result_text_eq h ctx c _ Hwf Hc), (cstring_new_clean _ Hnul), Hlen.
    unfold bind, result_subtype.
    rewrite (sqlite3ext_result_subtype_eq _ ctx _ 74 (contexts_text_written h ctx c _)).
    reflexivity.
  - unfold subtyped. cbn [contexts set_contexts]. apply lookup_insert_eq.
  - reflexivity.
Qed.

(** When the text of the value cannot be stored, [result_json] fails
    with the same error and sets no subtype. *)
Theorem result_json_err h ctx value e h' :
  result_text ctx (to_string value) h = Ret (Err e, h') ->
  result_json Json to_string ctx value h = Ret (Err e, h').
Proof. intros Ht. unfold result_json, bind. rewrite Ht. reflexivity. Qed.

End JsonFacts.

Lemma result_pointer_eq T h ctx c name object :
  host_wf h -> contexts h !! ctx = Some c ->
  result_pointer T ctx name object h = Ret (tt, pointer_written T ctx c name object h).
Proof.
  intros Hwf Hc. unfold result_pointer. step. apply set_result_wf; eauto with rs.
Qed.

Lemma pointer_written_wf T h ctx c name object :
  host_wf h -> contexts h !! ctx = Some c ->
  host_wf (pointer_written T ctx c name object h).
Proof.
  intros Hwf Hc. unfold pointer_written, boxed.
  eapply fresh_owner_wf; [exact Hwf | exact Hc | reflexivity |].
  cbn [pairs_with]. apply bool_decide_eq_true_2. reflexivity.
Qed.

Lemma pointer_written_no_leak T h ctx c name object :
  host_wf h -> contexts h !! ctx = Some c -> no_leak h ->
  no_leak (pointer_written T ctx c name object h).
Proof. intros Hwf Hc Hl. eapply fresh_owner_no_leak; eauto; reflexivity. Qed.

(** [result_pointer] moves the object into a box, and hands the box to
    the host under the name it was given, with [pointer_destroy] as its
    destructor; the state stays well-formed and nothing is lost. *)
Theorem result_pointer_ok T h ctx c name object :
  host_wf h -> contexts h !! ctx = Some c ->
  result_pointer T ctx name object h = Ret (tt, pointer_written T ctx c name object h)
  /\ host_wf (pointer_written T ctx c name object h)
  /\ (no_leak h -> no_leak (pointer_written T ctx c name object h)).
Proof.
  intros Hwf Hc. split; [|split].
  - apply result_pointer_eq; assumption.
  - apply pointer_written_wf; assumption.
  - apply pointer_written_no_leak; assumption.
Qed.

Lemma contexts_pointer_written T h ctx c name object :
  contexts (pointer_written T ctx c name object h) !! ctx =
  Some (mkContext (Some (ResPointer (next_addr h) name (Some (pointer_destroy_fn T))))
          (ctx_subtype c) (ctx_auxdata c)).
Proof. unfold pointer_written, wrote, stored. cbn [contexts log_write set_contexts]. apply lookup_insert_eq. Qed.

(** The destructor registered by [result_pointer] pairs with its
    allocation: when the host is done with the context, the box is freed,
    once. *)
Theorem result_pointer_finish T h ctx c name object :
  host_wf h -> contexts h !! ctx = Some c ->
  exists h', (result_pointer T ctx name object ;; finish ctx) h = Ret (tt, h')
    /\ heap h' !! next_addr h = Some Freed
    /\ host_wf h' /\ (no_leak h -> no_leak h').
Proof.
  intros Hwf Hc.
  pose proof (pointer_written_wf T h ctx c name object Hwf Hc) as Hwf'.
  pose proof (contexts_pointer_written T h ctx c name object) as Hc'.
  eexists. split; [|split; [|split]].
  - unfold bind. rewrite (result_pointer_eq T h ctx c name object Hwf Hc).
    apply (finish_wf _ ctx _ Hwf' Hc').
  - rewrite heap_stored, heap_released. cbn [held_in ctx_result result_owner is_rust andb].
    rewrite bool_decide_eq_true_2 by reflexivity. reflexivity.
  - apply (finish_keeps_wf _ ctx _ Hwf' Hc').
  - intros Hl. apply plain_no_leak; [exact Hwf' | exact Hc' | | reflexivity].
    apply pointer_written_no_leak; assumption.
Qed.

(** ** The theorems at concrete inputs *)

Module ResultExamples.

Definition h0 : host := example_host [].
Definition abc : list Z := lit "abc".
Definition huge : list Z := repeat 65 (Z.to_nat 2147483648).

Lemma abc_clean : ~ In 0 abc.
Proof. vm_compute. intuition discriminate. Qed.

Lemma huge_clean : ~ In 0 huge.
Proof. unfold huge. intros H. apply repeat_spec in H. lia. Qed.

Lemma huge_len : str_len huge = 2147483648.
Proof. unfold huge, str_len. rewrite repeat_length. apply Z2Nat.id. lia. Qed.

Lemma huge_overflow : in_i32 (str_len huge) = false.
Proof. rewrite huge_len. reflexivity. Qed.

Lemma result_text_ok_witness :
  result_text 1 abc h0 = Ret (Ok tt, text_written 1 empty_context abc h0).
Proof.
  apply result_text_ok;
    [apply example_host_wf | apply example_host_context | apply abc_clean | reflexivity].
Defined.

Lemma result_text_nul_witness :
  exists e, result_text 1 [97; 0; 98; 0] h0 = Ret (Err (NulByteInSource e), h0)
            /\ nul_bytes e = [97; 0; 98; 0]
            /\ nth_error [97; 0; 98; 0] (nul_position e) = Some 0
            /\ Forall (fun b => b <> 0) (firstn (nul_position e) [97; 0; 98; 0]).
Proof. apply result_text_nul. right. left. reflexivity. Defined.

Lemma result_text_overflow_witness :
  result_text 1 huge h0 = Ret (Err length_overflow, allocated Freed h0).
Proof. apply result_text_overflow; [apply huge_clean | apply huge_overflow]. Defined.

Lemma result_text_preserves_witness :
  host_wf (text_written 1 empty_context abc h0)
  /\ (no_leak h0 -> no_leak (text_written 1 empty_context abc h0)).
Proof.
  apply (result_text_preserves h0 1 empty_context abc (Ok tt));
    [apply example_host_wf | apply example_host_context |].
  rewrite (result_text_eq h0 1 empty_context abc (example_host_wf []) (example_host_context [])).
  reflexivity.
Defined.

Lemma result_text_finish_witness :
  exists h', (result_text 1 abc ;; finish 1) h0 = Ret (tt, h')
    /\ heap h' !! next_addr h0 = Some Freed
    /\ host_wf h' /\ (no_leak h0 -> no_leak h').
Proof.
  apply (result_text_finish h0 1 empty_context abc);
    [apply example_host_wf | apply example_host_context | apply abc_clean | reflexivity].
Defined.

Lemma result_error_ok_witness :
  result_error 1 abc h0 =
  Ret (Ok tt, wrote 1 empty_context (ResError abc)
                (released 1 empty_context (allocated (text_buffer_of abc) h0))).
Proof.
  apply result_error_ok;
    [apply example_host_wf | apply example_host_context | apply abc_clean | reflexivity].
Defined.

Lemma result_error_leaks_witness :
  exists h', result_error 1 abc h0 = Ret (Ok tt, h')
    /\ is_live h' (next_addr h0) = true
    /\ (forall s d, is_rust d = true -> held_at h' s <> Some (next_addr h0, d))
    /\ ~ no_leak h'.
Proof.
  apply (result_error_leaks h0 1 empty_context abc);
    [apply example_host_wf | apply example_host_context | apply abc_clean].
Defined.

Lemma result_blob_wraps_witness :
  as_i32 (str_len huge) < str_len huge /\
  result_blob 1 huge h0 =
  if as_i32 (str_len huge) <? 0 then Undef
  else set_result 1 (ResBlob (firstn (Z.to_nat (as_i32 (str_len huge))) huge)) h0.
Proof. apply result_blob_wraps, huge_overflow. Defined.

(** A blob of 2^31 bytes: the length the host is given is negative. *)
Lemma result_blob_huge : result_blob 1 huge h0 = Undef.
Proof.
  unfold result_blob, sqlite3ext_result_blob. cbv zeta. rewrite huge_len. reflexivity.
Qed.

Lemma result_scalars_witness :
  (forall i, result_int 1 i h0 = Ret (tt, plain_written 1 empty_context (ResInt i) h0)) /\
  (forall i, result_int64 1 i h0 = Ret (tt, plain_written 1 empty_context (ResInt64 i) h0)) /\
  (forall f, result_double 1 f h0 = Ret (tt, plain_written 1 empty_context (ResDouble f) h0)) /\
  result_null 1 h0 = Ret (tt, plain_written 1 empty_context ResNull h0) /\
  (forall code, result_error_code 1 code h0 =
                Ret (tt, plain_written 1 empty_context (ResErrorCode code) h0)) /\
  (forall b : bool, result_bool 1 b h0 =
                Ret (tt, plain_written 1 empty_context (ResInt (if b then 1 else 0)) h0)).
Proof. apply result_scalars; [apply example_host_wf | apply example_host_context]. Defined.

Lemma result_json_ok_witness :
  exists h', result_json unit (fun _ => lit "null") 1 tt h0 = Ret (Ok tt, h')
    /\ contexts h' !! 1 =
       Some (mkContext (Some (text_result h0 (lit "null"))) 74 (ctx_auxdata empty_context))
    /\ heap h' = heap (text_written 1 empty_context (lit "null") h0).
Proof.
  apply (result_json_ok unit (fun _ => lit "null") h0 1 empty_context tt);
    [apply example_host_wf | apply example_host_context
     | vm_compute; intuition discriminate | reflexivity].
Defined.

Lemma result_json_err_witness :
  result_json unit (fun _ => [0]) 1 tt h0 =
  Ret (Err (NulByteInSource (mkNulError 0 [0])), h0).
Proof. apply result_json_err. reflexivity. Defined.

Lemma result_pointer_ok_witness :
  result_pointer 7 1 (lit "p") [1; 2] h0 =
    Ret (tt, pointer_written 7 1 empty_context (lit "p") [1; 2] h0)
  /\ host_wf (pointer_written 7 1 empty_context (lit "p") [1; 2] h0)
  /\ (no_leak h0 -> no_leak (pointer_written 7 1 empty_context (lit "p") [1; 2] h0)).
Proof. apply result_pointer_ok; [apply example_host_wf | apply example_host_context]. Defined.

Lemma result_pointer_finish_witness :
  exists h', (result_pointer 7 1 (lit "p") [1; 2] ;; finish 1) h0 = Ret (tt, h')
    /\ heap h' !! next_addr h0 = Some Freed
    /\ host_wf h' /\ (no_leak h0 -> no_leak h').
Proof.
  apply (result_pointer_finish 7 h0 1 empty_context);
    [apply example_host_wf | apply example_host_context].
Defined.

End ResultExamples.
