(* ===== verification/Affinity.v ===== *)
(** * Column affinity: classification of declared types

    Models [ColumnAffinity] and [ExtendedColumnAffinity] of src/src/api.rs
    (lines 361-526): the two enumerations and the functions that derive an
    affinity from a declared column type, [from_declared_type] and
    [extended_column_affinity_from_type], and [ColumnAffinity::result_text],
    which stores a text as the result of a function under an affinity.  The
    declared type is the byte list of the Rust [&str]; the library functions
    it goes through are those of [RustStr] and [RustNum].  The chain of
    tests of a classifier is [rule_on] (lines 387-414) and [extended_on]
    (lines 491-524), over the searches it makes; on the encoding of code
    points the classification is related to the code points through
    [Chars]. *)

From Stdlib Require Import ZArith Lia List String Ascii.
From stdpp Require Import base tactics option list gmap.
From S2P Require Import Prelude RustStr RustNum Utf8 Unicode Chars Errors Host ResultApi.

#[local] Open Scope Z_scope.
#[local] Open Scope string_scope.
#[local] Open Scope rs_scope.

(** ** [ColumnAffinity] *)

Module ColumnAffinity.

Inductive ColumnAffinity : Type :=
| Text
| Integer
| Real
| Blob
| Numeric.

#[export] Instance ColumnAffinity_eq_dec : EqDecision ColumnAffinity.
Proof. solve_decision. Defined.

Definition from_declared_type (declared_type : list Z) : ColumnAffinity :=
  let lowered := to_lowercase (trim declared_type) in
  if contains lowered (lit "int") then Integer
  else if contains lowered (lit "char") || contains lowered (lit "clob")
          || contains lowered (lit "text") then Text
  else if contains lowered (lit "blob") || is_empty lowered then Blob
  else if contains lowered (lit "real") || contains lowered (lit "floa")
          || contains lowered (lit "doub") then Real
  else Numeric.

(** [ColumnAffinity::result_text]: every arm ends in the [Ok(())] of the last
    line, but for the [?] on the text setter. *)
Definition result_text (self : ColumnAffinity) (context : Z) (value : list Z)
  : exec host (result unit Error) :=
  match self with
  | Numeric =>
    match parse_i32 value with
    | Ok value => result_int context value ;; ret (Ok tt)
    | Err _ =>
      match parse_i64 value with
      | Ok value => result_int64 context value ;; ret (Ok tt)
      | Err _ =>
        match parse_f64 value with
        | Ok value => result_double context value ;; ret (Ok tt)
        | Err _ =>
          let? _ := ResultApi.result_text context value in
          ret (Ok tt)
        end
      end
    end
  | Integer =>
    match parse_i32 value with
    | Ok value => result_int context value ;; ret (Ok tt)
    | Err _ =>
      match parse_i64 value with
      | Ok value => result_int64 context value ;; ret (Ok tt)
      | Err _ =>
        let? _ := ResultApi.result_text context value in
        ret (Ok tt)
      end
    end
  | Real =>
    match parse_f64 value with
    | Ok value => result_double context value ;; ret (Ok tt)
    | Err _ =>
      let? _ := ResultApi.result_text context value in
      ret (Ok tt)
    end
  | Blob | Text =>
    let? _ := ResultApi.result_text context value in
    ret (Ok tt)
  end.

End ColumnAffinity.

(** ** [ExtendedColumnAffinity] *)

Module ExtendedColumnAffinity.

Inductive ExtendedColumnAffinity : Type :=
| Text
| Integer
| Real
| Blob
| Boolean
| Json
| Datetime
| Date
| Time
| Numeric.

#[export] Instance ExtendedColumnAffinity_eq_dec : EqDecision ExtendedColumnAffinity.
Proof. solve_decision. Defined.

Definition extended_column_affinity_from_type (declared_type : list Z)
  : ExtendedColumnAffinity :=
  let lowered := to_lowercase declared_type in
  if contains lowered (lit "int") then Integer
  else if contains lowered (lit "char") || contains lowered (lit "clob")
          || contains lowered (lit "text") then Text
  else if contains lowered (lit "blob") || is_empty lowered then Blob
  else if contains lowered (lit "real") || contains lowered (lit "floa")
          || contains lowered (lit "doub") then Real
  else if contains lowered (lit "json") then Json
  else if contains lowered (lit "boolean") then Boolean
  else Numeric.

End ExtendedColumnAffinity.

(** ** The rule of SQLite, on the declared type as written

    "Determination of column affinity" (datatype3.html, 3.1) is stated on the
    declared type as it stands in the schema, without regard to case.
    [mentions s p] is that search; [affinity_rule] is the rule, with the
    extension of the source that a type made of white space only counts as no
    type. *)

Definition mentions (s : list Z) (p : string) : bool :=
  contains (map ascii_lower s) (lit p).

Definition blank (s : list Z) : bool := is_empty (trim s).

(** The chain of tests of the rule, on the answers of the searches: [has p]
    says whether the keyword [p] occurs, [empty] whether there is no type. *)
Definition rule_on (has : string -> bool) (empty : bool)
  : ColumnAffinity.ColumnAffinity :=
  if has "int" then ColumnAffinity.Integer
  else if has "char" || has "clob" || has "text" then ColumnAffinity.Text
  else if has "blob" || empty then ColumnAffinity.Blob
  else if has "real" || has "floa" || has "doub" then ColumnAffinity.Real
  else ColumnAffinity.Numeric.

Definition affinity_rule (s : list Z) : ColumnAffinity.ColumnAffinity :=
  rule_on (mentions s) (blank s).

(** The affinity the chain of tests gives on a string that is already in
    lower case. *)
Definition classified (lowered : list Z) : ColumnAffinity.ColumnAffinity :=
  rule_on (fun p => contains lowered (lit p)) (is_empty lowered).

(** The extended affinities that have a counterpart among the five of SQLite;
    the others are Numeric there. *)
Definition to_core (e : ExtendedColumnAffinity.ExtendedColumnAffinity)
  : ColumnAffinity.ColumnAffinity :=
  match e with
  | ExtendedColumnAffinity.Text => ColumnAffinity.Text
  | ExtendedColumnAffinity.Integer => ColumnAffinity.Integer
  | ExtendedColumnAffinity.Real => ColumnAffinity.Real
  | ExtendedColumnAffinity.Blob => ColumnAffinity.Blob
  | _ => ColumnAffinity.Numeric
  end.

(** The chain of tests of the extended classifier, on the answers of the
    searches: that of SQLite with two more keywords before the default. *)
Definition extended_on (has : string -> bool) (empty : bool)
  : ExtendedColumnAffinity.ExtendedColumnAffinity :=
  if has "int" then ExtendedColumnAffinity.Integer
  else if has "char" || has "clob" || has "text" then ExtendedColumnAffinity.Text
  else if has "blob" || empty then ExtendedColumnAffinity.Blob
  else if has "real" || has "floa" || has "doub" then ExtendedColumnAffinity.Real
  else if has "json" then ExtendedColumnAffinity.Json
  else if has "boolean" then ExtendedColumnAffinity.Boolean
  else ExtendedColumnAffinity.Numeric.

(** The rule of the extended classifier: on the declared type as written,
    and without the trimming. *)
Definition extended_rule (s : list Z) : ExtendedColumnAffinity.ExtendedColumnAffinity :=
  extended_on (mentions s) (is_empty s).

Definition extended_classified (lowered : list Z)
  : ExtendedColumnAffinity.ExtendedColumnAffinity :=
  extended_on (fun p => contains lowered (lit p)) (is_empty lowered).

Definition is_temporal (e : ExtendedColumnAffinity.ExtendedColumnAffinity) : bool :=
  match e with
  | ExtendedColumnAffinity.Datetime | ExtendedColumnAffinity.Date
  | ExtendedColumnAffinity.Time => true
  | _ => false
  end.

(** ** Theorems: classification *)

Section Classification.
Import ColumnAffinity.

(** Every keyword of the two classifiers is one [contains_lower_trim] and
    [contains_lower] apply to. *)
Lemma keywords_ok :
  Forall (fun p => keyword (lit p) = true)
    ["int"; "char"; "clob"; "text"; "blob"; "real"; "floa"; "doub"; "json"; "boolean"].
Proof. repeat constructor. Qed.

Lemma searched_trimmed s p :
  keyword (lit p) = true -> contains (to_lowercase (trim s)) (lit p) = mentions s p.
Proof. apply contains_lower_trim. Qed.

Lemma searched s p :
  keyword (lit p) = true -> contains (to_lowercase s) (lit p) = mentions s p.
Proof. intros [Hp _]%andb_true_iff. apply contains_lower, Hp. Qed.

Lemma mentions_spec s p : mentions s p = true <-> contains_ci s (lit p).
Proof. apply contains_ci_spec. Qed.

Lemma from_declared_type_eq (s : list Z) : from_declared_type s = affinity_rule s.
Proof.
  unfold from_declared_type, affinity_rule, rule_on, blank.
  rewrite !searched_trimmed, is_empty_to_lowercase by reflexivity.
  reflexivity.
Qed.

(** C1: [from_declared_type] computes the rule of SQLite on the declared type
    as written: the trimming and the Unicode-aware lower-casing it does first
    change nothing but the case of ASCII letters and the blank test. *)
Theorem from_declared_type_rule (s : list Z) :
  from_declared_type s = affinity_rule s.
Proof. apply from_declared_type_eq. Qed.

(** A declared type that contains "int" in any case and at any place is
    Integer, whatever else it contains. *)
Theorem from_declared_type_int (s : list Z) :
  contains_ci s (lit "int") -> from_declared_type s = Integer.
Proof.
  intros H%mentions_spec. rewrite from_declared_type_eq.
  unfold affinity_rule, rule_on. rewrite H. reflexivity.
Qed.

Lemma from_declared_type_int_witness :
  contains_ci (lit "integer text") (lit "int") /\
  from_declared_type (lit "integer text") = Integer.
Proof.
  assert (H : contains_ci (lit "integer text") (lit "int")).
  { exists [], (lit "int"), (lit "eger text"). split; reflexivity. }
  split; [exact H | exact (from_declared_type_int _ H)].
Defined.

(** Two declared types that differ only in the case of ASCII letters
    get the same affinity. *)
Theorem from_declared_type_case (s s' : list Z) :
  map ascii_lower s = map ascii_lower s' ->
  from_declared_type s = from_declared_type s'.
Proof.
  intros H. rewrite !from_declared_type_eq. unfold affinity_rule, rule_on, mentions, blank.
  rewrite H. do 2 f_equal.
  rewrite <- (is_empty_map ascii_lower (trim s)), <- trim_lower, H, trim_lower.
  rewrite is_empty_map. reflexivity.
Qed.

Lemma from_declared_type_case_witness :
  from_declared_type (lit "VarChar(255)") = from_declared_type (lit "VARCHAR(255)").
Proof. apply from_declared_type_case. reflexivity. Defined.

(** White space around the declared type does not change the affinity. *)
Lemma mentions_trim s p :
  keyword (lit p) = true -> mentions (trim s) p = mentions s p.
Proof. intros (_ & Hne & Hs)%keyword_inv. apply contains_trim; assumption. Qed.

(** A declared type of white space only mentions no keyword. *)
Lemma blank_mentions s p : keyword (lit p) = true -> blank s = true -> mentions s p = false.
Proof.
  intros Hk Hb. rewrite <- (mentions_trim s p Hk). unfold blank in Hb.
  destruct (trim s); [|discriminate]. apply keyword_inv in Hk as (_ & Hne & _).
  unfold mentions. cbn [map]. destruct (lit p); [congruence | reflexivity].
Qed.

Lemma extended_eq (s : list Z) :
  ExtendedColumnAffinity.extended_column_affinity_from_type s = extended_rule s.
Proof.
  unfold ExtendedColumnAffinity.extended_column_affinity_from_type, extended_rule, extended_on.
  rewrite !searched, is_empty_to_lowercase by reflexivity. reflexivity.
Qed.

(** C38: the extended classifier agrees with the core one on every declared
    type that is empty or not made of white space only: its answer is the
    core affinity, or one of Json and Boolean where the core says Numeric. *)
Theorem extended_agrees_core (s : list Z) :
  blank s = is_empty s ->
  to_core (ExtendedColumnAffinity.extended_column_affinity_from_type s) =
  from_declared_type s.
Proof.
  intros Hb. rewrite extended_eq, from_declared_type_eq.
  unfold extended_rule, extended_on, affinity_rule, rule_on. rewrite Hb.
  repeat (split_if; try reflexivity).
Qed.

(** C39: the two classifiers differ on a declared type made of white space
    only: the core one trims it and answers Blob, the extended one does not
    and answers Numeric. *)
Theorem extended_blank_diverges (s : list Z) :
  blank s = true -> is_empty s = false ->
  from_declared_type s = Blob /\
  ExtendedColumnAffinity.extended_column_affinity_from_type s =
  ExtendedColumnAffinity.Numeric.
Proof.
  intros Hb He. rewrite extended_eq, from_declared_type_eq.
  unfold extended_rule, extended_on, affinity_rule, rule_on.
  rewrite !(fun p Hk => blank_mentions s p Hk Hb) by reflexivity.
  rewrite Hb, He. split; reflexivity.
Qed.

(** The extended classifier never answers Datetime, Date or Time. *)
Theorem extended_never_temporal (s : list Z) :
  is_temporal (ExtendedColumnAffinity.extended_column_affinity_from_type s) = false.
Proof.
  rewrite extended_eq. unfold extended_rule, extended_on.
  repeat (split_if; try reflexivity).
Qed.

Lemma extended_agrees_core_witness :
  to_core (ExtendedColumnAffinity.extended_column_affinity_from_type (lit "JSONB")) =
  from_declared_type (lit "JSONB").
Proof. apply extended_agrees_core. reflexivity. Defined.

Lemma extended_blank_diverges_witness :
  from_declared_type (lit "  ") = Blob /\
  ExtendedColumnAffinity.extended_column_affinity_from_type (lit "  ") =
  ExtendedColumnAffinity.Numeric.
Proof. apply extended_blank_diverges; reflexivity. Defined.

(** ** The classification and the Unicode tables

    [from_declared_type] is modelled with a [to_lowercase] that knows the
    lower case of ASCII, U+0130 and U+212A only.  The affinity does not
    depend on the rest: the chain of tests gives the same answer on every
    lower-casing of the trimmed type. *)

Lemma from_declared_type_classified s :
  from_declared_type s = classified (to_lowercase (trim s)).
Proof. reflexivity. Qed.

Lemma rule_on_ext has has' empty :
  (forall p, keyword (lit p) = true -> has p = has' p) ->
  rule_on has empty = rule_on has' empty.
Proof. intros H. unfold rule_on. rewrite !H by reflexivity. reflexivity. Qed.

Lemma classified_alike x y : alike x y -> classified x = classified y.
Proof.
  intros H. unfold classified. rewrite (is_empty_alike x y H).
  apply rule_on_ext. intros p (_ & Hne & Hs)%keyword_inv.
  apply contains_alike; [exact H | exact Hne|].
  eapply Forall_impl; [exact Hs | apply is_solid_ascii].
Qed.

Lemma classified_lowered cs ds :
  Forall (fun c => scalar c = true) cs -> lowered (trim_chars cs) ds ->
  classified (encode ds) = from_declared_type (encode cs).
Proof.
  intros Hcs H. rewrite from_declared_type_classified, trim_encode by exact Hcs.
  symmetry. apply classified_alike, lowered_alike; auto using Forall_trim_chars.
Qed.

(** The same of the extended classifier, which does not trim. *)
Lemma extended_classified_lowered cs ds :
  Forall (fun c => scalar c = true) cs -> lowered cs ds ->
  extended_classified (encode ds)
  = ExtendedColumnAffinity.extended_column_affinity_from_type (encode cs).
Proof.
  intros Hcs Hl. pose proof (lowered_alike cs ds Hcs Hl) as Ha.
  change (ExtendedColumnAffinity.extended_column_affinity_from_type (encode cs))
    with (extended_classified (to_lowercase (encode cs))).
  unfold extended_classified, extended_on.
  rewrite (is_empty_alike _ _ Ha), !(fun p => contains_alike _ _ (lit p) Ha)
    by (discriminate || (repeat constructor)).
  reflexivity.
Qed.

(** C21: the affinity [from_declared_type] gives to a declared type is the one
    its chain of tests gives on any lower-casing of the trimmed type, under
    whatever version of the Unicode tables [str::to_lowercase] is built
    with: the tables matter only for code points outside ASCII, which no
    keyword contains. *)
Theorem from_declared_type_unicode cs ds :
  Forall (fun c => scalar c = true) cs -> lowered (trim_chars cs) ds ->
  classified (encode ds) = from_declared_type (encode cs).
Proof. apply classified_lowered. Qed.

(** " INT" followed by a capital sigma, with the sigma lowered as the tables
    do: Integer. *)
Lemma from_declared_type_unicode_witness :
  classified (encode [105; 110; 116; 963])
  = from_declared_type (encode [32; 73; 78; 84; 931]).
Proof.
  apply from_declared_type_unicode; [repeat constructor|].
  change (trim_chars [32; 73; 78; 84; 931]) with [73; 78; 84; 931].
  apply (lowered_cons 73 _ [105]), (lowered_cons 78 _ [110]),
    (lowered_cons 84 _ [116]), (lowered_cons 931 [] [963] []); auto.
Defined.

End Classification.

(** ** The examples of the specification *)

Module AffinityExamples.
Import ColumnAffinity.

(** The declared types the specification lists, with the affinity each gets. *)
Example from_declared_type_examples :
  from_declared_type (lit "integer text") = Integer /\
  from_declared_type (lit "") = Blob /\
  from_declared_type (lit "VARCHAR(255)") = Text /\
  from_declared_type (lit "DOUBLE") = Real /\
  from_declared_type (lit "FOO") = Numeric.
Proof. repeat split; vm_compute; reflexivity. Qed.

(** The extended classifier on the same types, and on its own keywords. *)
Example extended_examples :
  ExtendedColumnAffinity.extended_column_affinity_from_type (lit "integer text") =
    ExtendedColumnAffinity.Integer /\
  ExtendedColumnAffinity.extended_column_affinity_from_type (lit "") =
    ExtendedColumnAffinity.Blob /\
  ExtendedColumnAffinity.extended_column_affinity_from_type (lit "JSON") =
    ExtendedColumnAffinity.Json /\
  ExtendedColumnAffinity.extended_column_affinity_from_type (lit "Boolean") =
    ExtendedColumnAffinity.Boolean /\
  ExtendedColumnAffinity.extended_column_affinity_from_type (lit "DATETIME") =
    ExtendedColumnAffinity.Numeric /\
  ExtendedColumnAffinity.extended_column_affinity_from_type (lit "POINT") =
    ExtendedColumnAffinity.Integer.
Proof. repeat split; vm_compute; reflexivity. Qed.

End AffinityExamples.
