(* ===== verification/AuxData.v ===== *)
(** * Auxiliary data

    Theorems about [auxdata_set] and [auxdata_get] (src/src/api.rs, lines
    342-359), the wrappers over the slots SQLite keeps per context and
    argument.  A slot holds a pointer and, if the caller gave one, the
    destructor the host calls when the slot is overwritten: setting a slot is
    a swap of ownership like the write of a result ([Host.swapped]). *)

From Stdlib Require Import ZArith Lia List String Ascii.
From stdpp Require Import base tactics option list gmap.
From S2P Require Import Prelude RustStr RustNum Utf8 Errors Host ResultApi.

#[local] Open Scope Z_scope.
#[local] Open Scope rs_scope.

(** The pointer of a slot, NULL when the slot was never set. *)
Definition aux_pointer (c : sqlite3_context) (col : Z) : Z :=
  match ctx_auxdata c !! col with
  | Some (p, _) => p
  | None => 0
  end.

(** The pointer in slot [col] of context [ctx]: what [auxdata_get] returns. *)
Definition aux_of (ctx col : Z) (h : host) : Z :=
  match contexts h !! ctx with
  | Some c => aux_pointer c col
  | None => 0
  end.

(** What the host holds for a slot that was given [p] and [d]. *)
Definition aux_owner (p : Z) (d : option destructor) : option (Z * destructor) :=
  option_map (pair p) d.

(** The state [auxdata_set] leaves. *)
Definition aux_written (ctx : Z) (c : sqlite3_context) (col p : Z) (d : option destructor)
  (h : host) : host :=
  aux_stored ctx c col p d (aux_released ctx c col h).

(** Setting a slot touches the contexts and, through a destructor, the heap. *)
Lemma aux_written_frame ctx c col p d h :
  writes (aux_written ctx c col p d h) = writes h
  /\ next_addr (aux_written ctx c col p d h) = next_addr h
  /\ values (aux_written ctx c col p d h) = values h.
Proof.
  unfold aux_written, aux_released, aux_stored. cbn [writes next_addr values set_contexts].
  pose proof (let_go_frame (held_in c (AuxSlot ctx col)) h). tauto.
Qed.

(** A slot depends on the contexts alone; a write of the result leaves it. *)
Lemma aux_of_contexts ctx col h h' : contexts h' = contexts h -> aux_of ctx col h' = aux_of ctx col h.
Proof. unfold aux_of. intros ->. reflexivity. Qed.

Lemma aux_of_stored ctx c o h col :
  contexts h !! ctx = Some c -> aux_of ctx col (stored ctx c o h) = aux_of ctx col h.
Proof.
  intros Hc. unfold aux_of, stored. cbn [contexts set_contexts].
  rewrite lookup_insert_eq, Hc. reflexivity.
Qed.

Lemma aux_of_wrote ctx c r h col :
  contexts h !! ctx = Some c -> aux_of ctx col (wrote ctx c r h) = aux_of ctx col h.
Proof. exact (aux_of_stored ctx c (Some r) h col). Qed.

Section Slots.
Context (h : host) (ctx : Z) (c : sqlite3_context).
Hypothesis (Hwf : host_wf h) (Hc : contexts h !! ctx = Some c).

Lemma held_at_aux col : held_at h (AuxSlot ctx col) = held_in c (AuxSlot ctx col).
Proof. unfold held_at. cbn [slot_context]. rewrite Hc. reflexivity. Qed.

Lemma contexts_aux_written col p d :
  contexts (aux_written ctx c col p d h) !! ctx =
  Some (mkContext (ctx_result c) (ctx_subtype c) (<[col := (p, d)]> (ctx_auxdata c))).
Proof. unfold aux_written, aux_stored. cbn [contexts set_contexts]. apply lookup_insert_eq. Qed.

Lemma auxdata_get_eq col : auxdata_get ctx col h = Ret (aux_pointer c col, h).
Proof.
  unfold auxdata_get, sqlite3ext_get_auxdata, get_context, bind. rewrite Hc. reflexivity.
Qed.

Lemma auxdata_set_eq col p d :
  auxdata_set ctx col p d h = Ret (tt, aux_written ctx c col p d h).
Proof.
  unfold auxdata_set, sqlite3ext_set_auxdata, get_context, bind at 1. rewrite Hc.
  unfold aux_written, aux_released. pose proof (held_at_aux col) as Hh. cbn [held_in] in *.
  destruct (ctx_auxdata c !! col) as [[q [dq|]]|]; try reflexivity.
  unfold bind. cbn [run_destructor_opt]. rewrite (call_held h _ q dq Hwf Hh). reflexivity.
Qed.

Lemma aux_of_written col col' p d :
  aux_of ctx col (aux_written ctx c col' p d h) =
  if bool_decide (col' = col) then p else aux_of ctx col h.
Proof.
  unfold aux_of. rewrite contexts_aux_written, Hc. unfold aux_pointer. cbn [ctx_auxdata].
  case_bool_decide as E; [subst; rewrite lookup_insert_eq | rewrite lookup_insert_ne by exact E];
    reflexivity.
Qed.

(** Setting a slot is a swap of the slot. *)
Lemma aux_swapped col p d :
  swapped (AuxSlot ctx col) (aux_owner p d) h (aux_written ctx c col p d h).
Proof.
  split.
  - apply let_go_frame.
  - intros q. unfold aux_written, aux_released. change (heap (aux_stored _ _ _ _ _ ?x)) with (heap x).
    rewrite heap_let_go, held_at_aux. reflexivity.
  - intros s. unfold held_at at 1, aux_written, aux_stored, aux_released.
    cbn [contexts set_contexts]. rewrite (proj1 (let_go_frame _ h)).
    destruct (decide (slot_context s = ctx)) as [<-|Hne].
    + rewrite lookup_insert_eq. unfold held_at. rewrite Hc.
      destruct s as [ctx'|ctx' col']; cbn [held_in ctx_result ctx_auxdata slot_context] in *.
      * rewrite bool_decide_eq_false_2 by discriminate. reflexivity.
      * destruct (decide (col' = col)) as [->|Hcol].
        { rewrite bool_decide_eq_true_2, lookup_insert_eq by reflexivity. destruct d; reflexivity. }
        rewrite bool_decide_eq_false_2 by congruence.
        rewrite lookup_insert_ne by congruence. reflexivity.
    + rewrite lookup_insert_ne by congruence.
      rewrite bool_decide_eq_false_2 by (intros ->; apply Hne; reflexivity). reflexivity.
Qed.

(** What [auxdata_set] stores in a slot is what [auxdata_get] returns for
    it; the other slots of the context return what they did. *)
Theorem auxdata_roundtrip col p d :
  exists h', auxdata_set ctx col p d h = Ret (tt, h')
    /\ auxdata_get ctx col h' = Ret (p, h')
    /\ forall col', col' <> col -> auxdata_get ctx col' h' = Ret (aux_pointer c col', h').
Proof.
  exists (aux_written ctx c col p d h). split; [apply auxdata_set_eq|].
  unfold auxdata_get, sqlite3ext_get_auxdata, get_context, bind.
  rewrite contexts_aux_written. cbn [ctx_auxdata]. split.
  - rewrite lookup_insert_eq. reflexivity.
  - intros col' Hne. rewrite lookup_insert_ne by congruence. reflexivity.
Qed.

(** [auxdata_get] of a slot that was never set returns the null
    pointer. *)
Theorem auxdata_get_unset col :
  ctx_auxdata c !! col = None -> auxdata_get ctx col h = Ret (0, h).
Proof. intros Hn. rewrite auxdata_get_eq. unfold aux_pointer. rewrite Hn. reflexivity. Qed.

(** [auxdata_set] over a slot that holds a pointer with a destructor of
    the layer has that destructor called: the old allocation is freed, and
    the result of the context is not touched. *)
Theorem auxdata_set_releases col p d q dq :
  ctx_auxdata c !! col = Some (q, Some dq) -> is_rust dq = true ->
  exists h', auxdata_set ctx col p d h = Ret (tt, h')
    /\ heap h' !! q = Some Freed
    /\ held_at h' (ResultSlot ctx) = held_at h (ResultSlot ctx)
    /\ writes h' = writes h.
Proof.
  intros Hq Hd. exists (aux_written ctx c col p d h).
  pose proof (aux_swapped col p d) as Hsw.
  split; [apply auxdata_set_eq|]. split; [|split].
  - rewrite (sw_heap _ _ _ _ Hsw), held_at_aux. cbn [held_in]. rewrite Hq, Hd. cbn [andb].
    rewrite bool_decide_eq_true_2 by reflexivity. reflexivity.
  - rewrite (sw_held _ _ _ _ Hsw). rewrite bool_decide_eq_false_2 by discriminate. reflexivity.
  - apply aux_written_frame.
Qed.

(** [auxdata_set] keeps the state well-formed when the pointer it is
    given with a destructor of the layer is live, of the kind the destructor
    frees, and held nowhere else; nothing is lost when every live cell is
    held or is the new pointer. *)
Theorem auxdata_set_preserves col p d :
  admissible h (aux_owner p d) ->
  host_wf (aux_written ctx c col p d h)
  /\ ((forall q, is_live h q = true ->
         (exists d', aux_owner p d = Some (q, d') /\ is_rust d' = true) \/
         (exists s d', held_at h s = Some (q, d') /\ is_rust d' = true)) ->
      no_leak (aux_written ctx c col p d h)).
Proof.
  intros Hadm. pose proof (aux_swapped col p d) as Hsw. split.
  - apply (swapped_wf _ _ h _ Hwf Hsw Hadm).
  - apply (swapped_no_leak _ _ h _ Hsw).
Qed.

End Slots.

(** ** The theorems at concrete inputs *)

Module AuxExamples.
Import ResultExamples.

(** The example host after a box of type 7 was stored in slot 0 with
    [pointer_destroy]. *)
Definition boxed_host : host := allocated (boxed 7 [1]) h0.
Definition h2 : host :=
  aux_written 1 empty_context 0 (next_addr h0) (Some (pointer_destroy_fn 7)) boxed_host.
Definition c2 : sqlite3_context :=
  mkContext None 0 (<[0 := (next_addr h0, Some (pointer_destroy_fn 7))]> ∅).

Lemma boxed_host_wf : host_wf boxed_host.
Proof. apply allocated_wf, example_host_wf. Qed.

Lemma boxed_admissible :
  admissible boxed_host (aux_owner (next_addr h0) (Some (pointer_destroy_fn 7))).
Proof.
  intros p d [= <- <-] _. split.
  - eexists. split; [apply lookup_insert_eq | reflexivity].
  - intros s d' Hs Hd'. exact (fresh_not_held h0 s d' (example_host_wf []) Hs Hd').
Qed.

Lemma h2_wf : host_wf h2.
Proof.
  apply (swapped_wf _ _ boxed_host _ boxed_host_wf
           (aux_swapped boxed_host 1 empty_context (example_host_context []) 0 _ _)
           boxed_admissible).
Qed.

Lemma h2_context : contexts h2 !! 1 = Some c2.
Proof. apply lookup_insert_eq. Qed.

Lemma auxdata_roundtrip_witness :
  exists h', auxdata_set 1 0 77 None h0 = Ret (tt, h')
    /\ auxdata_get 1 0 h' = Ret (77, h')
    /\ forall col', col' <> 0 -> auxdata_get 1 col' h' = Ret (aux_pointer empty_context col', h').
Proof.
  apply (auxdata_roundtrip h0 1 empty_context (example_host_wf []) (example_host_context [])).
Defined.

Lemma auxdata_get_unset_witness : auxdata_get 1 3 h0 = Ret (0, h0).
Proof.
  apply (auxdata_get_unset h0 1 empty_context (example_host_context [])). reflexivity.
Defined.

Lemma auxdata_set_releases_witness :
  exists h', auxdata_set 1 0 0 None h2 = Ret (tt, h')
    /\ heap h' !! next_addr h0 = Some Freed
    /\ held_at h' (ResultSlot 1) = held_at h2 (ResultSlot 1)
    /\ writes h' = writes h2.
Proof.
  apply (auxdata_set_releases h2 1 c2 h2_wf h2_context 0 0 None (next_addr h0)
           (pointer_destroy_fn 7)); reflexivity.
Defined.

Lemma auxdata_set_preserves_witness :
  host_wf h2
  /\ ((forall q, is_live boxed_host q = true ->
         (exists d', aux_owner (next_addr h0) (Some (pointer_destroy_fn 7)) = Some (q, d')
                     /\ is_rust d' = true) \/
         (exists s d', held_at boxed_host s = Some (q, d') /\ is_rust d' = true)) ->
      no_leak h2).
Proof.
  apply (auxdata_set_preserves boxed_host 1 empty_context boxed_host_wf
           (example_host_context []) 0 _ _ boxed_admissible).
Defined.

End AuxExamples.
