(* ===== verification/Coercion.v ===== *)
(** * Column affinity: storing a text under an affinity

    Theorems about [ColumnAffinity::result_text] (src/src/api.rs, lines
    420-453).  The method is specified by a pure function, [coerce], that says
    what is emitted for a text under an affinity in terms of the number the
    text denotes ([RustNum.int_value]) and not of the parsers; [perform] is
    the setter each emission stands for.  [result_text_coerce] shows that the
    method refines this specification; the other theorems are stated on the
    specification and on the host state the method leaves. *)

From Stdlib Require Import ZArith Lia List String Ascii.
From stdpp Require Import base tactics option list gmap.
From S2P Require Import Prelude RustStr RustNum Float64 Utf8 Errors Host ResultApi Affinity.

#[local] Open Scope Z_scope.
#[local] Open Scope rs_scope.

Import ColumnAffinity.

(** ** The specification *)

Inductive emission : Type :=
| EmitInt (i : Z)
| EmitInt64 (i : Z)
| EmitDouble (f : f64)
| EmitText (s : list Z).

(** The integer a text denotes, when it is one of 64 bits: as 32 bits when it
    fits. *)
Definition integer_tier (s : list Z) : option emission :=
  match int_value s with
  | Some v =>
    if in_i32 v then Some (EmitInt v)
    else if in_i64 v then Some (EmitInt64 v)
    else None
  | None => None
  end.

Definition real_tier (s : list Z) : option emission :=
  match parse_f64 s with
  | Ok f => Some (EmitDouble f)
  | Err _ => None
  end.

(** The first tier that applies. *)
Definition or_else (tier : option emission) (e : emission) : emission :=
  match tier with
  | Some x => x
  | None => e
  end.

Definition coerce (a : ColumnAffinity) (s : list Z) : emission :=
  match a with
  | Numeric => or_else (integer_tier s) (or_else (real_tier s) (EmitText s))
  | Integer => or_else (integer_tier s) (EmitText s)
  | Real => or_else (real_tier s) (EmitText s)
  | Blob | Text => EmitText s
  end.

(** The result the host is given for an emission. *)
Definition emitted (h : host) (e : emission) : sql_result :=
  match e with
  | EmitInt i => ResInt i
  | EmitInt64 i => ResInt64 i
  | EmitDouble f => ResDouble f
  | EmitText s => text_result h s
  end.

Definition perform (context : Z) (e : emission) : exec host (result unit Error) :=
  match e with
  | EmitInt i => result_int context i ;; ret (Ok tt)
  | EmitInt64 i => result_int64 context i ;; ret (Ok tt)
  | EmitDouble f => result_double context f ;; ret (Ok tt)
  | EmitText s =>
    let? _ := ResultApi.result_text context s in
    ret (Ok tt)
  end.

(** The state the call leaves when it succeeds. *)
Definition emit_state (ctx : Z) (c : sqlite3_context) (e : emission) (h : host) : host :=
  match e with
  | EmitText s => text_written ctx c s h
  | _ => plain_written ctx c (emitted h e) h
  end.

Definition is_text (e : emission) : bool :=
  match e with EmitText _ => true | _ => false end.

Definition is_double (e : emission) : bool :=
  match e with EmitDouble _ => true | _ => false end.

(** A text the text setter refuses. *)
Definition refused (s : list Z) : Prop := In 0 s \/ in_i32 (str_len s) = false.

(** ** The parsers against the specification *)

Lemma integer_tier_parse s :
  integer_tier s =
  match parse_i32 s with
  | Ok v => Some (EmitInt v)
  | Err _ =>
    match parse_i64 s with
    | Ok v => Some (EmitInt64 v)
    | Err _ => None
    end
  end.
Proof.
  unfold integer_tier. destruct (parse_i32 s) as [v|e] eqn:E32.
  - apply parse_i32_spec in E32 as [-> ->]. reflexivity.
  - destruct (parse_i64 s) as [v|e'] eqn:E64.
    + pose proof (parse_i64_not_i32 s v e E32 E64) as Hn.
      apply parse_i64_spec in E64 as [-> Hv]. rewrite Hn, Hv. reflexivity.
    + destruct (int_value s) as [v|] eqn:Ev; [|reflexivity].
      destruct (in_i32 v) eqn:H32.
      { assert (parse_i32 s = Ok v) by (apply parse_i32_spec; auto). congruence. }
      destruct (in_i64 v) eqn:H64; [|reflexivity].
      assert (parse_i64 s = Ok v) by (apply parse_i64_spec; auto). congruence.
Qed.

(** The method performs the emission [coerce] chooses. *)
Lemma result_text_perform (a : ColumnAffinity) (context : Z) (value : list Z) :
  ColumnAffinity.result_text a context value = perform context (coerce a value).
Proof.
  unfold ColumnAffinity.result_text, coerce, real_tier. rewrite integer_tier_parse.
  destruct a; try reflexivity;
    destruct (parse_i32 value); try reflexivity;
    destruct (parse_i64 value); try reflexivity;
    destruct (parse_f64 value); reflexivity.
Qed.

(** What [coerce] emits as text is the text it was given. *)
Lemma coerce_text a s t : coerce a s = EmitText t -> t = s.
Proof.
  unfold coerce, integer_tier, real_tier, or_else.
  destruct a; try congruence;
    destruct (int_value s) as [v|]; try destruct (in_i32 v); try destruct (in_i64 v);
    try destruct (parse_f64 s); congruence.
Qed.

Lemma is_text_coerce a s : is_text (coerce a s) = true -> coerce a s = EmitText s.
Proof.
  destruct (coerce a s) as [| | |t] eqn:E; try discriminate.
  intros _. rewrite (coerce_text a s t E). reflexivity.
Qed.

(** ** The host state after the call *)

Lemma coerce_int_value a s v :
  a = Numeric \/ a = Integer -> int_value s = Some v -> in_i64 v = true ->
  coerce a s = if in_i32 v then EmitInt v else EmitInt64 v.
Proof.
  intros Ha Hv H64. unfold coerce, integer_tier. rewrite Hv, H64.
  destruct Ha as [-> | ->]; destruct (in_i32 v); reflexivity.
Qed.

(** An integer of 64 bits printed in decimal is emitted as that integer. *)
Lemma coerce_itoa a i :
  a = Numeric \/ a = Integer -> in_i64 i = true ->
  coerce a (itoa i) = if in_i32 i then EmitInt i else EmitInt64 i.
Proof.
  intros Ha Hi. apply (coerce_int_value a _ i Ha); [|exact Hi].
  apply int_value_itoa. apply in_i64_spec in Hi. unfold i64_min, i64_max in Hi. lia.
Qed.

Section OnHost.
Context (h : host) (ctx : Z) (c : sqlite3_context).
Hypothesis (Hwf : host_wf h) (Hc : contexts h !! ctx = Some c).

Lemma perform_eq e :
  perform ctx e h =
  match e with
  | EmitText s =>
    match cstring_new s with
    | Err n => Ret (Err (NulByteInSource n), h)
    | Ok _ =>
      if in_i32 (str_len s) then Ret (Ok tt, emit_state ctx c e h)
      else Ret (Err length_overflow, allocated Freed h)
    end
  | _ => Ret (Ok tt, emit_state ctx c e h)
  end.
Proof.
  destruct e as [i|i|f|s]; unfold perform, bind.
  - unfold result_int, sqlite3ext_result_int. rewrite (set_result_wf h ctx c _ Hwf Hc). reflexivity.
  - unfold result_int64, sqlite3ext_result_int64. rewrite (set_result_wf h ctx c _ Hwf Hc). reflexivity.
  - unfold result_double, sqlite3ext_result_double. rewrite (set_result_wf h ctx c _ Hwf Hc). reflexivity.
  - rewrite (result_text_eq h ctx c s Hwf Hc).
    destruct (cstring_new s); [destruct (in_i32 (str_len s))|]; reflexivity.
Qed.

Lemma writes_emit_state e : writes (emit_state ctx c e h) = (ctx, emitted h e) :: writes h.
Proof.
  destruct e; unfold emit_state, text_written, plain_written, wrote;
    cbn [writes log_write stored set_contexts]; rewrite writes_released; reflexivity.
Qed.

Lemma emit_state_wf e : host_wf (emit_state ctx c e h).
Proof.
  destruct e; try (apply plain_written_wf; [exact Hwf | exact Hc | reflexivity]).
  apply text_written_wf; assumption.
Qed.

Lemma emit_state_no_leak e : no_leak h -> no_leak (emit_state ctx c e h).
Proof.
  intros Hl.
  destruct e; try (apply plain_written_no_leak; [exact Hwf | exact Hc | reflexivity | exact Hl]).
  apply text_written_no_leak; assumption.
Qed.

(** The state the call leaves is that of the emission [coerce] chooses. *)
Lemma result_text_emits a s :
  (is_text (coerce a s) = true -> ~ In 0 s /\ in_i32 (str_len s) = true) ->
  ColumnAffinity.result_text a ctx s h = Ret (Ok tt, emit_state ctx c (coerce a s) h).
Proof.
  intros Hok. rewrite result_text_perform, perform_eq.
  destruct (coerce a s) as [| | |t] eqn:E; try reflexivity.
  pose proof (coerce_text a s t E) as ->. destruct (Hok eq_refl) as [Hn Hl].
  rewrite (cstring_new_clean s Hn), Hl. reflexivity.
Qed.

(** C2: [ColumnAffinity::result_text] refines its specification: unless the
    emission is a text the text setter refuses, the call succeeds and the
    context holds what [coerce] chooses. *)
Theorem result_text_coerce a s :
  (is_text (coerce a s) = true -> ~ In 0 s /\ in_i32 (str_len s) = true) ->
  ColumnAffinity.result_text a ctx s h = Ret (Ok tt, emit_state ctx c (coerce a s) h).
Proof. apply result_text_emits. Qed.

(** C29: the text fallback can fail: when no number is emitted and the text
    has a nul byte or is longer than [i32::MAX], the call returns the error
    of the text setter, and the context keeps the result it had. *)
Theorem result_text_fails a s :
  is_text (coerce a s) = true -> refused s ->
  exists e h', ColumnAffinity.result_text a ctx s h = Ret (Err e, h')
    /\ writes h' = writes h
    /\ held_at h' (ResultSlot ctx) = held_at h (ResultSlot ctx)
    /\ (e = length_overflow \/ exists n, e = NulByteInSource n).
Proof.
  intros Ht%is_text_coerce Href. rewrite result_text_perform, perform_eq, Ht.
  destruct (cstring_new s) as [b|n] eqn:E.
  - apply cstring_new_Ok in E as [Hn _]. destruct Href as [Hin | ->]; [contradiction|].
    exists length_overflow, (allocated Freed h). auto.
  - exists (NulByteInSource n), h. eauto 6.
Qed.

(** C10: on a well-formed state the call is defined, whatever the text: it
    returns, leaves a well-formed state and loses no allocation, and it
    succeeds whenever the emission [coerce] chooses is a number. *)
Theorem result_text_sound a s :
  exists r h', ColumnAffinity.result_text a ctx s h = Ret (r, h')
    /\ host_wf h' /\ (no_leak h -> no_leak h')
    /\ (is_text (coerce a s) = false -> r = Ok tt).
Proof.
  rewrite result_text_perform, perform_eq.
  pose proof (emit_state_wf (coerce a s)) as Hw.
  pose proof (emit_state_no_leak (coerce a s)) as Hl.
  destruct (coerce a s) as [i|i|f|t];
    try (do 2 eexists; (split; [reflexivity|]); (split; [|split]); eauto; fail).
  destruct (cstring_new t); [destruct (in_i32 (str_len t))|];
    do 2 eexists; (split; [reflexivity|]); (split; [|split; [|discriminate]]); eauto.
  - apply allocated_wf, Hwf.
  - apply allocated_freed_no_leak.
Qed.

(** The call writes once when it succeeds, the emission [coerce] chooses,
    and not at all when it fails. *)
Theorem result_text_one_write a s r h' :
  ColumnAffinity.result_text a ctx s h = Ret (r, h') ->
  writes h' = if is_ok r then (ctx, emitted h (coerce a s)) :: writes h else writes h.
Proof.
  rewrite result_text_perform, perform_eq.
  pose proof (writes_emit_state (coerce a s)) as Hw.
  destruct (coerce a s); try (intros [= <- <-]; exact Hw).
  destruct (cstring_new s0); [destruct (in_i32 (str_len s0))|]; intros [= <- <-];
    [exact Hw | reflexivity | reflexivity].
Qed.

(** An integer of 64 bits printed in decimal and written under the
    Numeric or the Integer affinity is stored as that integer, as 32 bits when
    it fits: to print and then to coerce gives the integer back. *)
Theorem result_text_itoa a i :
  a = Numeric \/ a = Integer -> in_i64 i = true ->
  ColumnAffinity.result_text a ctx (itoa i) h =
  Ret (Ok tt, emit_state ctx c (if in_i32 i then EmitInt i else EmitInt64 i) h).
Proof.
  intros Ha Hi. rewrite result_text_perform, perform_eq, (coerce_itoa a i Ha Hi).
  destruct (in_i32 i); reflexivity.
Qed.

End OnHost.

(** ** The tiers *)

(** Under the Numeric and the Integer affinity a text that denotes an
    integer of 64 bits is emitted as that integer: as 32 bits when it fits,
    as 64 bits otherwise. *)
Theorem coerce_integer a s v :
  a = Numeric \/ a = Integer -> int_value s = Some v -> in_i64 v = true ->
  coerce a s = if in_i32 v then EmitInt v else EmitInt64 v.
Proof. apply coerce_int_value. Qed.


(** The Integer affinity never emits a double. *)
Theorem coerce_integer_no_double s : is_double (coerce Integer s) = false.
Proof.
  unfold coerce, integer_tier. destruct (int_value s) as [v|]; [|reflexivity].
  destruct (in_i32 v); [reflexivity|]. destruct (in_i64 v); reflexivity.
Qed.

Lemma big_integer_bits v : in_i64 v = false -> 2 ^ 63 <= Z.abs v /\ 63 <= Z.log2 (Z.abs v).
Proof.
  intros H. assert (Ha : 2 ^ 63 <= Z.abs v)
    by (unfold in_i64, i64_min, i64_max in H; lia).
  split; [exact Ha|]. apply Z.log2_le_pow2; lia.
Qed.

(** An integer beyond 64 bits stays a text under the Integer affinity,
    and becomes a double under the Numeric one; the double is the integer
    only when the bits of the integer below its 53 leading ones are zero,
    and never when the integer is odd. *)
Theorem coerce_big_integer s v :
  int_value s = Some v -> in_i64 v = false ->
  coerce Integer s = EmitText s /\
  exists negative, coerce Numeric s = EmitDouble (F64Dec negative (Z.abs v) 0)
    /\ (Z.odd v = true -> exact (F64Dec negative (Z.abs v) 0) = false)
    /\ (Z.abs v < 2 ^ 1024 ->
        (exact (F64Dec negative (Z.abs v) 0) = true
         <-> Z.abs v mod 2 ^ (Z.log2 (Z.abs v) - 52) = 0)).
Proof.
  intros Hv H64. unfold coerce, integer_tier, real_tier. rewrite Hv, H64.
  assert (H32 : in_i32 v = false).
  { destruct (in_i32 v) eqn:E; [|reflexivity]. rewrite (in_i32_in_i64 v E) in H64. discriminate. }
  rewrite H32. split; [reflexivity|].
  destruct (int_value_parse_f64_abs s v Hv) as (negative & ->). exists negative.
  destruct (big_integer_bits v H64) as [Ha Hl]. rewrite exact_integer.
  split; [reflexivity|]. split.
  - intros Hodd. apply odd_integer_inexact; [lia|].
    destruct (Z.abs_eq_or_opp v) as [-> | ->]; [|rewrite Z.odd_opp]; exact Hodd.
  - intros Hlt. rewrite (integer_exact_iff negative (Z.abs v)) by lia.
    rewrite Z.max_r by lia. reflexivity.
Qed.

(** A text [parse::<f64>] reads as anything but an integer is stored as
    the double parsed, under the Real and the Numeric affinity. *)
Lemma coerce_double a s f :
  a = Real \/ a = Numeric -> parse_f64 s = Ok f ->
  (forall negative m, f <> F64Dec negative m 0) ->
  coerce a s = EmitDouble f.
Proof.
  intros Ha Hp Hf.
  assert (Hi : integer_tier s = None).
  { unfold integer_tier. destruct (int_value s) as [v|] eqn:Hv; [|reflexivity].
    destruct (int_value_parse_f64 s v Hv) as (negative & m & Hp' & _).
    rewrite Hp in Hp'. injection Hp' as ->. destruct (Hf negative m eq_refl). }
  destruct Ha as [-> | ->]; unfold coerce, real_tier; rewrite ?Hi, Hp; reflexivity.
Qed.

Lemma coerce_nan a s f :
  a = Real \/ a = Numeric -> parse_f64 s = Ok f -> is_nan f = true ->
  coerce a s = EmitDouble f.
Proof.
  intros Ha Hp Hf. apply (coerce_double a s f Ha Hp). intros negative m ->. discriminate.
Qed.

Section Stored.
Context (h : host) (ctx : Z) (c : sqlite3_context).
Hypothesis (Hwf : host_wf h) (Hc : contexts h !! ctx = Some c).

(** C27: a text with digits after the point is written with [result_double],
    under the Real or the Numeric affinity, and the double the context then
    holds is another number than the one the text denotes, unless its digits
    are a multiple of five: '3.14' is not stored as 3.14. *)
Theorem result_text_decimal_inexact a s negative m e :
  a = Real \/ a = Numeric ->
  parse_f64 s = Ok (F64Dec negative m e) -> e < 0 -> m mod 5 <> 0 ->
  ColumnAffinity.result_text a ctx s h
  = Ret (Ok tt, emit_state ctx c (EmitDouble (F64Dec negative m e)) h)
  /\ exact (F64Dec negative m e) = false.
Proof.
  intros Ha Hp He Hm. split; [|exact (decimal_inexact negative m e He Hm)].
  rewrite result_text_perform, (perform_eq h ctx c Hwf Hc).
  rewrite (coerce_double a s _ Ha Hp); [reflexivity|]. intros n k [= _ _ ->]. lia.
Qed.

(** C40: a text that denotes an integer beyond 64 bits is stored as it is,
    with the text setter, under the Integer affinity, and with
    [result_double] under the Numeric one; the double the context then holds
    is the integer only when the bits of the integer below its 53 leading
    ones are zero, and never when the integer is odd. *)
Theorem result_text_big_integer s v :
  int_value s = Some v -> in_i64 v = false -> in_i32 (str_len s) = true ->
  ColumnAffinity.result_text Integer ctx s h = Ret (Ok tt, emit_state ctx c (EmitText s) h)
  /\ exists negative,
       ColumnAffinity.result_text Numeric ctx s h
       = Ret (Ok tt, emit_state ctx c (EmitDouble (F64Dec negative (Z.abs v) 0)) h)
       /\ (Z.odd v = true -> exact (F64Dec negative (Z.abs v) 0) = false)
       /\ (Z.abs v < 2 ^ 1024 ->
           (exact (F64Dec negative (Z.abs v) 0) = true
            <-> Z.abs v mod 2 ^ (Z.log2 (Z.abs v) - 52) = 0)).
Proof.
  intros Hv H64 Hl. destruct (coerce_big_integer s v Hv H64) as (Hi & negative & Hn & He).
  pose proof (int_value_clean s v Hv) as Hc0. split.
  - rewrite (result_text_emits h ctx c Hwf Hc Integer s) by auto. rewrite Hi. reflexivity.
  - exists negative. split; [|exact He].
    rewrite (result_text_emits h ctx c Hwf Hc Numeric s) by auto. rewrite Hn. reflexivity.
Qed.

End Stored.

(** Parsing is strict: an integer is emitted only for a text that is a
    sign, if any, and digits, and it is the integer the text denotes. *)
Theorem coerce_strict a s v :
  coerce a s = EmitInt v \/ coerce a s = EmitInt64 v ->
  int_value s = Some v
  /\ unsigned s <> [] /\ Forall (fun c => is_ascii_digit c = true) (unsigned s).
Proof.
  intros He.
  assert (Hv : int_value s = Some v).
  { revert He. unfold coerce, integer_tier, real_tier, or_else.
    destruct a; destruct (int_value s) as [w|]; try destruct (in_i32 w);
      try destruct (in_i64 w); try destruct (parse_f64 s); intros [H|H]; congruence. }
  split; [exact Hv | exact (int_value_strict s v Hv)].
Qed.

(** The Real affinity emits a text that denotes an integer as a double of
    the same value. *)
Theorem coerce_real_integer s v :
  int_value s = Some v ->
  exists negative m, coerce Real s = EmitDouble (F64Dec negative m 0)
                     /\ v = (if negative then - m else m).
Proof.
  intros Hv. unfold coerce, real_tier.
  destruct (int_value_parse_f64 s v Hv) as (negative & m & -> & Hm). eauto.
Qed.

(** The Text and the Blob affinity emit the text as it is. *)
Theorem coerce_verbatim s : coerce Text s = EmitText s /\ coerce Blob s = EmitText s.
Proof. split; reflexivity. Qed.

(** ** The theorems at concrete inputs *)

Module CoercionExamples.

Definition h0 : host := example_host [].
Definition nul_text : list Z := [97; 0; 98].

(** The examples of the specification, and the texts Rust reads as a double
    that SQLite does not: an exponent, "inf", "nan". *)
Example coerce_examples :
  coerce Numeric (lit "42") = EmitInt 42
  /\ coerce Numeric (lit "9999999999") = EmitInt64 9999999999
  /\ coerce Numeric (lit "3.14") = EmitDouble (F64Dec false 314 (-2))
  /\ coerce Numeric (lit "abc") = EmitText (lit "abc")
  /\ coerce Numeric (lit " 42") = EmitText (lit " 42")
  /\ coerce Numeric (lit "+7") = EmitInt 7
  /\ coerce Numeric (lit "-2147483649") = EmitInt64 (-2147483649)
  /\ coerce Numeric (lit "9223372036854775808") = EmitDouble (F64Dec false 9223372036854775808 0)
  /\ coerce Integer (lit "9223372036854775808") = EmitText (lit "9223372036854775808")
  /\ coerce Integer (lit "3.14") = EmitText (lit "3.14")
  /\ coerce Real (lit "42") = EmitDouble (F64Dec false 42 0)
  /\ coerce Numeric (lit "1e3") = EmitDouble (F64Dec false 1 3)
  /\ coerce Numeric (lit "nan") = EmitDouble (F64Nan false)
  /\ coerce Real (lit "-inf") = EmitDouble (F64Inf true)
  /\ coerce Text (lit "42") = EmitText (lit "42").
Proof. vm_compute. repeat split. Qed.

(** The method on the example host. *)
Example result_text_examples :
  ColumnAffinity.result_text Numeric 1 (lit "42") h0 =
    Ret (Ok tt, plain_written 1 empty_context (ResInt 42) h0)
  /\ ColumnAffinity.result_text Integer 1 (lit "x") h0 =
    Ret (Ok tt, text_written 1 empty_context (lit "x") h0)
  /\ ColumnAffinity.result_text Text 1 nul_text h0 =
    Ret (Err (NulByteInSource (mkNulError 1 nul_text)), h0).
Proof. vm_compute. repeat split. Qed.

Lemma result_text_coerce_witness :
  ColumnAffinity.result_text Numeric 1 (lit "9999999999") h0 =
  Ret (Ok tt, emit_state 1 empty_context (coerce Numeric (lit "9999999999")) h0).
Proof.
  apply (result_text_coerce h0 1 empty_context (example_host_wf []) (example_host_context [])).
  vm_compute. discriminate.
Defined.

Lemma result_text_fails_witness :
  exists e h', ColumnAffinity.result_text Text 1 nul_text h0 = Ret (Err e, h')
    /\ writes h' = writes h0
    /\ held_at h' (ResultSlot 1) = held_at h0 (ResultSlot 1)
    /\ (e = length_overflow \/ exists n, e = NulByteInSource n).
Proof.
  apply (result_text_fails h0 1 empty_context (example_host_wf []) (example_host_context []));
    [reflexivity | left; right; left; reflexivity].
Defined.

Lemma result_text_sound_witness :
  exists r h', ColumnAffinity.result_text Real 1 (lit "1.5") h0 = Ret (r, h')
    /\ host_wf h' /\ (no_leak h0 -> no_leak h')
    /\ (is_text (coerce Real (lit "1.5")) = false -> r = Ok tt).
Proof.
  apply (result_text_sound h0 1 empty_context (example_host_wf []) (example_host_context [])).
Defined.

Lemma result_text_one_write_witness :
  writes (plain_written 1 empty_context (ResInt 42) h0) =
  if is_ok (Ok tt : result unit Error)
  then (1, emitted h0 (coerce Numeric (lit "42"))) :: writes h0 else writes h0.
Proof.
  apply (result_text_one_write h0 1 empty_context (example_host_wf [])
           (example_host_context []) Numeric (lit "42")).
  vm_compute. reflexivity.
Defined.

Lemma coerce_integer_witness :
  coerce Integer (lit "-12") = if in_i32 (-12) then EmitInt (-12) else EmitInt64 (-12).
Proof. apply coerce_integer; [right; reflexivity | reflexivity | reflexivity]. Defined.

Lemma result_text_itoa_witness :
  ColumnAffinity.result_text Numeric 1 (itoa 4294967296) h0 =
  Ret (Ok tt, emit_state 1 empty_context
                (if in_i32 4294967296 then EmitInt 4294967296 else EmitInt64 4294967296) h0).
Proof.
  apply (result_text_itoa h0 1 empty_context (example_host_wf _) (example_host_context _));
    [left; reflexivity | reflexivity].
Defined.

Lemma coerce_big_integer_witness :
  coerce Integer (lit "18446744073709551617") = EmitText (lit "18446744073709551617") /\
  exists negative,
    coerce Numeric (lit "18446744073709551617")
    = EmitDouble (F64Dec negative (Z.abs 18446744073709551617) 0)
    /\ (Z.odd 18446744073709551617 = true
        -> exact (F64Dec negative (Z.abs 18446744073709551617) 0) = false)
    /\ (Z.abs 18446744073709551617 < 2 ^ 1024 ->
        (exact (F64Dec negative (Z.abs 18446744073709551617) 0) = true
         <-> Z.abs 18446744073709551617 mod 2 ^ (Z.log2 (Z.abs 18446744073709551617) - 52) = 0)).
Proof. apply coerce_big_integer; reflexivity. Defined.

Lemma result_text_big_integer_witness :
  ColumnAffinity.result_text Integer 1 (lit "18446744073709551617") h0
  = Ret (Ok tt, emit_state 1 empty_context (EmitText (lit "18446744073709551617")) h0)
  /\ exists negative,
       ColumnAffinity.result_text Numeric 1 (lit "18446744073709551617") h0
       = Ret (Ok tt, emit_state 1 empty_context
                       (EmitDouble (F64Dec negative (Z.abs 18446744073709551617) 0)) h0)
       /\ (Z.odd 18446744073709551617 = true
           -> exact (F64Dec negative (Z.abs 18446744073709551617) 0) = false)
       /\ (Z.abs 18446744073709551617 < 2 ^ 1024 ->
           (exact (F64Dec negative (Z.abs 18446744073709551617) 0) = true
            <-> Z.abs 18446744073709551617
                mod 2 ^ (Z.log2 (Z.abs 18446744073709551617) - 52) = 0)).
Proof.
  apply (result_text_big_integer h0 1 empty_context (example_host_wf [])
           (example_host_context [])); reflexivity.
Defined.

Lemma result_text_decimal_inexact_witness :
  ColumnAffinity.result_text Numeric 1 (lit "3.14") h0
  = Ret (Ok tt, emit_state 1 empty_context (EmitDouble (F64Dec false 314 (-2))) h0)
  /\ exact (F64Dec false 314 (-2)) = false.
Proof.
  apply (result_text_decimal_inexact h0 1 empty_context (example_host_wf [])
           (example_host_context []));
    [right; reflexivity | reflexivity | reflexivity | discriminate].
Defined.

Lemma coerce_strict_witness :
  int_value (lit "+7") = Some 7
  /\ unsigned (lit "+7") <> []
  /\ Forall (fun c => is_ascii_digit c = true) (unsigned (lit "+7")).
Proof. apply (coerce_strict Numeric). left. reflexivity. Defined.

Lemma coerce_real_integer_witness :
  exists negative m, coerce Real (lit "-5") = EmitDouble (F64Dec negative m 0)
                     /\ -5 = (if negative then - m else m).
Proof. apply coerce_real_integer. reflexivity. Defined.

End CoercionExamples.
