(* ===== verification/Session.v ===== *)
(** * A function body as a sequence of calls

    A function of an extension calls the functions of [api.rs] that change
    the state of the host on its context, any number of times and in any
    order: the layer cannot prevent a second write.  This file models such a
    body as a list of calls and shows that every sequence of calls is safe.
    ([Body] adds the reads and the results the calls return.)

    The abstract machine [moved] has one rule per shape of state change a
    call can make: a result stored, with or without a pointer the host will
    free; a subtype set; a slot of auxiliary data set; allocations made that
    are not live when the call returns ([scratch]).  A step is indexed by the
    slot of auxiliary data it sets and by whether it loses an allocation.
    [run_moved] shows that
    every call of the layer takes a step of that machine; the invariants are
    proved on the machine by case analysis on its rules and carried along a
    body by induction on [steps]. *)

From Stdlib Require Import ZArith Lia List String Ascii.
From stdpp Require Import base tactics option list gmap.
From S2P Require Import Prelude RustStr RustNum Utf8 Errors Host Mprintf ResultApi Affinity AuxData Coercion.

#[local] Open Scope Z_scope.
#[local] Open Scope rs_scope.

(** ** Calls *)

Inductive call : Type :=
| CallText (text : list Z)
| CallInt (i : Z)
| CallInt64 (i : Z)
| CallDouble (f : f64)
| CallBlob (blob : list Z)
| CallNull
| CallError (text : list Z)
| CallErrorCode (code : Z)
| CallBool (value : bool)
| CallSubtype (subtype : Z)
| CallPointer (T : Z) (name object : list Z)
| CallAffinity (a : ColumnAffinity.ColumnAffinity) (value : list Z)
| CallAuxSet (col p : Z) (d : option Z)
| CallMprintf (base : list Z).

(** The destructor a caller can pass to [auxdata_set]: a function of its
    own, since those of the layer are private to [api.rs]. *)
Definition foreign (d : option Z) : option destructor := option_map extern_fn d.

(** The call on context [ctx]; a [Result] is dropped, as by [let _ = ...]. *)
Definition run (ctx : Z) (k : call) : exec host unit :=
  match k with
  | CallText text => result_text ctx text ;; ret tt
  | CallInt i => result_int ctx i
  | CallInt64 i => result_int64 ctx i
  | CallDouble f => result_double ctx f
  | CallBlob blob => result_blob ctx blob
  | CallNull => result_null ctx
  | CallError text => result_error ctx text ;; ret tt
  | CallErrorCode code => result_error_code ctx code
  | CallBool value => result_bool ctx value
  | CallSubtype subtype => result_subtype ctx subtype
  | CallPointer T name object => result_pointer T ctx name object
  | CallAffinity a value => ColumnAffinity.result_text a ctx value ;; ret tt
  | CallAuxSet col p d => auxdata_set ctx col p (foreign d)
  | CallMprintf base => mprintf base ;; ret tt
  end.

(** A format [sqlite3_mprintf] can print without an argument; a string with
    a nul byte never reaches it. *)
Definition printable (base : list Z) : bool :=
  negb (is_ok (cstring_new base)) || bool_decide (is_Some (format_no_args base)).

(** What the caller owes: a blob of at most [i32::MAX] bytes, a format
    without a directive that reads an argument. *)
Definition safe (k : call) : bool :=
  match k with
  | CallBlob blob => in_i32 (str_len blob)
  | CallMprintf base => printable base
  | _ => true
  end.

(** [result_error] on a text it accepts is the one call that loses its
    buffer. *)
Definition leaks (k : call) : bool :=
  match k with
  | CallError text => is_ok (cstring_new text)
  | _ => false
  end.

(** The calls of a body that lose an allocation. *)
Fixpoint leak_count (ks : list call) : nat :=
  match ks with
  | [] => 0
  | k :: ks => (if leaks k then 1 else 0) + leak_count ks
  end.

(** The slot of auxiliary data a call sets. *)
Definition column (k : call) : option Z :=
  match k with
  | CallAuxSet col _ _ => Some col
  | _ => None
  end.

(** The pointer slot [col] holds after the calls [ks], when it held [p0]:
    the one the last [auxdata_set] on that slot stored. *)
Fixpoint latest_aux (col : Z) (ks : list call) (p0 : Z) : Z :=
  match ks with
  | [] => p0
  | CallAuxSet col' p _ :: ks => latest_aux col ks (if bool_decide (col' = col) then p else p0)
  | _ :: ks => latest_aux col ks p0
  end.

(** A body: calls run one after the other. *)
Inductive steps (ctx : Z) : host -> list call -> host -> Prop :=
| steps_nil h : steps ctx h [] h
| steps_cons h k h1 ks h2 :
    run ctx k h = Ret (tt, h1) -> steps ctx h1 ks h2 -> steps ctx h (k :: ks) h2.

(** ** The abstract machine *)

(** What comes with a result: nothing, or a fresh allocation, owned by the
    host or by no one. *)
Inductive cargo : Type :=
| NoCargo
| Owned (a : allocation) (d : destructor)
| Lost (a : allocation).

Definition loaded (g : cargo) (h : host) : host :=
  match g with
  | NoCargo => h
  | Owned a _ | Lost a => allocated (Live a) h
  end.

Definition owner_of (g : cargo) (h : host) : option (Z * destructor) :=
  match g with
  | Owned _ d => Some (next_addr h, d)
  | _ => None
  end.

Definition sound_cargo (g : cargo) : bool :=
  match g with
  | Owned a d => pairs_with d a
  | _ => true
  end.

Definition is_lost (g : cargo) : bool :=
  match g with Lost _ => true | _ => false end.

(** A cell that is no live allocation of Rust. *)
Definition is_dead (a : cell) : bool :=
  match a with Live _ => false | _ => true end.

(** The state after allocations, the latest first. *)
Definition scratch (cells : list cell) (h : host) : host := foldr allocated h cells.

(** [moved ctx t lossy h h']: one call on [ctx] takes [h] to [h']; [t] is
    the slot of auxiliary data it sets, if any; [lossy] when an allocation
    is lost on the way. *)
Inductive moved (ctx : Z) : option Z -> bool -> host -> host -> Prop :=
| moved_write h c r g :
    contexts h !! ctx = Some c -> result_owner r = owner_of g h ->
    sound_cargo g = true ->
    moved ctx None (is_lost g) h (wrote ctx c r (released ctx c (loaded g h)))
| moved_subtype h c subtype :
    contexts h !! ctx = Some c -> moved ctx None false h (subtyped ctx c subtype h)
| moved_aux h c col p d :
    contexts h !! ctx = Some c ->
    moved ctx (Some col) false h (aux_written ctx c col p (foreign d) h)
| moved_scratch h cells :
    forallb is_dead cells = true -> moved ctx None false h (scratch cells h).

(** A live allocation that no place of the host holds with a destructor of
    the layer. *)
Definition lost (h : host) (p : Z) : Prop :=
  is_live h p = true /\ forall s d, held_at h s = Some (p, d) -> is_rust d = false.

(** The result of a context is the last one written to it. *)
Definition latest_write (ctx : Z) (ws : list (Z * sql_result)) : option sql_result :=
  option_map snd (find (fun w => fst w =? ctx) ws).

Definition latest (ctx : Z) (h : host) : Prop :=
  forall c, contexts h !! ctx = Some c -> ctx_result c = latest_write ctx (writes h).

(** [p] is held by the host with a destructor of the layer. *)
Definition held_rust (h : host) (p : Z) : Prop :=
  exists s d, held_at h s = Some (p, d) /\ is_rust d = true.

(** Every live allocation is held by the host or is one of [ps]. *)
Definition accounted (ps : list Z) (h : host) : Prop :=
  forall p, is_live h p = true -> held_rust h p \/ In p ps.

(** [ps] are the lost allocations of [h], each once. *)
Definition ledger (ps : list Z) (h : host) : Prop :=
  NoDup ps /\ accounted ps h /\ Forall (lost h) ps.

(** The invariant of a body: the state is well-formed and the context is
    one of the host. *)
Definition good (ctx : Z) (h : host) : Prop :=
  host_wf h /\ is_Some (contexts h !! ctx).

(** Since [h0], no place but the result of [ctx] has been given a pointer
    with a destructor of the layer. *)
Definition kept (ctx : Z) (h0 h : host) : Prop :=
  forall s p d, s <> ResultSlot ctx -> held_at h s = Some (p, d) -> is_rust d = true ->
    held_at h0 s = Some (p, d).

(** ** Lemmas: the states of the machine *)

(** A call that is refused changes nothing; one that drops the buffer it made
    leaves a freed cell. *)
Lemma moved_refused ctx h : moved ctx None false h h.
Proof. exact (moved_scratch ctx h [] eq_refl). Qed.

Lemma moved_dropped ctx h : moved ctx None false h (allocated Freed h).
Proof. exact (moved_scratch ctx h [Freed] eq_refl). Qed.

Lemma moved_printed ctx h text : moved ctx None false h (printed text h).
Proof. exact (moved_scratch ctx h [HostBuffer (text ++ [0]); Freed] eq_refl). Qed.

Lemma scratch_frame cells h :
  contexts (scratch cells h) = contexts h /\ writes (scratch cells h) = writes h
  /\ values (scratch cells h) = values h.
Proof. induction cells as [|a cells IH]; [auto | exact IH]. Qed.

Lemma held_at_scratch cells h s : held_at (scratch cells h) s = held_at h s.
Proof. unfold held_at. rewrite (proj1 (scratch_frame cells h)). reflexivity. Qed.

Lemma next_addr_scratch cells h :
  next_addr (scratch cells h) = next_addr h + Z.of_nat (length cells).
Proof.
  induction cells as [|a cells IH]; cbn [scratch foldr length]; [lia|].
  change (next_addr (allocated a ?x)) with (next_addr x + 1). fold (scratch cells h). lia.
Qed.

Lemma heap_scratch cells h p :
  p < next_addr h -> heap (scratch cells h) !! p = heap h !! p.
Proof.
  intros Hp. induction cells as [|a cells IH]; [reflexivity|]. cbn [scratch foldr].
  fold (scratch cells h). rewrite allocated_lookup, next_addr_scratch.
  rewrite bool_decide_eq_false_2 by lia. exact IH.
Qed.

Lemma scratch_wf cells h : host_wf h -> host_wf (scratch cells h).
Proof. intros Hwf. induction cells; [exact Hwf | apply allocated_wf; assumption]. Qed.

Lemma loaded_wf g h : host_wf h -> host_wf (loaded g h).
Proof. destruct g; cbn [loaded]; auto using allocated_wf. Qed.

Lemma held_at_subtyped ctx c subtype h s :
  contexts h !! ctx = Some c -> held_at (subtyped ctx c subtype h) s = held_at h s.
Proof.
  intros Hc. unfold held_at, subtyped. cbn [contexts set_contexts].
  destruct (decide (slot_context s = ctx)) as [<-|Hne].
  - rewrite lookup_insert_eq, Hc. destruct s; reflexivity.
  - rewrite lookup_insert_ne by congruence. reflexivity.
Qed.

Lemma subtyped_wf ctx c subtype h :
  host_wf h -> contexts h !! ctx = Some c -> host_wf (subtyped ctx c subtype h).
Proof.
  intros [H0 H1 H2 H3] Hc. split; [exact H0 | exact H1 | |].
  - intros s p d. rewrite (held_at_subtyped ctx c subtype h s Hc). apply H2.
  - intros s1 s2 p d1 d2. rewrite !(held_at_subtyped ctx c subtype h _ Hc). apply H3.
Qed.

(** What a result with its cargo owns is admissible. *)
Lemma cargo_admissible g r h :
  host_wf h -> result_owner r = owner_of g h -> sound_cargo g = true ->
  admissible (loaded g h) (option_owner (Some r)).
Proof.
  intros Hwf Hr Hg p d. cbn [option_owner]. rewrite Hr.
  destruct g as [|a d0|a]; try discriminate. cbn [owner_of sound_cargo loaded] in *.
  intros [= <- <-] _. split.
  - exists a. rewrite allocated_lookup, bool_decide_eq_true_2 by reflexivity. auto.
  - intros s d' Hs Hd'. exact (fresh_not_held h s d' Hwf Hs Hd').
Qed.

(** A destructor of the caller is no claim on the heap of Rust. *)
Lemma foreign_owner p d q d' : aux_owner p (foreign d) = Some (q, d') -> is_rust d' = false.
Proof. destruct d; cbn; [intros [= _ <-]; reflexivity | discriminate]. Qed.

Lemma foreign_admissible h p d : admissible h (aux_owner p (foreign d)).
Proof. intros q d' Ho Hd. rewrite (foreign_owner p d q d' Ho) in Hd. discriminate. Qed.

Lemma latest_write_cons ctx r ws : latest_write ctx ((ctx, r) :: ws) = Some r.
Proof. unfold latest_write. cbn [find fst]. rewrite Z.eqb_refl. reflexivity. Qed.

Lemma not_rust d : is_rust d <> true -> is_rust d = false.
Proof. destruct (is_rust d); congruence. Qed.

(** A lost allocation is below the cursor of the allocator. *)
Lemma lost_below h p : host_wf h -> lost h p -> p < next_addr h.
Proof.
  intros Hwf [[a Ha]%is_live_spec _]. apply (wf_fresh h Hwf). rewrite Ha. eauto.
Qed.

(** Allocations leave what is lost as it is. *)
Lemma scratch_lost cells h p : host_wf h -> lost h p -> lost (scratch cells h) p.
Proof.
  intros Hwf Hl. pose proof (lost_below h p Hwf Hl) as Hp. destruct Hl as [Hlive Hfree].
  split; [|intros s d; rewrite held_at_scratch; apply Hfree].
  unfold is_live in *. rewrite (heap_scratch cells h p Hp). exact Hlive.
Qed.

(** A swap of a slot neither frees nor adopts what is lost, when the new
    pointer is another one. *)
Lemma swapped_lost s0 o h h' p :
  swapped s0 o h h' -> (forall d, o = Some (p, d) -> is_rust d = false) ->
  lost h p -> lost h' p.
Proof.
  intros Hsw Ho [[a Ha]%is_live_spec Hfree]. split.
  - apply is_live_spec. exists a. rewrite (sw_heap _ _ _ _ Hsw).
    destruct (held_at h s0) as [[p0 d0]|] eqn:E; [|exact Ha].
    destruct (is_rust d0) eqn:Hd0; [|exact Ha]. cbn [andb].
    case_bool_decide as Hq; [|exact Ha]. subst p0. rewrite (Hfree _ _ E) in Hd0. discriminate.
  - intros s d. rewrite (sw_held _ _ _ _ Hsw). case_bool_decide; [apply Ho | apply Hfree].
Qed.

Lemma accounted_nil h : accounted [] h <-> no_leak h.
Proof.
  split; intros Ha p Hp.
  - destruct (Ha p Hp) as [Hh|[]]. exact Hh.
  - left. exact (Ha p Hp).
Qed.

Lemma scratch_live cells h q :
  forallb is_dead cells = true -> is_live (scratch cells h) q = true -> is_live h q = true.
Proof.
  intros Hd. induction cells as [|a cells IH]; [exact id|].
  cbn [forallb] in Hd. apply andb_true_iff in Hd as [Ha Hd].
  cbn [scratch foldr]. fold (scratch cells h). unfold is_live at 1.
  rewrite allocated_lookup. case_bool_decide; [destruct a; discriminate | exact (IH Hd)].
Qed.

(** After a swap every live cell is accounted for when before it every one
    was held, came with the new owner, or was on the list. *)
Lemma swapped_accounted s0 o h h' ps :
  swapped s0 o h h' ->
  (forall q, is_live h q = true ->
     (exists d, o = Some (q, d) /\ is_rust d = true) \/ held_rust h q \/ In q ps) ->
  accounted ps h'.
Proof.
  intros Hsw Hlive q [a Ha]%is_live_spec.
  pose proof (swapped_live s0 o h h' Hsw q a Ha) as Hqh.
  destruct (Hlive q (proj2 (is_live_spec h q) (ex_intro _ a Hqh)))
    as [(d & Ho & Hd)|[(s & d & Hs & Hd)|Hin]]; [left|left|right; exact Hin].
  - exists s0, d. rewrite (sw_held _ _ _ _ Hsw), bool_decide_eq_true_2 by reflexivity. auto.
  - destruct (decide (s = s0)) as [->|Hne].
    + exfalso. rewrite (sw_heap _ _ _ _ Hsw), Hs, Hd in Ha. cbn [andb] in Ha.
      rewrite bool_decide_eq_true_2 in Ha by reflexivity. discriminate.
    + exists s, d. rewrite (sw_held _ _ _ _ Hsw), bool_decide_eq_false_2 by exact Hne. auto.
Qed.

(** What is live once the cargo is loaded: the cargo, and what was live. *)
Lemma loaded_live g h q :
  is_live (loaded g h) q = true ->
  (g <> NoCargo /\ q = next_addr h) \/ is_live h q = true.
Proof.
  destruct g as [|a d|a]; cbn [loaded]; [auto| |]; unfold is_live at 1;
    rewrite allocated_lookup; (case_bool_decide as E; intros Hq;
      [left; split; [discriminate | exact E] | right; exact Hq]).
Qed.

Lemma sound_cargo_rust a d : pairs_with d a = true -> is_rust d = true.
Proof. destruct d, a; cbn; congruence. Qed.

(** ** The machine keeps the invariants *)

Section Machine.
Context (ctx : Z) (h h' : host).

(** Every step of the machine keeps the state well-formed and the
    context in place. *)
Lemma moved_good {t} lossy : good ctx h -> moved ctx t lossy h h' -> good ctx h'.
Proof.
  intros [Hwf Hctx] Hm. destruct Hm as [h c r g Hc Hr Hg|h c subtype Hc|h c col p d Hc|h cells _].
  - split; [|rewrite contexts_wrote; eauto].
    apply wrote_wf; [apply loaded_wf, Hwf | destruct g; exact Hc |].
    apply (cargo_admissible g r h Hwf Hr Hg).
  - split; [apply subtyped_wf; assumption|].
    unfold subtyped. cbn [contexts set_contexts]. rewrite lookup_insert_eq. eauto.
  - split; [|rewrite contexts_aux_written; eauto].
    exact (swapped_wf _ _ h _ Hwf (aux_swapped h ctx c Hc col p _) (foreign_admissible h p d)).
  - split; [apply scratch_wf, Hwf | rewrite (proj1 (scratch_frame cells h)); exact Hctx].
Qed.

(** A step of the machine adds the allocation it loses to the list, and
    nothing else. *)
Lemma moved_accounted {t} ps lossy :
  host_wf h -> moved ctx t lossy h h' -> accounted ps h ->
  accounted (if lossy then next_addr h :: ps else ps) h'.
Proof.
  intros Hwf Hm Ha. destruct Hm as [h c r g Hc Hr Hg|h c subtype Hc|h c col p d Hc|h cells Hd].
  - assert (Hc' : contexts (loaded g h) !! ctx = Some c) by (destruct g; exact Hc).
    change (accounted ?l (wrote ctx c r ?x)) with (accounted l (stored ctx c (Some r) x)).
    apply (swapped_accounted _ _ _ _ _ (stored_swapped (loaded g h) ctx c (Some r) Hc')).
    cbn [option_owner]. rewrite Hr. intros q [[Hg' ->]|Hq]%loaded_live.
    + destruct g as [|a d|a]; [congruence| |]; cbn [owner_of is_lost sound_cargo] in *.
      * left. eauto using sound_cargo_rust.
      * right. right. left. reflexivity.
    + right. assert (Hh : forall s, held_at (loaded g h) s = held_at h s) by (destruct g; reflexivity).
      unfold held_rust. setoid_rewrite Hh.
      destruct (Ha q Hq) as [?|?]; [left; assumption | right; destruct (is_lost g); [right|]; assumption].
  - intros q Hq. destruct (Ha q Hq) as [(s & d & Hs & Hd)|?]; [left | right; assumption].
    exists s, d. rewrite (held_at_subtyped ctx c subtype h s Hc). auto.
  - apply (swapped_accounted _ _ _ _ _ (aux_swapped h ctx c Hc col p _)).
    intros q Hq. right. exact (Ha q Hq).
  - intros q Hq%(scratch_live cells h q Hd). unfold held_rust. setoid_rewrite held_at_scratch.
    exact (Ha q Hq).
Qed.

(** A step that is not lossy loses nothing: the buffer that comes with a
    result is held by the host, and the result it replaces is freed. *)
Lemma moved_no_leak {t} : host_wf h -> moved ctx t false h h' -> no_leak h -> no_leak h'.
Proof.
  intros Hwf Hm Hl%accounted_nil. apply accounted_nil. exact (moved_accounted [] false Hwf Hm Hl).
Qed.

(** After every step the result of the context is the last result
    written to it: a second write replaces the first. *)
Lemma moved_latest {t} lossy : latest ctx h -> moved ctx t lossy h h' -> latest ctx h'.
Proof.
  intros Hlat Hm. destruct Hm as [h c r g Hc Hr Hg|h c subtype Hc|h c col p d Hc|h cells _].
  - intros c'. rewrite contexts_wrote. intros [= <-]. cbn [ctx_result].
    unfold wrote. cbn [writes log_write]. rewrite latest_write_cons. reflexivity.
  - intros c'. unfold subtyped. cbn [contexts set_contexts writes].
    rewrite lookup_insert_eq. intros [= <-]. apply (Hlat c Hc).
  - intros c'. rewrite contexts_aux_written, (proj1 (aux_written_frame ctx c col p _ h)).
    intros [= <-]. apply (Hlat c Hc).
  - intros c'. destruct (scratch_frame cells h) as (-> & -> & _). apply Hlat.
Qed.

(** A step writes no pointer of the layer but to the result of its
    context. *)
Lemma moved_kept {t} h0 lossy : moved ctx t lossy h h' -> kept ctx h0 h -> kept ctx h0 h'.
Proof.
  intros Hm Hk s p d Hs. destruct Hm as [h c r g Hc Hr Hg|h c subtype Hc|h c col q d0 Hc|h cells _].
  - rewrite held_at_wrote by (rewrite contexts_released; destruct g; exact Hc).
    rewrite bool_decide_eq_false_2, held_at_released by exact Hs.
    replace (held_at (loaded g h) s) with (held_at h s) by (destruct g; reflexivity).
    apply Hk, Hs.
  - rewrite (held_at_subtyped ctx c subtype h s Hc). apply Hk, Hs.
  - rewrite (sw_held _ _ _ _ (aux_swapped h ctx c Hc col q _)).
    case_bool_decide; [|apply Hk, Hs]. intros Ho Hd.
    rewrite (foreign_owner _ _ _ _ Ho) in Hd. discriminate.
  - rewrite held_at_scratch. apply Hk, Hs.
Qed.

(** No call changes the values the function was given. *)
Lemma moved_values {t} lossy : moved ctx t lossy h h' -> values h' = values h.
Proof.
  intros Hm. destruct Hm as [h c r g Hc Hr Hg|h c subtype Hc|h c col p d Hc|h cells _].
  - unfold wrote, stored, released. cbn [values log_write set_contexts].
    rewrite (proj2 (proj2 (proj2 (let_go_frame _ _)))). destruct g; reflexivity.
  - reflexivity.
  - apply aux_written_frame.
  - apply scratch_frame.
Qed.

(** A step leaves the slots of auxiliary data it does not set. *)
Lemma moved_aux_frame {t} lossy col :
  moved ctx t lossy h h' -> t <> Some col -> aux_of ctx col h' = aux_of ctx col h.
Proof.
  intros Hm Ht. destruct Hm as [h c r g Hc Hr Hg|h c subtype Hc|h c col' p d Hc|h cells _].
  - assert (Hc' : contexts (released ctx c (loaded g h)) !! ctx = Some c)
      by (rewrite contexts_released; destruct g; exact Hc).
    rewrite (aux_of_wrote ctx c r _ col Hc'). apply aux_of_contexts.
    rewrite contexts_released. destruct g; reflexivity.
  - unfold aux_of, subtyped. cbn [contexts set_contexts]. rewrite lookup_insert_eq, Hc.
    reflexivity.
  - rewrite (aux_of_written h ctx c Hc), bool_decide_eq_false_2 by congruence. reflexivity.
  - apply aux_of_contexts, scratch_frame.
Qed.

(** No step of the machine frees or adopts a lost allocation. *)
Lemma moved_lost {t} lossy p :
  host_wf h -> moved ctx t lossy h h' -> lost h p -> lost h' p.
Proof.
  intros Hwf Hm Hl. pose proof (lost_below h p Hwf Hl) as Hp.
  destruct Hm as [h c r g Hc Hr Hg|h c subtype Hc|h c col q d Hc|h cells _].
  - assert (Hl' : lost (loaded g h) p)
      by (destruct g; [exact Hl | apply (scratch_lost [_]) | apply (scratch_lost [_])]; assumption).
    assert (Hc' : contexts (loaded g h) !! ctx = Some c) by (destruct g; exact Hc).
    apply (swapped_lost _ _ _ _ p (stored_swapped (loaded g h) ctx c (Some r) Hc')); [|exact Hl'].
    cbn [option_owner]. rewrite Hr. destruct g; cbn [owner_of]; try discriminate.
    intros d' [= E _]. lia.
  - destruct Hl as [Hlive Hfree]. split; [exact Hlive|].
    intros s d. rewrite (held_at_subtyped ctx c subtype h s Hc). apply Hfree.
  - apply (swapped_lost _ _ _ _ p (aux_swapped h ctx c Hc col q _)); [|exact Hl].
    intros d'. apply foreign_owner.
  - apply scratch_lost; assumption.
Qed.

(** A lossy step loses the allocation it makes. *)
Lemma moved_loses {t} : host_wf h -> moved ctx t true h h' -> lost h' (next_addr h).
Proof.
  intros Hwf Hm. remember true as lossy eqn:El.
  destruct Hm as [h c r g Hc Hr Hg|h c subtype Hc|h c col p d Hc|h cells Hd]; try discriminate.
  destruct g as [|a d|a]; try discriminate. cbn [loaded owner_of] in *. split.
  - apply is_live_spec. exists a. rewrite heap_wrote. apply (released_fresh h ctx c _ Hwf Hc).
  - intros s d. rewrite held_at_wrote by (rewrite contexts_released; exact Hc).
    rewrite Hr, held_at_released. case_bool_decide; [discriminate|].
    change (held_at (allocated _ h) s) with (held_at h s).
    intros Hs. apply not_rust. intros Hd. exact (fresh_not_held h s d Hwf Hs Hd).
Qed.

Lemma moved_ledger {t} ps lossy :
  host_wf h -> moved ctx t lossy h h' -> ledger ps h ->
  ledger (if lossy then next_addr h :: ps else ps) h'.
Proof.
  intros Hwf Hm (Hnd & Ha & Hl).
  assert (Hl' : Forall (lost h') ps)
    by (eapply Forall_impl; [exact Hl|]; intros p; apply (moved_lost lossy p Hwf Hm)).
  split; [|split; [exact (moved_accounted ps lossy Hwf Hm Ha)|]]; destruct lossy; auto.
  - constructor; [|exact Hnd]. intros Hin. rewrite Forall_forall in Hl.
    pose proof (lost_below h _ Hwf (Hl _ Hin)). lia.
  - constructor; [exact (moved_loses Hwf Hm) | exact Hl'].
Qed.

End Machine.

(** ** The calls take steps of the machine *)

Section Refinement.
Context (ctx : Z) (h : host) (c : sqlite3_context).
Hypothesis (Hwf : host_wf h) (Hc : contexts h !! ctx = Some c).

(** A result without a pointer. *)
Lemma plain_moved r :
  result_owner r = None -> moved ctx None false h (plain_written ctx c r h).
Proof. intros Hr. exact (moved_write ctx h c r NoCargo Hc Hr eq_refl). Qed.

Lemma text_moved text : moved ctx None false h (text_written ctx c text h).
Proof.
  exact (moved_write ctx h c (text_result h text)
           (Owned (CStringAlloc (text ++ [0])) result_text_destructor_fn) Hc eq_refl eq_refl).
Qed.

Lemma set_result_moved r h1 :
  result_owner r = None -> set_result ctx r h = Ret (tt, h1) -> moved ctx None false h h1.
Proof.
  intros Hr. rewrite (set_result_wf h ctx c r Hwf Hc). intros [= <-]. apply plain_moved, Hr.
Qed.

(** The text setter, its result dropped. *)
Lemma text_call_moved text h1 :
  (result_text ctx text ;; ret tt) h = Ret (tt, h1) -> moved ctx None false h h1.
Proof.
  unfold bind. rewrite (result_text_eq h ctx c text Hwf Hc).
  destruct (cstring_new text); [destruct (in_i32 (str_len text))|]; intros [= <-].
  - apply text_moved.
  - apply moved_dropped.
  - apply moved_refused.
Qed.

Lemma error_call_moved text h1 :
  (result_error ctx text ;; ret tt) h = Ret (tt, h1) ->
  moved ctx None (is_ok (cstring_new text)) h h1.
Proof.
  destruct (cstring_new text) as [b|e] eqn:E.
  - apply cstring_new_Ok in E as [Hn _]. unfold bind.
    rewrite (result_error_eq h ctx c text Hwf Hc Hn). intros [= <-].
    exact (moved_write ctx h c (ResError (error_message text))
             (Lost (CStringAlloc (text ++ [0]))) Hc eq_refl eq_refl).
  - unfold bind, result_error. rewrite E. intros [= <-]. apply moved_refused.
Qed.

Lemma affinity_call_moved a value h1 :
  (ColumnAffinity.result_text a ctx value ;; ret tt) h = Ret (tt, h1) -> moved ctx None false h h1.
Proof.
  unfold bind. rewrite result_text_perform, (perform_eq h ctx c Hwf Hc).
  destruct (coerce a value) as [i|i|f|s]; try (intros [= <-]; apply plain_moved; reflexivity).
  destruct (cstring_new s); [destruct (in_i32 (str_len s))|]; intros [= <-].
  - apply text_moved.
  - apply moved_dropped.
  - apply moved_refused.
Qed.

Lemma blob_call_moved blob h1 :
  result_blob ctx blob h = Ret (tt, h1) -> moved ctx None false h h1.
Proof.
  unfold result_blob, sqlite3ext_result_blob. cbv zeta.
  destruct (_ && _); [|discriminate]. apply set_result_moved. reflexivity.
Qed.

Lemma mprintf_call_moved base h1 :
  (mprintf base ;; ret tt) h = Ret (tt, h1) -> moved ctx None false h h1.
Proof.
  unfold bind. rewrite mprintf_cases.
  destruct (cstring_new base); [|intros [= <-]; apply moved_refused].
  destruct (format_no_args base) as [text|]; [|discriminate].
  destruct (sqlite_oom h); [|destruct (_ =? 0)]; intros [= <-];
    auto using moved_dropped, moved_printed.
Qed.

(** Every call of the layer that returns has taken a step of the
    machine, lossy for [result_error] alone. *)
Lemma run_moved k h1 : run ctx k h = Ret (tt, h1) -> moved ctx (column k) (leaks k) h h1.
Proof.
  destruct k; cbn [run leaks column];
    try (apply set_result_moved; reflexivity).
  - apply text_call_moved.
  - apply blob_call_moved.
  - apply error_call_moved.
  - destruct value; apply set_result_moved; reflexivity.
  - unfold result_subtype. rewrite (sqlite3ext_result_subtype_eq h ctx c subtype Hc).
    intros [= <-]. apply moved_subtype, Hc.
  - rewrite (result_pointer_eq T h ctx c name object Hwf Hc). intros [= <-].
    refine (moved_write ctx h c (ResPointer (next_addr h) name (Some (pointer_destroy_fn T)))
              (Owned (BoxAlloc T object) (pointer_destroy_fn T)) Hc eq_refl _).
    cbn. apply bool_decide_eq_true_2. reflexivity.
  - apply affinity_call_moved.
  - rewrite (auxdata_set_eq h ctx c Hwf Hc). intros [= <-]. apply moved_aux, Hc.
  - apply mprintf_call_moved.
Qed.

(** C25: every call of the layer that returns refines one step of the
    abstract machine [moved]: it stores one result on its context, together
    with the allocation the host is to free and the destructor that frees it
    (the buffer of [result_text] with [result_text_destructor], the box of
    [result_pointer] with [pointer_destroy]), or sets the subtype, or sets
    one slot of auxiliary data, or makes allocations that are no longer
    live when it returns.  The step loses an allocation for [result_error] on
    a text it accepts and for no other call, and it sets a slot of auxiliary
    data for [auxdata_set] alone. *)
Theorem call_refines k h1 :
  run ctx k h = Ret (tt, h1) -> moved ctx (column k) (leaks k) h h1.
Proof. apply run_moved. Qed.

(** Every safe call returns on a well-formed state: no panic, no
    undefined behaviour. *)
Lemma run_total k : safe k = true -> exists h1, run ctx k h = Ret (tt, h1).
Proof.
  intros Hs. destruct k; cbn [run safe] in *;
    try (eexists; apply (set_result_wf h ctx c _ Hwf Hc)).
  - unfold bind. rewrite (result_text_eq h ctx c text Hwf Hc).
    destruct (cstring_new text); [destruct (in_i32 (str_len text))|]; eauto.
  - eexists. apply (result_blob_eq h ctx c blob Hwf Hc Hs).
  - unfold bind, result_error. destruct (cstring_new text) as [b|e] eqn:E; [|eauto].
    apply cstring_new_Ok in E as [Hn ->].
    pose proof (result_error_eq h ctx c text Hwf Hc Hn) as Hr.
    unfold result_error in Hr. rewrite (cstring_new_clean text Hn) in Hr. rewrite Hr. eauto.
  - destruct value; eexists; apply (set_result_wf h ctx c _ Hwf Hc).
  - eexists. apply (sqlite3ext_result_subtype_eq h ctx c subtype Hc).
  - eexists. apply (result_pointer_eq T h ctx c name object Hwf Hc).
  - unfold bind. rewrite result_text_perform, (perform_eq h ctx c Hwf Hc).
    destruct (coerce a value); eauto.
    destruct (cstring_new s); [destruct (in_i32 (str_len s))|]; eauto.
  - eexists. apply (auxdata_set_eq h ctx c Hwf Hc).
  - unfold bind, printable in *. rewrite mprintf_cases.
    destruct (cstring_new base); [|eauto]. cbn [is_ok negb orb] in Hs.
    apply bool_decide_eq_true in Hs as [text ->].
    destruct (sqlite_oom h); [|destruct (_ =? 0)]; eauto.
Qed.

End Refinement.

(** ** Bodies *)

Lemma good_context ctx h : good ctx h -> exists c, host_wf h /\ contexts h !! ctx = Some c.
Proof. intros [Hwf [c Hc]]. eauto. Qed.

Lemma steps_app ctx h ks1 h1 ks2 h2 :
  steps ctx h ks1 h1 -> steps ctx h1 ks2 h2 -> steps ctx h (ks1 ++ ks2) h2.
Proof. induction 1; [exact id | intros; econstructor; eauto]. Qed.

(** One call from a good state: a step of the machine to a good state. *)
Lemma run_good ctx k h h1 :
  good ctx h -> run ctx k h = Ret (tt, h1) -> moved ctx (column k) (leaks k) h h1 /\ good ctx h1.
Proof.
  intros Hg Hrun. destruct (good_context ctx h Hg) as (c & Hwf & Hc).
  pose proof (run_moved ctx h c Hwf Hc k h1 Hrun) as Hm.
  split; [exact Hm | exact (moved_good ctx h h1 _ Hg Hm)].
Qed.

Lemma steps_keep ctx h ks h' :
  steps ctx h ks h' -> good ctx h -> good ctx h' /\ values h' = values h.
Proof.
  induction 1 as [h|h k h1 ks h2 Hrun _ IH]; [auto|]. intros Hg.
  destruct (run_good ctx k h h1 Hg Hrun) as [Hm Hg1].
  destruct (IH Hg1) as [Hg2 Hv]. split; [exact Hg2|].
  rewrite Hv. exact (moved_values ctx h h1 _ Hm).
Qed.

Lemma steps_kept ctx h0 h ks h' :
  steps ctx h ks h' -> good ctx h -> kept ctx h0 h -> kept ctx h0 h'.
Proof.
  induction 1 as [h|h k h1 ks h2 Hrun _ IH]; [auto|]. intros Hg Hk.
  destruct (run_good ctx k h h1 Hg Hrun) as [Hm Hg1].
  exact (IH Hg1 (moved_kept ctx h h1 h0 _ Hm Hk)).
Qed.

Lemma steps_latest ctx h ks h' :
  steps ctx h ks h' -> good ctx h -> latest ctx h -> latest ctx h'.
Proof.
  induction 1 as [h|h k h1 ks h2 Hrun _ IH]; [auto|]. intros Hg Hlat.
  destruct (run_good ctx k h h1 Hg Hrun) as [Hm Hg1].
  exact (IH Hg1 (moved_latest ctx h h1 _ Hlat Hm)).
Qed.

(** ** Auxiliary data along a body *)

Lemma latest_aux_cons col k ks p0 :
  latest_aux col (k :: ks) p0 = latest_aux col ks (latest_aux col [k] p0).
Proof. destruct k; reflexivity. Qed.

Lemma latest_aux_app col ks1 ks2 p0 :
  latest_aux col (ks1 ++ ks2) p0 = latest_aux col ks2 (latest_aux col ks1 p0).
Proof.
  revert p0. induction ks1 as [|k ks1 IH]; intros p0; [reflexivity|].
  rewrite <- app_comm_cons, latest_aux_cons, IH, <- latest_aux_cons. reflexivity.
Qed.

(** One call: [auxdata_set] stores its pointer, every other call leaves the
    slot. *)
Lemma run_aux ctx k h h1 col :
  good ctx h -> run ctx k h = Ret (tt, h1) ->
  aux_of ctx col h1 = latest_aux col [k] (aux_of ctx col h).
Proof.
  intros Hg Hrun. destruct (good_context ctx h Hg) as (c & Hwf & Hc).
  pose proof (run_moved ctx h c Hwf Hc k h1 Hrun) as Hm.
  destruct k; try exact (moved_aux_frame ctx h h1 _ col Hm ltac:(discriminate)).
  cbn [run] in Hrun. rewrite (auxdata_set_eq h ctx c Hwf Hc) in Hrun. injection Hrun as <-.
  apply (aux_of_written h ctx c Hc).
Qed.

(** After a body a slot holds the pointer of the last [auxdata_set] on it,
    whatever was written and allocated in between. *)
Lemma steps_aux ctx h ks h' col :
  steps ctx h ks h' -> good ctx h ->
  aux_of ctx col h' = latest_aux col ks (aux_of ctx col h).
Proof.
  induction 1 as [h|h k h1 ks h2 Hrun _ IH]; [reflexivity|]. intros Hg.
  rewrite latest_aux_cons, <- (run_aux ctx k h h1 col Hg Hrun).
  exact (IH (proj2 (run_good ctx k h h1 Hg Hrun))).
Qed.

(** C5: a body of any length keeps the invariant: after every sequence of
    calls the state is well-formed and the result of the context is the last
    one written. *)
Theorem steps_good ctx h ks h' :
  steps ctx h ks h' -> good ctx h -> latest ctx h -> good ctx h' /\ latest ctx h'.
Proof.
  intros Hs Hg Hlat. split; [apply (steps_keep ctx h ks h' Hs Hg) | exact (steps_latest ctx h ks h' Hs Hg Hlat)].
Qed.

Lemma steps_frugal ctx h ks h' :
  steps ctx h ks h' -> good ctx h -> Forall (fun k => leaks k = false) ks ->
  no_leak h -> no_leak h'.
Proof.
  induction 1 as [h|h k h1 ks h2 Hrun _ IH]; [auto|]. intros Hg Hks Hl.
  apply Forall_cons in Hks as [Hk Hks].
  destruct (run_good ctx k h h1 Hg Hrun) as [Hm Hg1]. rewrite Hk in Hm.
  exact (IH Hg1 Hks (moved_no_leak ctx h h1 (proj1 Hg) Hm Hl)).
Qed.

(** A body that never calls [result_error] on a text it accepts loses no
    allocation, however often it overwrites its result. *)
Theorem steps_no_leak ctx h ks h' :
  steps ctx h ks h' -> good ctx h -> Forall (fun k => leaks k = false) ks ->
  no_leak h -> no_leak h'.
Proof. apply steps_frugal. Qed.

Lemma steps_run ctx ks h :
  good ctx h -> Forall (fun k => safe k = true) ks -> exists h', steps ctx h ks h'.
Proof.
  revert h. induction ks as [|k ks IH]; intros h Hg Hks; [eexists; constructor|].
  apply Forall_cons in Hks as [Hk Hks].
  destruct (good_context ctx h Hg) as (c & Hwf & Hc).
  destruct (run_total ctx h c Hwf Hc k Hk) as [h1 Hrun].
  destruct (IH h1 (proj2 (run_good ctx k h h1 Hg Hrun)) Hks) as [h' Hsteps].
  exists h'. econstructor; eassumption.
Qed.

(** A body of safe calls runs to its end from every good state. *)
Theorem steps_total ctx ks h :
  good ctx h -> Forall (fun k => safe k = true) ks -> exists h', steps ctx h ks h'.
Proof. apply steps_run. Qed.

(** ** A lost allocation stays lost *)

Lemma steps_lost ctx h ks h' p :
  steps ctx h ks h' -> good ctx h -> lost h p -> lost h' p.
Proof.
  induction 1 as [h|h k h1 ks h2 Hrun _ IH]; [auto|]. intros Hg Hl.
  destruct (good_context ctx h Hg) as (c & Hwf & Hc).
  pose proof (run_moved ctx h c Hwf Hc k h1 Hrun) as Hm.
  apply IH; [exact (moved_good ctx h h1 _ Hg Hm) | exact (moved_lost ctx h h1 _ p Hwf Hm Hl)].
Qed.

Lemma steps_loses ctx h ks h' :
  steps ctx h ks h' -> good ctx h -> Exists (fun k => leaks k = true) ks ->
  exists p, lost h' p.
Proof.
  induction 1 as [h|h k h1 ks h2 Hrun Hsteps IH]; intros Hg Hex; [inversion Hex|].
  destruct (good_context ctx h Hg) as (c & Hwf & Hc).
  pose proof (run_moved ctx h c Hwf Hc k h1 Hrun) as Hm.
  pose proof (moved_good ctx h h1 _ Hg Hm) as Hg1.
  apply Exists_cons in Hex as [Hk|Hex]; [|exact (IH Hg1 Hex)]. rewrite Hk in Hm.
  exists (next_addr h). exact (steps_lost ctx _ ks h2 _ Hsteps Hg1 (moved_loses ctx h h1 Hwf Hm)).
Qed.

(** A body that calls [result_error] on a text it accepts ends with an
    allocation that is live and that nothing will free, whatever it calls
    afterwards. *)
Theorem steps_leak ctx h ks h' :
  steps ctx h ks h' -> good ctx h -> Exists (fun k => leaks k = true) ks ->
  exists p, lost h' p.
Proof. apply steps_loses. Qed.

(** A state where nothing is lost has the empty ledger; the allocations of a
    ledger are the lost ones. *)
Lemma ledger_nil h : no_leak h -> ledger [] h.
Proof. intros Hl. split; [constructor | split; [apply accounted_nil, Hl | constructor]]. Qed.

Lemma ledger_spec ps h : ledger ps h -> NoDup ps /\ forall p, lost h p <-> In p ps.
Proof.
  intros (Hnd & Ha & Hlost). split; [exact Hnd|]. intros p. split.
  - intros [Hlive Hfree]. destruct (Ha p Hlive) as [(s & d & Hs & Hd)|Hin]; [|exact Hin].
    rewrite (Hfree s d Hs) in Hd. discriminate.
  - rewrite List.Forall_forall in Hlost. apply Hlost.
Qed.

Lemma leak_count_app ks1 ks2 : leak_count (ks1 ++ ks2) = (leak_count ks1 + leak_count ks2)%nat.
Proof. induction ks1 as [|k ks1 IH]; [reflexivity|]. cbn [leak_count app]. rewrite IH. lia. Qed.

Lemma steps_ledger ctx h ks h' :
  steps ctx h ks h' -> forall ps, good ctx h -> ledger ps h ->
  exists ps', length ps' = (leak_count ks + length ps)%nat /\ ledger ps' h'.
Proof.
  induction 1 as [h|h k h1 ks h2 Hrun _ IH]; intros ps Hg Hl; [exists ps; auto|].
  destruct (good_context ctx h Hg) as (c & Hwf & Hc).
  pose proof (run_moved ctx h c Hwf Hc k h1 Hrun) as Hm.
  destruct (IH _ (moved_good ctx h h1 _ Hg Hm) (moved_ledger ctx h h1 ps _ Hwf Hm Hl))
    as (ps' & Hlen & Hl').
  exists ps'. split; [|exact Hl']. rewrite Hlen. cbn [leak_count]. destruct (leaks k); cbn; lia.
Qed.

(** C26: a body started with nothing lost ends with exactly as many lost
    allocations as it made calls of [result_error] on a text without a nul
    byte: each such call loses one buffer, and no other call loses or
    recovers any. *)
Theorem steps_leak_count ctx h ks h' :
  steps ctx h ks h' -> good ctx h -> no_leak h ->
  exists ps, length ps = leak_count ks /\ NoDup ps /\ forall p, lost h' p <-> In p ps.
Proof.
  intros Hsteps Hg Hl.
  destruct (steps_ledger ctx h ks h' Hsteps [] Hg (ledger_nil h Hl)) as (ps & Hlen & Hled).
  exists ps. rewrite Hlen, Nat.add_0_r. split; [reflexivity | exact (ledger_spec ps h' Hled)].
Qed.

(** ** The theorems at concrete inputs *)

Module SessionExamples.
Import ResultExamples.

Definition h1 : host := plain_written 1 empty_context (ResInt 1) h0.

Lemma h0_good : good 1 h0.
Proof. split; [apply example_host_wf | exists empty_context; apply example_host_context]. Qed.

Lemma h0_latest : latest 1 h0.
Proof.
  intros c Hc. unfold h0 in Hc. rewrite example_host_context in Hc.
  injection Hc as <-. reflexivity.
Qed.

Lemma h0_steps : steps 1 h0 [CallInt 1] h1.
Proof.
  econstructor; [|constructor].
  apply (set_result_wf h0 1 empty_context _ (example_host_wf []) (example_host_context [])).
Qed.

Lemma steps_good_witness : good 1 h1 /\ latest 1 h1.
Proof. exact (steps_good 1 h0 [CallInt 1] h1 h0_steps h0_good h0_latest). Defined.

Lemma steps_no_leak_witness : no_leak h1.
Proof.
  apply (steps_no_leak 1 h0 [CallInt 1] h1 h0_steps h0_good);
    [repeat constructor | apply example_host_no_leak].
Defined.

Lemma steps_total_witness :
  exists h', steps 1 h0 [CallText abc; CallInt 7; CallError abc; CallMprintf abc;
                         CallAuxSet 0 77 (Some 5); CallAffinity ColumnAffinity.Numeric abc] h'.
Proof. apply (steps_total 1 _ h0 h0_good). repeat constructor. Defined.

Lemma error_steps :
  steps 1 h0 [CallError abc] (error_written 1 empty_context abc h0).
Proof.
  econstructor; [|constructor]. cbn [run]. unfold bind.
  rewrite (result_error_eq h0 1 empty_context abc (example_host_wf [])
             (example_host_context []) abc_clean).
  reflexivity.
Qed.

Lemma call_refines_witness :
  moved 1 (column (CallError abc)) (leaks (CallError abc)) h0
    (error_written 1 empty_context abc h0).
Proof.
  apply (call_refines 1 h0 empty_context (example_host_wf []) (example_host_context [])).
  cbn [run]. unfold bind.
  rewrite (result_error_eq h0 1 empty_context abc (example_host_wf [])
             (example_host_context []) abc_clean).
  reflexivity.
Defined.

Lemma steps_leak_witness : exists p, lost (error_written 1 empty_context abc h0) p.
Proof.
  apply (steps_leak 1 h0 [CallError abc] _ error_steps h0_good).
  constructor. reflexivity.
Defined.

Lemma steps_leak_count_witness :
  exists ps, length ps = leak_count [CallError abc] /\ NoDup ps
    /\ forall p, lost (error_written 1 empty_context abc h0) p <-> In p ps.
Proof.
  exact (steps_leak_count 1 h0 [CallError abc] _ error_steps h0_good (example_host_no_leak [])).
Defined.

(** A text, then an integer over it: the text buffer is freed, the integer
    is the result. *)
Example double_write :
  exists h',
    steps 1 h0 [CallText abc; CallInt 7] h'
    /\ heap h' !! next_addr h0 = Some Freed
    /\ (exists c, contexts h' !! 1 = Some c /\ ctx_result c = Some (ResInt 7))
    /\ latest_write 1 (writes h') = Some (ResInt 7).
Proof.
  eexists. split; [|split; [|split]].
  - econstructor; [|econstructor; [|constructor]].
    + cbn [run]. unfold bind.
      rewrite (result_text_eq h0 1 empty_context abc (example_host_wf [])
                 (example_host_context [])). reflexivity.
    + apply (set_result_wf _ 1 _ _
               (text_written_wf h0 1 empty_context abc (example_host_wf [])
                  (example_host_context []))
               (contexts_text_written h0 1 empty_context abc)).
  - vm_compute. reflexivity.
  - eexists. split; [apply contexts_wrote | reflexivity].
  - reflexivity.
Qed.

End SessionExamples.
