(* ===== verification/Json.v ===== *)
(** * JSON values and their text

    [result_json] (src/src/api.rs, lines 304-311) takes a
    [serde_json::Value] and writes [value.to_string()].  [serde_json] is
    outside the repository; this file models from its documentation the
    value and the compact text its [Display] prints: no white space, the
    members of an object in the order the map yields them, a string between
    quotes with the quote, the backslash and the control characters
    escaped, an integer in decimal.  The text of a float (the shortest
    decimal that reads back as the float) is the parameter [FloatFormat].

    An integer is printed by [RustNum.itoa].

    The theorems: the text never holds a nul byte, so [result_json] cannot
    fail on one; the text of a value whose strings are valid UTF-8
    ([utf8_value]) is valid UTF-8; [result_json] is the call of [result_text] followed, when
    it succeeds, by the call of [result_subtype], and so a sequence of calls
    of [Session]. *)

From Stdlib Require Import ZArith Lia List String Ascii.
From stdpp Require Import base tactics option list gmap.
From S2P Require Import Prelude RustStr RustNum Utf8 Unicode Errors Host Mprintf ResultApi Affinity AuxData Coercion Session.

#[local] Open Scope Z_scope.
#[local] Open Scope rs_scope.

(** What the float formatter promises: an ASCII text without a nul byte. *)
Class FloatFormat : Type := {
  format_f64 : f64 -> list Z;
  format_f64_clean : forall f, ~ In 0 (format_f64 f);
  format_f64_ascii : forall f, Forall (fun b => is_ascii b = true) (format_f64 f)
}.

(** ** The value *)

Module Json.

(** The number of a value: [serde_json::Number]. *)
Inductive Num : Type :=
| PosInt (n : Z)
| NegInt (i : Z)
| Float (f : f64).

(** [serde_json::Value]; the members of an object in the order of its
    map. *)
#[local] Unset Elimination Schemes.
Inductive Value : Type :=
| Null
| Bool (b : bool)
| Number (n : Num)
| String (s : list Z)
| Array (items : list Value)
| Object (members : list (list Z * Value)).
#[local] Set Elimination Schemes.

(** A digit of the escape [\u00XX]. *)
Definition hex_digit (n : Z) : Z := if n <? 10 then 48 + n else 87 + n.

(** One byte of a string, as it is printed between the quotes. *)
Definition escape (c : Z) : list Z :=
  if c =? 34 then [92; 34]
  else if c =? 92 then [92; 92]
  else if c =? 8 then [92; 98]
  else if c =? 9 then [92; 116]
  else if c =? 10 then [92; 110]
  else if c =? 12 then [92; 102]
  else if c =? 13 then [92; 114]
  else if (0 <=? c) && (c <? 32) then [92; 117; 48; 48; hex_digit (c / 16); hex_digit (c mod 16)]
  else [c].

Definition quoted (s : list Z) : list Z := [34] ++ concat (map escape s) ++ [34].

(** The texts of a sequence, with commas in between. *)
Fixpoint join (parts : list (list Z)) : list Z :=
  match parts with
  | [] => []
  | [p] => p
  | p :: rest => p ++ [44] ++ join rest
  end.

Section Print.
Context `{FloatFormat}.

Definition number_text (n : Num) : list Z :=
  match n with
  | PosInt n => itoa n
  | NegInt i => itoa i
  | Float f => format_f64 f
  end.

Fixpoint to_string (v : Value) : list Z :=
  match v with
  | Null => lit "null"
  | Bool b => if b then lit "true" else lit "false"
  | Number n => number_text n
  | String s => quoted s
  | Array items => [91] ++ join (map to_string items) ++ [93]
  | Object members =>
    [123] ++ join (map (fun m => let '(k, x) := m in quoted k ++ [58] ++ to_string x) members)
      ++ [125]
  end.

End Print.

(** The values whose integers are of 64 bits, as [serde_json] makes them. *)
Fixpoint well_formed (v : Value) : bool :=
  match v with
  | Number (PosInt n) => (0 <=? n) && (n <=? 18446744073709551615)
  | Number (NegInt i) => (i64_min <=? i) && (i <? 0)
  | Array items => forallb well_formed items
  | Object members => forallb (fun m => well_formed (snd m)) members
  | _ => true
  end.

(** The values whose strings and keys are valid UTF-8, as the type [String]
    of Rust makes them. *)
Fixpoint utf8_value (v : Value) : bool :=
  match v with
  | String s => is_utf8 s
  | Array items => forallb utf8_value items
  | Object members => forallb (fun m => is_utf8 (fst m) && utf8_value (snd m)) members
  | _ => true
  end.

(** ** Induction on values *)

Section Induction.
Variable P : Value -> Prop.
Hypothesis (HNull : P Null) (HBool : forall b, P (Bool b)) (HNumber : forall n, P (Number n))
  (HString : forall s, P (String s))
  (HArray : forall items, Forall P items -> P (Array items))
  (HObject : forall members, Forall (fun m => P (snd m)) members -> P (Object members)).

Fixpoint Value_ind (v : Value) : P v :=
  match v with
  | Null => HNull
  | Bool b => HBool b
  | Number n => HNumber n
  | String s => HString s
  | Array items =>
    HArray items
      ((fix all (l : list Value) : Forall P l :=
          match l with
          | [] => List.Forall_nil P
          | x :: r => List.Forall_cons P x r (Value_ind x) (all r)
          end) items)
  | Object members =>
    HObject members
      ((fix all (l : list (list Z * Value)) : Forall (fun m => P (snd m)) l :=
          match l with
          | [] => List.Forall_nil _
          | m :: r => List.Forall_cons _ m r (Value_ind (snd m)) (all r)
          end) members)
  end.

End Induction.

End Json.

(** The state [result_json] leaves when it succeeds: the text is written,
    then the subtype is set to 74, the letter J. *)
Definition json_written (ctx : Z) (c : sqlite3_context) (text : list Z) (h : host) : host :=
  subtyped ctx (mkContext (Some (text_result h text)) (ctx_subtype c) (ctx_auxdata c)) 74
    (text_written ctx c text h).

(** The calls [result_json] makes, by what it returns. *)
Definition json_calls (text : list Z) (r : result unit Error) : list call :=
  CallText text :: (if is_ok r then [CallSubtype 74] else []).

(** A formatter for the examples. *)
Definition plain_floats : FloatFormat := {|
  format_f64 := fun _ => lit "0.0";
  format_f64_clean := fun _ => ltac:(vm_compute; intuition discriminate);
  format_f64_ascii := fun _ => ltac:(repeat constructor)
|}.

(** ** Lemmas: no nul byte *)

Import Json.

Lemma hex_digit_pos n : 0 <= n -> 0 < hex_digit n.
Proof. unfold hex_digit. destruct (n <? 10); lia. Qed.

Lemma escape_clean c : ~ In 0 (escape c).
Proof.
  unfold escape. repeat (split_eqb; [cbn; intuition discriminate|]).
  destruct (Z.leb_spec 0 c) as [H0|H0]; [destruct (Z.ltb_spec c 32) as [H1|H1]|]; cbn [andb In].
  - pose proof (hex_digit_pos (c / 16) ltac:(apply Z.div_pos; lia)).
    pose proof (hex_digit_pos (c mod 16) ltac:(apply Z.mod_pos_bound; lia)). intuition lia.
  - intuition lia.
  - intuition lia.
Qed.

Lemma concat_clean parts : Forall (fun p => ~ In 0 p) parts -> ~ In 0 (concat parts).
Proof.
  induction 1 as [|p parts Hp _ IH]; [exact (fun H => H)|]. cbn [concat].
  rewrite in_app_iff. tauto.
Qed.

Lemma quoted_clean s : ~ In 0 (quoted s).
Proof.
  unfold quoted. rewrite !in_app_iff. cbn [In].
  assert (~ In 0 (concat (map escape s))); [|intuition discriminate].
  apply concat_clean, List.Forall_forall. intros p (c & <- & _)%in_map_iff. apply escape_clean.
Qed.

Lemma join_clean parts : Forall (fun p => ~ In 0 p) parts -> ~ In 0 (join parts).
Proof.
  induction 1 as [|p parts Hp Hparts IH]; [exact (fun H => H)|]. cbn [join].
  destruct parts as [|q parts]; [exact Hp|]. rewrite !in_app_iff. cbn [In] in *.
  intuition discriminate.
Qed.

(** ** Lemmas: valid UTF-8

    A [serde_json] string is a Rust [String], and so valid UTF-8
    ([utf8_value]).  The text of a value is then valid UTF-8 as well: the
    punctuation, the numbers and the escapes are ASCII, and escaping acts on
    the ASCII bytes of a string only. *)

Lemma hex_digit_ascii n : 0 <= n < 16 -> is_ascii (hex_digit n) = true.
Proof. unfold hex_digit, is_ascii. intros. case_match; lia. Qed.

Lemma escape_low b : is_ascii b = true -> Forall (fun x => is_ascii x = true) (escape b).
Proof.
  intros Hb. unfold escape. repeat case_match; repeat constructor; try assumption.
  all: apply hex_digit_ascii; unfold is_ascii in Hb; Z.div_mod_to_equations; lia.
Qed.

Lemma escape_high b : is_ascii b = false -> escape b = [b].
Proof. unfold escape, is_ascii. intros. repeat case_match; (reflexivity || lia). Qed.

Lemma quoted_utf8 s : is_utf8 s = true -> is_utf8 (quoted s) = true.
Proof.
  intros Hs. unfold quoted. rewrite <- flat_map_concat_map.
  repeat apply is_utf8_app; try reflexivity.
  apply (is_utf8_flat_map escape escape_low escape_high), Hs.
Qed.

Lemma join_utf8 parts :
  Forall (fun p => is_utf8 p = true) parts -> is_utf8 (join parts) = true.
Proof.
  induction 1 as [|p parts Hp Hparts IH]; [reflexivity|]. cbn [join].
  destruct parts as [|q parts]; [exact Hp|].
  repeat apply is_utf8_app; auto.
Qed.

Lemma itoa_ascii i : Forall (fun b => is_ascii b = true) (itoa i).
Proof.
  assert (Hd : forall n, 0 <= n -> Forall (fun b => is_ascii b = true) (decimal 20 n [])).
  { intros n Hn. apply List.Forall_forall. intros b Hb.
    pose proof (decimal_digits 20 n Hn) as Hall. rewrite forallb_forall in Hall.
    apply Hall in Hb. unfold is_ascii_digit, is_ascii in *. lia. }
  unfold itoa. destruct (Z.ltb_spec i 0); [constructor; [reflexivity|]|]; apply Hd; lia.
Qed.

Section Printed.
Context `{FloatFormat}.

Lemma number_text_clean n : ~ In 0 (number_text n).
Proof. destruct n; cbn [number_text]; auto using itoa_clean, format_f64_clean. Qed.

(** The text of a value has no nul byte: a nul in a string is printed as
    an escape. *)
Lemma to_string_clean v : ~ In 0 (to_string v).
Proof.
  induction v as [|b|n|s|items IH|members IH] using Value_ind; cbn [to_string].
  - vm_compute. intuition discriminate.
  - destruct b; vm_compute; intuition discriminate.
  - apply number_text_clean.
  - apply quoted_clean.
  - rewrite !in_app_iff. cbn [In].
    assert (~ In 0 (join (map to_string items))); [|intuition discriminate].
    apply join_clean, Forall_map. exact IH.
  - rewrite !in_app_iff. cbn [In].
    assert (~ In 0 (join (map (fun m : list Z * Value => let '(k, x) := m in
                                 quoted k ++ [58] ++ to_string x) members)));
      [|intuition discriminate].
    apply join_clean, Forall_map. eapply Forall_impl; [exact IH|].
    intros [k x] Hx. cbn [snd] in Hx. rewrite !in_app_iff. cbn [In].
    pose proof (quoted_clean k). intuition discriminate.
Qed.

Lemma number_text_utf8 n : is_utf8 (number_text n) = true.
Proof.
  apply is_utf8_ascii. destruct n; cbn [number_text]; auto using itoa_ascii, format_f64_ascii.
Qed.

(** The text of a value whose strings are valid UTF-8 is valid UTF-8: what
    [result_json] hands to [result_text] is a [&str]. *)
Lemma to_string_utf8 v : utf8_value v = true -> is_utf8 (to_string v) = true.
Proof.
  induction v as [|b|n|s|items IH|members IH] using Value_ind;
    cbn [to_string utf8_value]; intros Hv.
  - reflexivity.
  - destruct b; reflexivity.
  - apply number_text_utf8.
  - apply quoted_utf8, Hv.
  - repeat apply is_utf8_app; try reflexivity.
    apply join_utf8, Forall_map. rewrite forallb_forall in Hv.
    rewrite List.Forall_forall in IH |- *. intros x Hx. apply (IH x Hx), Hv, Hx.
  - repeat apply is_utf8_app; try reflexivity.
    apply join_utf8, Forall_map. rewrite forallb_forall in Hv.
    rewrite List.Forall_forall in IH |- *. intros [k x] Hx.
    pose proof (Hv _ Hx) as [Hk Hv']%andb_true_iff.
    apply is_utf8_app; [apply quoted_utf8, Hk | apply is_utf8_app; [reflexivity|]].
    apply (IH _ Hx), Hv'.
Qed.

End Printed.

(** ** [result_json] *)

Section OnHost.
Context `{FloatFormat}.
Context (h : host) (ctx : Z) (c : sqlite3_context).
Hypothesis (Hwf : host_wf h) (Hc : contexts h !! ctx = Some c).

(** [result_json] in one equation. *)
Lemma result_json_eq v :
  result_json Value to_string ctx v h =
  if in_i32 (str_len (to_string v)) then Ret (Ok tt, json_written ctx c (to_string v) h)
  else Ret (Err length_overflow, allocated Freed h).
Proof.
  unfold result_json, bind at 1.
  rewrite (result_text_eq h ctx c _ Hwf Hc), (cstring_new_clean _ (to_string_clean v)).
  destruct (in_i32 (str_len (to_string v))); [|reflexivity].
  unfold bind, result_subtype.
  rewrite (sqlite3ext_result_subtype_eq _ ctx _ 74 (contexts_text_written h ctx c _)).
  reflexivity.
Qed.

Lemma result_json_run v r h' :
  result_json Value to_string ctx v h = Ret (r, h') -> steps ctx h (json_calls (to_string v) r) h'.
Proof.
  rewrite result_json_eq. pose proof (result_text_eq h ctx c (to_string v) Hwf Hc) as Ht.
  rewrite (cstring_new_clean _ (to_string_clean v)) in Ht.
  destruct (in_i32 (str_len (to_string v))); intros [= <- <-]; unfold json_calls; cbn [is_ok].
  - econstructor; [cbn [run]; rewrite (bind_step _ _ _ _ _ Ht); reflexivity|].
    econstructor; [|constructor]. cbn [run]. unfold result_subtype.
    apply (sqlite3ext_result_subtype_eq _ ctx _ 74 (contexts_text_written h ctx c _)).
  - econstructor; [cbn [run]; rewrite (bind_step _ _ _ _ _ Ht); reflexivity | constructor].
Qed.

(** The text of a JSON value is always accepted as a C string: it holds
    no nul byte, a nul in a string being printed as an escape. *)
Theorem to_string_cstring v : cstring_new (to_string v) = Ok (to_string v ++ [0]).
Proof. apply cstring_new_clean, to_string_clean. Qed.

(** C30: [result_json] never fails on a nul byte: it writes the text of the
    value and sets the subtype 74, or, when the text has 2^31 bytes or more,
    fails with the overflow message and writes nothing. *)
Theorem result_json_total v :
  result_json Value to_string ctx v h =
  if in_i32 (str_len (to_string v)) then Ret (Ok tt, json_written ctx c (to_string v) h)
  else Ret (Err length_overflow, allocated Freed h).
Proof. apply result_json_eq. Qed.

(** [result_json] is a sequence of calls of the layer, the text and then
    the subtype, and so keeps the invariant of the call and loses nothing. *)
Theorem result_json_steps v r h' :
  result_json Value to_string ctx v h = Ret (r, h') ->
  steps ctx h (json_calls (to_string v) r) h'
  /\ good ctx h' /\ (no_leak h -> no_leak h').
Proof.
  intros Hs%result_json_run. assert (Hg : good ctx h) by (split; eauto).
  split; [exact Hs|]. split; [apply (steps_keep ctx h _ h' Hs Hg)|].
  apply (steps_frugal ctx h _ h' Hs Hg). unfold json_calls.
  destruct (is_ok r); repeat constructor.
Qed.

End OnHost.

(** ** The theorems at concrete inputs *)

Module JsonExamples.
Import ResultExamples.
#[local] Existing Instance plain_floats.

(** An object with an array, a negative number and a string with a quote, a
    nul byte and a line feed. *)
Definition sample : Value :=
  Object [(lit "a", Array [Number (PosInt 1); Number (NegInt (-20)); Null; Bool true]);
          (lit "s", String [34; 0; 10; 120])].

Example sample_text :
  to_string sample =
  lit "{" ++ [34] ++ lit "a" ++ [34] ++ lit ":[1,-20,null,true]," ++ [34] ++ lit "s" ++ [34]
    ++ lit ":" ++ [34; 92; 34] ++ lit "\u0000\nx" ++ [34] ++ lit "}".
Proof. vm_compute. reflexivity. Qed.

Lemma to_string_cstring_witness : cstring_new (to_string sample) = Ok (to_string sample ++ [0]).
Proof. apply to_string_cstring. Defined.

Lemma result_json_total_witness :
  result_json Value to_string 1 sample h0 =
  if in_i32 (str_len (to_string sample))
  then Ret (Ok tt, json_written 1 empty_context (to_string sample) h0)
  else Ret (Err length_overflow, allocated Freed h0).
Proof. apply (result_json_total h0 1 empty_context (example_host_wf _) (example_host_context _)). Defined.

Lemma sample_written :
  result_json Value to_string 1 sample h0 =
  Ret (Ok tt, json_written 1 empty_context (to_string sample) h0).
Proof. exact (result_json_eq h0 1 empty_context (example_host_wf _) (example_host_context _) sample). Qed.

Lemma result_json_steps_witness :
  steps 1 h0 (json_calls (to_string sample) (Ok tt))
    (json_written 1 empty_context (to_string sample) h0)
  /\ good 1 (json_written 1 empty_context (to_string sample) h0)
  /\ (no_leak h0 -> no_leak (json_written 1 empty_context (to_string sample) h0)).
Proof.
  exact (result_json_steps h0 1 empty_context (example_host_wf _) (example_host_context _)
           sample _ _ sample_written).
Defined.

End JsonExamples.
