(* ===== verification/Boundary.v ===== *)
(** * Across the boundary: what is written is what is read

    The result of one function is the argument of the next: the host hands
    the result of a context on as a value ([Host.deliver]).  This file
    composes the setters of [ResultApi] with the accessors of [ValueApi]
    through that step: each kind of result is read back as it was written,
    with the exceptions the theorems name (an empty blob, a pointer that is
    reclaimed while the host still owns it).  A text is the encoding of a
    sequence of scalar values ([Unicode.encode]); a JSON value is read back
    as its text with the subtype 74, a boolean as the integer 0 or 1.  A
    NaN is stored as NULL, so the text 'nan' stored through
    [ColumnAffinity::result_text] under the Real or the Numeric affinity is
    read as NULL ([affinity_nan_unreadable]). *)

From Stdlib Require Import ZArith Lia List String Ascii.
From stdpp Require Import base tactics option list gmap.
From S2P Require Import Prelude RustStr RustNum Utf8 Unicode Errors Host Mprintf ValueApi ResultApi Affinity AuxData Coercion Session Json.

#[local] Open Scope Z_scope.
#[local] Open Scope rs_scope.

(** ** The state after the host has handed a result on *)

Definition delivered (v : Z) (x : sql_value) (h : host) : host :=
  mkHost (heap h) (next_addr h) (<[v := x]> (values h)) (contexts h) (writes h)
    (sqlite_oom h).

(** A function body [f], then the host binding the result of [ctx] to the
    handle [v], then the next function body [g]. *)
Definition then_read {A B} (f : exec host A) (ctx v : Z) (g : exec host B) : exec host B :=
  f ;; deliver ctx v ;; g.

(** The caller drops the box [value_pointer] gave it. *)
Definition reclaim `{HostCoercion} (T : Z) (v : Z) (c_name : list Z) : exec host unit :=
  let! b := value_pointer T v c_name in
  match b with
  | Some p => drop_box T p
  | None => ret tt
  end.

Section RoundTrips.
Context `{HostCoercion}.

Lemma deliver_eq ctx v c h :
  contexts h !! ctx = Some c ->
  deliver ctx v h = Ret (tt, delivered v (value_of_result (ctx_result c)) h).
Proof. intros Hc. unfold deliver, get_context, bind. rewrite Hc. reflexivity. Qed.

Lemma values_delivered v x h : values (delivered v x h) !! v = Some x.
Proof. apply lookup_insert_eq. Qed.

Lemma then_read_eq {A B} (f : exec host A) (g : exec host B) ctx v c' a h h1 :
  f h = Ret (a, h1) -> contexts h1 !! ctx = Some c' ->
  then_read f ctx v g h = g (delivered v (value_of_result (ctx_result c')) h1).
Proof.
  intros Hf Hc'. unfold then_read, bind. rewrite Hf, (deliver_eq ctx v c' h1 Hc'). reflexivity.
Qed.

(** Reading after a write: the reader runs on the state where [v] is the
    value of the result. *)
Lemma then_read_wrote {A B} (f : exec host A) (g : exec host B) ctx v c r a h h0 :
  f h = Ret (a, wrote ctx c r h0) ->
  then_read f ctx v g h = g (delivered v (value_of_result (Some r)) (wrote ctx c r h0)).
Proof.
  intros Hf. unfold then_read, bind. rewrite Hf.
  rewrite (deliver_eq ctx v _ _ (contexts_wrote ctx c r h0)). reflexivity.
Qed.

Section Written.
Context (h : host) (ctx v : Z) (c : sqlite3_context).
Hypothesis (Hwf : host_wf h) (Hc : contexts h !! ctx = Some c).

Lemma result_text_wrote text :
  ~ In 0 text -> in_i32 (str_len text) = true ->
  result_text ctx text h = Ret (Ok tt, text_written ctx c text h).
Proof.
  intros Hn Hl. rewrite (result_text_eq h ctx c text Hwf Hc), (cstring_new_clean text Hn), Hl.
  reflexivity.
Qed.

(** A text written with [result_text] is read back by [value_text] as it
    was written, and by [value_type] as Text. *)
Lemma text_roundtrip_bytes text :
  ~ In 0 text -> in_i32 (str_len text) = true -> is_utf8 text = true ->
  exists h', then_read (result_text ctx text) ctx v (value_text v) h = Ret (Ok text, h')
    /\ then_read (result_text ctx text) ctx v (value_type v) h = Ret (ValueType.Text, h').
Proof.
  intros Hn Hl Hu. eexists.
  rewrite !(then_read_wrote _ _ ctx v c _ _ h _ (result_text_wrote text Hn Hl)).
  rewrite (value_text_eq v _ _ (values_delivered _ _ _)).
  rewrite (value_type_eq v _ _ (values_delivered _ _ _)).
  cbn [value_of_result content tag_of]. unfold decoded.
  rewrite (up_to_nul_clean text Hn). apply from_utf8_is_utf8 in Hu. rewrite Hu.
  split; reflexivity.
Qed.

(** C6: a string written with [result_text] is read back by [value_text] as
    it was written, and by [value_type] as Text: every [&str], the encoding
    of any sequence of Unicode scalar values, that holds no U+0000 and is
    shorter than 2^31 bytes. *)
Theorem text_roundtrip cs :
  Forall (fun c => scalar c = true) cs -> ~ In 0 cs ->
  in_i32 (str_len (encode cs)) = true ->
  exists h',
    then_read (result_text ctx (encode cs)) ctx v (value_text v) h
    = Ret (Ok (encode cs), h')
    /\ then_read (result_text ctx (encode cs)) ctx v (value_type v) h
       = Ret (ValueType.Text, h').
Proof.
  intros Hcs Hn Hl. apply text_roundtrip_bytes; [|exact Hl|].
  - rewrite encode_nul by exact Hcs. exact Hn.
  - apply from_utf8_is_utf8, from_utf8_encode, Hcs.
Qed.

(** An integer written with [result_int64] is read back by
    [value_int64]; one written with [result_int] is read back by [value_int]
    when it is of 32 bits. *)
Theorem integer_roundtrip i :
  (exists h', then_read (result_int64 ctx i) ctx v (value_int64 v) h = Ret (i, h')) /\
  (in_i32 i = true ->
   exists h', then_read (result_int ctx i) ctx v (value_int v) h = Ret (i, h')).
Proof.
  split; [|intros Hi]; eexists.
  - rewrite (then_read_wrote _ _ ctx v c _ _ h _ (@set_result_wf layer_destructors h ctx c (ResInt64 i) Hwf Hc)).
    unfold value_int64, sqlite3ext_value_int64.
    rewrite (with_value_eq _ v _ _ (values_delivered _ _ _)). reflexivity.
  - rewrite (then_read_wrote _ _ ctx v c _ _ h _ (@set_result_wf layer_destructors h ctx c (ResInt i) Hwf Hc)).
    unfold value_int, sqlite3ext_value_int.
    rewrite (with_value_eq _ v _ _ (values_delivered _ _ _)).
    cbn [value_of_result int64_of]. rewrite (as_i32_id i Hi). reflexivity.
Qed.

Lemma result_double_wrote f :
  result_double ctx f h = Ret (tt, wrote ctx c (ResDouble f) (released ctx c h)).
Proof. exact (@set_result_wf layer_destructors h ctx c (ResDouble f) Hwf Hc). Qed.

(** A double written with [result_double] is read back by
    [value_double], unless it is a NaN. *)
Theorem double_roundtrip f :
  is_nan f = false ->
  exists h', then_read (result_double ctx f) ctx v (value_double v) h = Ret (f, h').
Proof.
  intros Hf. eexists. rewrite (then_read_wrote _ _ ctx v c _ _ h _ (result_double_wrote f)).
  unfold value_double, sqlite3ext_value_double.
  rewrite (with_value_eq _ v _ _ (values_delivered _ _ _)).
  cbn [value_of_result]. rewrite Hf. reflexivity.
Qed.

(** SQLite has no NaN: one written with [result_double] is stored as NULL,
    so the next function reads a value of type Null, and [value_text] on it
    is undefined. *)
Theorem nan_roundtrip f :
  is_nan f = true ->
  (exists h', then_read (result_double ctx f) ctx v (value_type v) h = Ret (ValueType.Null, h'))
  /\ then_read (result_double ctx f) ctx v (value_text v) h = Undef.
Proof.
  intros Hf. rewrite !(then_read_wrote _ _ ctx v c _ _ h _ (result_double_wrote f)).
  rewrite (value_type_eq v _ _ (values_delivered _ _ _)).
  rewrite (value_text_eq v _ _ (values_delivered _ _ _)).
  cbn [value_of_result]. rewrite Hf. split; [eexists|]; reflexivity.
Qed.

(** A blob of at least one byte written with [result_blob] is read back
    by [value_blob]; the empty blob is written, and reading it back is
    undefined. *)
Theorem blob_roundtrip blob :
  in_i32 (str_len blob) = true ->
  exists h', then_read (result_blob ctx blob) ctx v (value_blob v) h =
             match blob with [] => Undef | _ => Ret (blob, h') end.
Proof.
  intros Hl. eexists.
  rewrite (then_read_wrote _ _ ctx v c _ _ h _ (result_blob_eq h ctx c blob Hwf Hc Hl)).
  rewrite (value_blob_eq v _ _ (values_delivered _ _ _)).
  cbn [value_of_result]. unfold blob_buffer, byte_count. cbn [content].
  destruct blob as [|b r]; [reflexivity|]. cbn [from_raw_parts].
  apply in_i32_spec in Hl. unfold i32_max in Hl.
  pose proof (str_len_nonneg (b :: r)) as Hp.
  rewrite as_usize_id by (unfold usize_max; lia).
  replace (_ <=? _) with true by lia.
  unfold ret, str_len. rewrite Nat2Z.id, firstn_all. reflexivity.
Qed.

(** After [result_null] the next function sees a NULL value:
    [value_text_notnull] fails with the message about the unexpected null. *)
Theorem null_roundtrip :
  exists h', then_read (result_null ctx) ctx v (value_text_notnull v) h =
             Ret (Err unexpected_null, h')
    /\ then_read (result_null ctx) ctx v (value_type v) h = Ret (ValueType.Null, h').
Proof.
  eexists.
  rewrite !(then_read_wrote _ _ ctx v c _ _ h _ (@set_result_wf layer_destructors h ctx c ResNull Hwf Hc)).
  rewrite (value_text_notnull_eq v _ _ (values_delivered _ _ _)).
  rewrite (value_type_eq v _ _ (values_delivered _ _ _)). split; reflexivity.
Qed.

(** ** Pointers *)

Lemma heap_delivered x h0 : heap (delivered v x h0) = heap h0.
Proof. reflexivity. Qed.

(** The value the next function sees after [result_pointer]. *)
Lemma value_pointer_written T name object c_name :
  value_pointer T v c_name
    (delivered v (SqlPointer (next_addr h) name) (pointer_written T ctx c name object h)) =
  match cstr_bytes c_name, cstr_bytes name with
  | Some asked, Some bound =>
    Ret (if bool_decide (asked = bound) then Some (next_addr h) else None,
         delivered v (SqlPointer (next_addr h) name) (pointer_written T ctx c name object h))
  | _, _ => Undef
  end.
Proof.
  unfold value_pointer, sqlite3ext_value_pointer, bind at 1, bind at 1.
  rewrite (with_value_eq _ v _ _ (values_delivered _ _ _)). cbn [id].
  destruct (cstr_bytes c_name) as [asked|]; [|reflexivity].
  destruct (cstr_bytes name) as [bound|]; [|reflexivity].
  cbn [lift_opt]. unfold bind, ret.
  case_bool_decide as E.
  - pose proof (wf_null h Hwf) as Hp. replace (next_addr h =? 0) with false by lia.
    unfold box_from_raw, rust_deref, bind. rewrite heap_delivered.
    unfold pointer_written. rewrite heap_wrote, (released_fresh h ctx c _ Hwf Hc).
    unfold boxed. rewrite bool_decide_eq_true_2 by reflexivity. reflexivity.
  - reflexivity.
Qed.

(** A pointer written with [result_pointer] is found by [value_pointer]
    under the same name, and not under another; the caller then has the box
    the host still holds with [pointer_destroy]. *)
Theorem pointer_roundtrip T name object c_name asked bound :
  cstr_bytes name = Some bound -> cstr_bytes c_name = Some asked ->
  exists h',
    then_read (result_pointer T ctx name object) ctx v (value_pointer T v c_name) h =
      Ret (if bool_decide (asked = bound) then Some (next_addr h) else None, h')
    /\ held_at h' (ResultSlot ctx) = Some (next_addr h, pointer_destroy_fn T).
Proof.
  intros Hb Ha. eexists.
  rewrite (then_read_eq _ _ ctx v _ _ h _ (result_pointer_eq T h ctx c name object Hwf Hc)
             (contexts_pointer_written T h ctx c name object)).
  cbn [ctx_result value_of_result]. rewrite (value_pointer_written T name object c_name), Ha, Hb.
  split; [reflexivity|].
  unfold held_at. cbn [slot_context]. change (contexts (delivered _ _ ?x)) with (contexts x).
  rewrite contexts_pointer_written. reflexivity.
Qed.

Lemma heap_pointer_written T name object :
  heap (pointer_written T ctx c name object h) !! next_addr h = Some (boxed T object).
Proof. unfold pointer_written. rewrite heap_wrote. apply (released_fresh h ctx c _ Hwf Hc). Qed.

(** C14: the box [value_pointer] returns is owned twice: when the caller drops
    it and the host then lets go of the result, [pointer_destroy] frees a
    cell that is already freed. *)
Theorem pointer_double_free T name object bound :
  cstr_bytes name = Some bound ->
  (then_read (result_pointer T ctx name object) ctx v (reclaim T v name) ;; finish ctx) h
  = Undef.
Proof.
  intros Hb. unfold bind at 1.
  rewrite (then_read_eq _ _ ctx v _ _ h _ (result_pointer_eq T h ctx c name object Hwf Hc)
             (contexts_pointer_written T h ctx c name object)).
  cbn [ctx_result value_of_result]. unfold reclaim, bind at 1.
  rewrite (value_pointer_written T name object name), Hb.
  rewrite bool_decide_eq_true_2 by reflexivity.
  rewrite (drop_box_live T _ object
             (delivered v (SqlPointer (next_addr h) name) (pointer_written T ctx c name object h))
             (heap_pointer_written T name object)).
  eapply (finish_freed _ ctx _ (next_addr h) (pointer_destroy_fn T));
    [exact (contexts_pointer_written T h ctx c name object) | reflexivity | reflexivity |].
  apply lookup_insert_eq.
Qed.

(** A name without a terminating nul makes the lookup undefined: the
    slice is passed as a C string without a check. *)
Theorem pointer_name_unterminated T name object :
  cstr_bytes name = None ->
  then_read (result_pointer T ctx name object) ctx v (value_pointer T v name) h = Undef.
Proof.
  intros Hb.
  rewrite (then_read_eq _ _ ctx v _ _ h _ (result_pointer_eq T h ctx c name object Hwf Hc)
             (contexts_pointer_written T h ctx c name object)).
  cbn [ctx_result value_of_result]. rewrite (value_pointer_written T name object name), Hb. reflexivity.
Qed.

End Written.
End RoundTrips.

(** ** JSON and booleans *)

Section Composite.
Context `{HostCoercion} `{FloatFormat}.
Context (h : host) (ctx v : Z) (c : sqlite3_context).
Hypothesis (Hwf : host_wf h) (Hc : contexts h !! ctx = Some c).

Lemma contexts_json_written text :
  contexts (json_written ctx c text h) !! ctx
  = Some (mkContext (Some (text_result h text)) (74 mod 256) (ctx_auxdata c)).
Proof. unfold json_written, subtyped. cbn [contexts set_contexts]. apply lookup_insert_eq. Qed.

(** The next function reads the text of a JSON value written with
    [result_json]. *)
Lemma json_read {B} (g : exec host B) value :
  in_i32 (str_len (Json.to_string value)) = true ->
  then_read (result_json Json.Value Json.to_string ctx value) ctx v g h
  = g (delivered v (SqlText (Json.to_string value))
         (json_written ctx c (Json.to_string value) h)).
Proof.
  intros Hl. pose proof (result_json_eq h ctx c Hwf Hc value) as Hj. rewrite Hl in Hj.
  rewrite (then_read_eq _ _ ctx v _ _ h _ Hj (contexts_json_written _)). reflexivity.
Qed.

(** C31: a JSON value written with [result_json] is read back by [value_text]
    as its compact text, and by [value_type] as Text: the text holds no nul
    byte and is valid UTF-8 whenever the strings of the value are, which the
    type [String] of Rust guarantees. *)
Theorem json_roundtrip value :
  Json.utf8_value value = true ->
  in_i32 (str_len (Json.to_string value)) = true ->
  exists h',
    then_read (result_json Json.Value Json.to_string ctx value) ctx v (value_text v) h
    = Ret (Ok (Json.to_string value), h')
    /\ then_read (result_json Json.Value Json.to_string ctx value) ctx v (value_type v) h
       = Ret (ValueType.Text, h').
Proof.
  intros Hu Hl. eexists. rewrite !json_read by exact Hl.
  rewrite (value_text_eq v _ _ (values_delivered _ _ _)).
  rewrite (value_type_eq v _ _ (values_delivered _ _ _)).
  cbn [content tag_of]. unfold decoded.
  rewrite (up_to_nul_clean _ (to_string_clean value)).
  pose proof (to_string_utf8 value Hu) as Hv. apply from_utf8_is_utf8 in Hv.
  rewrite Hv. split; reflexivity.
Qed.

(** A boolean written with [result_bool] is read back by [value_int] as 1
    or 0. *)
Theorem bool_roundtrip (b : bool) :
  exists h',
    then_read (result_bool ctx b) ctx v (value_int v) h
    = Ret (if b then 1 else 0, h').
Proof.
  unfold result_bool. destruct b; eexists.
  - rewrite (then_read_wrote _ _ ctx v c _ _ h _
               (@set_result_wf layer_destructors h ctx c (ResInt 1) Hwf Hc)).
    unfold value_int, sqlite3ext_value_int.
    rewrite (with_value_eq _ v _ _ (values_delivered _ _ _)). reflexivity.
  - rewrite (then_read_wrote _ _ ctx v c _ _ h _
               (@set_result_wf layer_destructors h ctx c (ResInt 0) Hwf Hc)).
    unfold value_int, sqlite3ext_value_int.
    rewrite (with_value_eq _ v _ _ (values_delivered _ _ _)). reflexivity.
Qed.

(** ** After the coercion of an affinity *)

Lemma emit_state_wrote e : exists h0, emit_state ctx c e h = wrote ctx c (emitted h e) h0.
Proof. destruct e; eexists; reflexivity. Qed.

(** A reader after [ColumnAffinity::result_text] runs on the value of the
    emission. *)
Lemma affinity_read {B} (g : exec host B) a s :
  (is_text (coerce a s) = true -> ~ In 0 s /\ in_i32 (str_len s) = true) ->
  exists h1,
    then_read (ColumnAffinity.result_text a ctx s) ctx v g h
    = g (delivered v (value_of_result (Some (emitted h (coerce a s)))) h1).
Proof.
  intros Hok. destruct (emit_state_wrote (coerce a s)) as [h0 E].
  exists (wrote ctx c (emitted h (coerce a s)) h0).
  apply (then_read_wrote _ g ctx v c _ (Ok tt) h h0). rewrite <- E.
  exact (result_text_emits h ctx c Hwf Hc a s Hok).
Qed.

(** C22: the text 'nan', in any case and with any sign, stored under the Real
    or the Numeric affinity is parsed as a NaN and written with
    [result_double]; SQLite stores NULL, so the next function reads a value
    of type Null, on which [value_text] is undefined. *)
Theorem affinity_nan_unreadable a s f :
  a = ColumnAffinity.Real \/ a = ColumnAffinity.Numeric ->
  parse_f64 s = Ok f -> is_nan f = true ->
  coerce a s = EmitDouble f
  /\ (exists h', then_read (ColumnAffinity.result_text a ctx s) ctx v (value_type v) h
                 = Ret (ValueType.Null, h'))
  /\ then_read (ColumnAffinity.result_text a ctx s) ctx v (value_text v) h = Undef.
Proof.
  intros Ha Hp Hf. pose proof (coerce_nan a s f Ha Hp Hf) as E. split; [exact E|].
  assert (Hok : is_text (coerce a s) = true -> ~ In 0 s /\ in_i32 (str_len s) = true)
    by (rewrite E; discriminate).
  destruct (affinity_read (value_type v) a s Hok) as [h1 ->].
  destruct (affinity_read (value_text v) a s Hok) as [h2 ->].
  rewrite (value_type_eq v _ _ (values_delivered _ _ _)).
  rewrite (value_text_eq v _ _ (values_delivered _ _ _)).
  rewrite E. cbn [emitted value_of_result]. rewrite Hf. split; [eexists|]; reflexivity.
Qed.

End Composite.

(** ** The theorems at concrete inputs *)

Module BoundaryExamples.
#[local] Existing Instance trivial_coercion.
#[local] Existing Instance plain_floats.

Import ResultExamples.

(** The name of a pointer, with its terminator. *)
Definition tag : list Z := lit "tag" ++ [0].

Lemma text_roundtrip_witness :
  exists h',
    then_read (result_text 1 (encode [97; 98; 99])) 1 100 (value_text 100) h0
    = Ret (Ok (encode [97; 98; 99]), h')
    /\ then_read (result_text 1 (encode [97; 98; 99])) 1 100 (value_type 100) h0
       = Ret (ValueType.Text, h').
Proof.
  apply (text_roundtrip h0 1 100 empty_context (example_host_wf []) (example_host_context []));
    [repeat constructor | cbn; intuition discriminate | reflexivity].
Defined.

Lemma json_roundtrip_witness :
  exists h',
    then_read (result_json Json.Value Json.to_string 1 JsonExamples.sample) 1 100
      (value_text 100) h0
    = Ret (Ok (Json.to_string JsonExamples.sample), h')
    /\ then_read (result_json Json.Value Json.to_string 1 JsonExamples.sample) 1 100
         (value_type 100) h0
       = Ret (ValueType.Text, h').
Proof.
  apply (json_roundtrip h0 1 100 empty_context (example_host_wf []) (example_host_context []));
    reflexivity.
Defined.

Lemma integer_roundtrip_witness :
  (exists h', then_read (result_int64 1 42) 1 100 (value_int64 100) h0 =
              Ret (42, h')) /\
  (in_i32 42 = true ->
   exists h', then_read (result_int 1 42) 1 100 (value_int 100) h0 =
              Ret (42, h')).
Proof.
  apply (integer_roundtrip h0 1 100 empty_context (example_host_wf []) (example_host_context [])).
Defined.

Lemma double_roundtrip_witness :
  exists h', then_read (result_double 1 (F64Dec false 15 (-1))) 1 100 (value_double 100) h0 =
             Ret (F64Dec false 15 (-1), h').
Proof.
  apply (double_roundtrip h0 1 100 empty_context (example_host_wf []) (example_host_context [])).
  reflexivity.
Defined.

Lemma nan_roundtrip_witness :
  (exists h', then_read (result_double 1 (F64Nan false)) 1 100 (value_type 100) h0
              = Ret (ValueType.Null, h'))
  /\ then_read (result_double 1 (F64Nan false)) 1 100 (value_text 100) h0 = Undef.
Proof.
  apply (nan_roundtrip h0 1 100 empty_context (example_host_wf []) (example_host_context [])).
  reflexivity.
Defined.

Lemma blob_roundtrip_witness :
  exists h', then_read (result_blob 1 []) 1 100 (value_blob 100) h0 =
             match @nil Z with [] => Undef | _ => Ret ([], h') end.
Proof.
  apply (blob_roundtrip h0 1 100 empty_context (example_host_wf []) (example_host_context [])).
  reflexivity.
Defined.

Lemma null_roundtrip_witness :
  exists h', then_read (result_null 1) 1 100 (value_text_notnull 100) h0 =
             Ret (Err unexpected_null, h')
    /\ then_read (result_null 1) 1 100 (value_type 100) h0 = Ret (ValueType.Null, h').
Proof.
  apply (null_roundtrip h0 1 100 empty_context (example_host_wf []) (example_host_context [])).
Defined.

Lemma pointer_roundtrip_witness :
  exists h',
    then_read (result_pointer 7 1 tag [1; 2]) 1 100 (value_pointer 7 100 tag) h0 =
      Ret (if bool_decide (lit "tag" = lit "tag") then Some (next_addr h0) else None, h')
    /\ held_at h' (ResultSlot 1) = Some (next_addr h0, pointer_destroy_fn 7).
Proof.
  apply (pointer_roundtrip h0 1 100 empty_context (example_host_wf []) (example_host_context []));
    reflexivity.
Defined.

Lemma pointer_double_free_witness :
  (then_read (result_pointer 7 1 tag [1; 2]) 1 100 (reclaim 7 100 tag) ;; finish 1) h0 = Undef.
Proof.
  apply (pointer_double_free h0 1 100 empty_context (example_host_wf [])
           (example_host_context []) 7 tag [1; 2] (lit "tag")).
  reflexivity.
Defined.

Lemma pointer_name_unterminated_witness :
  then_read (result_pointer 7 1 (lit "tag") [1; 2]) 1 100 (value_pointer 7 100 (lit "tag")) h0
  = Undef.
Proof.
  apply (pointer_name_unterminated h0 1 100 empty_context (example_host_wf [])
           (example_host_context [])).
  reflexivity.
Defined.

Lemma affinity_nan_unreadable_witness :
  coerce ColumnAffinity.Real (lit "NaN") = EmitDouble (F64Nan false)
  /\ (exists h', then_read (ColumnAffinity.result_text ColumnAffinity.Real 1 (lit "NaN")) 1 100
                   (value_type 100) h0 = Ret (ValueType.Null, h'))
  /\ then_read (ColumnAffinity.result_text ColumnAffinity.Real 1 (lit "NaN")) 1 100
       (value_text 100) h0 = Undef.
Proof.
  apply (affinity_nan_unreadable h0 1 100 empty_context (example_host_wf [])
           (example_host_context []));
    [left; reflexivity | reflexivity | reflexivity].
Defined.

End BoundaryExamples.
