(* ===== verification/Casts.v ===== *)
(** * The casts of SQLite, and what a reader of another type sees

    A value of SQLite is read as the type the accessor asks for: an integer
    read with [value_text] is its decimal text, a text read with
    [value_int64] is cast to an integer.  [Host] leaves these conversions to
    the class [HostCoercion]; this file gives the instance SQLite documents
    for integers ("CAST expressions" of lang_expr.html, and the table of
    c3ref/value_blob.html):
    - an integer is rendered in decimal ([RustNum.itoa]);
    - a text is cast to the integer of its longest prefix that is one, after
      leading white space; to 0 if there is none; to the nearest bound when
      the integer is outside 64 bits ([cast_integer]);
    - a double is cast to an integer by truncation toward zero, to the
      nearest bound when it is outside 64 bits ([double_to_integer], on the
      double of [Float64]).
    The text of a double and the double of a text stay parameters
    ([FloatText]).

    The layer parses with [str::parse] and SQLite casts by its own rules.
    The theorems compare them: on every text [parse::<i64>] accepts, the cast
    is the number parsed ([parse_i64_cast]), so a text and an integer go
    through the boundary and come back ([text_integer_roundtrip],
    [integer_text_roundtrip]); a reader of integers cannot tell whether a
    text was stored through an affinity that emits no double or as it is
    ([affinity_int64_reader]), and can tell under the affinities that emit
    doubles ([real_affinity_visible]). *)

From Stdlib Require Import ZArith Lia List String Ascii.
From Stdlib Require Import Floats.SpecFloat.
From stdpp Require Import base tactics option list gmap.
From S2P Require Import Prelude RustStr RustNum Float64 Utf8 Unicode Errors Host Mprintf ValueApi ResultApi Affinity AuxData Coercion Session Json Boundary.

#[local] Open Scope Z_scope.
#[local] Open Scope rs_scope.

(** ** The casts *)

(** To the nearest integer of 64 bits. *)
Definition saturate (v : Z) : Z := Z.max i64_min (Z.min i64_max v).

(** The integer of the digits at the front of a text. *)
Fixpoint digits_prefix (acc : Z) (s : list Z) : Z :=
  match s with
  | [] => acc
  | c :: r =>
    match to_digit c with
    | Some x => digits_prefix (acc * 10 + x) r
    | None => acc
    end
  end.

Fixpoint skip_spaces (s : list Z) : list Z :=
  match s with
  | c :: r => if is_ascii_ws c then skip_spaces r else s
  | [] => []
  end.

(** CAST of a text to INTEGER. *)
Definition cast_integer (s : list Z) : Z :=
  match skip_spaces s with
  | [] => 0
  | c :: r =>
    if c =? 45 then saturate (- digits_prefix 0 r)
    else if c =? 43 then saturate (digits_prefix 0 r)
    else saturate (digits_prefix 0 (c :: r))
  end.

(** The integer part of a double, toward zero. *)
Definition truncate (x : spec_float) : Z :=
  match x with
  | S754_zero _ | S754_nan => 0
  | S754_infinity negative => if negative then i64_min else i64_max
  | S754_finite negative m e =>
    let a := if 0 <=? e then Z.pos m * 2 ^ e else Z.pos m / 2 ^ (- e) in
    saturate (if negative then - a else a)
  end.

(** CAST of a REAL to INTEGER. *)
Definition double_to_integer (f : f64) : Z := truncate (binary64_of f).

(** The double of an integer: the nearest one. *)
Definition integer_to_double (i : Z) : f64 := F64Dec (i <? 0) (Z.abs i) 0.

(** What stays a parameter: the text of a double, and the double of a
    text. *)
Class FloatText : Type := {
  float_to_text : f64 -> list Z;
  text_to_float : list Z -> f64;
  float_to_text_no_nul : forall f, ~ In 0 (float_to_text f)
}.

Lemma saturate_range v : in_i64 (saturate v) = true.
Proof. unfold saturate, in_i64, i64_min, i64_max. lia. Qed.

Lemma saturate_id v : in_i64 v = true -> saturate v = v.
Proof. unfold saturate, in_i64, i64_min, i64_max. lia. Qed.

Lemma cast_integer_range s : in_i64 (cast_integer s) = true.
Proof. unfold cast_integer. repeat case_match; auto using saturate_range. Qed.

Lemma double_to_integer_range f : in_i64 (double_to_integer f) = true.
Proof.
  unfold double_to_integer, truncate. repeat case_match; auto using saturate_range.
Qed.

(** The conversions of SQLite. *)
Definition sqlite_coercion `{FloatText} : HostCoercion := {|
  int_to_text := itoa;
  double_to_text := float_to_text;
  text_to_int64 := cast_integer;
  text_to_double := text_to_float;
  double_to_int64 := double_to_integer;
  int_to_double := integer_to_double;
  int_to_text_no_nul := itoa_clean;
  double_to_text_no_nul := float_to_text_no_nul;
  text_to_int64_range := cast_integer_range;
  double_to_int64_range := double_to_integer_range
|}.

(** What a reader of integers gets for an emission. *)
Definition read_integer (e : emission) : Z :=
  match e with
  | EmitInt i | EmitInt64 i => i
  | EmitDouble f => if is_nan f then 0 else double_to_integer f
  | EmitText s => cast_integer s
  end.

(** ** The cast against the parser *)

Lemma digits_prefix_value ds : forall acc v,
  digits_value acc ds = Some v -> digits_prefix acc ds = v.
Proof.
  induction ds as [|c r IH]; intros acc v; cbn [digits_value digits_prefix].
  - congruence.
  - destruct (to_digit c); [apply IH | discriminate].
Qed.

Lemma to_digit_no_space c x : to_digit c = Some x -> is_ascii_ws c = false.
Proof. intros [? ->]%to_digit_Some. unfold is_ascii_ws. lia. Qed.

(** On a text that denotes an integer of 64 bits, the cast is that
    integer. *)
Lemma int_value_cast s v : int_value s = Some v -> in_i64 v = true -> cast_integer s = v.
Proof.
  destruct s as [|c rest]; [discriminate|]. unfold int_value, cast_integer. intros Hv Hr.
  destruct (Z.eqb_spec c 43) as [->|H43]; [|destruct (Z.eqb_spec c 45) as [->|H45]].
  - cbn. destruct (is_empty rest); [discriminate|].
    rewrite (digits_prefix_value _ _ _ Hv). apply saturate_id, Hr.
  - cbn. destruct (is_empty rest); [discriminate|].
    destruct (digits_value 0 rest) as [w|] eqn:E; [|discriminate]. injection Hv as <-.
    rewrite (digits_prefix_value _ _ _ E). apply saturate_id, Hr.
  - cbn [digits_value] in Hv. destruct (to_digit c) as [x|] eqn:E; [|discriminate].
    cbn [skip_spaces]. rewrite (to_digit_no_space c x E).
    destruct (Z.eqb_spec c 45); [contradiction|]. destruct (Z.eqb_spec c 43); [contradiction|].
    cbn [digits_prefix]. rewrite E, (digits_prefix_value _ _ _ Hv). apply saturate_id, Hr.
Qed.

(** SQLite casts every text that [parse::<i64>] accepts to the number
    parsed. *)
Theorem parse_i64_cast s v : parse_i64 s = Ok v -> cast_integer s = v.
Proof. intros [Hv Hr]%parse_i64_spec. exact (int_value_cast s v Hv Hr). Qed.

(** The cast inverts the printer. *)
Theorem cast_itoa i : in_i64 i = true -> cast_integer (itoa i) = i.
Proof. intros Hi. apply parse_i64_cast, itoa_parse, Hi. Qed.

(** An emission that is no double is read as the cast of the text. *)
Lemma read_integer_cast a s :
  is_double (coerce a s) = false -> read_integer (coerce a s) = cast_integer s.
Proof.
  intros Hd. destruct (coerce a s) as [i|i|f|t] eqn:E; [| |discriminate|].
  - destruct (coerce_strict a s i (or_introl E)) as (Hv & _).
    symmetry. apply (int_value_cast s i Hv). apply in_i32_in_i64.
    revert E. unfold coerce, integer_tier, real_tier, or_else. rewrite Hv.
    destruct a, (in_i32 i) eqn:E32; repeat case_match; congruence.
  - destruct (coerce_strict a s i (or_intror E)) as (Hv & _).
    symmetry. apply (int_value_cast s i Hv).
    revert E. unfold coerce, integer_tier, real_tier, or_else. rewrite Hv.
    destruct a, (in_i64 i) eqn:E64; repeat case_match; congruence.
  - rewrite (coerce_text a s t E). reflexivity.
Qed.

(** ** Through the boundary *)

Section Readers.
Context {ft : FloatText}.
Context (h : host) (ctx v : Z) (c : sqlite3_context).
Hypothesis (Hwf : host_wf h) (Hc : contexts h !! ctx = Some c).
#[local] Existing Instance sqlite_coercion.

Lemma int64_of_emitted e : int64_of (value_of_result (Some (emitted h e))) = read_integer e.
Proof. destruct e as [i|i|f|s]; cbn; [reflexivity..| |reflexivity]. destruct (is_nan f); reflexivity. Qed.

Lemma value_int64_delivered x h1 :
  value_int64 v (delivered v x h1) = Ret (int64_of x, delivered v x h1).
Proof.
  unfold value_int64, sqlite3ext_value_int64.
  exact (with_value_eq _ v _ _ (values_delivered _ _ _)).
Qed.

(** What a reader of integers gets after [ColumnAffinity::result_text]. *)
Theorem affinity_integer_read a s :
  (is_text (coerce a s) = true -> ~ In 0 s /\ in_i32 (str_len s) = true) ->
  exists h', then_read (ColumnAffinity.result_text a ctx s) ctx v (value_int64 v) h
             = Ret (read_integer (coerce a s), h').
Proof.
  intros Hok. destruct (affinity_read h ctx v c Hwf Hc (value_int64 v) a s Hok) as [h1 ->].
  rewrite value_int64_delivered, int64_of_emitted. eauto.
Qed.

(** A text written as it is and read as an integer is cast. *)
Lemma text_integer_read s :
  ~ In 0 s -> in_i32 (str_len s) = true ->
  exists h', then_read (result_text ctx s) ctx v (value_int64 v) h = Ret (cast_integer s, h').
Proof.
  intros Hn Hl.
  rewrite (then_read_wrote _ _ ctx v c _ _ h _ (result_text_wrote h ctx c Hwf Hc s Hn Hl)).
  rewrite value_int64_delivered. eauto.
Qed.

(** C23: a reader of integers cannot tell whether a text was stored through
    an affinity or as it is, as long as the affinity emits no double:
    [value_int64] returns the cast of the text in both cases, since SQLite
    casts a text the layer has parsed to the number parsed. *)
Theorem affinity_int64_reader a s :
  ~ In 0 s -> in_i32 (str_len s) = true -> is_double (coerce a s) = false ->
  exists h1 h2,
    then_read (ColumnAffinity.result_text a ctx s) ctx v (value_int64 v) h
    = Ret (cast_integer s, h1)
    /\ then_read (result_text ctx s) ctx v (value_int64 v) h = Ret (cast_integer s, h2).
Proof.
  intros Hn Hl Hd. destruct (affinity_integer_read a s (fun _ => conj Hn Hl)) as [h1 H1].
  destruct (text_integer_read s Hn Hl) as [h2 H2]. exists h1, h2.
  rewrite H1, (read_integer_cast a s Hd). auto.
Qed.

(** A text that [parse::<i64>] accepts, written as a text, is read as the
    integer. *)
Theorem text_integer_roundtrip s i :
  parse_i64 s = Ok i -> ~ In 0 s -> in_i32 (str_len s) = true ->
  exists h', then_read (result_text ctx s) ctx v (value_int64 v) h = Ret (i, h').
Proof.
  intros Hp Hn Hl. destruct (text_integer_read s Hn Hl) as [h' E]. exists h'.
  rewrite E, (parse_i64_cast s i Hp). reflexivity.
Qed.

(** An integer written with [result_int64] is read by [value_text] as its
    decimal text, which parses back to the integer. *)
Theorem integer_text_roundtrip i :
  in_i64 i = true ->
  (exists h', then_read (result_int64 ctx i) ctx v (value_text v) h = Ret (Ok (itoa i), h'))
  /\ parse_i64 (itoa i) = Ok i.
Proof.
  intros Hi. split; [|apply itoa_parse, Hi]. eexists.
  rewrite (then_read_wrote _ _ ctx v c _ _ h _
             (@set_result_wf layer_destructors h ctx c (ResInt64 i) Hwf Hc)).
  rewrite (value_text_eq v _ _ (values_delivered _ _ _)).
  cbn [value_of_result content int_to_text sqlite_coercion]. unfold decoded.
  rewrite (up_to_nul_clean _ (itoa_clean i)).
  rewrite (proj1 (from_utf8_is_utf8 _) (is_utf8_ascii _ (itoa_ascii i))). reflexivity.
Qed.

End Readers.

(** ** The theorems at concrete inputs *)

Module CastsExamples.
Import ResultExamples.

Definition plain_text : FloatText := {|
  float_to_text := fun _ => lit "0.0";
  text_to_float := fun _ => F64Dec false 0 0;
  float_to_text_no_nul := fun _ => ltac:(vm_compute; intuition discriminate)
|}.

#[local] Existing Instance plain_text.
#[local] Existing Instance sqlite_coercion.

(** Where the cast and the parser part: white space in front, what follows
    the digits, a number outside 64 bits, no number at all. *)
Example cast_and_parse :
  cast_integer (lit " 12") = 12 /\ is_ok (parse_i64 (lit " 12")) = false
  /\ cast_integer (lit "12abc") = 12 /\ is_ok (parse_i64 (lit "12abc")) = false
  /\ cast_integer (lit "1e3") = 1
  /\ cast_integer (lit "99999999999999999999") = i64_max
  /\ cast_integer (lit "-99999999999999999999") = i64_min
  /\ is_ok (parse_i64 (lit "99999999999999999999")) = false
  /\ cast_integer (lit "abc") = 0 /\ cast_integer (lit "-") = 0 /\ cast_integer [] = 0.
Proof. vm_compute. repeat split. Qed.

(** The double of '2.9' is read as 2, that of '-2.9' as -2, that of '1e30'
    as the largest integer. *)
Example double_to_integer_samples :
  double_to_integer (F64Dec false 29 (-1)) = 2
  /\ double_to_integer (F64Dec true 29 (-1)) = -2
  /\ double_to_integer (F64Dec false 1 30) = i64_max
  /\ double_to_integer (F64Inf true) = i64_min.
Proof. vm_compute. repeat split. Qed.

(** Under the Real affinity the text '1e3' is stored as the double 1000: a
    reader of integers gets 1000, and 1 when the text is stored as it
    is. *)
Example real_affinity_visible :
  (exists h', then_read (ColumnAffinity.result_text ColumnAffinity.Real 1 (lit "1e3")) 1 100
                (value_int64 100) h0 = Ret (1000, h'))
  /\ (exists h', then_read (result_text 1 (lit "1e3")) 1 100 (value_int64 100) h0 = Ret (1, h')).
Proof. split; eexists; vm_compute; reflexivity. Qed.

Lemma parse_i64_cast_witness : cast_integer (lit "-42") = -42.
Proof. apply parse_i64_cast. reflexivity. Defined.

Lemma cast_itoa_witness : cast_integer (itoa i64_min) = i64_min.
Proof. apply cast_itoa. reflexivity. Defined.

Lemma affinity_int64_reader_witness :
  exists h1 h2,
    then_read (ColumnAffinity.result_text ColumnAffinity.Integer 1 (lit "+0042")) 1 100
      (value_int64 100) h0 = Ret (cast_integer (lit "+0042"), h1)
    /\ then_read (result_text 1 (lit "+0042")) 1 100 (value_int64 100) h0
       = Ret (cast_integer (lit "+0042"), h2).
Proof.
  apply (affinity_int64_reader h0 1 100 empty_context (example_host_wf [])
           (example_host_context []));
    [vm_compute; intuition discriminate | reflexivity | reflexivity].
Defined.

Lemma text_integer_roundtrip_witness :
  exists h', then_read (result_text 1 (lit "-42")) 1 100 (value_int64 100) h0 = Ret (-42, h').
Proof.
  apply (text_integer_roundtrip h0 1 100 empty_context (example_host_wf [])
           (example_host_context []));
    [reflexivity | vm_compute; intuition discriminate | reflexivity].
Defined.

Lemma integer_text_roundtrip_witness :
  (exists h', then_read (result_int64 1 (-42)) 1 100 (value_text 100) h0
              = Ret (Ok (itoa (-42)), h'))
  /\ parse_i64 (itoa (-42)) = Ok (-42).
Proof.
  apply (integer_text_roundtrip h0 1 100 empty_context (example_host_wf [])
           (example_host_context [])). reflexivity.
Defined.

End CastsExamples.
