(* ===== verification/Body.v ===== *)
(** * The body of a function

    A function of an extension is Rust code that calls [api.rs]: it reads
    its arguments through the accessors, decides on what it read, and writes
    its result through the setters.  [body] is the tree of such a program:
    each node is one call of the layer ([op], indexed by the type of what the
    call returns) and the subtrees are what the function does with each
    answer.  [denote] runs a body in the monad of the layer; [wp] is its
    weakest precondition.

    The calls that change the state are those of [Session]; the readers
    change nothing ([reader_reads]).  So every run of a body is the run of
    the list of calls it makes ([denote_steps]), and what [Session] proves
    of lists of calls holds of every body.  [tame] is the static condition
    under which a body runs to its end from every good state: every read is
    of a handle of the call and is guarded where the accessor needs a guard
    ([answers] gives the guards what they may assume), every write is one
    the caller may make.

    The struct [Value] is part of the operations: [Value::from], [Value::at]
    and [Value::text_or_else] are calls, [notnull_or] is the pure guard in
    between.  [text_arg] is the idiom of the crate for a text argument, and
    [text_arg_spec] what it returns on every branch. *)

From Stdlib Require Import ZArith Lia List String Ascii.
From stdpp Require Import base tactics option list gmap.
From S2P Require Import Prelude RustStr RustNum Utf8 Errors Host Mprintf ValueApi ResultApi Affinity AuxData Coercion Session.
#[local] Open Scope Z_scope.
#[local] Open Scope rs_scope.

Import ValueType.

(** ** Operations and bodies *)

(** The functions of [api.rs] a body can call, by the type of what each
    returns.  [OpCall] is a call of [Session] whose result, if it has one,
    is dropped; the closure of [Value::text_or_else] is a function on
    errors. *)
Inductive op : Type -> Type :=
| OpValueType (value : Z) : op ValueType
| OpValueText (value : Z) : op (result (list Z) Error)
| OpValueTextNotnull (value : Z) : op (result (list Z) Error)
| OpValueInt (value : Z) : op Z
| OpValueInt64 (value : Z) : op Z
| OpValueDouble (value : Z) : op f64
| OpValueBlob (value : Z) : op (list Z)
| OpValueBytes (value : Z) : op Z
| OpValuePointer (T value : Z) (c_name : list Z) : op (option Z)
| OpAuxdataGet (col : Z) : op Z
| OpResultText (text : list Z) : op (result unit Error)
| OpResultError (text : list Z) : op (result unit Error)
| OpAffinityText (a : ColumnAffinity.ColumnAffinity) (value : list Z) : op (result unit Error)
| OpMprintf (base : list Z) : op (result Z MprintfError)
| OpCall (k : call) : op unit
| OpValueFrom (value : Z) : op (result Value.Value Error)
| OpValueAt (values : list Z) (at_index : nat) : op (option Value.Value)
| OpTextOrElse (self : Value.Value) (error : Error -> Error) : op (result (list Z) Error).

(** A body: it returns, or it calls the layer and goes on with what the call
    returned. *)
Inductive body (A : Type) : Type :=
| Done (a : A)
| Do {X : Type} (o : op X) (k : X -> body A).

Arguments Done {A} a.
Arguments Do {A X} o k.

Fixpoint seq {A B} (b : body A) (f : A -> body B) : body B :=
  match b with
  | Done a => f a
  | Do o k => Do o (fun x => seq (k x) f)
  end.

(** The body that makes the calls [ks] one after the other. *)
Fixpoint of_calls (ks : list call) : body unit :=
  match ks with
  | [] => Done tt
  | k :: ks => Do (OpCall k) (fun _ => of_calls ks)
  end.

(** [value_text] must not be called on a NULL value; its documentation asks
    for a check of the type first: the body that does so. *)
Definition text_if_notnull {A} (value : Z) (on_null : body A)
  (k : result (list Z) Error -> body A) : body A :=
  Do (OpValueType value) (fun t =>
    if bool_decide (t = Null) then on_null else Do (OpValueText value) k).

(** The idiom of the crate for a text argument,
    [Value::at(values, i)?.notnull_or(error)?.text_or_else(|e| e)]: the
    value at an index of the arguments, which must not be NULL, as text. *)
Definition text_arg {A} (values : list Z) (at_index : nat) (error : Error)
  (k : option (result (list Z) Error) -> body A) : body A :=
  Do (OpValueAt values at_index) (fun o =>
    match o with
    | None => k None
    | Some v =>
      match Value.notnull_or v error with
      | Err e => k (Some (Err e))
      | Ok v => Do (OpTextOrElse v id) (fun r => k (Some r))
      end
    end).

(** A reader is an operation that only looks at the state. *)
Definition is_reader {X} (o : op X) : bool :=
  match o with
  | OpResultText _ | OpResultError _ | OpAffinityText _ _ | OpMprintf _ | OpCall _ => false
  | _ => true
  end.

(** The call of [Session] an operation that writes makes. *)
Definition as_call {X} (o : op X) : option call :=
  match o with
  | OpResultText text => Some (CallText text)
  | OpResultError text => Some (CallError text)
  | OpAffinityText a value => Some (CallAffinity a value)
  | OpMprintf base => Some (CallMprintf base)
  | OpCall k => Some k
  | _ => None
  end.

Definition op_leaks {X} (o : op X) : bool :=
  match as_call o with
  | Some k => leaks k
  | None => false
  end.

Section Body.
Context `{HostCoercion}.
Context (ctx : Z).

Definition perform {X} (o : op X) : exec host X :=
  match o in op X return exec host X with
  | OpValueType value => value_type value
  | OpValueText value => value_text value
  | OpValueTextNotnull value => value_text_notnull value
  | OpValueInt value => value_int value
  | OpValueInt64 value => value_int64 value
  | OpValueDouble value => value_double value
  | OpValueBlob value => value_blob value
  | OpValueBytes value => value_bytes value
  | OpValuePointer T value c_name => value_pointer T value c_name
  | OpAuxdataGet col => auxdata_get ctx col
  | OpResultText text => result_text ctx text
  | OpResultError text => result_error ctx text
  | OpAffinityText a value => ColumnAffinity.result_text a ctx value
  | OpMprintf base => mprintf base
  | OpCall k => run ctx k
  | OpValueFrom value => Value.from value
  | OpValueAt values at_index => Value.at_ values at_index
  | OpTextOrElse self error => Value.text_or_else self (fun e => ret (error e))
  end.

Fixpoint denote {A} (b : body A) : exec host A :=
  match b with
  | Done a => ret a
  | Do o k => let! x := perform o in denote (k x)
  end.

(** The weakest precondition of a body: it runs to its end, without panic
    or undefined behaviour, and [Q] holds of what it returns. *)
Fixpoint wp {A} (b : body A) (Q : A -> host -> Prop) (h : host) : Prop :=
  match b with
  | Done a => Q a h
  | Do o k => exists x h', perform o h = Ret (x, h') /\ wp (k x) Q h'
  end.


(** What a reader can return, where the guards of a body depend on it: the
    tag and the length of a value are those of the value, and a [Value] holds
    the handle it was made of with the tag of its value. *)
Definition answers (vs : gmap Z sql_value) {X} (o : op X) : X -> Prop :=
  match o in op X return X -> Prop with
  | OpValueType value => fun t => exists x, vs !! value = Some x /\ t = tag_of x
  | OpValueBytes value => fun n => exists x, vs !! value = Some x /\ n = byte_count x
  | OpValueFrom value =>
    fun r => exists x, vs !! value = Some x /\ r = Ok (Value.mkValue value (tag_of x))
  | OpValueAt values at_index =>
    fun o => match values !! at_index with
             | Some value =>
               exists x, vs !! value = Some x /\ o = Some (Value.mkValue value (tag_of x))
             | None => o = None
             end
  | _ => fun _ => True
  end.

(** What the idiom yields on the values [vs]: nothing past the end of the
    arguments, the error for NULL, the text or the error of its decoding
    otherwise; undefined when the handle is none of the call. *)
Definition text_of (vs : gmap Z sql_value) (values : list Z) (at_index : nat) (error : Error)
  : option (option (result (list Z) Error)) :=
  match values !! at_index with
  | None => Some None
  | Some value =>
    match vs !! value with
    | None => None
    | Some x =>
      Some (Some (match content x with
                  | None => Err error
                  | Some b => decoded b
                  end))
    end
  end.

(** [holds vs value P]: [value] is a handle of [vs] and [P] holds of what it
    denotes. *)
Definition holds (vs : gmap Z sql_value) (value : Z) (P : sql_value -> bool) : bool :=
  match vs !! value with
  | Some x => P x
  | None => false
  end.

(** The operations that are defined whatever the state of the heap: a read
    of a handle of the call that is guarded or needs no guard, a write the
    caller may make ([Session.safe]). *)
Definition tame_op (vs : gmap Z sql_value) {X} (o : op X) : bool :=
  match o with
  | OpValueType value | OpValueTextNotnull value | OpValueInt value | OpValueInt64 value
  | OpValueDouble value | OpValueBytes value => holds vs value (fun _ => true)
  | OpValueText value => holds vs value (fun x => negb (bool_decide (tag_of x = Null)))
  | OpValueBlob value =>
    holds vs value (fun x => (0 <? byte_count x) && (byte_count x <=? usize_max))
  | OpValuePointer _ value _ =>
    holds vs value (fun x => match x with SqlPointer _ _ => false | _ => true end)
  | OpAuxdataGet _ => true
  | OpResultText _ | OpResultError _ | OpAffinityText _ _ => true
  | OpMprintf base => printable base
  | OpCall k => safe k
  | OpValueFrom value => holds vs value (fun _ => true)
  | OpValueAt values at_index =>
    match values !! at_index with
    | Some value => holds vs value (fun _ => true)
    | None => true
    end
  | OpTextOrElse self _ =>
    holds vs (Value.value self) (fun x => negb (bool_decide (tag_of x = Null)))
  end.

(** Every operation of the body satisfies [P], along every answer the
    readers can give. *)
Fixpoint admits (vs : gmap Z sql_value) (P : forall X, op X -> bool) {A} (b : body A) : Prop :=
  match b with
  | Done _ => True
  | Do o k => P _ o = true /\ forall x, answers vs o x -> admits vs P (k x)
  end.

Definition tame (vs : gmap Z sql_value) {A} (b : body A) : Prop :=
  admits vs (@tame_op vs) b.

Definition frugal (vs : gmap Z sql_value) {A} (b : body A) : Prop :=
  admits vs (fun X o => negb (op_leaks o)) b.

(** The calls a body makes when it runs from [h]. *)
Fixpoint calls_of {A} (b : body A) (h : host) : list call :=
  match b with
  | Done _ => []
  | Do o k =>
    match perform o h with
    | Ret (x, h') => option_list (as_call o) ++ calls_of (k x) h'
    | _ => []
    end
  end.

(** ** Lemmas: readers and writers *)

Lemma reader_reads {X} (o : op X) : is_reader o = true -> reads (perform o).
Proof.
  destruct o; try discriminate; intros _; cbn [perform];
    unfold value_type, value_text, value_text_notnull, value_int, value_int64, value_double,
      value_blob, value_bytes, value_pointer, box_from_raw, cstr_from_ptr, from_raw_parts,
      auxdata_get, Value.from, Value.at_, Value.text_or_else, value_type, value_text,
      cstr_from_ptr, sqlite3ext_value_type, sqlite3ext_value_text, sqlite3ext_value_blob,
      sqlite3ext_value_bytes, sqlite3ext_value_int, sqlite3ext_value_int64,
      sqlite3ext_value_double, sqlite3ext_value_pointer, sqlite3ext_get_auxdata;
    solve_reads.
Qed.

Lemma op_cases {X} (o : op X) :
  (is_reader o = true /\ as_call o = None) \/ (is_reader o = false /\ exists k, as_call o = Some k).
Proof. destruct o; cbn; eauto. Qed.

(** A writer is the call of [Session] with its result kept. *)
Lemma run_perform {X} (o : op X) k h :
  as_call o = Some k -> run ctx k h = (perform o ;; ret tt) h.
Proof.
  destruct o; try discriminate; intros [= <-]; try reflexivity.
  cbn [perform]. unfold bind. destruct (run ctx _ h) as [[[] h']| |]; reflexivity.
Qed.

Lemma writer_runs {X} (o : op X) k h x h' :
  as_call o = Some k -> perform o h = Ret (x, h') -> run ctx k h = Ret (tt, h').
Proof. intros Hk Hp. rewrite (run_perform o k h Hk). unfold bind. rewrite Hp. reflexivity. Qed.

(** One operation is at most one call. *)
Lemma perform_steps {X} (o : op X) h x h' :
  perform o h = Ret (x, h') -> steps ctx h (option_list (as_call o)) h'.
Proof.
  intros Hp. destruct (op_cases o) as [[Hr ->]|[_ [k Hk]]].
  - rewrite (reader_reads o Hr h x h' Hp). constructor.
  - rewrite Hk. econstructor; [exact (writer_runs o k h x h' Hk Hp) | constructor].
Qed.


(** A writer takes a step of the machine, a reader none. *)
Lemma perform_moved {X} (o : op X) h x h' :
  good ctx h -> perform o h = Ret (x, h') ->
  (exists t, moved ctx t (op_leaks o) h h') /\ good ctx h'.
Proof.
  intros Hg Hp. unfold op_leaks. destruct (op_cases o) as [[Hr ->]|[_ [k Hk]]].
  - rewrite (reader_reads o Hr h x h' Hp). split; [eexists; apply moved_refused | exact Hg].
  - rewrite Hk. destruct (run_good ctx k h h' Hg (writer_runs o k h x h' Hk Hp)); eauto.
Qed.

Lemma perform_values {X} (o : op X) h x h' :
  good ctx h -> perform o h = Ret (x, h') -> values h' = values h.
Proof.
  intros Hg Hp. destruct (perform_moved o h x h' Hg Hp) as [[t Hm] _].
  exact (moved_values ctx h h' _ Hm).
Qed.

Lemma value_type_handle value h t h' :
  value_type value h = Ret (t, h') -> exists x, values h !! value = Some x /\ t = tag_of x.
Proof.
  destruct (values h !! value) as [x|] eqn:E.
  - rewrite (value_type_eq value x h E). intros [= <- _]. eauto.
  - unfold value_type, sqlite3ext_value_type, bind. rewrite (with_value_None _ value h E).
    discriminate.
Qed.

(** What a reader returns is what [answers] says. *)
Lemma perform_answers {X} (o : op X) h x h' :
  perform o h = Ret (x, h') -> answers (values h) o x.
Proof.
  destruct o; try exact (fun _ => I); cbn [perform answers].
  - apply value_type_handle.
  - intros (_ & y & Hy & ->)%with_value_pure. eauto.
  - intros (t & h1 & (y & Hy & ->)%value_type_handle & [= <- _])%bind_Ret. eauto.
  - unfold Value.at_. case_match; [|intros [= <- _]; reflexivity].
    intros (t & h1 & (y & Hy & ->)%value_type_handle & [= <- _])%bind_Ret. eauto.
Qed.

Lemma holds_intro vs value (P : sql_value -> bool) x :
  vs !! value = Some x -> P x = true -> holds vs value P = true.
Proof. intros Hx HP. unfold holds. rewrite Hx. exact HP. Qed.

Lemma holds_spec vs value P :
  holds vs value P = true -> exists x, vs !! value = Some x /\ P x = true.
Proof. unfold holds. destruct (vs !! value) as [x|]; [eauto | discriminate]. Qed.

Lemma value_pointer_plain T value c_name x h :
  values h !! value = Some x -> match x with SqlPointer _ _ => false | _ => true end = true ->
  value_pointer T value c_name h = Ret (None, h).
Proof.
  intros Hv Hx. unfold value_pointer, sqlite3ext_value_pointer, bind.
  rewrite (with_value_eq id value x h Hv). destruct x; try discriminate; reflexivity.
Qed.

(** A tame reader returns. *)
Lemma reader_total {X} (o : op X) h :
  good ctx h -> is_reader o = true -> tame_op (values h) o = true ->
  exists x, perform o h = Ret (x, h).
Proof.
  intros Hg Hr Ht. destruct (good_context ctx h Hg) as (c & Hwf & Hc).
  destruct o; try discriminate; cbn [perform tame_op] in *;
    try (apply holds_spec in Ht as (y & Hy & Ht)).
  - eexists. exact (value_type_eq value y h Hy).
  - rewrite (value_text_eq value y h Hy). destruct (content y) eqn:E; [eauto|].
    apply content_tag in E. rewrite bool_decide_eq_true_2 in Ht by exact E. discriminate.
  - rewrite (value_text_notnull_eq value y h Hy). destruct (content y); eauto.
  - eexists. exact (with_value_eq _ value y h Hy).
  - eexists. exact (with_value_eq _ value y h Hy).
  - eexists. exact (with_value_eq _ value y h Hy).
  - unfold byte_count in Ht. destruct (content y) as [b|] eqn:E; [|discriminate].
    exists b. apply (value_blob_ok value y b h Hy E); [|lia].
    intros ->. discriminate.
  - eexists. exact (with_value_eq _ value y h Hy).
  - eexists. exact (value_pointer_plain T value c_name y h Hy Ht).
  - eexists. exact (auxdata_get_eq h ctx c Hc col).
  - eexists. exact (from_ok value y h Hy).
  - unfold Value.at_. case_match; [|eauto].
    apply holds_spec in Ht as (y & Hy & _). rewrite (bind_step _ _ _ _ _ (value_type_eq _ y h Hy)).
    eauto.
  - rewrite (text_or_else_spec self y _ h Hy). destruct (content y) eqn:E.
    + destruct (decoded l); eauto.
    + apply content_tag in E. rewrite bool_decide_eq_true_2 in Ht by exact E. discriminate.
Qed.

(** A tame operation returns from every good state. *)
Lemma perform_total {X} (o : op X) h :
  good ctx h -> tame_op (values h) o = true -> exists x h', perform o h = Ret (x, h').
Proof.
  intros Hg Ht. destruct (op_cases o) as [[Hr _]|[Hr [k Hk]]].
  - destruct (reader_total o h Hg Hr Ht) as [x Hx]. eauto.
  - destruct (good_context ctx h Hg) as (c & Hwf & Hc).
    assert (Hs : safe k = true) by (destruct o; try discriminate; injection Hk as <-; exact Ht).
    destruct (run_total ctx h c Hwf Hc k Hs) as [h1 Hrun].
    rewrite (run_perform o k h Hk) in Hrun.
    apply bind_Ret in Hrun as (x & h' & Hp & _). eauto.
Qed.

(** ** Lemmas: bodies *)

Lemma denote_seq {A B} (b : body A) (f : A -> body B) h :
  denote (seq b f) h = (let! a := denote b in denote (f a)) h.
Proof.
  revert h. induction b as [a|X o k IH]; intros h; [reflexivity|].
  cbn [seq denote]. unfold bind. destruct (perform o h) as [[x h']| |]; [|reflexivity..].
  apply IH.
Qed.

(** [wp] is the run of the body. *)
Lemma wp_denote {A} (b : body A) Q h :
  wp b Q h <-> exists a h', denote b h = Ret (a, h') /\ Q a h'.
Proof.
  revert h. induction b as [a|X o k IH]; intros h; cbn [wp denote].
  - split; [eauto | intros (a' & h' & [= <- <-] & HQ); exact HQ].
  - split.
    + intros (x & h1 & Hp & (a & h' & Hd & HQ)%IH). exists a, h'.
      rewrite (bind_step _ _ _ _ _ Hp). auto.
    + intros (a & h' & (x & h1 & Hp & Hd)%bind_Ret & HQ). exists x, h1.
      split; [exact Hp|]. apply IH. eauto.
Qed.

Lemma denote_steps {A} (b : body A) h a h' :
  denote b h = Ret (a, h') -> steps ctx h (calls_of b h) h'.
Proof.
  revert h. induction b as [a0|X o k IH]; intros h; cbn [denote calls_of].
  - intros [= _ <-]. constructor.
  - intros (x & h1 & Hp & Hd)%bind_Ret. rewrite Hp.
    exact (steps_app ctx h _ h1 _ h' (perform_steps o h x h1 Hp) (IH x h1 Hd)).
Qed.

Lemma denote_of_calls ks h h' : denote (of_calls ks) h = Ret (tt, h') <-> steps ctx h ks h'.
Proof.
  revert h. induction ks as [|k ks IH]; intros h; cbn [of_calls denote perform].
  - split; [intros [= <-]; constructor | inversion 1; reflexivity].
  - split.
    + intros (x & h1 & Hp & Hd)%bind_Ret. destruct x. econstructor; [exact Hp | apply IH, Hd].
    + inversion 1 as [|? ? h1 ? ? Hrun Hs]; subst. rewrite (bind_step _ _ _ _ _ Hrun).
      apply IH, Hs.
Qed.

(** The calls of the body that makes the calls [ks] are [ks]. *)
Lemma calls_of_calls ks h h' : denote (of_calls ks) h = Ret (tt, h') -> calls_of (of_calls ks) h = ks.
Proof.
  revert h. induction ks as [|k ks IH]; intros h; cbn [of_calls denote calls_of]; [reflexivity|].
  intros ([] & h1 & Hp & Hd)%bind_Ret. rewrite Hp. cbn [as_call option_list app].
  f_equal. exact (IH h1 Hd).
Qed.

(** The invariants hold along a run, with the answers of the readers. *)
Lemma admits_calls vs (P : forall X, op X -> bool) (Q : call -> Prop) {A} (b : body A) :
  (forall X (o : op X) k, P X o = true -> as_call o = Some k -> Q k) ->
  forall h a h', good ctx h -> values h = vs -> admits vs P b ->
    denote b h = Ret (a, h') -> Forall Q (calls_of b h).
Proof.
  intros HPQ. induction b as [a0|X o k IH]; intros h a h' Hg Hv; cbn [admits denote calls_of].
  - constructor.
  - intros [Ho Hk] (x & h1 & Hp & Hd)%bind_Ret. rewrite Hp. apply Forall_app. split.
    + destruct (as_call o) as [c|] eqn:E; [|constructor].
      constructor; [exact (HPQ X o c Ho E) | constructor].
    + apply (IH x h1 a h' (proj2 (perform_moved o h x h1 Hg Hp))).
      * rewrite <- Hv. exact (perform_values o h x h1 Hg Hp).
      * apply Hk. rewrite <- Hv. exact (perform_answers o h x h1 Hp).
      * exact Hd.
Qed.

Lemma body_run {A} (b : body A) h :
  good ctx h -> tame (values h) b -> exists a h', denote b h = Ret (a, h').
Proof.
  revert h. induction b as [a|X o k IH]; intros h Hg; cbn [denote]; [eauto|].
  intros [Ho Hk]. destruct (perform_total o h Hg Ho) as (x & h1 & Hp).
  destruct (perform_moved o h x h1 Hg Hp) as [_ Hg1].
  destruct (IH x h1 Hg1) as (a & h' & Hd).
  - rewrite (perform_values o h x h1 Hg Hp). apply Hk, (perform_answers o h x h1 Hp).
  - exists a, h'. rewrite (bind_step _ _ _ _ _ Hp). exact Hd.
Qed.

(** ** More values

    The host binds new handles between two calls; a body that is tame on
    some values is tame once the host has bound more. *)

Lemma holds_mono vs vs' value P :
  vs ⊆ vs' -> holds vs value P = true -> holds vs' value P = true.
Proof.
  intros Hsub (x & Hx & HP)%holds_spec.
  exact (holds_intro vs' value P x (lookup_weaken _ _ _ _ Hx Hsub) HP).
Qed.

Lemma tame_op_mono vs vs' {X} (o : op X) :
  vs ⊆ vs' -> tame_op vs o = true -> tame_op vs' o = true.
Proof. intros Hsub. destruct o; cbn [tame_op]; try case_match; eauto using holds_mono. Qed.

(** A tame reader answers on the larger map what it answers on the smaller. *)
Lemma answers_mono vs vs' {X} (o : op X) x :
  vs ⊆ vs' -> tame_op vs o = true -> answers vs' o x -> answers vs o x.
Proof.
  intros Hsub Ht. destruct o; cbn [answers tame_op] in *; try exact id; try case_match;
    try exact id; apply holds_spec in Ht as (y & Hy & _); intros (y' & Hz & ->);
    rewrite (lookup_weaken _ _ _ _ Hy Hsub) in Hz; injection Hz as <-; eauto.
Qed.

Lemma tame_mono vs vs' {A} (b : body A) : vs ⊆ vs' -> tame vs b -> tame vs' b.
Proof.
  intros Hsub. unfold tame. induction b as [a|X o k IH]; cbn [admits]; [exact id|].
  intros [Ho Hk]. split; [exact (tame_op_mono vs vs' o Hsub Ho)|].
  intros x Hx. apply IH, Hk, (answers_mono vs vs' o x Hsub Ho Hx).
Qed.

Lemma frugal_mono vs vs' {A} (b : body A) :
  vs ⊆ vs' -> tame vs b -> frugal vs b -> frugal vs' b.
Proof.
  intros Hsub. unfold tame, frugal. induction b as [a|X o k IH]; cbn [admits]; [auto|].
  intros [Ho Hk] [Hf Hfk]. split; [exact Hf|].
  intros x Hx%(answers_mono vs vs' o x Hsub Ho). exact (IH x (Hk x Hx) (Hfk x Hx)).
Qed.

(** ** Auxiliary data *)

(** [auxdata_get] returns the pointer of the slot. *)
Lemma auxdata_get_aux col h :
  good ctx h -> perform (OpAuxdataGet col) h = Ret (aux_of ctx col h, h).
Proof.
  intros Hg. destruct (good_context ctx h Hg) as (c & Hwf & Hc). cbn [perform].
  rewrite (auxdata_get_eq h ctx c Hc col). unfold aux_of. rewrite Hc. reflexivity.
Qed.

(** After a body a slot holds the pointer of the last [auxdata_set] the body
    made on it. *)
Lemma denote_aux {A} (b : body A) h a h' col :
  denote b h = Ret (a, h') -> good ctx h ->
  aux_of ctx col h' = latest_aux col (calls_of b h) (aux_of ctx col h).
Proof. intros Hd. exact (steps_aux ctx h _ h' col (denote_steps b h a h' Hd)). Qed.

(** ** Theorems *)

(** The accessors of the layer only read: whatever a reader returns, the
    state of the host is as it was. *)
Theorem readers_pure {X} (o : op X) h x h' :
  is_reader o = true -> perform o h = Ret (x, h') -> h' = h.
Proof. intros Hr. apply (reader_reads o Hr). Qed.

(** Every run of a body is the run of the calls it makes, in their
    order: what the function reads and decides in between changes nothing. *)
Theorem body_refines {A} (b : body A) h a h' :
  denote b h = Ret (a, h') -> steps ctx h (calls_of b h) h'.
Proof. apply denote_steps. Qed.

(** C13: a body keeps the invariant of the call: when it returns the state is
    well-formed, the result of the context is the last one written, and the
    arguments are what they were. *)
Theorem body_good {A} (b : body A) h a h' :
  denote b h = Ret (a, h') -> good ctx h -> latest ctx h ->
  good ctx h' /\ latest ctx h' /\ values h' = values h.
Proof.
  intros Hs%denote_steps Hg Hlat. destruct (steps_keep ctx h _ h' Hs Hg) as [Hg' Hv].
  pose proof (steps_latest ctx h _ h' Hs Hg Hlat). auto.
Qed.

(** A frugal body makes no call that loses its buffer. *)
Lemma frugal_calls {A} (b : body A) h a h' :
  good ctx h -> frugal (values h) b -> denote b h = Ret (a, h') ->
  Forall (fun k => leaks k = false) (calls_of b h).
Proof.
  intros Hg Hf Hd.
  refine (admits_calls (values h) (fun X o => negb (op_leaks o)) _ b _ h a h' Hg eq_refl Hf Hd).
  intros X o k Ho Hk. unfold op_leaks in Ho. rewrite Hk in Ho.
  destruct (leaks k); [discriminate | reflexivity].
Qed.

Lemma frugal_no_leak {A} (b : body A) h a h' :
  good ctx h -> frugal (values h) b -> denote b h = Ret (a, h') -> no_leak h -> no_leak h'.
Proof.
  intros Hg Hf Hd. apply (steps_frugal ctx h _ h' (denote_steps b h a h' Hd) Hg).
  exact (frugal_calls b h a h' Hg Hf Hd).
Qed.

(** A body none of whose operations is a [result_error] on a text
    without a nul byte loses no allocation. *)
Theorem body_no_leak {A} (b : body A) h a h' :
  good ctx h -> frugal (values h) b -> denote b h = Ret (a, h') -> no_leak h -> no_leak h'.
Proof. apply frugal_no_leak. Qed.

(** C18: a tame body runs to its end from every good state: it neither panics
    nor has undefined behaviour, whatever its arguments are. *)
Theorem body_total {A} (b : body A) h :
  good ctx h -> tame (values h) b -> exists a h', denote b h = Ret (a, h').
Proof. apply body_run. Qed.

(** ** The guard of a text *)

(** The guarded read satisfies [P] when its parts do, the read of the text
    being looked at for the values that are not NULL only. *)
Lemma text_if_notnull_admits {A} vs (P : forall X, op X -> bool) value (on_null : body A) k :
  P _ (OpValueType value) = true ->
  (forall x, vs !! value = Some x -> tag_of x <> Null -> P _ (OpValueText value) = true) ->
  admits vs P on_null -> (forall r, admits vs P (k r)) ->
  admits vs P (text_if_notnull value on_null k).
Proof.
  intros Ht Hx Hn Hk. split; [exact Ht|]. intros t (y & Hy & ->).
  case_bool_decide as E; [exact Hn|]. split; [exact (Hx y Hy E) | intros r _; apply Hk].
Qed.

(** A read of a text behind a check of the type is tame when what follows
    is: the guard makes [value_text] defined on every value. *)
Theorem text_if_notnull_tame {A} vs value (on_null : body A) k :
  is_Some (vs !! value) -> tame vs on_null -> (forall r, tame vs (k r)) ->
  tame vs (text_if_notnull value on_null k).
Proof.
  intros [x Hx] Hn Hk. apply text_if_notnull_admits; [| |exact Hn | exact Hk].
  - exact (holds_intro vs value _ x Hx eq_refl).
  - intros y Hy E. apply (holds_intro vs value _ y Hy).
    rewrite bool_decide_eq_false_2 by exact E. reflexivity.
Qed.

(** ** The guard of a [Value] *)

(** The idiom is tame on every list of handles of the call: the check of
    [notnull_or] on the tag the [Value] was made with guards the read of
    [text_or_else]. *)
Lemma text_arg_guarded {A} vs args i error (k : option (result (list Z) Error) -> body A) :
  Forall (fun value => is_Some (vs !! value)) args -> (forall r, tame vs (k r)) ->
  tame vs (text_arg args i error k).
Proof.
  intros Hargs Hk. split.
  - cbn [tame_op]. destruct (args !! i) as [value|] eqn:E; [|reflexivity].
    destruct (Forall_lookup_1 _ _ _ _ Hargs E) as [x Hx].
    exact (holds_intro vs value _ x Hx eq_refl).
  - intros o Ho. cbn [answers] in Ho. destruct (args !! i) as [value|]; [|subst o; apply Hk].
    destruct Ho as (x & Hx & ->). unfold Value.notnull_or. cbn [Value.value_type].
    case_bool_decide as Ht; [|apply Hk]. split; [|intros r _; apply Hk].
    apply (holds_intro vs value _ x Hx). rewrite bool_decide_eq_false_2 by exact Ht. reflexivity.
Qed.

(** What the idiom returns, on every branch. *)
Lemma text_arg_run {A} args i error (k : option (result (list Z) Error) -> body A) h r :
  text_of (values h) args i error = Some r ->
  denote (text_arg args i error k) h = denote (k r) h.
Proof.
  unfold text_of, text_arg. cbn [denote perform]. unfold Value.at_, bind at 1.
  destruct (args !! i) as [value|]; [|intros [= <-]; reflexivity].
  destruct (values h !! value) as [x|] eqn:Hx; [|discriminate]. intros [= <-].
  unfold bind at 1. rewrite (value_type_eq value x h Hx). unfold ret, Value.notnull_or.
  cbn [Value.value_type]. destruct (content x) as [b|] eqn:E.
  - rewrite bool_decide_eq_true_2 by (intros Ht%content_tag; congruence).
    cbn [denote perform]. unfold bind at 1.
    rewrite (text_or_else_spec (Value.mkValue value (tag_of x)) x _ h Hx), E.
    destruct (decoded b); reflexivity.
  - rewrite bool_decide_eq_false_2 by (intros Ht; apply Ht, content_tag, E). reflexivity.
Qed.

(** C19: the idiom [Value::at(values, i)?.notnull_or(error)?.text_or_else(..)]
    is defined on every argument of the call and changes nothing: past the
    end of the arguments it yields nothing, on NULL the error it was given,
    otherwise the text of the value or the error of its decoding. *)
Theorem text_arg_spec {A} args i error (k : option (result (list Z) Error) -> body A) h r :
  text_of (values h) args i error = Some r ->
  denote (text_arg args i error k) h = denote (k r) h.
Proof. apply text_arg_run. Qed.

(** Without the check the body is undefined on a NULL value. *)
Lemma text_unguarded {A} value x (k : result (list Z) Error -> body A) h :
  values h !! value = Some x -> tag_of x = Null -> denote (Do (OpValueText value) k) h = Undef.
Proof.
  intros Hv Ht. cbn [denote perform]. unfold bind.
  rewrite (value_text_eq value x h Hv). apply content_tag in Ht. rewrite Ht. reflexivity.
Qed.

End Body.

(** ** The theorems at concrete inputs *)

Module BodyExamples.
Import ResultExamples.
#[local] Existing Instance trivial_coercion.

(** The function that returns its first argument as text, NULL for NULL, and
    reports a text it cannot decode. *)
Definition echo (value : Z) : body (result unit Error) :=
  text_if_notnull value (Do (OpCall CallNull) (fun _ => Done (Ok tt)))
    (fun r => match r with
              | Ok text => Do (OpResultText text) Done
              | Err e => Do (OpResultError (lit "not a text")) (fun _ => Done (Err e))
              end).

(** The length of the first argument in bytes, NULL for NULL. *)
Definition byte_length (value : Z) : body unit :=
  Do (OpValueType value) (fun t =>
    if bool_decide (t = Null) then Do (OpCall CallNull) Done
    else Do (OpValueBytes value) (fun n => Do (OpCall (CallInt64 n)) Done)).

(** The first argument as text through the guards of [Value]: NULL when
    there is no argument, the error of the guard for NULL. *)
Definition first_text (args : list Z) : body (result unit Error) :=
  text_arg args 0 unexpected_null
    (fun o => match o with
              | None => Do (OpCall CallNull) (fun _ => Done (Ok tt))
              | Some (Ok text) => Do (OpResultText text) Done
              | Some (Err e) => Done (Err e)
              end).

(** The handles 100 to 102: a text, NULL, a text with a stray byte. *)
Definition h2 : host := example_host [SqlText abc; SqlNull; SqlText [97; 255]].

Lemma h2_good : good 1 h2.
Proof. split; [apply example_host_wf | exists empty_context; apply example_host_context]. Qed.

Lemma h2_latest : latest 1 h2.
Proof.
  intros c Hc. unfold h2 in Hc. rewrite example_host_context in Hc. injection Hc as <-. reflexivity.
Qed.

Lemma echo_tame value : is_Some (values h2 !! value) -> tame (values h2) (echo value).
Proof.
  intros Hv. apply (text_if_notnull_tame (values h2) value); [exact Hv | split; [reflexivity | intros; exact I] |].
  intros [text|e]; (split; [reflexivity | intros; exact I]).
Qed.

Lemma byte_length_tame value : is_Some (values h2 !! value) -> tame (values h2) (byte_length value).
Proof.
  intros [x Hx]. split; [exact (holds_intro _ value _ x Hx eq_refl)|]. intros t _.
  destruct (bool_decide (t = Null)).
  - split; [reflexivity | intros; exact I].
  - split; [exact (holds_intro _ value _ x Hx eq_refl)|]. intros n _.
    split; [reflexivity | intros; exact I].
Qed.

Lemma byte_length_frugal value : frugal (values h2) (byte_length value).
Proof.
  split; [reflexivity|]. intros t _. destruct (bool_decide (t = Null));
    repeat (split; [reflexivity | intros ? _]); exact I.
Qed.

Lemma echo_text : denote 1 (echo 100) h2 = Ret (Ok tt, text_written 1 empty_context abc h2).
Proof. vm_compute. reflexivity. Qed.

Lemma byte_length_text :
  denote 1 (byte_length 100) h2 = Ret (tt, plain_written 1 empty_context (ResInt64 3) h2).
Proof. vm_compute. reflexivity. Qed.

Lemma readers_pure_witness : h2 = h2.
Proof. exact (readers_pure 1 (OpValueBytes 100) h2 3 h2 eq_refl eq_refl). Defined.

Lemma body_refines_witness :
  steps 1 h2 (calls_of 1 (echo 100) h2) (text_written 1 empty_context abc h2).
Proof. exact (body_refines 1 (echo 100) h2 _ _ echo_text). Defined.

Lemma body_good_witness :
  good 1 (text_written 1 empty_context abc h2)
  /\ latest 1 (text_written 1 empty_context abc h2)
  /\ values (text_written 1 empty_context abc h2) = values h2.
Proof. exact (body_good 1 (echo 100) h2 _ _ echo_text h2_good h2_latest). Defined.

Lemma body_no_leak_witness : no_leak (plain_written 1 empty_context (ResInt64 3) h2).
Proof.
  exact (body_no_leak 1 (byte_length 100) h2 _ _ h2_good (byte_length_frugal 100)
           byte_length_text (example_host_no_leak _)).
Defined.

Lemma body_total_witness : exists a h', denote 1 (echo 102) h2 = Ret (a, h').
Proof. apply (body_total 1 (echo 102) h2 h2_good). apply echo_tame. eexists. reflexivity. Defined.

Lemma text_if_notnull_tame_witness :
  tame (values h2) (text_if_notnull 101 (Done 0) (fun _ => Done 1)).
Proof.
  apply (text_if_notnull_tame (values h2) 101); [eexists; reflexivity | exact I | intros; exact I].
Defined.

Lemma first_text_tame : tame (values h2) (first_text [101; 100]).
Proof.
  apply text_arg_guarded; [repeat constructor; eexists; reflexivity|].
  intros [[text|e]|]; cbn; tauto.
Qed.

Lemma text_arg_spec_witness :
  denote 1 (first_text [101; 100]) h2 = Ret (Err unexpected_null, h2)
  /\ denote 1 (first_text [100]) h2 = Ret (Ok tt, text_written 1 empty_context abc h2)
  /\ denote 1 (first_text []) h2 = Ret (Ok tt, plain_written 1 empty_context ResNull h2).
Proof.
  split; [|split].
  - exact (text_arg_spec 1 [101; 100] 0%nat unexpected_null _ h2 _ eq_refl).
  - etransitivity; [exact (text_arg_spec 1 [100] 0%nat unexpected_null _ h2 _ eq_refl)|].
    vm_compute. reflexivity.
  - etransitivity; [exact (text_arg_spec 1 [] 0%nat unexpected_null _ h2 _ eq_refl)|].
    vm_compute. reflexivity.
Defined.

(** The calls of [echo]: a text is written as it is, NULL as NULL, and a
    text that is not UTF-8 makes one [result_error]. *)
Example echo_calls :
  calls_of 1 (echo 100) h2 = [CallText abc]
  /\ calls_of 1 (echo 101) h2 = [CallNull]
  /\ calls_of 1 (echo 102) h2 = [CallError (lit "not a text")].
Proof. vm_compute. auto. Qed.

End BodyExamples.
