(* ===== verification/Laws.v ===== *)
(** * Laws of function bodies

    Two bodies are the same on the values [vs] of a call when they do the
    same from every good state with these values: same outcome, same answer,
    same state.  The relation is an equivalence and a congruence for the
    constructors of bodies, so that a part of a body can be rewritten by an
    equal part.

    The laws are those a caller of [api.rs] relies on when it restructures
    its code: the accessors only read, so a read whose answer is not used
    can be dropped, a read made twice can be made once, and two reads
    commute; [value_text_notnull] is the check of [value_type] followed by
    [value_text]; the idiom of [Value] for a text argument is
    [value_text_notnull] on the handle at that index. *)

From Stdlib Require Import ZArith Lia List String Ascii Morphisms Setoid.
From stdpp Require Import base tactics option list gmap.
From S2P Require Import Prelude RustStr RustNum Utf8 Errors Host Mprintf ValueApi ResultApi Affinity AuxData Coercion Session Body.

#[local] Open Scope Z_scope.
#[local] Open Scope rs_scope.

Import ValueType.

(** ** The equivalence *)

Section Same.
Context `{HostCoercion}.
Context (ctx : Z) (vs : gmap Z sql_value).

Definition same {A} (b b' : body A) : Prop :=
  forall h, good ctx h -> values h = vs -> denote ctx b h = denote ctx b' h.

(** The text argument at an index read with [value_text_notnull]: the
    reference of [text_arg]. *)
Definition text_arg_plain {A} (args : list Z) (at_index : nat)
  (k : option (result (list Z) Error) -> body A) : body A :=
  match args !! at_index with
  | None => k None
  | Some value => Do (OpValueTextNotnull value) (fun r => k (Some r))
  end.

#[local] Instance same_equivalence {A} : Equivalence (@same A).
Proof.
  split.
  - intros b h _ _. reflexivity.
  - intros b b' E h Hg Hv. symmetry. exact (E h Hg Hv).
  - intros b1 b2 b3 E1 E2 h Hg Hv. rewrite (E1 h Hg Hv). exact (E2 h Hg Hv).
Qed.

(** ** Congruence *)

(** What follows an operation is looked at for the answers the operation
    can give, in the state it leaves: good, with the same values. *)
Lemma same_do {X A} (o : op X) (k k' : X -> body A) :
  (forall x, answers vs o x -> same (k x) (k' x)) -> same (Do o k) (Do o k').
Proof.
  intros Hk h Hg Hv. cbn [denote]. unfold bind.
  destruct (perform ctx o h) as [[x h1]| |] eqn:Hp; [|reflexivity..]. apply Hk.
  - rewrite <- Hv. exact (perform_answers ctx o h x h1 Hp).
  - exact (proj2 (perform_moved ctx o h x h1 Hg Hp)).
  - rewrite <- Hv. exact (perform_values ctx o h x h1 Hg Hp).
Qed.

#[local] Instance do_proper {X A} (o : op X) :
  Proper (pointwise_relation X same ==> same) (Do (A := A) o).
Proof. intros k k' Hk. apply same_do. intros x _. apply Hk. Qed.

#[local] Instance seq_proper {A B} :
  Proper (same ==> pointwise_relation A same ==> same) (seq (A := A) (B := B)).
Proof.
  intros b b' Hb f f' Hf h Hg Hv. rewrite !denote_seq. unfold bind. rewrite <- (Hb h Hg Hv).
  destruct (denote ctx b h) as [[a h1]| |] eqn:Hd; [|reflexivity..].
  destruct (steps_keep ctx h _ h1 (denote_steps ctx b h a h1 Hd) Hg) as [Hg1 Hv1].
  apply Hf; [exact Hg1 | congruence].
Qed.

(** ** The laws of sequencing *)

Lemma seq_done_l {A B} (a : A) (f : A -> body B) : same (seq (Done a) f) (f a).
Proof. reflexivity. Qed.

Lemma seq_done_r {A} (b : body A) : same (seq b Done) b.
Proof. intros h _ _. rewrite denote_seq. apply bind_ret_r. Qed.

Lemma seq_assoc {A B C} (b : body A) (f : A -> body B) (g : B -> body C) :
  same (seq (seq b f) g) (seq b (fun a => seq (f a) g)).
Proof.
  intros h _ _. rewrite (denote_seq ctx (seq b f) g h), (denote_seq ctx b _ h).
  unfold bind at 1. rewrite (denote_seq ctx b f h). unfold bind.
  destruct (denote ctx b h) as [[a h1]| |]; [|reflexivity..]. rewrite denote_seq. reflexivity.
Qed.

(** ** The accessors only read *)

(** What a reader does from a good state: it returns and leaves the state,
    or it does not return. *)
Lemma reader_cases {X} (o : op X) h :
  is_reader o = true ->
  (exists x, perform ctx o h = Ret (x, h)) \/ perform ctx o h = Panic \/ perform ctx o h = Undef.
Proof.
  intros Hr. destruct (perform ctx o h) as [[x h1]| |] eqn:Hp; auto.
  left. exists x. rewrite (reader_reads ctx o Hr h x h1 Hp). reflexivity.
Qed.

(** A read whose answer is not used can be dropped, when it is tame. *)
Lemma read_dead {X A} (o : op X) (b : body A) :
  is_reader o = true -> tame_op vs o = true -> same (Do o (fun _ => b)) b.
Proof.
  intros Hr Ht h Hg Hv. subst vs. destruct (reader_total ctx o h Hg Hr Ht) as [x Hx].
  cbn [denote]. rewrite (bind_step _ _ _ _ _ Hx). reflexivity.
Qed.

(** A read made twice is the read made once. *)
Lemma read_twice {X A} (o : op X) (k : X -> X -> body A) :
  is_reader o = true ->
  same (Do o (fun x => Do o (fun y => k x y))) (Do o (fun x => k x x)).
Proof.
  intros Hr h _ _. cbn [denote]. unfold bind at 1 3.
  destruct (reader_cases o h Hr) as [[x Hx]|[Hx|Hx]]; rewrite Hx; [|reflexivity..].
  cbn [denote]. rewrite (bind_step _ _ _ _ _ Hx). reflexivity.
Qed.

(** Two reads commute, when both are tame. *)
Lemma read_swap {X Y A} (o1 : op X) (o2 : op Y) (k : X -> Y -> body A) :
  is_reader o1 = true -> is_reader o2 = true ->
  tame_op vs o1 = true -> tame_op vs o2 = true ->
  same (Do o1 (fun x => Do o2 (fun y => k x y))) (Do o2 (fun y => Do o1 (fun x => k x y))).
Proof.
  intros Hr1 Hr2 Ht1 Ht2 h Hg Hv. subst vs.
  destruct (reader_total ctx o1 h Hg Hr1 Ht1) as [x Hx].
  destruct (reader_total ctx o2 h Hg Hr2 Ht2) as [y Hy].
  cbn [denote]. unfold bind. rewrite Hx, Hy. cbv beta iota. rewrite Hx. reflexivity.
Qed.

(** ** Two ways to the same text *)

Lemma notnull_guard {A} value (k : result (list Z) Error -> body A) :
  is_Some (vs !! value) ->
  same (Do (OpValueTextNotnull value) k) (text_if_notnull value (k (Err unexpected_null)) k).
Proof.
  intros [x Hx] h Hg Hv. subst vs. unfold text_if_notnull. cbn [denote perform]. unfold bind at 1 2.
  rewrite (value_text_notnull_eq value x h Hx), (value_type_eq value x h Hx).
  destruct (content x) as [b|] eqn:E.
  - rewrite bool_decide_eq_false_2 by (intros Ht%content_tag; congruence).
    cbn [denote perform]. unfold bind. rewrite (value_text_eq value x h Hx), E. reflexivity.
  - rewrite bool_decide_eq_true_2 by (apply content_tag, E). reflexivity.
Qed.

Lemma text_arg_plain_run {A} args i (k : option (result (list Z) Error) -> body A) h r :
  text_of (values h) args i unexpected_null = Some r ->
  denote ctx (text_arg_plain args i k) h = denote ctx (k r) h.
Proof.
  unfold text_of, text_arg_plain. destruct (args !! i) as [value|]; [|intros [= <-]; reflexivity].
  destruct (values h !! value) as [x|] eqn:Hx; [|discriminate]. intros [= <-].
  cbn [denote perform]. unfold bind. rewrite (value_text_notnull_eq value x h Hx).
  destruct (content x); reflexivity.
Qed.

(** ** Theorems *)

(** [value_text_notnull] is the check of [value_type] followed by
    [value_text]: on every value of the call the two bodies return the same
    and leave the same state, whatever follows them. *)
Theorem value_text_notnull_guard {A} value (k : result (list Z) Error -> body A) :
  is_Some (vs !! value) ->
  same (Do (OpValueTextNotnull value) k) (text_if_notnull value (k (Err unexpected_null)) k).
Proof. apply notnull_guard. Qed.

(** The idiom [Value::at(values, i)?.notnull_or(..)?.text_or_else(..)]
    with the error of [value_text_notnull] is [value_text_notnull] on the
    handle at that index: the two ways the layer offers to read a text
    argument agree on every argument of the call. *)
Theorem text_arg_plain_agrees {A} args i (k : option (result (list Z) Error) -> body A) :
  Forall (fun value => is_Some (vs !! value)) args ->
  same (text_arg args i unexpected_null k) (text_arg_plain args i k).
Proof.
  intros Hargs h Hg Hv. subst vs.
  assert (Hr : exists r, text_of (values h) args i unexpected_null = Some r).
  { unfold text_of. destruct (args !! i) as [value|] eqn:E; [|eauto].
    destruct (Forall_lookup_1 _ _ _ _ Hargs E) as [x ->]. eauto. }
  destruct Hr as [r Hr].
  rewrite (text_arg_run ctx args i unexpected_null k h r Hr).
  rewrite (text_arg_plain_run args i k h r Hr). reflexivity.
Qed.

(** The accessors only read, so a caller may restructure its reads: a
    read made twice is the read made once, and two tame reads commute. *)
Theorem reads_restructure {X Y A} (o1 : op X) (o2 : op Y) (k : X -> X -> Y -> body A) :
  is_reader o1 = true -> is_reader o2 = true ->
  tame_op vs o1 = true -> tame_op vs o2 = true ->
  same (Do o1 (fun x => Do o2 (fun y => Do o1 (fun x' => k x x' y))))
       (Do o2 (fun y => Do o1 (fun x => k x x y))).
Proof.
  intros Hr1 Hr2 Ht1 Ht2.
  rewrite (read_swap o1 o2 (fun x y => Do o1 (fun x' => k x x' y)) Hr1 Hr2 Ht1 Ht2).
  apply same_do. intros y _. exact (read_twice o1 (fun x x' => k x x' y) Hr1).
Qed.

End Same.

#[export] Existing Instance same_equivalence.
#[export] Existing Instance do_proper.
#[export] Existing Instance seq_proper.

(** ** The theorems at concrete inputs *)

Module LawsExamples.
Import ResultExamples BodyExamples.
#[local] Existing Instance trivial_coercion.

(** [echo] written with [value_text_notnull], the error of the guard being
    reported like any other. *)
Definition echo_notnull (value : Z) : body (result unit Error) :=
  Do (OpValueTextNotnull value)
    (fun r => match r with
              | Ok text => Do (OpResultText text) Done
              | Err e => Do (OpResultError (lit "not a text")) (fun _ => Done (Err e))
              end).

Lemma value_text_notnull_guard_witness :
  same 1 (values h2) (echo_notnull 101)
    (text_if_notnull 101
       (Do (OpResultError (lit "not a text")) (fun _ => Done (Err unexpected_null)))
       (fun r => match r with
                 | Ok text => Do (OpResultText text) Done
                 | Err e => Do (OpResultError (lit "not a text")) (fun _ => Done (Err e))
                 end)).
Proof.
  apply (value_text_notnull_guard 1 (values h2) 101). eexists. reflexivity.
Defined.

Lemma text_arg_plain_agrees_witness :
  same 1 (values h2) (first_text [101; 100])
    (text_arg_plain [101; 100] 0
       (fun o => match o with
                 | None => Do (OpCall CallNull) (fun _ => Done (Ok tt))
                 | Some (Ok text) => Do (OpResultText text) Done
                 | Some (Err e) => Done (Err e)
                 end)).
Proof.
  apply (text_arg_plain_agrees 1 (values h2) [101; 100] 0%nat).
  repeat constructor; eexists; reflexivity.
Defined.

Lemma reads_restructure_witness :
  same 1 (values h2)
    (Do (OpValueBytes 100) (fun x => Do (OpValueType 101) (fun y =>
       Do (OpValueBytes 100) (fun x' => Done (x + x', y)))))
    (Do (OpValueType 101) (fun y => Do (OpValueBytes 100) (fun x => Done (x + x, y)))).
Proof.
  apply (reads_restructure 1 (values h2) (OpValueBytes 100) (OpValueType 101)
           (fun x x' y => Done (x + x', y))); reflexivity.
Defined.

(** Rewriting inside a body: the guard of a row can be replaced by
    [value_text_notnull] under the operations that come before it. *)
Example rewrite_under_reads :
  same 1 (values h2)
    (Do (OpValueBytes 100) (fun n => echo_notnull 100))
    (Do (OpValueBytes 100) (fun n =>
       text_if_notnull 100
         (Do (OpResultError (lit "not a text")) (fun _ => Done (Err unexpected_null)))
         (fun r => match r with
                   | Ok text => Do (OpResultText text) Done
                   | Err e => Do (OpResultError (lit "not a text")) (fun _ => Done (Err e))
                   end))).
Proof.
  unfold echo_notnull.
  setoid_rewrite (notnull_guard 1 (values h2) 100 _ (ex_intro _ _ eq_refl)). reflexivity.
Qed.

End LawsExamples.
