(* ===== verification/Lifecycle.v ===== *)
(** * The life of a call

    SQLite calls a function of the extension with a context and the handles
    of its arguments; the function runs ([Body]); when it has returned the
    host takes the result of the context as a value and lets go of it,
    calling the destructor it was given ([Host.deliver], [Host.finish]).
    This file models that life as a step relation over the stage of the
    call and the state of the host, and shows that it ends well: every call
    of a tame body reaches the stage [Idle], and then every allocation the
    call has made is freed, unless the body has lost it. *)

From Stdlib Require Import ZArith Lia List String Ascii.
From stdpp Require Import base tactics option list gmap relations.
From S2P Require Import Prelude RustStr RustNum Utf8 Errors Host Mprintf ValueApi ResultApi Affinity AuxData Coercion Session Boundary Body.

#[local] Open Scope Z_scope.
#[local] Open Scope rs_scope.

(** ** Stages and steps *)

Inductive stage (A : Type) : Type :=
| Running (b : body A)
| Returned (a : A)
| Idle.

Arguments Running {A} b.
Arguments Returned {A} a.
Arguments Idle {A}.

(** [eventually R P s]: every sequence of steps of [R] from [s] reaches a
    state where [P] holds, and none gets stuck before. *)
Inductive eventually {S : Type} (R : S -> S -> Prop) (P : S -> Prop) (s : S) : Prop :=
| eventually_now : P s -> eventually R P s
| eventually_next :
    (exists s', R s s') -> (forall s', R s s' -> eventually R P s') -> eventually R P s.

Section Lifecycle.
Context `{HostCoercion}.
Context (ctx v : Z).

(** The host takes the result of the context as the value [v], then lets go
    of it. *)
Definition collect : exec host unit := deliver ctx v ;; finish ctx.

Inductive lstep {A : Type} : stage A * host -> stage A * host -> Prop :=
| lstep_do {X} (o : op X) k h x h' :
    perform ctx o h = Ret (x, h') -> lstep (Running (Do o k), h) (Running (k x), h')
| lstep_done a h : lstep (Running (Done a), h) (Returned a, h)
| lstep_collect a h h' : collect h = Ret (tt, h') -> lstep (Returned a, h) (Idle, h').

(** The step as a function. *)
Definition next {A : Type} (c : stage A * host) : option (stage A * host) :=
  match c with
  | (Running (Done a), h) => Some (Returned a, h)
  | (Running (Do o k), h) =>
    match perform ctx o h with
    | Ret (x, h') => Some (Running (k x), h')
    | _ => None
    end
  | (Returned a, h) =>
    match collect h with
    | Ret (_, h') => Some (Idle, h')
    | _ => None
    end
  | (Idle, _) => None
  end.

(** The state once the host has collected the result of [c]. *)
Definition collected (c : sqlite3_context) (h : host) : host :=
  stored ctx c None (released ctx c (delivered v (value_of_result (ctx_result c)) h)).

(** The call is over and has left a good state. *)
Definition settled {A : Type} (c : stage A * host) : Prop :=
  fst c = Idle /\ good ctx (snd c) /\ held_at (snd c) (ResultSlot ctx) = None.

(** The call is over and what it allocated since [h0] is freed. *)
Definition reclaimed (h0 : host) {A : Type} (c : stage A * host) : Prop :=
  settled c /\ no_leak (snd c) /\ forall p, next_addr h0 <= p -> is_live (snd c) p = false.

(** ** Lemmas *)

Lemma lstep_next {A} (c c' : stage A * host) : lstep c c' <-> next c = Some c'.
Proof.
  split.
  - intros [X o k h x h' Hp|a h|a h h' Hc]; cbn [next]; [rewrite Hp | | rewrite Hc]; reflexivity.
  - destruct c as [[[a|X o k]|a|] h]; cbn [next].
    + intros [= <-]. constructor.
    + destruct (perform ctx o h) as [[x h']| |] eqn:E; [|discriminate..].
      intros [= <-]. constructor. exact E.
    + destruct (collect h) as [[[] h']| |] eqn:E; [|discriminate..].
      intros [= <-]. constructor. exact E.
    + discriminate.
Qed.

(** A stage has at most one successor. *)
Lemma lstep_deterministic {A} (c c1 c2 : stage A * host) : lstep c c1 -> lstep c c2 -> c1 = c2.
Proof. intros H1%lstep_next H2%lstep_next. congruence. Qed.

(** One step from a state with a successor: it is enough to look at it. *)
Lemma eventually_step {A} (P : stage A * host -> Prop) c c' :
  lstep c c' -> eventually lstep P c' -> eventually lstep P c.
Proof.
  intros Hs Hev. right; [eauto|]. intros c2 H2. rewrite <- (lstep_deterministic c c' c2 Hs H2).
  exact Hev.
Qed.

Lemma delivered_wf x h : host_wf h -> host_wf (delivered v x h).
Proof. intros [H0 H1 H2 H3]. split; assumption. Qed.

Lemma collect_eq h c :
  host_wf h -> contexts h !! ctx = Some c -> collect h = Ret (tt, collected c h).
Proof.
  intros Hwf Hc. unfold collect. rewrite (bind_step _ _ _ _ _ (deliver_eq ctx v c h Hc)).
  apply (finish_wf _ ctx c (delivered_wf _ h Hwf) Hc).
Qed.

Lemma collected_good h c : host_wf h -> contexts h !! ctx = Some c -> good ctx (collected c h).
Proof.
  intros Hwf Hc. split.
  - apply (finish_keeps_wf _ ctx c (delivered_wf _ h Hwf) Hc).
  - unfold collected, stored. cbn [contexts set_contexts]. rewrite lookup_insert_eq. eauto.
Qed.

Lemma held_at_collected h c s :
  contexts h !! ctx = Some c ->
  held_at (collected c h) s = if bool_decide (s = ResultSlot ctx) then None else held_at h s.
Proof.
  intros Hc. unfold collected. rewrite held_at_stored by (rewrite contexts_released; exact Hc).
  rewrite held_at_released. reflexivity.
Qed.

Lemma collected_idle h c :
  contexts h !! ctx = Some c -> held_at (collected c h) (ResultSlot ctx) = None.
Proof. intros Hc. rewrite (held_at_collected h c _ Hc), bool_decide_eq_true_2; reflexivity. Qed.

Lemma collected_no_leak h c :
  host_wf h -> contexts h !! ctx = Some c -> no_leak h -> no_leak (collected c h).
Proof.
  intros Hwf Hc Hl. apply (stored_no_leak _ ctx c None (delivered_wf _ h Hwf) Hc).
  intros q Hq. right. exact (Hl q Hq).
Qed.

(** Every step keeps the state good. *)
Lemma lstep_good {A} (c c' : stage A * host) :
  lstep c c' -> good ctx (snd c) -> good ctx (snd c').
Proof.
  intros [X o k h x h' Hp|a h|a h h' Hc]; cbn [snd]; intros Hg; [|exact Hg|].
  - exact (proj2 (perform_moved ctx o h x h' Hg Hp)).
  - destruct (good_context ctx h Hg) as (c0 & Hwf & Hc0).
    rewrite (collect_eq h c0 Hwf Hc0) in Hc. injection Hc as <-. apply collected_good; assumption.
Qed.

Lemma reachable_good {A} (c c' : stage A * host) :
  rtc lstep c c' -> good ctx (snd c) -> good ctx (snd c').
Proof. induction 1 as [|c c1 c2 Hs _ IH]; [exact id | intros Hg; exact (IH (lstep_good c c1 Hs Hg))]. Qed.

(** A body that runs to its end reaches the stage [Returned]. *)
Lemma running_eventually {A} (P : stage A * host -> Prop) (b : body A) h a h1 :
  denote ctx b h = Ret (a, h1) -> eventually lstep P (Returned a, h1) ->
  eventually lstep P (Running b, h).
Proof.
  revert h. induction b as [a0|X o k IH]; intros h; cbn [denote].
  - intros [= <- <-] Hev. exact (eventually_step P _ _ (lstep_done a0 h) Hev).
  - intros (x & h' & Hp & Hd)%bind_Ret Hev.
    exact (eventually_step P _ _ (lstep_do o k h x h' Hp) (IH x h' Hd Hev)).
Qed.

(** From the stage [Returned] the host collects the result. *)
Lemma returned_eventually {A} (P : stage A * host -> Prop) (a : A) h c :
  host_wf h -> contexts h !! ctx = Some c -> P (Idle, collected c h) ->
  eventually lstep P (Returned a, h).
Proof.
  intros Hwf Hc HP. apply (eventually_step P _ (Idle, collected c h)); [|left; exact HP].
  constructor. apply collect_eq; assumption.
Qed.

Lemma collected_settled {A} h c :
  host_wf h -> contexts h !! ctx = Some c -> @settled A (Idle, collected c h).
Proof.
  intros Hwf Hc. split; [reflexivity|]. split; [apply collected_good; assumption|].
  exact (collected_idle h c Hc).
Qed.

(** Between two calls the live allocations made since [h0] are none, when
    nothing is lost: what is live is held in a slot that held it at [h0]. *)
Lemma idle_fresh h0 h p :
  host_wf h0 -> kept ctx h0 h -> held_at h (ResultSlot ctx) = None -> no_leak h ->
  next_addr h0 <= p -> is_live h p = false.
Proof.
  intros Hwf0 Hk Hr Hl Hp. destruct (is_live h p) eqn:E; [exfalso|reflexivity].
  destruct (Hl p E) as (s & d & Hs & Hd).
  destruct (decide (s = ResultSlot ctx)) as [->|Hne]; [congruence|].
  destruct (wf_paired h0 Hwf0 s p d (Hk s p d Hne Hs Hd) Hd) as (a & Ha & _).
  pose proof (wf_fresh h0 Hwf0 p ltac:(rewrite Ha; eauto)). lia.
Qed.

(** Collection gives no slot a pointer. *)
Lemma collected_kept h0 h c :
  contexts h !! ctx = Some c -> kept ctx h0 h -> kept ctx h0 (collected c h).
Proof.
  intros Hc Hk s p d Hs. rewrite (held_at_collected h c s Hc), bool_decide_eq_false_2 by exact Hs.
  apply Hk, Hs.
Qed.

(** What is live after the host has collected was held before the call
    outside the result of the context. *)
Lemma collected_fresh h0 h c p :
  host_wf h0 -> contexts h !! ctx = Some c -> kept ctx h0 h -> no_leak (collected c h) ->
  next_addr h0 <= p -> is_live (collected c h) p = false.
Proof.
  intros Hwf0 Hc Hk Hl Hp.
  exact (idle_fresh h0 _ p Hwf0 (collected_kept h0 h c Hc Hk) (collected_idle h c Hc) Hl Hp).
Qed.

(** What is lost stays lost when the host collects the result. *)
Lemma collected_lost h c p :
  contexts h !! ctx = Some c -> lost h p -> lost (collected c h) p.
Proof.
  intros Hc Hl.
  apply (swapped_lost _ _ _ _ p (stored_swapped (delivered v _ h) ctx c None Hc)); [discriminate|].
  exact Hl.
Qed.

(** Collection neither loses nor adopts an allocation: the ledger of the
    lost ones is the same. *)
Lemma collected_ledger ps h c :
  contexts h !! ctx = Some c -> ledger ps h -> ledger ps (collected c h).
Proof.
  intros Hc (Hnd & Ha & Hl). split; [exact Hnd|]. split.
  - apply (swapped_accounted _ _ _ _ ps (stored_swapped (delivered v _ h) ctx c None Hc)).
    intros q Hq. right. exact (Ha q Hq).
  - eapply Forall_impl; [exact Hl|]. intros p. apply collected_lost, Hc.
Qed.

(** Collection leaves the auxiliary data and binds the handle [v]. *)
Lemma collected_aux h c col :
  contexts h !! ctx = Some c -> aux_of ctx col (collected c h) = aux_of ctx col h.
Proof.
  intros Hc. unfold collected. rewrite aux_of_stored by (rewrite contexts_released; exact Hc).
  apply aux_of_contexts. rewrite contexts_released. reflexivity.
Qed.

Lemma values_collected h c :
  values (collected c h) = <[v := value_of_result (ctx_result c)]> (values h).
Proof.
  unfold collected, stored, released. cbn [values set_contexts].
  rewrite (proj2 (proj2 (proj2 (let_go_frame _ _)))). reflexivity.
Qed.

(** ** Theorems *)

(** Whatever the body does, every stage the call can reach has a good
    state: no step of the function or of the host breaks the invariant. *)
Theorem reachable_is_good {A} (c c' : stage A * host) :
  rtc lstep c c' -> good ctx (snd c) -> good ctx (snd c').
Proof. apply reachable_good. Qed.

(** C16: every call of a tame body completes: the function returns, the host
    collects its result, and the state it leaves is good, with no result
    left in the context. *)
Theorem call_completes {A} (b : body A) h :
  good ctx h -> tame (values h) b -> eventually lstep settled (Running b, h).
Proof.
  intros Hg Ht. destruct (body_run ctx b h Hg Ht) as (a & h1 & Hd).
  apply (running_eventually settled b h a h1 Hd).
  destruct (steps_keep ctx h _ h1 (denote_steps ctx b h a h1 Hd) Hg) as [Hg1 _].
  destruct (good_context ctx h1 Hg1) as (c & Hwf & Hc).
  apply (returned_eventually settled a h1 c Hwf Hc). apply collected_settled; assumption.
Qed.

(** C17: every call of a tame body that makes no [result_error] on a text
    without a nul byte gives back what it takes: when the call is over,
    every allocation of Rust made since it began is freed, and none is lost.
    (A buffer of [sqlite3_mprintf] is SQLite's: it is no allocation of Rust
    and stays with the caller.) *)
Theorem call_reclaims {A} (b : body A) h :
  good ctx h -> no_leak h -> tame (values h) b -> frugal (values h) b ->
  eventually lstep (reclaimed h) (Running b, h).
Proof.
  intros Hg Hl Ht Hf. destruct (body_run ctx b h Hg Ht) as (a & h1 & Hd).
  apply (running_eventually _ b h a h1 Hd).
  pose proof (denote_steps ctx b h a h1 Hd) as Hs.
  destruct (steps_keep ctx h _ h1 Hs Hg) as [Hg1 _].
  destruct (good_context ctx h1 Hg1) as (c & Hwf & Hc).
  apply (returned_eventually _ a h1 c Hwf Hc).
  assert (Hl1 : no_leak (collected c h1)).
  { apply collected_no_leak; [exact Hwf | exact Hc |].
    exact (frugal_no_leak ctx b h a h1 Hg Hf Hd Hl). }
  split; [apply collected_settled; assumption|]. split; [exact Hl1|]. intros p Hp.
  apply (collected_fresh h h1 c p (proj1 Hg) Hc); [|exact Hl1 | exact Hp].
  apply (steps_kept ctx h h _ h1 Hs Hg). intros s q d _ Hq _. exact Hq.
Qed.

(** A call whose body makes a [result_error] on a text without a nul
    byte ends with an allocation that is live and that no one will free: the
    host has collected the result and holds no destructor for it. *)
Theorem call_leaks {A} (b : body A) h :
  good ctx h -> tame (values h) b ->
  Exists (fun k => leaks k = true) (calls_of ctx b h) ->
  eventually lstep (fun c => fst c = Idle /\ exists p, lost (snd c) p) (Running b, h).
Proof.
  intros Hg Ht Hex. destruct (body_run ctx b h Hg Ht) as (a & h1 & Hd).
  apply (running_eventually _ b h a h1 Hd).
  pose proof (denote_steps ctx b h a h1 Hd) as Hs.
  destruct (steps_keep ctx h _ h1 Hs Hg) as [Hg1 _].
  destruct (good_context ctx h1 Hg1) as (c & Hwf & Hc).
  apply (returned_eventually _ a h1 c Hwf Hc). split; [reflexivity|].
  destruct (steps_loses ctx h _ h1 Hs Hg Hex) as [p Hp].
  exists p. apply collected_lost; assumption.
Qed.

End Lifecycle.

(** ** The theorems at concrete inputs *)

Module LifecycleExamples.
Import ResultExamples BodyExamples.
#[local] Existing Instance trivial_coercion.

Lemma reachable_is_good_witness : good 1 h2.
Proof.
  exact (reachable_is_good 1 200 (Running (echo 100), h2) (Running (echo 100), h2)
           (rtc_refl _ _) h2_good).
Defined.

Lemma call_completes_witness :
  eventually (lstep 1 200) (settled 1) (Running (echo 102), h2).
Proof. apply (call_completes 1 200 (echo 102) h2 h2_good). apply echo_tame. eexists. reflexivity. Defined.

Lemma call_reclaims_witness :
  eventually (lstep 1 200) (reclaimed 1 h2) (Running (byte_length 100), h2).
Proof.
  apply (call_reclaims 1 200 (byte_length 100) h2 h2_good (example_host_no_leak _)).
  - apply byte_length_tame. eexists. reflexivity.
  - apply byte_length_frugal.
Defined.

Lemma call_leaks_witness :
  eventually (lstep 1 200) (fun c => fst c = Idle /\ exists p, lost (snd c) p)
    (Running (echo 102), h2).
Proof.
  apply (call_leaks 1 200 (echo 102) h2 h2_good).
  - apply echo_tame. eexists. reflexivity.
  - destruct echo_calls as (_ & _ & ->). constructor. reflexivity.
Defined.

End LifecycleExamples.
