(* ===== verification/Statement.v ===== *)
(** * A statement: many calls on one host

    SQLite runs a statement row after row: for every row it calls the
    function on the same context, takes the result as a value, and lets go
    of it; between two calls it may discard a slot of auxiliary data,
    calling the destructor the slot holds.  This file composes the calls of
    [Lifecycle] into such a statement.

    [serve] runs a list of events of the host, rows and discards; [trace] is
    the sequence of state-changing calls of the run.  The relation [flow] is
    the abstract view: calls of the layer with collections of results in
    between.  [serve_flow] shows that every statement is a flow, and
    [flow_invariant] that an invariant of the calls and of the collections
    holds along every flow; the theorems about statements are instances. *)

From Stdlib Require Import ZArith Lia List String Ascii.
From stdpp Require Import base tactics option list gmap.
From S2P Require Import Prelude RustStr RustNum Utf8 Errors Host Mprintf ValueApi ResultApi Affinity AuxData Coercion Session Boundary Body Lifecycle.

#[local] Open Scope Z_scope.
#[local] Open Scope rs_scope.

(** ** Events, statements and flows *)

(** What the host does during a statement: it calls the function on a row
    and binds its result to the handle [v], or it discards slot [col]. *)
Inductive event (A : Type) : Type :=
| Row (b : body A) (v : Z)
| Discard (col : Z).

Arguments Row {A} b v.
Arguments Discard {A} col.

(** The rows of a statement. *)
Fixpoint rows {A} (es : list (event A)) : nat :=
  match es with
  | [] => 0
  | Row _ _ :: es => S (rows es)
  | Discard _ :: es => rows es
  end.

Section Serving.
Context `{HostCoercion}.
Context (ctx : Z).

(** The host discards a slot: it calls the destructor the slot holds and
    forgets the pointer. *)
Definition discard (col : Z) : exec host unit := sqlite3ext_set_auxdata ctx col 0 None.

(** [flow h ks h']: the calls [ks], with collections of the result in
    between, take [h] to [h']. *)
Inductive flow : host -> list call -> host -> Prop :=
| flow_nil h : flow h [] h
| flow_call h k h1 ks h2 :
    run ctx k h = Ret (tt, h1) -> flow h1 ks h2 -> flow h (k :: ks) h2
| flow_collect h v h1 ks h2 :
    collect ctx v h = Ret (tt, h1) -> flow h1 ks h2 -> flow h ks h2.

Section Rows.
Context {A : Type}.

(** One call: the body runs, then the host collects the result. *)
Definition invoke (b : body A) (v : Z) : exec host A :=
  let! a := denote ctx b in
  collect ctx v ;;
  ret a.

(** The statement: the events one after the other; the answers of the
    rows are returned. *)
Fixpoint serve (es : list (event A)) : exec host (list A) :=
  match es with
  | [] => ret []
  | Row b v :: es =>
    let! a := invoke b v in
    let! r := serve es in
    ret (a :: r)
  | Discard col :: es => discard col ;; serve es
  end.

(** The state-changing calls of a statement run from [h]; a discard counts
    as the [auxdata_set] that empties the slot. *)
Fixpoint trace (es : list (event A)) (h : host) : list call :=
  match es with
  | [] => []
  | Row b v :: es =>
    calls_of ctx b h ++
    match invoke b v h with
    | Ret (_, h') => trace es h'
    | _ => []
    end
  | Discard col :: es =>
    CallAuxSet col 0 None ::
    match discard col h with
    | Ret (_, h') => trace es h'
    | _ => []
    end
  end.

(** What the host owes a row: a body that is tame on the values [vs], and
    a handle for its result that is none of them. *)
Definition tame_event (vs : gmap Z sql_value) (e : event A) : Prop :=
  match e with
  | Row b v => tame vs b /\ vs !! v = None
  | Discard _ => True
  end.

Definition frugal_event (vs : gmap Z sql_value) (e : event A) : Prop :=
  match e with
  | Row b _ => frugal vs b
  | Discard _ => True
  end.

End Rows.

(** Between two calls: the state is good and the context holds no result. *)
Definition idle (h : host) : Prop := good ctx h /\ held_at h (ResultSlot ctx) = None.

(** ** Lemmas: flows *)

Lemma flow_steps h ks h' : steps ctx h ks h' -> flow h ks h'.
Proof. induction 1; econstructor; eauto. Qed.

Lemma flow_app h ks1 h1 ks2 h2 : flow h ks1 h1 -> flow h1 ks2 h2 -> flow h (ks1 ++ ks2) h2.
Proof. induction 1; [exact id | intros; econstructor; eauto ..]. Qed.

(** A collection from a good state. *)
Lemma collect_good v h h1 :
  good ctx h -> collect ctx v h = Ret (tt, h1) ->
  exists c, host_wf h /\ contexts h !! ctx = Some c /\ h1 = collected ctx v c h.
Proof.
  intros Hg Hc. destruct (good_context ctx h Hg) as (c & Hwf & Hctx).
  rewrite (collect_eq ctx v h c Hwf Hctx) in Hc. injection Hc as <-. eauto.
Qed.

(** An invariant of the calls and of the collections holds along every
    flow.  The invariant may depend on the calls made so far. *)
Lemma flow_invariant (I : list call -> host -> Prop) :
  (forall ks h k h1, good ctx h -> I ks h -> run ctx k h = Ret (tt, h1) -> I (ks ++ [k]) h1) ->
  (forall ks h c v, host_wf h -> contexts h !! ctx = Some c -> I ks h ->
     I ks (collected ctx v c h)) ->
  forall h ks h', flow h ks h' -> forall ks0, good ctx h -> I ks0 h ->
    good ctx h' /\ I (ks0 ++ ks) h'.
Proof.
  intros Hcall Hcoll. induction 1 as [h|h k h1 ks h2 Hrun _ IH|h v h1 ks h2 Hc _ IH];
    intros ks0 Hg HI.
  - rewrite app_nil_r. auto.
  - rewrite (cons_middle k ks0 ks), app_assoc.
    exact (IH _ (proj2 (run_good ctx k h h1 Hg Hrun)) (Hcall ks0 h k h1 Hg HI Hrun)).
  - destruct (collect_good v h h1 Hg Hc) as (c & Hwf & Hctx & ->).
    exact (IH _ (collected_good ctx v h c Hwf Hctx) (Hcoll ks0 h c v Hwf Hctx HI)).
Qed.

(** The invariants of [Session] and of [Lifecycle], along a flow. *)
Lemma flow_good h ks h' : flow h ks h' -> good ctx h -> good ctx h'.
Proof.
  intros Hf Hg. exact (proj1 (flow_invariant (fun _ _ => True) (fun _ _ _ _ _ _ _ => I)
    (fun _ _ _ _ _ _ _ => I) h ks h' Hf [] Hg I)).
Qed.

Lemma flow_kept h0 h ks h' : flow h ks h' -> good ctx h -> kept ctx h0 h -> kept ctx h0 h'.
Proof.
  intros Hf Hg Hk. refine (proj2 (flow_invariant (fun _ => kept ctx h0) _ _ h ks h' Hf [] Hg Hk)).
  - intros _ h1 k h2 Hg1 Hk1 Hrun.
    exact (moved_kept ctx h1 h2 h0 _ (proj1 (run_good ctx k h1 h2 Hg1 Hrun)) Hk1).
  - intros _ h1 c v _. apply collected_kept.
Qed.

Lemma flow_ledger h ks h' ps :
  flow h ks h' -> good ctx h -> ledger ps h ->
  exists ps', length ps' = (length ps + leak_count ks)%nat /\ ledger ps' h'.
Proof.
  intros Hf Hg Hl.
  refine (proj2 (flow_invariant
    (fun ks h => exists ps', length ps' = (length ps + leak_count ks)%nat /\ ledger ps' h)
    _ _ h ks h' Hf [] Hg _)).
  - intros ks1 h1 k h2 Hg1 (ps1 & Hlen & Hl1) Hrun.
    pose proof (moved_ledger ctx h1 h2 ps1 _ (proj1 Hg1) (proj1 (run_good ctx k h1 h2 Hg1 Hrun)) Hl1)
      as Hl2.
    eexists. split; [|exact Hl2]. rewrite leak_count_app. cbn [leak_count].
    destruct (leaks k); cbn [length]; lia.
  - intros ks1 h1 c v _ Hc (ps1 & Hlen & Hl1). exists ps1.
    split; [exact Hlen | exact (collected_ledger ctx v ps1 h1 c Hc Hl1)].
  - exists ps. split; [cbn; lia | exact Hl].
Qed.

Lemma flow_no_leak h ks h' :
  flow h ks h' -> good ctx h -> Forall (fun k => leaks k = false) ks -> no_leak h -> no_leak h'.
Proof.
  intros Hf Hg Hks Hl.
  refine (proj2 (flow_invariant
    (fun ks h => Forall (fun k => leaks k = false) ks -> no_leak h) _ _ h ks h' Hf [] Hg
    (fun _ => Hl)) Hks).
  - intros ks1 h1 k h2 Hg1 Hl1 Hrun [Hks1 Hk%Forall_inv]%Forall_app.
    pose proof (proj1 (run_good ctx k h1 h2 Hg1 Hrun)) as Hm. rewrite Hk in Hm.
    exact (moved_no_leak ctx h1 h2 (proj1 Hg1) Hm (Hl1 Hks1)).
  - intros ks1 h1 c v Hwf Hc Hl1 Hks1. exact (collected_no_leak ctx v h1 c Hwf Hc (Hl1 Hks1)).
Qed.

Lemma flow_aux h ks h' col :
  flow h ks h' -> good ctx h -> aux_of ctx col h' = latest_aux col ks (aux_of ctx col h).
Proof.
  intros Hf Hg.
  refine (proj2 (flow_invariant
    (fun ks h1 => aux_of ctx col h1 = latest_aux col ks (aux_of ctx col h))
    _ _ h ks h' Hf [] Hg eq_refl)).
  - intros ks1 h1 k h2 Hg1 HI Hrun.
    rewrite latest_aux_app, <- HI. exact (run_aux ctx k h1 h2 col Hg1 Hrun).
  - intros ks1 h1 c v _ Hc HI. rewrite (collected_aux ctx v h1 c col Hc). exact HI.
Qed.

(** ** Lemmas: statements *)

Section Served.
Context {A : Type}.

Lemma invoke_inv (b : body A) v h a h2 :
  invoke b v h = Ret (a, h2) ->
  exists h1, denote ctx b h = Ret (a, h1) /\ collect ctx v h1 = Ret (tt, h2).
Proof.
  intros (a' & h1 & Hd & ([] & h2' & Hc & [= <- <-])%bind_Ret)%bind_Ret. eauto.
Qed.

Lemma invoke_eq (b : body A) v h a h1 c :
  denote ctx b h = Ret (a, h1) -> host_wf h1 -> contexts h1 !! ctx = Some c ->
  invoke b v h = Ret (a, collected ctx v c h1).
Proof.
  intros Hd Hwf Hc. unfold invoke. rewrite (bind_step _ _ _ _ _ Hd).
  rewrite (bind_step _ _ _ _ _ (collect_eq ctx v h1 c Hwf Hc)). reflexivity.
Qed.

Lemma serve_row (b : body A) v es h r h' :
  serve (Row b v :: es) h = Ret (r, h') ->
  exists a h1 h2 r', denote ctx b h = Ret (a, h1) /\ collect ctx v h1 = Ret (tt, h2)
    /\ invoke b v h = Ret (a, h2) /\ serve es h2 = Ret (r', h') /\ r = a :: r'.
Proof.
  cbn [serve]. intros (a & h2 & Hi & (r' & h3 & Hs & [= <- <-])%bind_Ret)%bind_Ret.
  destruct (invoke_inv b v h a h2 Hi) as (h1 & Hd & Hc). eauto 10.
Qed.

Lemma serve_discard col (es : list (event A)) h r h' :
  serve (Discard col :: es) h = Ret (r, h') ->
  exists h1, run ctx (CallAuxSet col 0 None) h = Ret (tt, h1) /\ discard col h = Ret (tt, h1)
    /\ serve es h1 = Ret (r, h').
Proof. cbn [serve]. intros ([] & h1 & Hd & Hs)%bind_Ret. eauto. Qed.

(** Every statement is a flow of the calls of its trace. *)
Lemma serve_flow (es : list (event A)) h r h' :
  serve es h = Ret (r, h') -> flow h (trace es h) h'.
Proof.
  revert h r. induction es as [|[b v|col] es IH]; intros h r; cbn [trace].
  - intros [= _ <-]. constructor.
  - intros (a & h1 & h2 & r' & Hd & Hc & -> & Hs & _)%serve_row.
    apply (flow_app h _ h1); [exact (flow_steps _ _ _ (denote_steps ctx b h a h1 Hd))|].
    exact (flow_collect h1 v h2 _ h' Hc (IH h2 r' Hs)).
  - intros (h1 & Hrun & -> & Hs)%serve_discard. exact (flow_call h _ h1 _ h' Hrun (IH h1 r Hs)).
Qed.

(** Between two events the context holds no result. *)
Lemma serve_idle (es : list (event A)) h r h' : serve es h = Ret (r, h') -> idle h -> idle h'.
Proof.
  revert h r. induction es as [|[b v|col] es IH]; intros h r.
  - intros [= _ <-]. exact id.
  - intros (a & h1 & h2 & r' & Hd & Hc & _ & Hs & _)%serve_row [Hg _]. apply (IH h2 r' Hs).
    destruct (steps_keep ctx h _ h1 (denote_steps ctx b h a h1 Hd) Hg) as [Hg1 _].
    destruct (collect_good v h1 h2 Hg1 Hc) as (c & Hwf & Hctx & ->).
    split; [apply collected_good | apply collected_idle]; assumption.
  - intros (h1 & Hrun & _ & Hs)%serve_discard [Hg Hr]. apply (IH h1 r Hs).
    destruct (good_context ctx h Hg) as (c & Hwf & Hc).
    split; [exact (proj2 (run_good ctx _ h h1 Hg Hrun))|].
    cbn [run] in Hrun. rewrite (auxdata_set_eq h ctx c Hwf Hc) in Hrun. injection Hrun as <-.
    rewrite (sw_held _ _ _ _ (aux_swapped h ctx c Hc col 0 _)), bool_decide_eq_false_2 by discriminate.
    exact Hr.
Qed.

(** A statement of tame rows runs to its end, and makes no lossy call when
    its rows are frugal. *)
Lemma serve_run vs (es : list (event A)) h :
  good ctx h -> vs ⊆ values h -> Forall (tame_event vs) es ->
  exists r h', serve es h = Ret (r, h') /\ length r = rows es
    /\ (Forall (frugal_event vs) es -> Forall (fun k => leaks k = false) (trace es h)).
Proof.
  revert h. induction es as [|[b v|col] es IH]; intros h Hg Hvs Hes.
  - exists [], h. repeat split. constructor.
  - apply Forall_cons in Hes as [[Hb Hv] Hes].
    pose proof (tame_mono vs (values h) b Hvs Hb) as Hb'.
    destruct (body_run ctx b h Hg Hb') as (a & h1 & Hd).
    destruct (steps_keep ctx h _ h1 (denote_steps ctx b h a h1 Hd) Hg) as [Hg1 Hv1].
    destruct (good_context ctx h1 Hg1) as (c & Hwf & Hc).
    pose proof (invoke_eq b v h a h1 c Hd Hwf Hc) as Hi.
    destruct (IH (collected ctx v c h1) (collected_good ctx v h1 c Hwf Hc)) as (r & h' & Hs & Hlen & Hfr);
      [|exact Hes|].
    { rewrite values_collected, Hv1. apply insert_subseteq_r; assumption. }
    exists (a :: r), h'. cbn [serve trace rows length]. rewrite (bind_step _ _ _ _ _ Hi), Hi.
    rewrite (bind_step _ _ _ _ _ Hs). split; [reflexivity|]. split; [congruence|].
    intros [Hf Hfs]%Forall_cons. apply Forall_app. split; [|exact (Hfr Hfs)].
    exact (frugal_calls ctx b h a h1 Hg (frugal_mono vs (values h) b Hvs Hb Hf) Hd).
  - apply Forall_cons in Hes as [_ Hes]. destruct (good_context ctx h Hg) as (c & Hwf & Hc).
    destruct (run_total ctx h c Hwf Hc (CallAuxSet col 0 None) eq_refl) as [h1 Hrun].
    destruct (run_good ctx _ h h1 Hg Hrun) as [Hm Hg1].
    destruct (IH h1 Hg1) as (r & h' & Hs & Hlen & Hfr); [|exact Hes|].
    { rewrite (moved_values ctx h h1 _ Hm). exact Hvs. }
    exists r, h'. cbn [serve trace rows]. change (discard col h) with (run ctx (CallAuxSet col 0 None) h).
    rewrite (bind_step _ _ _ _ _ Hrun), Hrun. split; [exact Hs|]. split; [exact Hlen|].
    intros [_ Hfs]%Forall_cons. constructor; [reflexivity | exact (Hfr Hfs)].
Qed.

End Served.

(** Rows that make the same calls [ks]: the lossy calls of the statement
    are those of [ks], once for every row. *)
Lemma trace_repeat ks v n h r h' :
  serve (repeat (Row (of_calls ks) v) n) h = Ret (r, h') ->
  leak_count (trace (repeat (Row (of_calls ks) v) n) h) = (n * leak_count ks)%nat.
Proof.
  revert h r. induction n as [|n IH]; intros h r; [reflexivity|]. cbn [repeat].
  intros (a & h1 & h2 & r' & Hd & Hc & Hi & Hs & _)%serve_row. cbn [trace].
  destruct a. rewrite Hi, leak_count_app, (calls_of_calls ctx ks h h1 Hd), (IH h2 r' Hs). lia.
Qed.

(** The ledger of a statement started with nothing lost. *)
Lemma serve_ledger {A} (es : list (event A)) h r h' :
  serve es h = Ret (r, h') -> good ctx h -> no_leak h ->
  exists ps, length ps = leak_count (trace es h) /\ NoDup ps /\ forall p, lost h' p <-> In p ps.
Proof.
  intros Hs Hg Hl.
  destruct (flow_ledger h _ h' [] (serve_flow es h r h' Hs) Hg (ledger_nil h Hl))
    as (ps & Hlen & Hled).
  exists ps. split; [exact Hlen | exact (ledger_spec ps h' Hled)].
Qed.

(** ** Theorems *)

(** Every statement is a flow: what a statement does to the host is what
    the calls of its trace do, in their order, with the collections of the
    host in between. *)
Theorem statement_refines {A} (es : list (event A)) h r h' :
  serve es h = Ret (r, h') -> flow h (trace es h) h'.
Proof. apply serve_flow. Qed.

(** A statement leaves the host as it found it: good, and with no result
    in the context, whatever its rows read and write and whatever the host
    discards in between. *)
Theorem statement_good {A} (es : list (event A)) h r h' :
  serve es h = Ret (r, h') -> idle h -> idle h'.
Proof. apply serve_idle. Qed.

(** A statement of tame rows runs to its end, whatever the values of the
    rows and whatever the host discards in between: every row returns, and
    the host gets one answer for every row. *)
Theorem statement_total {A} (es : list (event A)) h :
  good ctx h -> Forall (tame_event (values h)) es ->
  exists r h', serve es h = Ret (r, h') /\ length r = rows es.
Proof.
  intros Hg Hes. destruct (serve_run (values h) es h Hg (reflexivity _) Hes) as (r & h' & Hs & Hlen & _).
  eauto.
Qed.

(** A statement of tame and frugal rows gives back what it takes: at its
    end nothing is lost, and every allocation made since it began is freed,
    however many rows it had. *)
Theorem statement_reclaims {A} (es : list (event A)) h :
  idle h -> no_leak h -> Forall (tame_event (values h)) es ->
  Forall (frugal_event (values h)) es ->
  exists r h', serve es h = Ret (r, h') /\ idle h' /\ no_leak h'
    /\ forall p, next_addr h <= p -> is_live h' p = false.
Proof.
  intros Hi Hl Ht Hf. pose proof (proj1 Hi) as Hg.
  destruct (serve_run (values h) es h Hg (reflexivity _) Ht) as (r & h' & Hs & _ & Hks).
  pose proof (serve_flow es h r h' Hs) as Hflow.
  pose proof (serve_idle es h r h' Hs Hi) as Hi'.
  pose proof (flow_no_leak h _ h' Hflow Hg (Hks Hf) Hl) as Hl'.
  exists r, h'. repeat (split; [assumption|]). intros p Hp.
  apply (idle_fresh ctx h h' p (proj1 Hg)); [|exact (proj2 Hi') | exact Hl' | exact Hp].
  apply (flow_kept h h _ h' Hflow Hg). intros s q d _ Hq _. exact Hq.
Qed.

(** A statement started with nothing lost ends with exactly as many lost
    allocations as its rows made calls of [result_error] on a text without
    a nul byte: what a row loses no later row and no collection of the host
    gives back. *)
Theorem statement_leak_count {A} (es : list (event A)) h r h' :
  serve es h = Ret (r, h') -> good ctx h -> no_leak h ->
  exists ps, length ps = leak_count (trace es h) /\ NoDup ps /\ forall p, lost h' p <-> In p ps.
Proof. apply serve_ledger. Qed.

(** The loss grows with the rows: [n] rows that make the calls [ks] lose [n]
    times what one of them loses. *)
Theorem statement_leak_linear ks v n h r h' :
  serve (repeat (Row (of_calls ks) v) n) h = Ret (r, h') -> good ctx h -> no_leak h ->
  exists ps, length ps = (n * leak_count ks)%nat /\ NoDup ps /\ forall p, lost h' p <-> In p ps.
Proof.
  intros Hs Hg Hl. rewrite <- (trace_repeat ks v n h r h' Hs).
  exact (serve_ledger _ h r h' Hs Hg Hl).
Qed.

(** C28: auxiliary data is a cache across the rows of a statement: after a
    statement, [auxdata_get] returns for a slot the pointer of the last
    [auxdata_set] on that slot, whichever row made it, and the null pointer
    when the host has discarded the slot since. *)
Theorem statement_cache {A} (es : list (event A)) h r h' col :
  serve es h = Ret (r, h') -> good ctx h ->
  auxdata_get ctx col h' = Ret (latest_aux col (trace es h) (aux_of ctx col h), h').
Proof.
  intros Hs Hg. pose proof (serve_flow es h r h' Hs) as Hflow.
  rewrite <- (flow_aux h _ h' col Hflow Hg).
  exact (auxdata_get_aux ctx col h' (flow_good h _ h' Hflow Hg)).
Qed.

End Serving.

(** ** The theorems at concrete inputs *)

Module StatementExamples.
Import ResultExamples BodyExamples.
#[local] Existing Instance trivial_coercion.

(** The state a computation leaves. *)
Definition final {A} (m : exec host A) (h : host) : host :=
  match m h with
  | Ret (_, h') => h'
  | _ => h
  end.

Lemma h2_idle : idle 1 h2.
Proof. split; [exact h2_good | reflexivity]. Qed.

(** Three rows of [echo], on a text, on a text that is not UTF-8 and on
    NULL, and a discard. *)
Definition echoes : list (event (result unit Error)) :=
  [Row (echo 100) 200; Row (echo 102) 201; Discard 0; Row (echo 101) 202; Row (echo 102) 203].

(** A row that caches a pointer in slot 0, then rows that do not. *)
Definition cached : list (event unit) :=
  [Row (of_calls [CallAuxSet 0 77 (Some 5); CallInt 1]) 200; Row (byte_length 100) 201;
   Discard 1; Row (byte_length 101) 202].

Lemma echoes_tame : Forall (tame_event (values h2)) echoes.
Proof.
  repeat (constructor; [first [exact I | split; [apply echo_tame; eexists; reflexivity | reflexivity]]|]).
  constructor.
Qed.

Lemma cached_tame : Forall (tame_event (values h2)) cached.
Proof.
  repeat (constructor;
    [first [exact I | split; [first [apply byte_length_tame; eexists; reflexivity | cbn; tauto]
                             | reflexivity]]|]).
  constructor.
Qed.

Lemma cached_frugal : Forall (frugal_event (values h2)) cached.
Proof.
  repeat (constructor; [first [exact I | apply byte_length_frugal | cbn; tauto]|]). constructor.
Qed.

Lemma echoes_served : exists r, serve 1 echoes h2 = Ret (r, final (serve 1 echoes) h2).
Proof. vm_compute. eauto. Qed.

Example echoes_trace :
  trace 1 echoes h2 =
  [CallText abc; CallError (lit "not a text"); CallAuxSet 0 0 None; CallNull;
   CallError (lit "not a text")].
Proof. vm_compute. reflexivity. Qed.

Lemma statement_refines_witness :
  flow 1 h2 (trace 1 echoes h2) (final (serve 1 echoes) h2).
Proof. destruct echoes_served as [r Hr]. exact (statement_refines 1 echoes h2 r _ Hr). Defined.

Lemma statement_good_witness : idle 1 (final (serve 1 echoes) h2).
Proof. destruct echoes_served as [r Hr]. exact (statement_good 1 echoes h2 r _ Hr h2_idle). Defined.

Lemma statement_total_witness :
  exists r h', serve 1 echoes h2 = Ret (r, h') /\ length r = rows echoes.
Proof. exact (statement_total 1 echoes h2 h2_good echoes_tame). Defined.

Lemma statement_reclaims_witness :
  exists r h', serve 1 cached h2 = Ret (r, h') /\ idle 1 h' /\ no_leak h'
    /\ forall p, next_addr h2 <= p -> is_live h' p = false.
Proof.
  exact (statement_reclaims 1 cached h2 h2_idle (example_host_no_leak _) cached_tame cached_frugal).
Defined.

Lemma statement_leak_count_witness :
  exists ps, length ps = leak_count (trace 1 echoes h2) /\ NoDup ps
    /\ forall p, lost (final (serve 1 echoes) h2) p <-> In p ps.
Proof.
  destruct echoes_served as [r Hr].
  exact (statement_leak_count 1 echoes h2 r _ Hr h2_good (example_host_no_leak _)).
Defined.

Lemma statement_cache_witness :
  auxdata_get 1 0 (final (serve 1 cached) h2) =
  Ret (latest_aux 0 (trace 1 cached h2) (aux_of 1 0 h2), final (serve 1 cached) h2).
Proof.
  assert (Hr : serve 1 cached h2 = Ret ([tt; tt; tt], final (serve 1 cached) h2))
    by (vm_compute; reflexivity).
  exact (statement_cache 1 cached h2 _ _ 0 Hr h2_good).
Defined.

(** The pointer cached by the first row is there after the last one; two
    of the five events of [echoes] have lost a buffer. *)
Example cached_pointer : latest_aux 0 (trace 1 cached h2) (aux_of 1 0 h2) = 77.
Proof. vm_compute. reflexivity. Qed.

Example echoes_lost : leak_count (trace 1 echoes h2) = 2%nat.
Proof. vm_compute. reflexivity. Qed.

End StatementExamples.
