(* ===== verification/Pipeline.v ===== *)
(** * Nested calls: two functions, two contexts

    In [g(f(x))] SQLite calls [f] on one context, keeps its result as the
    value of the argument of [g], calls [g] on another context, and lets go
    of the result of [f] only when [g] has returned: the buffer or the box
    [f] handed over with a destructor is what [g] reads.  [nested] is that
    order of events for two bodies of [Body]; the contexts are two different
    contexts of the same host.

    The frame lemmas say that a call on one context leaves the other
    contexts as they are ([moved_contexts], [denote_frame]).  With them the
    theorems of [Session] and [Lifecycle], which are about one context,
    carry over: a nested call of tame bodies runs to its end whatever [f]
    hands to [g] ([nested_total]); the result of [f] stays live while [g]
    runs ([nested_live]) and [g] finds under its handle the last result [f]
    wrote ([nested_passes], [nested_text]); when the bodies are frugal
    nothing is lost and everything the two calls allocated is freed at the
    end ([nested_reclaims]). *)

From Stdlib Require Import ZArith Lia List String Ascii.
From stdpp Require Import base tactics option list gmap.
From S2P Require Import Prelude RustStr RustNum Utf8 Unicode Errors Host Mprintf ValueApi ResultApi Affinity AuxData Coercion Session Boundary Body Lifecycle.

#[local] Open Scope Z_scope.
#[local] Open Scope rs_scope.

(** The host state once the host has let go of the result of [c]. *)
Definition finished (ctx : Z) (c : sqlite3_context) (h : host) : host :=
  stored ctx c None (released ctx c h).

Section Nested.
Context `{HostCoercion}.
Context (inner outer : Z) (v w : Z).
Hypothesis inner_outer : inner <> outer.

(** [g(f(x))]: the host calls [f] on the context [inner] and binds its
    result to the handle [v]; it calls [g], which may read [v], on the context
    [outer] and collects its result under [w]; then it lets go of the result
    of [f]. *)
Definition nested {A B} (f : body A) (g : body B) : exec host (A * B) :=
  let! a := denote inner f in
  deliver inner v ;;
  let! b := denote outer g in
  collect outer w ;;
  finish inner ;;
  ret (a, b).

(** ** Frames *)

(** A step on a context leaves the other contexts as they are. *)
Lemma moved_contexts ctx t lossy h h' c' :
  moved ctx t lossy h h' -> c' <> ctx -> contexts h' !! c' = contexts h !! c'.
Proof.
  intros Hm Hne. destruct Hm as [h c r g Hc Hr Hg|h c subtype Hc|h c col p d Hc|h cells _].
  - unfold wrote, stored. cbn [contexts log_write set_contexts].
    rewrite lookup_insert_ne, contexts_released by congruence. destruct g; reflexivity.
  - unfold subtyped. cbn [contexts set_contexts]. apply lookup_insert_ne. congruence.
  - unfold aux_written, aux_stored, aux_released. cbn [contexts set_contexts].
    rewrite lookup_insert_ne by congruence. f_equal. apply let_go_frame.
  - f_equal. apply scratch_frame.
Qed.

Lemma steps_contexts ctx h ks h' c' :
  steps ctx h ks h' -> good ctx h -> c' <> ctx -> contexts h' !! c' = contexts h !! c'.
Proof.
  induction 1 as [h|h k h1 ks h2 Hrun _ IH]; [reflexivity|]. intros Hg Hne.
  destruct (run_good ctx k h h1 Hg Hrun) as [Hm Hg1].
  rewrite (IH Hg1 Hne). exact (moved_contexts ctx _ _ h h1 c' Hm Hne).
Qed.

(** A body on one context keeps the other good, with the result it holds. *)
Lemma denote_frame {A} ctx c' (b : body A) h a h' :
  denote ctx b h = Ret (a, h') -> good ctx h -> good c' h -> c' <> ctx ->
  good c' h' /\ contexts h' !! c' = contexts h !! c'.
Proof.
  intros Hd Hg Hg' Hne. pose proof (denote_steps ctx b h a h' Hd) as Hs.
  pose proof (steps_contexts ctx h _ h' c' Hs Hg Hne) as Hc.
  split; [|exact Hc]. split; [apply (steps_keep ctx h _ h' Hs Hg)|].
  rewrite Hc. apply Hg'.
Qed.

(** ** The host between the calls *)

Lemma finished_good ctx c h : host_wf h -> contexts h !! ctx = Some c -> good ctx (finished ctx c h).
Proof.
  intros Hwf Hc. split; [apply (finish_keeps_wf _ ctx c Hwf Hc)|].
  unfold finished, stored. cbn [contexts set_contexts]. rewrite lookup_insert_eq. eauto.
Qed.

Lemma held_at_finished ctx c h s :
  contexts h !! ctx = Some c ->
  held_at (finished ctx c h) s = if bool_decide (s = ResultSlot ctx) then None else held_at h s.
Proof.
  intros Hc. unfold finished. rewrite held_at_stored by (rewrite contexts_released; exact Hc).
  rewrite held_at_released. reflexivity.
Qed.

Lemma finished_no_leak ctx c h :
  host_wf h -> contexts h !! ctx = Some c -> no_leak h -> no_leak (finished ctx c h).
Proof.
  intros Hwf Hc Hl. apply (stored_no_leak _ ctx c None Hwf Hc). intros q Hq. right. exact (Hl q Hq).
Qed.

Lemma finished_contexts ctx c h c' :
  c' <> ctx -> contexts (finished ctx c h) !! c' = contexts h !! c'.
Proof.
  intros Hne. unfold finished, stored. cbn [contexts set_contexts].
  rewrite lookup_insert_ne, contexts_released by congruence. reflexivity.
Qed.

Lemma collected_finished ctx u c h :
  collected ctx u c h = finished ctx c (delivered u (value_of_result (ctx_result c)) h).
Proof. reflexivity. Qed.

Lemma delivered_good ctx x h : good ctx h -> good ctx (delivered v x h).
Proof. intros [Hwf Hc]. split; [apply (delivered_wf v), Hwf | exact Hc]. Qed.

Lemma delivered_no_leak x h : no_leak h -> no_leak (delivered v x h).
Proof. exact id. Qed.

(** ** The run of a nested call *)

Section Run.
Context {A B : Type} (f : body A) (g : body B).

(** The states of a nested call: after [f], after [g], at the end. *)
Lemma nested_eq h a h1 c1 b h2 c2 :
  good inner h -> good outer h ->
  denote inner f h = Ret (a, h1) -> contexts h1 !! inner = Some c1 ->
  denote outer g (delivered v (value_of_result (ctx_result c1)) h1) = Ret (b, h2) ->
  contexts h2 !! outer = Some c2 ->
  nested f g h = Ret ((a, b), finished inner c1 (collected outer w c2 h2))
  /\ host_wf h2 /\ contexts (collected outer w c2 h2) !! inner = Some c1.
Proof.
  intros Hgi Hgo Hf Hc1 Hg Hc2.
  destruct (denote_frame inner outer f h a h1 Hf Hgi Hgo ltac:(congruence)) as [Hgo1 _].
  destruct (steps_keep inner h _ h1 (denote_steps inner f h a h1 Hf) Hgi) as [Hgi1 _].
  set (h1' := delivered v (value_of_result (ctx_result c1)) h1) in *.
  destruct (denote_frame outer inner g h1' b h2 Hg (delivered_good outer _ h1 Hgo1)
              (delivered_good inner _ h1 Hgi1) inner_outer) as [[Hwf2 _] Hci].
  assert (Hc3 : contexts (collected outer w c2 h2) !! inner = Some c1).
  { rewrite collected_finished, finished_contexts by exact inner_outer.
    exact (eq_trans Hci Hc1). }
  split; [|split; [exact Hwf2 | exact Hc3]].
  unfold nested. rewrite (bind_step _ _ _ _ _ Hf).
  rewrite (bind_step _ _ _ _ _ (deliver_eq inner v c1 h1 Hc1)).
  fold h1'. rewrite (bind_step _ _ _ _ _ Hg).
  rewrite (bind_step _ _ _ _ _ (collect_eq outer w h2 c2 Hwf2 Hc2)).
  rewrite (bind_step _ _ _ _ _
             (finish_wf _ inner c1 (proj1 (collected_good outer w h2 c2 Hwf2 Hc2)) Hc3)).
  reflexivity.
Qed.


(** Between two nested calls neither context holds a result. *)
Definition at_rest (h : host) : Prop :=
  good inner h /\ good outer h
  /\ held_at h (ResultSlot inner) = None /\ held_at h (ResultSlot outer) = None.

(** A nested call of tame bodies runs to its end, whatever [f] hands to
    [g]. *)
Lemma nested_run h :
  good inner h -> good outer h -> tame (values h) f ->
  (forall x, tame (<[v := x]> (values h)) g) ->
  exists a h1 c1 b h2 c2,
    denote inner f h = Ret (a, h1) /\ contexts h1 !! inner = Some c1
    /\ denote outer g (delivered v (value_of_result (ctx_result c1)) h1) = Ret (b, h2)
    /\ contexts h2 !! outer = Some c2 /\ values h1 = values h.
Proof.
  intros Hgi Hgo Hf Hg. destruct (body_run inner f h Hgi Hf) as (a & h1 & Hd).
  destruct (steps_keep inner h _ h1 (denote_steps inner f h a h1 Hd) Hgi) as [Hgi1 Hv1].
  destruct (denote_frame inner outer f h a h1 Hd Hgi Hgo ltac:(congruence)) as [Hgo1 _].
  destruct (good_context inner h1 Hgi1) as (c1 & _ & Hc1).
  set (h1' := delivered v (value_of_result (ctx_result c1)) h1).
  destruct (body_run outer g h1' (delivered_good outer _ h1 Hgo1)) as (b & h2 & Hd2).
  { unfold h1'. cbn [values delivered]. rewrite Hv1. apply Hg. }
  destruct (steps_keep outer h1' _ h2 (denote_steps outer g h1' b h2 Hd2)
              (delivered_good outer _ h1 Hgo1)) as [Hgo2 _].
  destruct (good_context outer h2 Hgo2) as (c2 & _ & Hc2).
  exists a, h1, c1, b, h2, c2. auto.
Qed.


(** The end of a nested call: both contexts are good and hold no result. *)
Lemma nested_rest h2 c1 c2 :
  host_wf h2 -> contexts h2 !! outer = Some c2 ->
  contexts (collected outer w c2 h2) !! inner = Some c1 ->
  at_rest (finished inner c1 (collected outer w c2 h2)).
Proof.
  intros Hwf2 Hc2 Hc3. pose proof (collected_good outer w h2 c2 Hwf2 Hc2) as [Hwf3 Hco].
  pose proof (finished_good inner c1 _ Hwf3 Hc3) as Hgi. split; [exact Hgi|].
  split; [split; [apply Hgi | rewrite finished_contexts by congruence; exact Hco]|].
  rewrite !(held_at_finished inner c1 _ _ Hc3), bool_decide_eq_true_2 by reflexivity.
  rewrite bool_decide_eq_false_2 by congruence.
  split; [reflexivity | exact (collected_idle outer w h2 c2 Hc2)].
Qed.

(** What a place other than the two results holds at the end, it held at the
    start. *)
Lemma nested_kept h a h1 c1 b h2 c2 :
  good inner h -> good outer h ->
  denote inner f h = Ret (a, h1) -> contexts h1 !! inner = Some c1 ->
  denote outer g (delivered v (value_of_result (ctx_result c1)) h1) = Ret (b, h2) ->
  contexts h2 !! outer = Some c2 ->
  kept inner h (finished inner c1 (collected outer w c2 h2)).
Proof.
  intros Hgi Hgo Hf Hc1 Hg Hc2 s p d Hs.
  destruct (nested_eq h a h1 c1 b h2 c2 Hgi Hgo Hf Hc1 Hg Hc2) as (_ & Hwf2 & Hc3).
  rewrite (held_at_finished inner c1 _ _ Hc3), bool_decide_eq_false_2 by exact Hs.
  rewrite (held_at_collected outer w h2 c2 s Hc2). case_bool_decide as Ho; [discriminate|].
  destruct (denote_frame inner outer f h a h1 Hf Hgi Hgo ltac:(congruence)) as [Hgo1 _].
  intros Hh Hd.
  pose proof (steps_kept outer _ _ _ h2 (denote_steps outer g _ b h2 Hg)
                (delivered_good outer _ h1 Hgo1) (fun _ _ _ _ Hx _ => Hx) s p d Ho Hh Hd) as Hh1.
  exact (steps_kept inner h h _ h1 (denote_steps inner f h a h1 Hf) Hgi
           (fun _ _ _ _ Hx _ => Hx) s p d Hs Hh1 Hd).
Qed.

(** Nothing is lost when neither body makes a lossy call. *)
Lemma nested_no_leak h a h1 c1 b h2 c2 :
  good inner h -> good outer h -> no_leak h ->
  frugal (values h) f -> (forall x, frugal (<[v := x]> (values h)) g) ->
  denote inner f h = Ret (a, h1) -> contexts h1 !! inner = Some c1 ->
  denote outer g (delivered v (value_of_result (ctx_result c1)) h1) = Ret (b, h2) ->
  contexts h2 !! outer = Some c2 ->
  no_leak (finished inner c1 (collected outer w c2 h2)).
Proof.
  intros Hgi Hgo Hl Hff Hfg Hf Hc1 Hg Hc2.
  destruct (nested_eq h a h1 c1 b h2 c2 Hgi Hgo Hf Hc1 Hg Hc2) as (_ & Hwf2 & Hc3).
  destruct (steps_keep inner h _ h1 (denote_steps inner f h a h1 Hf) Hgi) as [Hgi1 Hv1].
  destruct (denote_frame inner outer f h a h1 Hf Hgi Hgo ltac:(congruence)) as [Hgo1 _].
  pose proof (steps_frugal inner h _ h1 (denote_steps inner f h a h1 Hf) Hgi
                (frugal_calls inner f h a h1 Hgi Hff Hf) Hl) as Hl1.
  set (h1' := delivered v (value_of_result (ctx_result c1)) h1) in *.
  assert (Hfg' : frugal (values h1') g) by (unfold h1'; cbn [values delivered]; rewrite Hv1; apply Hfg).
  pose proof (steps_frugal outer h1' _ h2 (denote_steps outer g h1' b h2 Hg)
                (delivered_good outer _ h1 Hgo1)
                (frugal_calls outer g h1' b h2 (delivered_good outer _ h1 Hgo1) Hfg' Hg) Hl1) as Hl2.
  apply (finished_no_leak inner c1 _ (proj1 (collected_good outer w h2 c2 Hwf2 Hc2)) Hc3).
  exact (collected_no_leak outer w h2 c2 Hwf2 Hc2 Hl2).
Qed.

(** While [g] runs the host holds the result of [f]: what [f] has handed
    over with a destructor of the layer stays live until the host lets go of
    it. *)
Lemma nested_live h a h1 c1 b h2 p d :
  good inner h -> good outer h ->
  denote inner f h = Ret (a, h1) -> contexts h1 !! inner = Some c1 ->
  denote outer g (delivered v (value_of_result (ctx_result c1)) h1) = Ret (b, h2) ->
  held_at h1 (ResultSlot inner) = Some (p, d) -> is_rust d = true ->
  held_at h2 (ResultSlot inner) = Some (p, d) /\ is_live h2 p = true.
Proof.
  intros Hgi Hgo Hf Hc1 Hg Hh Hd.
  destruct (denote_frame inner outer f h a h1 Hf Hgi Hgo ltac:(congruence)) as [Hgo1 _].
  destruct (steps_keep inner h _ h1 (denote_steps inner f h a h1 Hf) Hgi) as [Hgi1 _].
  destruct (denote_frame outer inner g _ b h2 Hg (delivered_good outer _ h1 Hgo1)
              (delivered_good inner _ h1 Hgi1) inner_outer) as [[Hwf2 _] Hci].
  assert (Hh2 : held_at h2 (ResultSlot inner) = Some (p, d)).
  { unfold held_at in *. cbn [slot_context] in *. rewrite Hci. exact Hh. }
  split; [exact Hh2|]. destruct (wf_paired h2 Hwf2 _ p d Hh2 Hd) as (x & Hx & _).
  unfold is_live. rewrite Hx. reflexivity.
Qed.

(** [g] finds under [v] the last result [f] has written. *)
Lemma nested_passes h a h1 c1 :
  good inner h -> latest inner h ->
  denote inner f h = Ret (a, h1) -> contexts h1 !! inner = Some c1 ->
  values (delivered v (value_of_result (ctx_result c1)) h1) !! v
  = Some (value_of_result (latest_write inner (writes h1))).
Proof.
  intros Hgi Hl Hf Hc1.
  pose proof (steps_latest inner h _ h1 (denote_steps inner f h a h1 Hf) Hgi Hl c1 Hc1) as ->.
  apply lookup_insert_eq.
Qed.

(** A text [f] has written last is the text [value_text] returns in [g]. *)
Lemma nested_text h a h1 c1 p n cs d :
  good inner h -> latest inner h ->
  denote inner f h = Ret (a, h1) -> contexts h1 !! inner = Some c1 ->
  latest_write inner (writes h1) = Some (ResText p n (encode cs) d) ->
  Forall (fun c => scalar c = true) cs -> ~ In 0 cs ->
  value_text v (delivered v (value_of_result (ctx_result c1)) h1)
  = Ret (Ok (encode cs), delivered v (value_of_result (ctx_result c1)) h1).
Proof.
  intros Hgi Hl Hf Hc1 Hw Hcs Hn.
  pose proof (nested_passes h a h1 c1 Hgi Hl Hf Hc1) as Hv. rewrite Hw in Hv.
  rewrite (value_text_eq v _ _ Hv). cbn [value_of_result content]. unfold decoded.
  rewrite up_to_nul_clean by (rewrite encode_nul by exact Hcs; exact Hn).
  rewrite from_utf8_encode by exact Hcs. reflexivity.
Qed.

(** A nested call of tame bodies runs to its end, whatever [f] hands to [g],
    and leaves both contexts without a result. *)
Theorem nested_total h :
  good inner h -> good outer h -> tame (values h) f ->
  (forall x, tame (<[v := x]> (values h)) g) ->
  exists r h', nested f g h = Ret (r, h') /\ at_rest h'.
Proof.
  intros Hgi Hgo Hf Hg.
  destruct (nested_run h Hgi Hgo Hf Hg) as (a & h1 & c1 & b & h2 & c2 & Hd1 & Hc1 & Hd2 & Hc2 & _).
  destruct (nested_eq h a h1 c1 b h2 c2 Hgi Hgo Hd1 Hc1 Hd2 Hc2) as (Hn & Hwf2 & Hc3).
  eexists _, _. split; [exact Hn | exact (nested_rest h2 c1 c2 Hwf2 Hc2 Hc3)].
Qed.

(** A nested call [g(f(x))] of tame and frugal bodies runs to its end
    whatever [f] hands to [g], and ends with both contexts at rest, nothing
    lost and everything the two calls allocated freed: what [f] handed over
    is freed when the host lets go of it after [g] has returned. *)
Theorem nested_reclaims h :
  good inner h -> good outer h -> no_leak h ->
  tame (values h) f -> (forall x, tame (<[v := x]> (values h)) g) ->
  frugal (values h) f -> (forall x, frugal (<[v := x]> (values h)) g) ->
  exists r h', nested f g h = Ret (r, h') /\ at_rest h' /\ no_leak h'
    /\ forall p, next_addr h <= p -> is_live h' p = false.
Proof.
  intros Hgi Hgo Hl Hf Hg Hff Hfg.
  destruct (nested_run h Hgi Hgo Hf Hg) as (a & h1 & c1 & b & h2 & c2 & Hd1 & Hc1 & Hd2 & Hc2 & _).
  destruct (nested_eq h a h1 c1 b h2 c2 Hgi Hgo Hd1 Hc1 Hd2 Hc2) as (Hn & Hwf2 & Hc3).
  pose proof (nested_rest h2 c1 c2 Hwf2 Hc2 Hc3) as Hr.
  pose proof (nested_no_leak h a h1 c1 b h2 c2 Hgi Hgo Hl Hff Hfg Hd1 Hc1 Hd2 Hc2) as Hl'.
  eexists _, _. split; [exact Hn|]. split; [exact Hr|]. split; [exact Hl'|].
  intros p Hp. apply (idle_fresh inner h _ p (proj1 Hgi)); try assumption.
  - exact (nested_kept h a h1 c1 b h2 c2 Hgi Hgo Hd1 Hc1 Hd2 Hc2).
  - apply Hr.
Qed.

End Run.
End Nested.

(** ** A host with a second context *)

Definition with_context (ctx : Z) (h : host) : host :=
  set_contexts (<[ctx := empty_context]>) h.

Lemma held_at_with_context ctx h s :
  contexts h !! ctx = None -> held_at (with_context ctx h) s = held_at h s.
Proof.
  intros Hc. unfold held_at, with_context. cbn [contexts set_contexts].
  destruct (decide (slot_context s = ctx)) as [->|Hne].
  - rewrite lookup_insert_eq, Hc. destruct s; reflexivity.
  - rewrite lookup_insert_ne by congruence. reflexivity.
Qed.

Lemma with_context_wf ctx h :
  contexts h !! ctx = None -> host_wf h -> host_wf (with_context ctx h).
Proof.
  intros Hc [H0 H1 H2 H3]. split; [exact H0 | exact H1 | |].
  - intros s p d. rewrite held_at_with_context by exact Hc. apply H2.
  - intros s1 s2 p d1 d2. rewrite !held_at_with_context by exact Hc. apply H3.
Qed.

Lemma with_context_no_leak ctx h :
  contexts h !! ctx = None -> no_leak h -> no_leak (with_context ctx h).
Proof.
  intros Hc Hl p Hp. destruct (Hl p Hp) as (s & d & Hs & Hd). exists s, d.
  rewrite held_at_with_context by exact Hc. auto.
Qed.

(** ** The theorems at concrete inputs *)

Module PipelineExamples.
#[local] Existing Instance trivial_coercion.
Import ResultExamples BodyExamples.

(** The contexts 1 and 2; the handles 100 and 101: a text and NULL. *)
Definition h3 : host := with_context 2 (example_host [SqlText abc; SqlNull]).

Lemma h3_good_1 : good 1 h3.
Proof.
  split; [apply with_context_wf; [reflexivity | apply example_host_wf]|].
  exists empty_context. reflexivity.
Qed.

Lemma h3_good_2 : good 2 h3.
Proof.
  split; [apply with_context_wf; [reflexivity | apply example_host_wf]|].
  exists empty_context. reflexivity.
Qed.

Lemma h3_no_leak : no_leak h3.
Proof. apply with_context_no_leak; [reflexivity | apply example_host_no_leak]. Qed.

(** [f] writes the text 'abc'; [g] writes the length in bytes of what it is
    given. *)
Definition write_abc : body unit := of_calls [CallText abc].

Lemma write_abc_tame vs : tame vs write_abc /\ frugal vs write_abc.
Proof. split; (split; [reflexivity | intros; exact I]). Qed.

Lemma byte_length_any vs value :
  is_Some (vs !! value) -> tame vs (byte_length value) /\ frugal vs (byte_length value).
Proof.
  intros [x Hx]. split.
  - split; [exact (holds_intro _ value _ x Hx eq_refl)|]. intros t _.
    destruct (bool_decide (t = ValueType.Null)).
    + split; [reflexivity | intros; exact I].
    + split; [exact (holds_intro _ value _ x Hx eq_refl)|]. intros n _.
      split; [reflexivity | intros; exact I].
  - split; [reflexivity|]. intros t _. destruct (bool_decide (t = ValueType.Null));
      repeat (split; [reflexivity | intros ? _]); exact I.
Qed.

Lemma byte_length_given vs x :
  tame (<[200 := x]> vs) (byte_length 200) /\ frugal (<[200 := x]> vs) (byte_length 200).
Proof. apply byte_length_any. rewrite lookup_insert_eq. eauto. Qed.

(** [length(f())]: the buffer of 'abc' is at address 1000 while [g] runs and
    freed at the end; the result of [g] is under the handle 201. *)
Example nested_abc :
  exists h', nested 1 2 200 201 write_abc (byte_length 200) h3 = Ret ((tt, tt), h')
    /\ values h' !! 201 = Some (SqlInteger 3)
    /\ heap h' !! 1000 = Some Freed.
Proof. eexists. split; [vm_compute; reflexivity|]. split; reflexivity. Qed.

Lemma nested_total_witness :
  exists r h', nested 1 2 200 201 write_abc (byte_length 200) h3 = Ret (r, h')
    /\ at_rest 1 2 h'.
Proof.
  apply (nested_total 1 2 200 201 ltac:(discriminate) write_abc (byte_length 200) h3
           h3_good_1 h3_good_2); [apply write_abc_tame | intros x; apply byte_length_given].
Defined.

Lemma nested_reclaims_witness :
  exists r h', nested 1 2 200 201 write_abc (byte_length 200) h3 = Ret (r, h')
    /\ at_rest 1 2 h' /\ no_leak h'
    /\ forall p, next_addr h3 <= p -> is_live h' p = false.
Proof.
  apply (nested_reclaims 1 2 200 201 ltac:(discriminate) write_abc (byte_length 200) h3
           h3_good_1 h3_good_2 h3_no_leak);
    try apply write_abc_tame; intros x; apply byte_length_given.
Defined.

End PipelineExamples.
