(* ===== verification/Schedule.v ===== *)
(** * Programs of the host: calls on any number of contexts

    SQLite evaluates an expression by a linear program: it calls a function
    on a context, keeps the result as the value of an argument of a later
    call, and lets go of it when that call has returned.  [Pipeline] has two
    calls; here the program is a list of [action]s of any length on any
    number of contexts, [play] runs it, and an expression of any depth and
    arity ([expr]) is compiled to such a program ([compile], [evaluate]).
    A statement of [Statement] is such a program too ([serve_play]).

    The invariant [tidy] of a program in progress says which contexts may
    hold a result ([open_after]) and which value handles the host has bound
    ([bound_after]); each action keeps it ([run_tidy], [deliver_tidy],
    [finish_tidy]).  The theorems: a program of tame bodies runs to its end
    ([schedule_total]); when the bodies are frugal and the program lets go of
    every result it made, nothing is lost and every allocation made since
    its start is freed ([schedule_reclaims]); the program of an expression
    lets go of every result ([programs_settled]), so the evaluation of
    expressions gives back what it takes ([evaluate_reclaims]). *)

From Stdlib Require Import ZArith Lia List String Ascii.
From stdpp Require Import base tactics option list gmap.
From S2P Require Import Prelude RustStr RustNum Utf8 Unicode Errors Host Mprintf ValueApi ResultApi Affinity AuxData Coercion Session Boundary Body Lifecycle Statement Pipeline.

#[local] Open Scope Z_scope.
#[local] Open Scope rs_scope.

Section Programs.
Context `{HostCoercion} {A : Type}.

(** What the host does in the course of an expression: it calls a function
    on a context, binds the result of a context to a value handle, lets go
    of the result of a context, or discards a slot of its auxiliary data. *)
Inductive action : Type :=
| Run (ctx : Z) (b : body A)
| Deliver (ctx v : Z)
| Finish (ctx : Z)
| Forget (ctx col : Z).

Definition context_of (a : action) : Z :=
  match a with
  | Run ctx _ | Deliver ctx _ | Finish ctx | Forget ctx _ => ctx
  end.

(** The run of a program; the answers of the functions, in their order. *)
Fixpoint play (acts : list action) : exec host (list A) :=
  match acts with
  | [] => ret []
  | Run ctx b :: r => let! a := denote ctx b in let! l := play r in ret (a :: l)
  | Deliver ctx v :: r => deliver ctx v ;; play r
  | Finish ctx :: r => finish ctx ;; play r
  | Forget ctx col :: r => discard ctx col ;; play r
  end.

Fixpoint runs (acts : list action) : nat :=
  match acts with
  | [] => 0
  | Run _ _ :: r => S (runs r)
  | _ :: r => runs r
  end.

(** The contexts that may hold a result after the program, when those of
    [open] might before it. *)
Fixpoint open_after (acts : list action) (open : list Z) : list Z :=
  match acts with
  | [] => open
  | Run ctx _ :: r => open_after r (ctx :: open)
  | Deliver _ _ :: r | Forget _ _ :: r => open_after r open
  | Finish ctx :: r => open_after r (remove Z.eq_dec ctx open)
  end.

(** The value handles the host has bound after the program. *)
Fixpoint bound_after (acts : list action) (bound : list Z) : list Z :=
  match acts with
  | [] => bound
  | Deliver _ v :: r => bound_after r (v :: bound)
  | _ :: r => bound_after r bound
  end.

(** The values of [vs0] with the handles of [bound] bound to whatever the
    functions have returned. *)
Definition varied (vs0 : gmap Z sql_value) (bound : list Z) (vs : gmap Z sql_value) : Prop :=
  forall k, (In k bound -> is_Some (vs !! k)) /\ (~ In k bound -> vs !! k = vs0 !! k).

(** Every body of the program satisfies [P] on the values it can meet:
    those of the start, and anything under the handles bound before it
    runs. *)
Fixpoint fits (P : gmap Z sql_value -> body A -> Prop) (vs0 : gmap Z sql_value)
  (bound : list Z) (acts : list action) : Prop :=
  match acts with
  | [] => True
  | Run _ b :: r => (forall vs, varied vs0 bound vs -> P vs b) /\ fits P vs0 bound r
  | Deliver _ v :: r => fits P vs0 (v :: bound) r
  | Finish _ :: r | Forget _ _ :: r => fits P vs0 bound r
  end.

(** The bodies of a program are tame, and frugal, on the values they can
    meet. *)
Definition tame_on : gmap Z sql_value -> list Z -> list action -> Prop :=
  fits (fun vs b => tame vs b).

Definition frugal_on : gmap Z sql_value -> list Z -> list action -> Prop :=
  fits (fun vs b => frugal vs b).

(** Since [h0], no place but the results of the contexts [cs] has been given
    a pointer with a destructor of the layer. *)
Definition kept_outside (cs : list Z) (h0 h : host) : Prop :=
  forall s p d, (forall c, In c cs -> s <> ResultSlot c) ->
    held_at h s = Some (p, d) -> is_rust d = true -> held_at h0 s = Some (p, d).

(** The invariant of a program in progress on the contexts [cs], started in
    [h0]. *)
Record tidy (cs : list Z) (h0 : host) (open bound : list Z) (h : host) : Prop := {
  tidy_wf : host_wf h;
  tidy_contexts : forall c, In c cs -> is_Some (contexts h !! c);
  tidy_kept : kept_outside cs h0 h;
  tidy_rest : forall c, In c cs -> ~ In c open -> held_at h (ResultSlot c) = None;
  tidy_values : varied (values h0) bound (values h)
}.

(** The contexts of a program are those of the host. *)
Definition hosted (h : host) (acts : list action) : Prop :=
  Forall (fun a => is_Some (contexts h !! context_of a)) acts.

(** None of the contexts of the program holds a result. *)
Definition rested (h : host) (acts : list action) : Prop :=
  Forall (fun a => held_at h (ResultSlot (context_of a)) = None) acts.

(** The program of a statement of [Statement] on the context [ctx]. *)
Definition of_event (ctx : Z) (e : event A) : list action :=
  match e with
  | Row b v => [Run ctx b; Deliver ctx v; Finish ctx]
  | Discard col => [Forget ctx col]
  end.

(** ** Expressions *)

#[local] Unset Elimination Schemes.
Inductive expr : Type :=
| Column (v : Z)
| Apply (ctx out : Z) (b : body A) (args : list expr).
#[local] Set Elimination Schemes.

(** The context that holds the value of an expression, if it is a call. *)
Definition root (e : expr) : list Z :=
  match e with
  | Column _ => []
  | Apply ctx _ _ _ => [ctx]
  end.

(** The program of an expression: the programs of the arguments, the call,
    the binding of its result to the handle [out], and the end of the calls
    of the arguments. *)
Fixpoint compile (e : expr) : list action :=
  match e with
  | Column _ => []
  | Apply ctx out b args =>
    flat_map compile args ++ Run ctx b :: Deliver ctx out :: map Finish (flat_map root args)
  end.

(** The evaluation of an expression, to the end of its outermost call. *)
Definition program (e : expr) : list action := compile e ++ map Finish (root e).

(** The evaluation of the expressions of a statement, one after the other:
    the columns of a row, and the rows. *)
Definition programs (es : list expr) : list action := flat_map program es.

Definition evaluate (es : list expr) : exec host (list A) := play (programs es).

(** Induction on an expression, with the property of the arguments. *)
Section Induction.
Context (P : expr -> Prop)
  (HColumn : forall v, P (Column v))
  (HApply : forall ctx out b args, Forall P args -> P (Apply ctx out b args)).

Fixpoint expr_ind (e : expr) : P e :=
  match e with
  | Column v => HColumn v
  | Apply ctx out b args =>
    HApply ctx out b args
      ((fix all (l : list expr) : Forall P l :=
          match l with
          | [] => List.Forall_nil P
          | x :: r => List.Forall_cons P x r (expr_ind x) (all r)
          end) args)
  end.

End Induction.

(** ** The actions keep the invariant *)

Lemma kept_outside_refl cs h : kept_outside cs h h.
Proof. intros s p d _ Hs _. exact Hs. Qed.

Lemma kept_outside_step cs h0 h h1 c :
  In c cs -> kept c h h1 -> kept_outside cs h0 h -> kept_outside cs h0 h1.
Proof.
  intros Hc Hk Ho s p d Hs Hh Hd. apply (Ho s p d Hs); [|exact Hd].
  exact (Hk s p d (Hs c Hc) Hh Hd).
Qed.

Lemma held_at_same_context h h' c :
  contexts h' !! c = contexts h !! c -> held_at h' (ResultSlot c) = held_at h (ResultSlot c).
Proof. intros Hc. unfold held_at. cbn [slot_context]. rewrite Hc. reflexivity. Qed.

Lemma values_finished ctx c h : values (finished ctx c h) = values h.
Proof.
  unfold finished, stored, released, let_go. cbn [values set_contexts].
  destruct (held_in c (ResultSlot ctx)) as [[p d]|]; [destruct (is_rust d)|]; reflexivity.
Qed.

Section Steps.
Context (cs : list Z) (h0 : host) (open bound : list Z) (h : host).
Hypothesis Ht : tidy cs h0 open bound h.

Lemma tidy_good c : In c cs -> good c h.
Proof. intros Hc. split; [apply Ht | apply (tidy_contexts _ _ _ _ _ Ht c Hc)]. Qed.

(** Calls on a context of the program keep the invariant; the context is
    open afterwards unless the calls have left its result alone. *)
Lemma steps_tidy c ks h1 open' :
  steps c h ks h1 -> In c cs -> (forall c', In c' open -> In c' open') ->
  In c open' \/ held_at h1 (ResultSlot c) = held_at h (ResultSlot c) ->
  tidy cs h0 open' bound h1
  /\ (no_leak h -> Forall (fun k => leaks k = false) ks -> no_leak h1).
Proof.
  intros Hs Hc Hsub Hres. pose proof (tidy_good c Hc) as Hg.
  destruct (steps_keep c h _ h1 Hs Hg) as [Hg1 Hv]. split; [split|].
  - apply Hg1.
  - intros c' Hc'. destruct (decide (c' = c)) as [->|Hne]; [apply Hg1|].
    rewrite (steps_contexts c h _ h1 c' Hs Hg Hne). exact (tidy_contexts _ _ _ _ _ Ht c' Hc').
  - apply (kept_outside_step cs h0 h h1 c Hc); [|apply Ht].
    exact (steps_kept c h h _ h1 Hs Hg (fun _ _ _ _ Hx _ => Hx)).
  - intros c' Hc' Ho. assert (Hold : held_at h (ResultSlot c') = None)
      by (apply (tidy_rest _ _ _ _ _ Ht c' Hc'); intros Hi; exact (Ho (Hsub c' Hi))).
    destruct (decide (c' = c)) as [->|Hne]; [destruct Hres as [Hi | ->]; [tauto | exact Hold]|].
    rewrite (held_at_same_context h h1 c' (steps_contexts c h _ h1 c' Hs Hg Hne)). exact Hold.
  - rewrite Hv. apply Ht.
  - intros Hl Hf. exact (steps_frugal c h _ h1 Hs Hg Hf Hl).
Qed.

Lemma run_tidy c (b : body A) :
  In c cs -> tame (values h) b ->
  exists a h1, denote c b h = Ret (a, h1) /\ tidy cs h0 (c :: open) bound h1
    /\ (no_leak h -> frugal (values h) b -> no_leak h1).
Proof.
  intros Hc Hb. pose proof (tidy_good c Hc) as Hg.
  destruct (body_run c b h Hg Hb) as (a & h1 & Hd). exists a, h1. split; [exact Hd|].
  destruct (steps_tidy c _ h1 (c :: open) (denote_steps c b h a h1 Hd) Hc
              (fun c' Hi => or_intror Hi) (or_introl (or_introl eq_refl))) as [Ht1 Hl1].
  split; [exact Ht1|]. intros Hl Hf. exact (Hl1 Hl (frugal_calls c b h a h1 Hg Hf Hd)).
Qed.

Lemma forget_tidy c col :
  In c cs ->
  exists h1, discard c col h = Ret (tt, h1) /\ tidy cs h0 open bound h1
    /\ (no_leak h -> no_leak h1).
Proof.
  intros Hc. destruct (good_context c h (tidy_good c Hc)) as (x & Hwf & Hx).
  destruct (run_total c h x Hwf Hx (CallAuxSet col 0 None) eq_refl) as [h1 Hrun].
  exists h1. split; [exact Hrun|].
  destruct (steps_tidy c [CallAuxSet col 0 None] h1 open
              (steps_cons c h _ h1 [] h1 Hrun (steps_nil c h1)) Hc (fun _ Hi => Hi)) as [Ht1 Hl1].
  - right. cbn [run] in Hrun. rewrite (auxdata_set_eq h c x Hwf Hx) in Hrun. injection Hrun as <-.
    rewrite (sw_held _ _ _ _ (aux_swapped h c x Hx col 0 _)), bool_decide_eq_false_2
      by discriminate. reflexivity.
  - split; [exact Ht1|]. intros Hl. apply (Hl1 Hl). repeat constructor.
Qed.

Lemma deliver_tidy c v :
  In c cs ->
  exists h1, deliver c v h = Ret (tt, h1) /\ tidy cs h0 open (v :: bound) h1
    /\ (no_leak h -> no_leak h1).
Proof.
  intros Hc. destruct (tidy_contexts _ _ _ _ _ Ht c Hc) as [x Hx].
  eexists. split; [exact (deliver_eq c v x h Hx)|]. split; [split|exact id].
  - apply (delivered_wf v), Ht.
  - apply Ht.
  - apply Ht.
  - apply Ht.
  - intros k. destruct (tidy_values _ _ _ _ _ Ht k) as [Hb Hn]. cbn [values delivered In]. split.
    + intros [<-|Hk]; [rewrite lookup_insert_eq; eauto|].
      destruct (decide (v = k)) as [<-|Hne]; [rewrite lookup_insert_eq; eauto|].
      rewrite lookup_insert_ne by exact Hne. exact (Hb Hk).
    + intros Hk. rewrite lookup_insert_ne by tauto. apply Hn. tauto.
Qed.

Lemma finish_tidy c :
  In c cs ->
  exists h1, finish c h = Ret (tt, h1) /\ tidy cs h0 (remove Z.eq_dec c open) bound h1
    /\ (no_leak h -> no_leak h1).
Proof.
  intros Hc. destruct (tidy_contexts _ _ _ _ _ Ht c Hc) as [x Hx].
  pose proof (tidy_wf _ _ _ _ _ Ht) as Hwf.
  exists (finished c x h). split; [exact (finish_wf h c x Hwf Hx)|]. split; [split|].
  - apply (finished_good c x h Hwf Hx).
  - intros c' Hc'. destruct (decide (c' = c)) as [->|Hne]; [apply (finished_good c x h Hwf Hx)|].
    rewrite finished_contexts by exact Hne. exact (tidy_contexts _ _ _ _ _ Ht c' Hc').
  - intros s p d Hs. rewrite (held_at_finished c x h s Hx).
    case_bool_decide; [discriminate|]. apply (tidy_kept _ _ _ _ _ Ht s p d Hs).
  - intros c' Hc' Ho. rewrite (held_at_finished c x h _ Hx).
    case_bool_decide as Hs; [reflexivity|]. apply (tidy_rest _ _ _ _ _ Ht c' Hc').
    intros Hi. apply Ho, in_in_remove; [congruence | exact Hi].
  - rewrite values_finished. apply Ht.
  - exact (finished_no_leak c x h Hwf Hx).
Qed.

End Steps.

(** ** The run of a program *)

Lemma play_tidy cs h0 acts : forall open bound h,
  tidy cs h0 open bound h -> Forall (fun a => In (context_of a) cs) acts ->
  tame_on (values h0) bound acts ->
  exists r h', play acts h = Ret (r, h') /\ length r = runs acts
    /\ tidy cs h0 (open_after acts open) (bound_after acts bound) h'
    /\ (no_leak h -> frugal_on (values h0) bound acts -> no_leak h').
Proof.
  unfold tame_on, frugal_on. induction acts as [|a acts IH]; intros open bound h Ht Hcs Hf.
  { exists [], h. repeat split; try apply Ht. intros Hl _. exact Hl. }
  apply List.Forall_cons_iff in Hcs as [Hc Hcs]. destruct a as [c b|c v|c|c col]; cbn [context_of] in Hc.
  - destruct Hf as [Hb Hf].
    destruct (run_tidy cs h0 open bound h Ht c b Hc (Hb _ (tidy_values _ _ _ _ _ Ht)))
      as (a & h1 & Hd & Ht1 & Hl1).
    destruct (IH _ _ h1 Ht1 Hcs Hf) as (r & h' & Hp & Hn & Ht' & Hl').
    exists (a :: r), h'. cbn [play runs open_after bound_after fits length].
    rewrite (bind_step _ _ _ _ _ Hd), (bind_step _ _ _ _ _ Hp), Hn.
    repeat split; try apply Ht'. intros Hl [Hfb Hfr].
    exact (Hl' (Hl1 Hl (Hfb _ (tidy_values _ _ _ _ _ Ht))) Hfr).
  - destruct (deliver_tidy cs h0 open bound h Ht c v Hc) as (h1 & Hd & Ht1 & Hl1).
    destruct (IH _ _ h1 Ht1 Hcs Hf) as (r & h' & Hp & Hn & Ht' & Hl').
    exists r, h'. cbn [play runs open_after bound_after fits].
    rewrite (bind_step _ _ _ _ _ Hd). repeat split; try assumption; try apply Ht'.
    intros Hl Hfr. exact (Hl' (Hl1 Hl) Hfr).
  - destruct (finish_tidy cs h0 open bound h Ht c Hc) as (h1 & Hd & Ht1 & Hl1).
    destruct (IH _ _ h1 Ht1 Hcs Hf) as (r & h' & Hp & Hn & Ht' & Hl').
    exists r, h'. cbn [play runs open_after bound_after fits].
    rewrite (bind_step _ _ _ _ _ Hd). repeat split; try assumption; try apply Ht'.
    intros Hl Hfr. exact (Hl' (Hl1 Hl) Hfr).
  - destruct (forget_tidy cs h0 open bound h Ht c col Hc) as (h1 & Hd & Ht1 & Hl1).
    destruct (IH _ _ h1 Ht1 Hcs Hf) as (r & h' & Hp & Hn & Ht' & Hl').
    exists r, h'. cbn [play runs open_after bound_after fits].
    rewrite (bind_step _ _ _ _ _ Hd). repeat split; try assumption; try apply Ht'.
    intros Hl Hfr. exact (Hl' (Hl1 Hl) Hfr).
Qed.

Lemma context_of_in a acts : In a acts -> In (context_of a) (map context_of acts).
Proof. apply in_map. Qed.

Lemma tidy_start h acts open :
  host_wf h -> hosted h acts ->
  (forall c, In c (map context_of acts) -> ~ In c open -> held_at h (ResultSlot c) = None) ->
  tidy (map context_of acts) h open [] h.
Proof.
  intros Hwf Hh Hr. split; [exact Hwf| |apply kept_outside_refl|exact Hr|].
  - intros c (a & <- & Ha)%in_map_iff. exact (proj1 (List.Forall_forall _ _) Hh a Ha).
  - intros k. split; [intros [] | reflexivity].
Qed.

Lemma acts_hosted acts : Forall (fun a : action => In (context_of a) (map context_of acts)) acts.
Proof. apply List.Forall_forall. intros a. apply context_of_in. Qed.

(** When no context of [cs] holds a result, what is live is older than
    [h0]. *)
Lemma rest_fresh cs h0 open bound h p :
  host_wf h0 -> tidy cs h0 open bound h -> open = [] -> no_leak h ->
  next_addr h0 <= p -> is_live h p = false.
Proof.
  intros Hwf0 Ht -> Hl Hp. destruct (is_live h p) eqn:E; [exfalso|reflexivity].
  destruct (Hl p E) as (s & d & Hs & Hd).
  assert (Ho : forall c, In c cs -> s <> ResultSlot c).
  { intros c Hc ->. rewrite (tidy_rest _ _ _ _ _ Ht c Hc (fun x => x)) in Hs. discriminate. }
  destruct (wf_paired h0 Hwf0 s p d (tidy_kept _ _ _ _ _ Ht s p d Ho Hs Hd) Hd) as (x & Hx & _).
  pose proof (wf_fresh h0 Hwf0 p ltac:(rewrite Hx; eauto)). lia.
Qed.

(** A program of tame bodies runs to its end, whatever the functions hand to
    one another: the host gets one answer for every call, and of the values
    only those under the handles the program binds have changed. *)
Theorem schedule_total acts h :
  host_wf h -> hosted h acts -> tame_on (values h) [] acts ->
  exists r h', play acts h = Ret (r, h') /\ length r = runs acts /\ host_wf h'
    /\ varied (values h) (bound_after acts []) (values h').
Proof.
  intros Hwf Hh Hf.
  destruct (play_tidy _ h acts (map context_of acts) [] h
              (tidy_start h acts _ Hwf Hh (fun c Hc Hn => False_ind _ (Hn Hc)))
              (acts_hosted acts) Hf) as (r & h' & Hp & Hn & Ht & _).
  exists r, h'. split; [exact Hp|]. split; [exact Hn|]. split; apply Ht.
Qed.

(** A program of tame and frugal bodies that lets go of every result it has
    made gives back what it takes: at its end no context holds a result,
    nothing is lost, and every allocation made since it began is freed,
    whatever the number of calls and of contexts. *)
Theorem schedule_reclaims acts h :
  host_wf h -> hosted h acts -> rested h acts -> no_leak h ->
  tame_on (values h) [] acts -> frugal_on (values h) [] acts ->
  open_after acts [] = [] ->
  exists r h', play acts h = Ret (r, h') /\ length r = runs acts
    /\ host_wf h' /\ rested h' acts /\ no_leak h'
    /\ forall p, next_addr h <= p -> is_live h' p = false.
Proof.
  intros Hwf Hh Hr Hl Hf Hfr Ho.
  assert (Ht0 : tidy (map context_of acts) h [] [] h).
  { apply (tidy_start h acts [] Hwf Hh). intros c (a & <- & Ha)%in_map_iff _.
    exact (proj1 (List.Forall_forall _ _) Hr a Ha). }
  destruct (play_tidy _ h acts [] [] h Ht0 (acts_hosted acts) Hf)
    as (r & h' & Hp & Hn & Ht & Hl').
  exists r, h'. split; [exact Hp|]. split; [exact Hn|]. split; [apply Ht|].
  specialize (Hl' Hl Hfr). split; [|split; [exact Hl'|]].
  - apply List.Forall_forall. intros a Ha.
    apply (tidy_rest _ _ _ _ _ Ht _ (context_of_in a acts Ha)). rewrite Ho. exact id.
  - intros p. exact (rest_fresh _ h _ _ h' p Hwf Ht Ho Hl').
Qed.

(** ** The program of an expression *)

Lemma open_after_app acts1 acts2 open :
  open_after (acts1 ++ acts2) open = open_after acts2 (open_after acts1 open).
Proof.
  revert open. induction acts1 as [|a r IH]; intros open; [reflexivity|].
  destruct a; cbn [app open_after]; apply IH.
Qed.

(** Letting go of the results of [cs] leaves open what was, but for [cs]. *)
Lemma open_after_finishes cs open x :
  In x (open_after (map Finish cs) open) -> In x open /\ ~ In x cs.
Proof.
  revert open. induction cs as [|c r IH]; intros open; cbn [map open_after In]; [tauto|].
  intros [[Hx Hne]%in_remove Hr]%IH. split; [exact Hx|]. intros [->|Hi]; tauto.
Qed.

(** After the program of an expression only its own context has been
    opened. *)
Lemma compile_open e : forall open x,
  In x (open_after (compile e) open) -> In x (root e) \/ In x open.
Proof.
  induction e as [v|c out b args IH] using expr_ind; intros open x; cbn [compile root];
    [cbn [open_after]; tauto|].
  rewrite open_after_app. cbn [open_after]. intros [Hx Hn]%open_after_finishes.
  destruct Hx as [<-|Hx]; [left; left; reflexivity | right].
  revert open Hx. induction IH as [|e r He _ IHr]; intros open; cbn [flat_map]; [exact id|].
  rewrite open_after_app. intros Hx. cbn [flat_map] in Hn. rewrite in_app_iff in Hn.
  destruct (He _ _ (IHr (fun Hi => Hn (or_intror Hi)) _ Hx)); tauto.
Qed.

(** The program of an expression lets go of every result it makes. *)
Lemma program_open e open x : In x (open_after (program e) open) -> In x open.
Proof.
  unfold program. rewrite open_after_app. intros [Hx Hn]%open_after_finishes.
  destruct (compile_open e _ _ Hx); tauto.
Qed.

Lemma programs_open es : forall open x, In x (open_after (programs es) open) -> In x open.
Proof.
  induction es as [|e r IH]; intros open x; cbn [programs flat_map]; [exact id|].
  rewrite open_after_app. intros Hx%IH. exact (program_open e open x Hx).
Qed.

Lemma programs_settled es : open_after (programs es) [] = [].
Proof.
  destruct (open_after (programs es) []) as [|x l] eqn:E; [reflexivity|].
  destruct (programs_open es [] x). rewrite E. left. reflexivity.
Qed.

(** A statement of [Statement] is the program of its events. *)
Lemma serve_play ctx (es : list (event A)) h :
  serve ctx es h = play (flat_map (of_event ctx) es) h.
Proof.
  revert h. induction es as [|[b v|col] es IH]; intros h; [reflexivity| |].
  - cbn [serve flat_map of_event app play]. unfold invoke, collect, bind, ret.
    destruct (denote ctx b h) as [[a h1]| |]; [|reflexivity..].
    destruct (deliver ctx v h1) as [[[] h2]| |]; [|reflexivity..].
    destruct (finish ctx h2) as [[[] h3]| |]; [|reflexivity..].
    rewrite IH. reflexivity.
  - cbn [serve flat_map of_event app play]. unfold bind.
    destruct (discard ctx col h) as [[[] h1]| |]; [|reflexivity..]. apply IH.
Qed.

(** The evaluation of expressions of tame bodies runs to its end, whatever
    their depth. *)
Theorem evaluate_total es h :
  host_wf h -> hosted h (programs es) -> tame_on (values h) [] (programs es) ->
  exists r h', evaluate es h = Ret (r, h') /\ length r = runs (programs es) /\ host_wf h'
    /\ varied (values h) (bound_after (programs es) []) (values h').
Proof. apply schedule_total. Qed.

(** C24: the evaluation of expressions of tame and frugal functions, of any
    depth and with any number of arguments, runs to its end and gives back
    what it takes: the result of every inner call stays with the host while
    the outer call runs and is let go of after it, and at the end no context
    holds a result, no allocation of Rust is lost, and every one made since
    the start is freed (the buffers of [sqlite3_mprintf] are SQLite's and
    are not counted). *)
Theorem evaluate_reclaims es h :
  host_wf h -> hosted h (programs es) -> rested h (programs es) -> no_leak h ->
  tame_on (values h) [] (programs es) -> frugal_on (values h) [] (programs es) ->
  exists r h', evaluate es h = Ret (r, h') /\ length r = runs (programs es)
    /\ host_wf h' /\ rested h' (programs es) /\ no_leak h'
    /\ forall p, next_addr h <= p -> is_live h' p = false.
Proof.
  intros Hwf Hh Hr Hl Ht Hf.
  exact (schedule_reclaims (programs es) h Hwf Hh Hr Hl Ht Hf (programs_settled es)).
Qed.

End Programs.

Arguments Column {A} v.

(** ** Two calls

    The nested call of [Pipeline] is the program of [g(f())], with the two
    results let go of in the other order. *)
Lemma nested_play `{HostCoercion} {A} inner outer v w (f g : body A) h :
  play [Run inner f; Deliver inner v; Run outer g; Deliver outer w; Finish outer; Finish inner] h
  = (let! r := nested inner outer v w f g in ret [r.1; r.2]) h.
Proof.
  unfold nested, collect. cbn [play]. unfold bind, ret.
  destruct (denote inner f h) as [[a h1]| |]; [|reflexivity..].
  destruct (deliver inner v h1) as [[[] h2]| |]; [|reflexivity..].
  destruct (denote outer g h2) as [[b h3]| |]; [|reflexivity..].
  destruct (deliver outer w h3) as [[[] h4]| |]; [|reflexivity..].
  destruct (finish outer h4) as [[[] h5]| |]; [|reflexivity..].
  destruct (finish inner h5) as [[[] h6]| |]; reflexivity.
Qed.

(** ** The theorems at concrete inputs *)

Module ScheduleExamples.
#[local] Existing Instance trivial_coercion.
Import ResultExamples BodyExamples PipelineExamples.

(** The contexts 1, 2 and 3. *)
Definition h4 : host := with_context 3 h3.

Lemma h4_wf : host_wf h4.
Proof. apply with_context_wf; [reflexivity | apply h3_good_1]. Qed.

Lemma h4_no_leak : no_leak h4.
Proof. apply with_context_no_leak; [reflexivity | apply h3_no_leak]. Qed.

(** [length(length(f()))]: three calls, each on the result of the one
    inside it. *)
Definition depth3 : expr :=
  Apply 3 202 (byte_length 201) [Apply 2 201 (byte_length 200) [Apply 1 200 write_abc []]].

(** [length(f(), f())]: a call with two arguments. *)
Definition arity2 : expr :=
  Apply 3 202 (byte_length 200) [Apply 1 200 write_abc []; Apply 2 201 write_abc []].

Example program_depth3 :
  program depth3 =
  [Run 1 write_abc; Deliver 1 200; Run 2 (byte_length 200); Deliver 2 201; Finish 1;
   Run 3 (byte_length 201); Deliver 3 202; Finish 2; Finish 3].
Proof. reflexivity. Qed.

(** The length of 'abc' is 3, and the length of '3' is 1; the buffer of
    'abc' is freed. *)
Example evaluate_depth3 :
  exists h', evaluate [depth3] h4 = Ret ([tt; tt; tt], h')
    /\ values h' !! 201 = Some (SqlInteger 3) /\ values h' !! 202 = Some (SqlInteger 1)
    /\ heap h' !! 1000 = Some Freed.
Proof. eexists. split; [vm_compute; reflexivity|]. repeat split. Qed.

(** Both buffers of 'abc' are freed. *)
Example evaluate_arity2 :
  exists h', evaluate [arity2] h4 = Ret ([tt; tt; tt], h')
    /\ values h' !! 202 = Some (SqlInteger 3)
    /\ heap h' !! 1000 = Some Freed /\ heap h' !! 1001 = Some Freed.
Proof. eexists. split; [vm_compute; reflexivity|]. repeat split. Qed.

(** The two expressions, one after the other. *)
Definition both : list expr := [depth3; arity2].

Lemma both_hosted : hosted h4 (programs both).
Proof. repeat constructor; eexists; reflexivity. Qed.

Lemma both_rested : rested h4 (programs both).
Proof. repeat constructor. Qed.

Lemma both_fit : tame_on (values h4) [] (programs both) /\ frugal_on (values h4) [] (programs both).
Proof.
  split; unfold tame_on, frugal_on, programs, program, both, depth3, arity2;
    cbn [compile flat_map root map app fits];
    repeat (split; [intros vs Hv|]); try exact I; try apply write_abc_tame;
    apply byte_length_any, (proj1 (Hv _)); cbn [In]; auto.
Qed.

Lemma evaluate_total_witness :
  exists r h', evaluate both h4 = Ret (r, h') /\ length r = runs (programs both) /\ host_wf h'
    /\ varied (values h4) (bound_after (programs both) []) (values h').
Proof. exact (evaluate_total both h4 h4_wf both_hosted (proj1 both_fit)). Defined.

Lemma evaluate_reclaims_witness :
  exists r h', evaluate both h4 = Ret (r, h') /\ length r = runs (programs both)
    /\ host_wf h' /\ rested h' (programs both) /\ no_leak h'
    /\ forall p, next_addr h4 <= p -> is_live h' p = false.
Proof.
  exact (evaluate_reclaims both h4 h4_wf both_hosted both_rested h4_no_leak
           (proj1 both_fit) (proj2 both_fit)).
Defined.

End ScheduleExamples.
